(** * Drafty: matchmaking queue, draft state machine and rating engine

    A shallow embedding of the Cloud Functions backend of the drafty
    repository ([joinQueue], [leaveQueue], [getQueueStatus],
    [tryMatchPlayers], [balanceTeams], [createDraftActions], [getDraft],
    [getActiveDraft], [setDraftReady], [makeDraftAction],
    [timeoutDraftAction], [initializePlayerMMR], [submitMatchResult] and
    the MMR module), followed by the properties of its specification,
    each settled against the embedding, and by further properties of
    the code.

    Conventions of the embedding.
    - A JavaScript [number] of the rating engine is an IEEE-754 binary64
      value: Rocq's primitive [float], whose operations are the hardware
      ones.  [Math.max], [Math.min] and [Math.round] are written out
      with their ECMAScript corner cases (NaN, signed zeros, ties).
      [Math.pow] is implementation-approximated in ECMAScript, so it is a
      parameter of the functions that call it; the one fact used about
      it is that a zero exponent gives 1.
    - Ratings held by queue entries and draft players are integer valued
      (seeds of the rank table, changed by rounded deltas, clamped), and
      integer-valued doubles of that size add and compare exactly: they
      are [Z], and a team average is the rational [sum / 5].
    - A Firestore document is a record and a collection is a [gmap]
      from document id to record; a query snapshot is the list of its
      documents in the order the store returned them.  A callable is a
      function from its request and the database to a result and the
      new database; a thrown [HttpsError] is the [inl] result.
    - [db.runTransaction] runs its body atomically on the document it
      read.  [setDraftReady] and [timeoutDraftAction] use no
      transaction: [Draft.step], [Draft.reachable] and the callables of
      [Draft] take their read and their [update] as one step, which is
      what happens when calls run one after the other; [Overlap] lets
      the update land on a later version of the document than the one
      read.
    - [FieldValue.serverTimestamp()] and [new Date()] read a clock that
      is passed in; [Math.random], fresh document ids, and whether the
      store accepts a write are passed in too.  Reads succeed.
    - A query without an order returns the documents by document id.
    - The store over time ([Queue.after]) is a sequence of calls, each
      run to its end before the next; what is proved of it is proved
      of calls that do not overlap. *)

From Stdlib Require Import ZArith List Bool Lia String Floats Uint63.
From Stdlib Require Import QArith Qabs Permutation Sorted.
From stdpp Require Import base option list gmap strings.

Set Warnings "-inexact-float".
#[local] Open Scope Z_scope.

(** ** Shared types *)

Module Types.

Inductive Team := blue | red.

Definition Team_eqb (a b : Team) : bool :=
  match a, b with
  | blue, blue | red, red => true
  | _, _ => false
  end.

Inductive PlayerRole := top | jungle | mid | adc | support.

Definition PlayerRole_eqb (a b : PlayerRole) : bool :=
  match a, b with
  | top, top | jungle, jungle | mid, mid | adc, adc | support, support => true
  | _, _ => false
  end.

(** The role a stored string names, if any. *)
Definition PlayerRole_of_string (s : string) : option PlayerRole :=
  if String.eqb s "top" then Some top
  else if String.eqb s "jungle" then Some jungle
  else if String.eqb s "mid" then Some mid
  else if String.eqb s "adc" then Some adc
  else if String.eqb s "support" then Some support
  else None.

Inductive DraftPhaseType := ban | pick.

Inductive DraftStatus := waiting | banning | picking | completed | cancelled.

Definition DraftStatus_eqb (a b : DraftStatus) : bool :=
  match a, b with
  | waiting, waiting | banning, banning | picking, picking
  | completed, completed | cancelled, cancelled => true
  | _, _ => false
  end.

(** [HttpsError(code, message)] *)
Inductive ErrorCode :=
| unauthenticated | invalid_argument | not_found | failed_precondition
| permission_denied | already_exists | internal.

Record HttpsError := { code : ErrorCode; message : string }.

(** A JavaScript string is falsy exactly when it is empty; an absent
    ([undefined] or [null]) field is falsy too. *)
Definition truthy (s : string) : bool := negb (String.eqb s "").
Definition truthy_opt (s : option string) : bool :=
  match s with
  | Some s => truthy s
  | None => false
  end.

End Types.

(** ** JavaScript numbers *)

Module JS.

#[local] Open Scope float_scope.

(** [NaN] is the only number that is not [===] to itself. *)
Definition isNaN (x : float) : bool := negb (x =? x).

(** [Math.max(a, b)]: NaN if either is NaN; [+0] is larger than [-0]. *)
Definition Math_max (a b : float) : float :=
  if isNaN a || isNaN b then nan
  else if a <? b then b
  else if b <? a then a
  else if get_sign a then b else a.

(** [Math.min(a, b)]: NaN if either is NaN; [-0] is smaller than [+0]. *)
Definition Math_min (a b : float) : float :=
  if isNaN a || isNaN b then nan
  else if a <? b then a
  else if b <? a then b
  else if get_sign a then a else b.

(** An integer below 2^63 in absolute value as a number. *)
Definition of_Z (n : Z) : float :=
  if (n <? 0)%Z then - of_uint63 (Uint63.of_Z (- n))
  else of_uint63 (Uint63.of_Z n).

(** [Math.round(x)]: the integer closest to [x], ties towards
    [+Infinity]; NaN, zeros and infinities are returned as they are,
    and a negative [x] that rounds to zero gives [-0].
    A finite nonzero [x] is [(-1)^s * m * 2^e]; for [e < 0] the
    result is [floor (x + 1/2)], computed on integers. *)
Definition Math_round (x : float) : float :=
  match Prim2SF x with
  | S754_finite s m e =>
      if (0 <=? e)%Z then x
      else
        let d := (2 ^ (- e))%Z in
        let num := (if s then Z.neg m else Z.pos m) in
        let n := ((2 * num + d) / (2 * d))%Z in
        if (n =? 0)%Z then (if s then neg_zero else zero) else of_Z n
  | _ => x
  end.

(** The decoded number is a zero or a finite nonzero number. *)
Definition finiteSF (x : spec_float) : Prop :=
  match x with
  | S754_zero _ | S754_finite _ _ _ => True
  | _ => False
  end.

(** [numbers.length] as a number. *)
Definition of_length {A} (l : list A) : float :=
  of_Z (Z.of_nat (length l)).

End JS.

(** ** The rating engine (MMR module) *)

Module Mmr.

Import Types JS.
#[local] Open Scope float_scope.

(** [MMR_CONFIG] *)
Definition BASE_CHANGE : float := 25.
Definition PLACEMENT_MULTIPLIER : float := 2.
Definition PLACEMENT_GAMES : Z := 5.
Definition MIN_MMR : float := 100.
Definition MAX_MMR : float := 3000.
Definition weight_kda : float := 0.30.
Definition weight_damage : float := 0.25.
Definition weight_cs : float := 0.20.
Definition weight_vision : float := 0.15.
Definition weight_objective : float := 0.10.
Definition MIN_PERFORMANCE_MULTIPLIER : float := 0.5.
Definition MAX_PERFORMANCE_MULTIPLIER : float := 1.5.
Definition MIN_OPPONENT_MULTIPLIER : float := 0.8.
Definition MAX_OPPONENT_MULTIPLIER : float := 1.2.

Record PlayerStats := {
  odId : string;
  team : Team;
  kills : float;
  deaths : float;
  assists : float;
  cs : float;
  damage : float;
  visionScore : float;
  objectiveScore : float;
  mmrAtTime : float
}.

Record MatchContext := {
  winner : Team;
  blueTeamAvgMmr : float;
  redTeamAvgMmr : float;
  allPlayerStats : list PlayerStats
}.

Record PerformanceBreakdown := {
  b_kdaScore : float;
  b_damageScore : float;
  b_csScore : float;
  b_visionScore : float;
  b_objectiveScore : float;
  b_totalScore : float;
  b_multiplier : float
}.

(** *** Utility functions *)

Definition clamp (value min max : float) : float :=
  Math_max min (Math_min max value).

(** [numbers.reduce((sum, n) => sum + n, 0)] *)
Definition sum (numbers : list float) : float :=
  fold_left (fun sum n => sum + n) numbers 0.

Definition average (numbers : list float) : float :=
  match numbers with
  | [] => 0
  | _ => sum numbers / of_length numbers
  end.

Definition normalizeScore (value avg : float) : float :=
  if avg =? 0 then 50
  else
    let ratio := value / avg in
    let score := ratio * 50 in
    clamp score 0 100.

Definition scoreToMultiplier (score : float) : float :=
  let multiplier := 0.5 + score / 100 in
  clamp multiplier MIN_PERFORMANCE_MULTIPLIER MAX_PERFORMANCE_MULTIPLIER.

(** *** Performance score *)

(** The KDA of one player, with the deathless guard. *)
Definition playerKda (playerStats : PlayerStats) : float :=
  if deaths playerStats =? 0
  then (kills playerStats + assists playerStats) * 2
  else (kills playerStats + assists playerStats) / deaths playerStats.

(** The KDA of the match-wide averages, with the same guard. *)
Definition avgKda (allStats : list PlayerStats) : float :=
  let avgKills := average (map kills allStats) in
  let avgDeaths := average (map deaths allStats) in
  let avgAssists := average (map assists allStats) in
  if avgDeaths =? 0
  then (avgKills + avgAssists) * 2
  else (avgKills + avgAssists) / avgDeaths.

(** The five category scores, as [calculatePerformanceScore] computes
    them before any rounding. *)
Definition kdaScore (playerStats : PlayerStats) (allStats : list PlayerStats) :=
  normalizeScore (playerKda playerStats) (avgKda allStats).
Definition damageScore (playerStats : PlayerStats) (allStats : list PlayerStats) :=
  normalizeScore (damage playerStats) (average (map damage allStats)).
Definition csScore (playerStats : PlayerStats) (allStats : list PlayerStats) :=
  normalizeScore (cs playerStats) (average (map cs allStats)).
Definition visionScoreVal (playerStats : PlayerStats) (allStats : list PlayerStats) :=
  normalizeScore (visionScore playerStats) (average (map visionScore allStats)).
Definition objectiveScoreVal (playerStats : PlayerStats) (allStats : list PlayerStats) :=
  normalizeScore (objectiveScore playerStats) (average (map objectiveScore allStats)).

Definition totalScore (playerStats : PlayerStats) (allStats : list PlayerStats) : float :=
  (kdaScore playerStats allStats * weight_kda) +
  (damageScore playerStats allStats * weight_damage) +
  (csScore playerStats allStats * weight_cs) +
  (visionScoreVal playerStats allStats * weight_vision) +
  (objectiveScoreVal playerStats allStats * weight_objective).

Definition calculatePerformanceScore
    (playerStats : PlayerStats) (allStats : list PlayerStats)
  : float * PerformanceBreakdown :=
  let total := totalScore playerStats allStats in
  let multiplier := scoreToMultiplier total in
  (Math_round total,
   {| b_kdaScore := Math_round (kdaScore playerStats allStats);
      b_damageScore := Math_round (damageScore playerStats allStats);
      b_csScore := Math_round (csScore playerStats allStats);
      b_visionScore := Math_round (visionScoreVal playerStats allStats);
      b_objectiveScore := Math_round (objectiveScoreVal playerStats allStats);
      b_totalScore := Math_round total;
      b_multiplier := Math_round (multiplier * 100) / 100 |}).

(** *** Rating change *)

(** [playerStats.team === 'blue' ? redTeamAvgMmr : blueTeamAvgMmr] *)
Definition opponentTeamAvgMmr (playerStats : PlayerStats) (context : MatchContext)
  : float :=
  match team playerStats with
  | blue => redTeamAvgMmr context
  | red => blueTeamAvgMmr context
  end.

(** A score is within the scale 0 to 100. *)
Definition inScale (score : float) : bool := (0 <=? score) && (score <=? 100).

(** The five categories of [calculatePerformanceScore]: the player's
    value, the match-wide average it is normalized against, and the
    score. *)
Definition categories (playerStats : PlayerStats) (allStats : list PlayerStats)
  : list (float * float * float) :=
  [ (playerKda playerStats, avgKda allStats, kdaScore playerStats allStats);
    (damage playerStats, average (map damage allStats),
     damageScore playerStats allStats);
    (cs playerStats, average (map cs allStats), csScore playerStats allStats);
    (visionScore playerStats, average (map visionScore allStats),
     visionScoreVal playerStats allStats);
    (objectiveScore playerStats, average (map objectiveScore allStats),
     objectiveScoreVal playerStats allStats) ].

(** Every statistic of the player is a finite number. *)
Definition finiteStats (playerStats : PlayerStats) : bool :=
  is_finite (kills playerStats) && is_finite (deaths playerStats)
  && is_finite (assists playerStats) && is_finite (cs playerStats)
  && is_finite (damage playerStats) && is_finite (visionScore playerStats)
  && is_finite (objectiveScore playerStats).

Section WithPow.

(** [Math.pow] *)
Variable Math_pow : float -> float -> float.

Definition calculateOpponentMultiplier
    (playerMmr opponentAvgMmr : float) (didWin : bool) : float :=
  let mmrDiff := opponentAvgMmr - playerMmr in
  let expectedWin := 1 / (1 + Math_pow 10 (mmrDiff / 400)) in
  let multiplier :=
    if didWin then 1 + (1 - expectedWin) * 0.4
    else 1 + expectedWin * 0.4 in
  clamp multiplier MIN_OPPONENT_MULTIPLIER MAX_OPPONENT_MULTIPLIER.

(** The value of [change] in [calculateMMRChange] when control
    reaches the line [change = Math.round(change)]. *)
Definition changeBeforeRounding
    (playerStats : PlayerStats) (context : MatchContext) (isPlacement : bool)
  : float :=
  let didWin := Team_eqb (team playerStats) (winner context) in
  let '(_, breakdown) :=
    calculatePerformanceScore playerStats (allPlayerStats context) in
  let change := BASE_CHANGE in
  let change := change * (if didWin then 1 else -1) in
  let performanceMultiplier := b_multiplier breakdown in
  let change := change * performanceMultiplier in
  let opponentMultiplier :=
    calculateOpponentMultiplier (mmrAtTime playerStats)
                                (opponentTeamAvgMmr playerStats context) didWin in
  let change := change * opponentMultiplier in
  if isPlacement then change * PLACEMENT_MULTIPLIER else change.

Record MMRChange := {
  change : float;
  performanceScore : float;
  breakdown : PerformanceBreakdown
}.

Definition calculateMMRChange
    (playerStats : PlayerStats) (context : MatchContext) (isPlacement : bool)
  : MMRChange :=
  let '(score, bd) :=
    calculatePerformanceScore playerStats (allPlayerStats context) in
  {| change := Math_round (changeBeforeRounding playerStats context isPlacement);
     performanceScore := score;
     breakdown := bd |}.

End WithPow.

Definition applyMMRChange (currentMmr change : float) : float :=
  let newMmr := currentMmr + change in
  clamp newMmr MIN_MMR MAX_MMR.

End Mmr.


(** ** Documents *)

(** An element of [DraftSession.actions]. *)
Module DraftAction.
Import Types.
Record t := {
  phase : nat;
  type : DraftPhaseType;
  team : Team;
  championId : option string;
  championName : option string;
  completedAt : option Z;
  isActive : bool
}.
End DraftAction.

(** An element of [DraftSession.blueTeam] and [DraftSession.redTeam]. *)
Module DraftPlayer.
Import Types.
Record t := {
  odId : string;
  oduid : string;
  displayName : string;
  photoURL : option string;
  role : PlayerRole;
  team : Team;
  mmr : Z;
  isReady : bool;
  championId : option string;
  championName : option string
}.
End DraftPlayer.

(** A document of the [drafts] collection. *)
Module DraftSession.
Import Types.
Record t := {
  id : string;
  createdAt : Z;
  status : DraftStatus;
  currentPhase : nat;
  currentTeam : Team;
  phaseType : DraftPhaseType;
  phaseStartedAt : Z;
  phaseTimeLimit : Z;
  blueTeam : list DraftPlayer.t;
  redTeam : list DraftPlayer.t;
  blueTeamAvgMmr : Q;
  redTeamAvgMmr : Q;
  actions : list DraftAction.t;
  bannedChampions : list string;
  fearlessMode : bool;
  lobbyName : option string;
  lobbyPassword : option string;
  cancelReason : option string
}.
End DraftSession.

(** A document of the [queue] collection. *)
Module QueueEntry.
Record t := {
  odId : string;
  oduid : string;
  displayName : string;
  photoURL : option string;
  role : string;
  mmr : Z;
  region : string;
  joinedAt : Z
}.
End QueueEntry.

(** A document of a query snapshot: [doc.id] and [doc.data()]. *)
Module QueueDoc.
Record t := { id : string; data : QueueEntry.t }.
End QueueDoc.

(** An element of [playersByRole[role]] in [tryMatchPlayers]. *)
Module Waiting.
Record t := { odId : string; mmr : Z; data : QueueEntry.t }.
End Waiting.

(** An element of [selectedPlayers], the argument of [balanceTeams]. *)
Module Player.
Import Types.
Record t := { odId : string; mmr : Z; role : PlayerRole; data : QueueEntry.t }.
End Player.

(** ** JavaScript arrays and per-role records *)

Module JSArray.

(** [Array.prototype.sort(compareFn)] is a stable sort: [a] comes
    before [b] when [compareFn(a, b) < 0], and elements that compare
    equal keep their order.  The stable sort of a list is unique, and
    insertion from the right computes it. *)
Fixpoint insert {A} (compareFn : A -> A -> Z) (x : A) (l : list A) : list A :=
  match l with
  | [] => [x]
  | y :: l' =>
      if compareFn x y <=? 0 then x :: l else y :: insert compareFn x l'
  end.

Definition sort {A} (compareFn : A -> A -> Z) (l : list A) : list A :=
  fold_right (insert compareFn) [] l.

(** The comparator [(a, b) => a.key - b.key], and the order it sorts by. *)
Definition ascending {A} (key : A -> Z) (a b : A) : Z := key a - key b.

Definition keyLe {A} (key : A -> Z) (a b : A) : Prop := key a <= key b.

(** [array.includes(x)] on strings *)
Definition includes (l : list string) (x : string) : bool :=
  existsb (String.eqb x) l.

(** [FieldValue.arrayUnion(x)] applied to a stored array of strings:
    [x] is appended unless it is already an element. *)
Definition arrayUnion (l : list string) (x : string) : list string :=
  if includes l x then l else l ++ [x].

(** [array.findIndex(pred)] *)
Fixpoint findIndex {A} (pred : A -> bool) (l : list A) : option nat :=
  match l with
  | [] => None
  | x :: l' => if pred x then Some O else S <$> findIndex pred l'
  end.

End JSArray.

(** [Record<PlayerRole, Array<A>>] *)
Module ByRole.
Import Types.

Record t (A : Type) := {
  r_top : list A;
  r_jungle : list A;
  r_mid : list A;
  r_adc : list A;
  r_support : list A
}.
Arguments r_top {A}. Arguments r_jungle {A}. Arguments r_mid {A}.
Arguments r_adc {A}. Arguments r_support {A}.

Definition empty {A} : t A :=
  {| r_top := []; r_jungle := []; r_mid := []; r_adc := []; r_support := [] |}.

(** [byRole[role]] *)
Definition get {A} (role : PlayerRole) (b : t A) : list A :=
  match role with
  | top => r_top b
  | jungle => r_jungle b
  | mid => r_mid b
  | adc => r_adc b
  | support => r_support b
  end.

(** [byRole[role].push(x)] *)
Definition push {A} (role : PlayerRole) (x : A) (b : t A) : t A :=
  match role with
  | top => {| r_top := r_top b ++ [x]; r_jungle := r_jungle b; r_mid := r_mid b;
              r_adc := r_adc b; r_support := r_support b |}
  | jungle => {| r_top := r_top b; r_jungle := r_jungle b ++ [x]; r_mid := r_mid b;
                 r_adc := r_adc b; r_support := r_support b |}
  | mid => {| r_top := r_top b; r_jungle := r_jungle b; r_mid := r_mid b ++ [x];
              r_adc := r_adc b; r_support := r_support b |}
  | adc => {| r_top := r_top b; r_jungle := r_jungle b; r_mid := r_mid b;
              r_adc := r_adc b ++ [x]; r_support := r_support b |}
  | support => {| r_top := r_top b; r_jungle := r_jungle b; r_mid := r_mid b;
                  r_adc := r_adc b; r_support := r_support b ++ [x] |}
  end.

End ByRole.

(** ** Matchmaking: [tryMatchPlayers], [balanceTeams], [createDraftActions] *)

Module Matchmaking.

Import Types.

Definition roles : list PlayerRole := [top; jungle; mid; adc; support].

(** *** [createDraftActions] *)

Definition banOrder : list Team := [blue; red; blue; red; blue; red].

Definition pickOrder : list Team :=
  [blue; red; red; blue; blue; red; red; blue; blue; red].

Definition createDraftActions : list DraftAction.t :=
  let actions := [] in
  let actions :=
    actions ++
    imap (fun i team =>
            {| DraftAction.phase := i;
               DraftAction.type := ban;
               DraftAction.team := team;
               DraftAction.championId := None;
               DraftAction.championName := None;
               DraftAction.completedAt := None;
               DraftAction.isActive := Nat.eqb i 0 |}) banOrder in
  let actions :=
    actions ++
    imap (fun i team =>
            {| DraftAction.phase := 6 + i;
               DraftAction.type := pick;
               DraftAction.team := team;
               DraftAction.championId := None;
               DraftAction.championName := None;
               DraftAction.completedAt := None;
               DraftAction.isActive := false |}) pickOrder in
  actions.

(** *** [balanceTeams] *)

(** [team.reduce((sum, p) => sum + p.mmr, 0)] *)
Definition totalMmr (team : list Player.t) : Z :=
  fold_left (fun sum p => sum + Player.mmr p) team 0.

(** The loop [for (const player of players) byRole[player.role].push(player)]. *)
Definition groupByRole (players : list Player.t) : ByRole.t Player.t :=
  fold_left (fun byRole player => ByRole.push (Player.role player) player byRole)
            players ByRole.empty.

(** One iteration of the loop over [roles].  With fewer than two
    players in the role the source destructures [undefined] and pushes
    it, and the next read of its [mmr] or [odId], in a later iteration
    or in [tryMatchPlayers], throws: that is [None].  [tryMatchPlayers]
    passes two players of every role. *)
Definition assignRole (byRole : ByRole.t Player.t)
    (teams : option (list Player.t * list Player.t)) (role : PlayerRole)
  : option (list Player.t * list Player.t) :=
  match teams with
  | None => None
  | Some (blueTeam, redTeam) =>
      match JSArray.sort (fun a b => Player.mmr b - Player.mmr a)
                         (ByRole.get role byRole) with
      | p1 :: p2 :: _ =>
          let blueTotal := totalMmr blueTeam in
          let redTotal := totalMmr redTeam in
          if blueTotal <=? redTotal
          then Some (blueTeam ++ [p1], redTeam ++ [p2])
          else Some (blueTeam ++ [p2], redTeam ++ [p1])
      | _ => None
      end
  end.

Definition balanceTeams (players : list Player.t)
  : option (list Player.t * list Player.t) :=
  let byRole := groupByRole players in
  fold_left (assignRole byRole) roles (Some ([], [])).

(** [team.reduce((sum, p) => sum + p.mmr, 0) / 5] *)
Definition averageMmr (team : list Player.t) : Q := Qmake (totalMmr team) 5.

(** The players of one role, in the order of the argument. *)
Definition playersOf (role : PlayerRole) (players : list Player.t) : list Player.t :=
  List.filter (fun p => PlayerRole_eqb (Player.role p) role) players.

(** The rating gap of a role's pair, and the largest of the five. *)
Definition roleGap (players : list Player.t) (role : PlayerRole) : Z :=
  match playersOf role players with
  | [a; b] => Z.abs (Player.mmr a - Player.mmr b)
  | _ => 0
  end.

Definition largestGap (players : list Player.t) : Z :=
  fold_right Z.max 0 (map (roleGap players) roles).

(** *** [tryMatchPlayers] *)

(** The tie-break as the specification words it: a selected player
    never has a later join timestamp than a waiting player of the same
    role and rating who was not selected. *)
Definition earlierJoinWinsTies (queueSnapshot : list QueueDoc.t)
    (selected : list Player.t) : Prop :=
  forall p doc,
    In p selected -> In doc queueSnapshot ->
    ~ In (QueueDoc.id doc) (map Player.odId selected) ->
    PlayerRole_of_string (QueueEntry.role (QueueDoc.data doc)) = Some (Player.role p) ->
    QueueEntry.mmr (QueueDoc.data doc) = Player.mmr p ->
    QueueEntry.joinedAt (Player.data p) <= QueueEntry.joinedAt (QueueDoc.data doc).

(** The [forEach] over [queueSnapshot.docs]; a document whose role is
    not one of [roles] is skipped. *)
Definition groupQueue (docs : list QueueDoc.t) : ByRole.t Waiting.t :=
  fold_left
    (fun playersByRole doc =>
       let data := QueueDoc.data doc in
       match PlayerRole_of_string (QueueEntry.role data) with
       | Some role =>
           ByRole.push role
             {| Waiting.odId := QueueDoc.id doc;
                Waiting.mmr := QueueEntry.mmr data;
                Waiting.data := data |} playersByRole
       | None => playersByRole
       end)
    docs ByRole.empty.

(** A snapshot document as an element of [playersByRole]. *)
Definition waitingPlayer (doc : QueueDoc.t) : Waiting.t :=
  {| Waiting.odId := QueueDoc.id doc;
     Waiting.mmr := QueueEntry.mmr (QueueDoc.data doc);
     Waiting.data := QueueDoc.data doc |}.

(** The documents of one role, in the order of the snapshot. *)
Definition waitingOf (role : PlayerRole) (docs : list QueueDoc.t) : list Waiting.t :=
  omap (fun doc =>
          match PlayerRole_of_string (QueueEntry.role (QueueDoc.data doc)) with
          | Some r => if PlayerRole_eqb r role then Some (waitingPlayer doc) else None
          | None => None
          end) docs.

(** The check that every role has at least two players. *)
Definition enoughPlayers (playersByRole : ByRole.t Waiting.t) : bool :=
  forallb (fun role => negb (length (ByRole.get role playersByRole) <? 2)%nat) roles.

(** [{ ...rolePlayers[i], role }] *)
Definition withRole (role : PlayerRole) (w : Waiting.t) : Player.t :=
  {| Player.odId := Waiting.odId w;
     Player.mmr := Waiting.mmr w;
     Player.role := role;
     Player.data := Waiting.data w |}.

(** The two players taken for one role: the first two of the role's
    players sorted by [a.mmr - b.mmr]. *)
Definition selectRole (playersByRole : ByRole.t Waiting.t) (role : PlayerRole)
  : list Player.t :=
  let rolePlayers :=
    JSArray.sort (fun a b => Waiting.mmr a - Waiting.mmr b)
                 (ByRole.get role playersByRole) in
  match rolePlayers with
  | p0 :: p1 :: _ => [withRole role p0; withRole role p1]
  | _ => []
  end.

Definition selectPlayers (playersByRole : ByRole.t Waiting.t) : list Player.t :=
  flat_map (selectRole playersByRole) roles.

Definition draftPlayer (team : Team) (p : Player.t) : DraftPlayer.t :=
  {| DraftPlayer.odId := Player.odId p;
     DraftPlayer.oduid := QueueEntry.oduid (Player.data p);
     DraftPlayer.displayName := QueueEntry.displayName (Player.data p);
     DraftPlayer.photoURL := QueueEntry.photoURL (Player.data p);
     DraftPlayer.role := Player.role p;
     DraftPlayer.team := team;
     DraftPlayer.mmr := Player.mmr p;
     DraftPlayer.isReady := false;
     DraftPlayer.championId := None;
     DraftPlayer.championName := None |}.

(** What [tryMatchPlayers] hands to its write batch: the new draft
    document and the players whose queue documents are deleted. *)
Record Formed := {
  draftData : DraftSession.t;
  selectedPlayers : list Player.t
}.

(** The body of [tryMatchPlayers] up to the batch: [None] is the
    return of [{ found: false }]. *)
Definition formMatch (draftId : string) (now : Z) (queueSnapshot : list QueueDoc.t)
  : option Formed :=
  let playersByRole := groupQueue queueSnapshot in
  if negb (enoughPlayers playersByRole) then None
  else
    let selected := selectPlayers playersByRole in
    '(blueTeam, redTeam) ← balanceTeams selected;
    Some
      {| draftData :=
           {| DraftSession.id := draftId;
              DraftSession.createdAt := now;
              DraftSession.status := waiting;
              DraftSession.currentPhase := 0;
              DraftSession.currentTeam := blue;
              DraftSession.phaseType := ban;
              DraftSession.phaseStartedAt := now;
              DraftSession.phaseTimeLimit := 30;
              DraftSession.blueTeam := map (draftPlayer blue) blueTeam;
              DraftSession.redTeam := map (draftPlayer red) redTeam;
              DraftSession.blueTeamAvgMmr := averageMmr blueTeam;
              DraftSession.redTeamAvgMmr := averageMmr redTeam;
              DraftSession.actions := createDraftActions;
              DraftSession.bannedChampions := [];
              DraftSession.fearlessMode := false;
              DraftSession.lobbyName := None;
              DraftSession.lobbyPassword := None;
              DraftSession.cancelReason := None |};
         selectedPlayers := selected |}.

End Matchmaking.

(** ** The draft state machine: [setDraftReady], [makeDraftAction],
  [timeoutDraftAction] *)

Module Draft.

Import Types.

Definition HttpsError_of (c : ErrorCode) (m : string) : HttpsError :=
  {| code := c; message := m |}.

(** A callable's request: [request.auth?.uid] and [request.data]. *)
Record Request (A : Type) := { auth : option string; data : A }.
Arguments auth {A}. Arguments data {A}.

(** The [drafts] collection. *)
Abbreviation Drafts := (gmap string DraftSession.t).

(** *** Partial document updates *)

(** The argument of [draftRef.update(updateData)]: the fields that are
    set; a field that is [None] is left as it is.  [bannedChampions]
    carries the operand of [FieldValue.arrayUnion]. *)
Record UpdateData := {
  u_status : option DraftStatus;
  u_currentPhase : option nat;
  u_currentTeam : option Team;
  u_phaseType : option DraftPhaseType;
  u_phaseStartedAt : option Z;
  u_blueTeam : option (list DraftPlayer.t);
  u_redTeam : option (list DraftPlayer.t);
  u_actions : option (list DraftAction.t);
  u_bannedChampions : option string;
  u_lobbyName : option string;
  u_lobbyPassword : option string;
  u_cancelReason : option string
}.

Definition noUpdate : UpdateData :=
  {| u_status := None; u_currentPhase := None; u_currentTeam := None;
     u_phaseType := None; u_phaseStartedAt := None; u_blueTeam := None;
     u_redTeam := None; u_actions := None; u_bannedChampions := None;
     u_lobbyName := None; u_lobbyPassword := None; u_cancelReason := None |}.

Definition update (d : DraftSession.t) (u : UpdateData) : DraftSession.t :=
  {| DraftSession.id := DraftSession.id d;
     DraftSession.createdAt := DraftSession.createdAt d;
     DraftSession.status := default (DraftSession.status d) (u_status u);
     DraftSession.currentPhase :=
       default (DraftSession.currentPhase d) (u_currentPhase u);
     DraftSession.currentTeam :=
       default (DraftSession.currentTeam d) (u_currentTeam u);
     DraftSession.phaseType := default (DraftSession.phaseType d) (u_phaseType u);
     DraftSession.phaseStartedAt :=
       default (DraftSession.phaseStartedAt d) (u_phaseStartedAt u);
     DraftSession.phaseTimeLimit := DraftSession.phaseTimeLimit d;
     DraftSession.blueTeam := default (DraftSession.blueTeam d) (u_blueTeam u);
     DraftSession.redTeam := default (DraftSession.redTeam d) (u_redTeam u);
     DraftSession.blueTeamAvgMmr := DraftSession.blueTeamAvgMmr d;
     DraftSession.redTeamAvgMmr := DraftSession.redTeamAvgMmr d;
     DraftSession.actions := default (DraftSession.actions d) (u_actions u);
     DraftSession.bannedChampions :=
       match u_bannedChampions u with
       | Some championId =>
           JSArray.arrayUnion (DraftSession.bannedChampions d) championId
       | None => DraftSession.bannedChampions d
       end;
     DraftSession.fearlessMode := DraftSession.fearlessMode d;
     DraftSession.lobbyName :=
       match u_lobbyName u with
       | Some n => Some n
       | None => DraftSession.lobbyName d
       end;
     DraftSession.lobbyPassword :=
       match u_lobbyPassword u with
       | Some n => Some n
       | None => DraftSession.lobbyPassword d
       end;
     DraftSession.cancelReason :=
       match u_cancelReason u with
       | Some n => Some n
       | None => DraftSession.cancelReason d
       end |}.

(** *** Helpers shared by the three callables *)

(** [team.some(p => p.odId === userId)] *)
Definition isMember (userId : string) (team : list DraftPlayer.t) : bool :=
  existsb (fun p => String.eqb (DraftPlayer.odId p) userId) team.

(** [{ ...p, isReady: true }] *)
Definition ready (p : DraftPlayer.t) : DraftPlayer.t :=
  {| DraftPlayer.odId := DraftPlayer.odId p;
     DraftPlayer.oduid := DraftPlayer.oduid p;
     DraftPlayer.displayName := DraftPlayer.displayName p;
     DraftPlayer.photoURL := DraftPlayer.photoURL p;
     DraftPlayer.role := DraftPlayer.role p;
     DraftPlayer.team := DraftPlayer.team p;
     DraftPlayer.mmr := DraftPlayer.mmr p;
     DraftPlayer.isReady := true;
     DraftPlayer.championId := DraftPlayer.championId p;
     DraftPlayer.championName := DraftPlayer.championName p |}.

(** [{ ...p, championId, championName }] *)
Definition withChampion (championId championName : string) (p : DraftPlayer.t)
  : DraftPlayer.t :=
  {| DraftPlayer.odId := DraftPlayer.odId p;
     DraftPlayer.oduid := DraftPlayer.oduid p;
     DraftPlayer.displayName := DraftPlayer.displayName p;
     DraftPlayer.photoURL := DraftPlayer.photoURL p;
     DraftPlayer.role := DraftPlayer.role p;
     DraftPlayer.team := DraftPlayer.team p;
     DraftPlayer.mmr := DraftPlayer.mmr p;
     DraftPlayer.isReady := DraftPlayer.isReady p;
     DraftPlayer.championId := Some championId;
     DraftPlayer.championName := Some championName |}.

(** [{ ...currentAction, championId, championName,
       completedAt: new Date(), isActive: false }] *)
Definition resolve (championId championName : string) (now : Z)
    (a : DraftAction.t) : DraftAction.t :=
  {| DraftAction.phase := DraftAction.phase a;
     DraftAction.type := DraftAction.type a;
     DraftAction.team := DraftAction.team a;
     DraftAction.championId := Some championId;
     DraftAction.championName := Some championName;
     DraftAction.completedAt := Some now;
     DraftAction.isActive := false |}.

(** The effect of [action.isActive = true]. *)
Definition activate (a : DraftAction.t) : DraftAction.t :=
  {| DraftAction.phase := DraftAction.phase a;
     DraftAction.type := DraftAction.type a;
     DraftAction.team := DraftAction.team a;
     DraftAction.championId := DraftAction.championId a;
     DraftAction.championName := DraftAction.championName a;
     DraftAction.completedAt := DraftAction.completedAt a;
     DraftAction.isActive := true |}.

(** [draftData.blueTeam] or [draftData.redTeam] *)
Definition roster (team : Team) (draftData : DraftSession.t) : list DraftPlayer.t :=
  match team with
  | blue => DraftSession.blueTeam draftData
  | red => DraftSession.redTeam draftData
  end.

(** *** [setDraftReady] *)

(** The body of [setDraftReady] on the document it read. *)
Definition setDraftReady_doc (userId : string) (now : Z) (draftData : DraftSession.t)
  : HttpsError + (UpdateData * bool) :=
  if negb (DraftStatus_eqb (DraftSession.status draftData) waiting)
  then inl (HttpsError_of failed_precondition "Draft is not in waiting state")
  else
    let markReady p :=
      if String.eqb (DraftPlayer.odId p) userId then ready p else p in
    let blueTeam := map markReady (DraftSession.blueTeam draftData) in
    let redTeam := map markReady (DraftSession.redTeam draftData) in
    let found :=
      isMember userId (DraftSession.blueTeam draftData)
      || isMember userId (DraftSession.redTeam draftData) in
    if negb found
    then inl (HttpsError_of permission_denied "Not a participant in this draft")
    else
      let allReady := forallb DraftPlayer.isReady (blueTeam ++ redTeam) in
      let updateData :=
        {| u_status := if allReady then Some banning else None;
           u_currentPhase := None; u_currentTeam := None; u_phaseType := None;
           u_phaseStartedAt := if allReady then Some now else None;
           u_blueTeam := Some blueTeam;
           u_redTeam := Some redTeam;
           u_actions := None; u_bannedChampions := None;
           u_lobbyName := None; u_lobbyPassword := None;
           u_cancelReason := None |} in
      inr (updateData, allReady).

(** [setDraftReady]: the read and the update are taken as one step.
    An empty [draftId] makes [doc(draftId)] throw, which the handler
    reports as [internal]. *)
Definition setDraftReady (now : Z) (request : Request string) (db : Drafts)
  : (HttpsError + bool) * Drafts :=
  match auth request with
  | None => (inl (HttpsError_of unauthenticated "User must be authenticated"), db)
  | Some userId =>
      let draftId := data request in
      if negb (truthy draftId)
      then (inl (HttpsError_of internal "Failed to set ready"), db)
      else
        match db !! draftId with
        | None => (inl (HttpsError_of not_found "Draft not found"), db)
        | Some draftData =>
            match setDraftReady_doc userId now draftData with
            | inl e => (inl e, db)
            | inr (updateData, allReady) =>
                (inr allReady, <[draftId := update draftData updateData]> db)
            end
        end
  end.

(** *** [makeDraftAction] *)

Record DraftActionData := {
  draftId : string;
  championId : string;
  championName : string
}.

Record ActionResult := { r_nextPhase : option nat; r_completed : bool }.

(** The caller's team: blue is looked up first. *)
Definition playerTeam (userId : string) (draftData : DraftSession.t) : option Team :=
  if isMember userId (DraftSession.blueTeam draftData) then Some blue
  else if isMember userId (DraftSession.redTeam draftData) then Some red
  else None.

(** [actions.filter(a => a.type === 'pick' && a.championId)
           .map(a => a.championId)] *)
Definition pickedChampions (actions : list DraftAction.t) : list string :=
  omap (fun a =>
          match DraftAction.type a, DraftAction.championId a with
          | pick, Some c => if truthy c then Some c else None
          | _, _ => None
          end) actions.

(** [teamPlayers.find(p => !p.championId)] and the [map] that replaces
    that very element. *)
Definition assignPick (championId championName : string)
    (teamPlayers : list DraftPlayer.t) : option (list DraftPlayer.t) :=
  match JSArray.findIndex
          (fun p => negb (truthy_opt (DraftPlayer.championId p))) teamPlayers with
  | Some i =>
      Some (alter (withChampion championId championName) i teamPlayers)
  | None => None
  end.

(** The function passed to [db.runTransaction], applied to the
    document the transaction read.  [random] is the value of
    [Math.random().toString(36).slice(2, 10)]. *)
Definition makeDraftAction_tx (userId : string) (d : DraftActionData)
    (now : Z) (random : string) (draftData : DraftSession.t)
  : HttpsError + (UpdateData * ActionResult) :=
  let status := DraftSession.status draftData in
  if negb (DraftStatus_eqb status banning || DraftStatus_eqb status picking)
  then inl (HttpsError_of failed_precondition "Draft is not in active phase")
  else
    let currentPhase := DraftSession.currentPhase draftData in
    let actions := DraftSession.actions draftData in
    match actions !! currentPhase with
    | None => inl (HttpsError_of failed_precondition "No active action")
    | Some currentAction =>
      if negb (DraftAction.isActive currentAction)
      then inl (HttpsError_of failed_precondition "No active action")
      else
        match playerTeam userId draftData with
        | None =>
            inl (HttpsError_of permission_denied "Not a participant in this draft")
        | Some playerTeam =>
          if negb (Team_eqb (DraftAction.team currentAction) playerTeam)
          then inl (HttpsError_of permission_denied "Not your team's turn")
          else
            let bannedChampions := DraftSession.bannedChampions draftData in
            if JSArray.includes bannedChampions (championId d)
               || JSArray.includes (pickedChampions actions) (championId d)
            then inl (HttpsError_of invalid_argument
                                    "Champion already banned or picked")
            else
              let actions :=
                <[currentPhase :=
                    resolve (championId d) (championName d) now currentAction]>
                  actions in
              let banned :=
                match DraftAction.type currentAction with
                | ban => Some (championId d)
                | pick => None
                end in
              let '(blueTeam, redTeam) :=
                match DraftAction.type currentAction, DraftAction.team currentAction with
                | pick, blue =>
                    (assignPick (championId d) (championName d)
                                (DraftSession.blueTeam draftData), None)
                | pick, red =>
                    (None, assignPick (championId d) (championName d)
                                      (DraftSession.redTeam draftData))
                | ban, _ => (None, None)
                end in
              let nextPhase := S currentPhase in
              if (length actions <=? nextPhase)%nat
              then
                inr ({| u_status := Some completed;
                        u_currentPhase := Some currentPhase;
                        u_currentTeam := None; u_phaseType := None;
                        u_phaseStartedAt := None;
                        u_blueTeam := blueTeam; u_redTeam := redTeam;
                        u_actions := Some actions;
                        u_bannedChampions := banned;
                        u_lobbyName :=
                          Some ("Drafty-" ++ substring 0 8 (draftId d))%string;
                        u_lobbyPassword := Some random;
                        u_cancelReason := None |},
                     {| r_nextPhase := None; r_completed := true |})
              else
                let actions := alter activate nextPhase actions in
                let next := actions !! nextPhase in
                inr ({| u_status :=
                          match DraftAction.type <$> next, status with
                          | Some pick, banning => Some picking
                          | _, _ => None
                          end;
                        u_currentPhase := Some nextPhase;
                        u_currentTeam := DraftAction.team <$> next;
                        u_phaseType := DraftAction.type <$> next;
                        u_phaseStartedAt := Some now;
                        u_blueTeam := blueTeam; u_redTeam := redTeam;
                        u_actions := Some actions;
                        u_bannedChampions := banned;
                        u_lobbyName := None; u_lobbyPassword := None;
                        u_cancelReason := None |},
                     {| r_nextPhase := Some nextPhase; r_completed := false |})
        end
    end.

(** [makeDraftAction]: validation of the request, then the
    transaction, which reads the document, runs the body above and
    writes the update; a throw inside the body writes nothing. *)
Definition makeDraftAction (now : Z) (random : string)
    (request : Request DraftActionData) (db : Drafts)
  : (HttpsError + ActionResult) * Drafts :=
  match auth request with
  | None => (inl (HttpsError_of unauthenticated "User must be authenticated"), db)
  | Some userId =>
      let d := data request in
      if negb (truthy (draftId d)) || negb (truthy (championId d))
         || negb (truthy (championName d))
      then (inl (HttpsError_of invalid_argument "Missing required fields"), db)
      else
        match db !! draftId d with
        | None => (inl (HttpsError_of not_found "Draft not found"), db)
        | Some draftData =>
            match makeDraftAction_tx userId d now random draftData with
            | inl e => (inl e, db)
            | inr (updateData, result) =>
                (inr result, <[draftId d := update draftData updateData]> db)
            end
        end
  end.

(** *** [timeoutDraftAction] *)

Definition timeoutDraftAction_doc (userId : string) (draftData : DraftSession.t)
  : HttpsError + UpdateData :=
  let isParticipant :=
    isMember userId (DraftSession.blueTeam draftData)
    || isMember userId (DraftSession.redTeam draftData) in
  if negb isParticipant
  then inl (HttpsError_of permission_denied "Not a participant")
  else
    inr {| u_status := Some cancelled;
           u_currentPhase := None; u_currentTeam := None; u_phaseType := None;
           u_phaseStartedAt := None; u_blueTeam := None; u_redTeam := None;
           u_actions := None; u_bannedChampions := None;
           u_lobbyName := None; u_lobbyPassword := None;
           u_cancelReason := Some "timeout"%string |}.

(** [timeoutDraftAction]; [now] is the server clock at the call, which
    the function never reads. *)
Definition timeoutDraftAction (now : Z) (request : Request string) (db : Drafts)
  : (HttpsError + unit) * Drafts :=
  match auth request with
  | None => (inl (HttpsError_of unauthenticated "User must be authenticated"), db)
  | Some userId =>
      let draftId := data request in
      if negb (truthy draftId)
      then (inl (HttpsError_of internal "Failed to timeout draft"), db)
      else
        match db !! draftId with
        | None => (inl (HttpsError_of not_found "Draft not found"), db)
        | Some draftData =>
            match timeoutDraftAction_doc userId draftData with
            | inl e => (inl e, db)
            | inr updateData =>
                (inr tt, <[draftId := update draftData updateData]> db)
            end
        end
  end.

(** The countdown of the client hook [useDraft]:
    [elapsed = Math.floor((Date.now() - phaseStart) / 1000)] and
    [remaining = Math.max(0, phaseTimeLimit - elapsed)]; the page calls
    [timeoutDraft] when [remaining] is 0 in [banning] or [picking].
    [phaseStart] is [phaseStartedAt.toMillis()], taken here as given: the
    hook falls back on [Date.now()] when that is missing or 0, which no
    session the server writes has. *)
Definition timeRemaining (now : Z) (draftData : DraftSession.t) : Z :=
  let elapsed := (now - DraftSession.phaseStartedAt draftData) / 1000 in
  Z.max 0 (DraftSession.phaseTimeLimit draftData - elapsed).

(** *** The machine *)

(** One successful transition of a session document, the update
    landing on the document the call read: what a transaction does,
    and what [setDraftReady] and [timeoutDraftAction] do when no other
    write lands between their [get] and their [update]. *)
Inductive step : DraftSession.t -> DraftSession.t -> Prop :=
| step_ready userId now d u allReady :
    setDraftReady_doc userId now d = inr (u, allReady) ->
    step d (update d u)
| step_action userId req now random d u r :
    makeDraftAction_tx userId req now random d = inr (u, r) ->
    step d (update d u)
| step_timeout userId d u :
    timeoutDraftAction_doc userId d = inr u ->
    step d (update d u).

(** The sessions reached when calls run one after the other: those
    [tryMatchPlayers] creates, and what the three transitions make of
    them.  The sessions reached when calls overlap as well are
    [Overlap.held], below. *)
Inductive reachable : DraftSession.t -> Prop :=
| reachable_created draftId now queueSnapshot formed :
    Matchmaking.formMatch draftId now queueSnapshot = Some formed ->
    reachable (Matchmaking.draftData formed)
| reachable_step d d' :
    reachable d -> step d d' -> reachable d'.

(** *** Invariant of the sessions *)

(** The session accepts [makeDraftAction]. *)
Definition inProgress (s : DraftStatus) : bool :=
  match s with
  | banning | picking => true
  | _ => false
  end.

(** The session is not in a terminal state. *)
Definition live (s : DraftStatus) : bool :=
  match s with
  | waiting | banning | picking => true
  | _ => false
  end.

(** The action at index [k], and no other, has [isActive] set. *)
Definition onlyActiveAt (k : nat) (actions : list DraftAction.t) : Prop :=
  forall i a, actions !! i = Some a -> DraftAction.isActive a = Nat.eqb i k.

(** The number of actions whose [isActive] is set. *)
Definition activeCount (actions : list DraftAction.t) : nat :=
  length (List.filter DraftAction.isActive actions).

Definition wellFormed (d : DraftSession.t) : Prop :=
  length (DraftSession.actions d) = 16%nat
  /\ (live (DraftSession.status d) = true ->
      (DraftSession.currentPhase d < 16)%nat
      /\ onlyActiveAt (DraftSession.currentPhase d) (DraftSession.actions d)).

(** Zero or more transitions. *)
Inductive steps : DraftSession.t -> DraftSession.t -> Prop :=
| steps_refl d : steps d d
| steps_step d d' d'' : step d d' -> steps d' d'' -> steps d d''.

End Draft.
(** ** Writes that land late: [setDraftReady] and [timeoutDraftAction]
    use no transaction *)

Module Overlap.

Import Types Draft.

(** The write of a [setDraftReady] whose [draftRef.get()] returned
    [read], landing on the document as it is when
    [draftRef.update(updateData)] arrives, [d]: the update is computed
    from [read] alone. *)
Definition landReady (userId : string) (now : Z) (read d : DraftSession.t)
  : DraftSession.t :=
  match setDraftReady_doc userId now read with
  | inr (updateData, _) => update d updateData
  | inl _ => d
  end.

(** The versions of one draft document, the newest first.
    [tryMatchPlayers] writes the first.  [makeDraftAction] runs in
    [db.runTransaction], once the request has passed its checks for a
    champion id and a champion name: its update is computed from the
    newest version and lands on it.  [setDraftReady] and
    [timeoutDraftAction]
    read with [draftRef.get()] and write with [draftRef.update()]
    outside any transaction: the update is computed from the version
    the call read, which the writes of other calls may have followed,
    and lands on the newest. *)
Inductive versions : list DraftSession.t -> Prop :=
| versions_created draftId now queueSnapshot formed :
    Matchmaking.formMatch draftId now queueSnapshot = Some formed ->
    versions [Matchmaking.draftData formed]
| versions_ready userId now read u allReady d earlier :
    versions (d :: earlier) ->
    read ∈ d :: earlier ->
    setDraftReady_doc userId now read = inr (u, allReady) ->
    versions (update d u :: d :: earlier)
| versions_action userId req now random u r d earlier :
    versions (d :: earlier) ->
    truthy (championId req) = true ->
    truthy (championName req) = true ->
    makeDraftAction_tx userId req now random d = inr (u, r) ->
    versions (update d u :: d :: earlier)
| versions_timeout userId read u d earlier :
    versions (d :: earlier) ->
    read ∈ d :: earlier ->
    timeoutDraftAction_doc userId read = inr u ->
    versions (update d u :: d :: earlier).

(** An update that carries the status [banning] or [cancelled], or
    none, and nothing of the record of decisions: the updates of
    [setDraftReady] and [timeoutDraftAction] are such. *)
Definition statusOnly (u : UpdateData) : Prop :=
  (u_status u = None \/ u_status u = Some banning \/ u_status u = Some cancelled)
  /\ u_currentPhase u = None /\ u_currentTeam u = None /\ u_phaseType u = None
  /\ u_actions u = None /\ u_bannedChampions u = None
  /\ u_lobbyName u = None /\ u_lobbyPassword u = None.

(** The documents a draft can be, whether calls overlap or not. *)
Definition held (d : DraftSession.t) : Prop :=
  exists earlier, versions (d :: earlier).

End Overlap.


(** ** Rank tables of the MMR module: [getInitialMMR], [getRankFromMMR] *)

Module MmrRank.

#[local] Open Scope float_scope.

(** [RANK_TO_MMR] *)
Definition RANK_TO_MMR : list (string * float) :=
  [ ("IRON", 400); ("BRONZE", 600); ("SILVER", 800); ("GOLD", 1000);
    ("PLATINUM", 1200); ("EMERALD", 1400); ("DIAMOND", 1600); ("MASTER", 1800);
    ("GRANDMASTER", 2000); ("CHALLENGER", 2200); ("UNRANKED", 800) ]%string.

Definition UNRANKED : float := 800.

(** [MMR_RANK_THRESHOLDS] *)
Definition MMR_RANK_THRESHOLDS : list (float * float * string) :=
  [ (0, 499, "IRON"); (500, 699, "BRONZE"); (700, 899, "SILVER");
    (900, 1099, "GOLD"); (1100, 1299, "PLATINUM"); (1300, 1499, "EMERALD");
    (1500, 1699, "DIAMOND"); (1700, 1899, "MASTER"); (1900, 2099, "GRANDMASTER");
    (2100, infinity, "CHALLENGER") ]%string.

(** [String.prototype.toUpperCase] on strings of ASCII characters:
    the letters a to z are mapped and every other byte is kept.
    JavaScript also maps letters outside ASCII (U+017F to S, U+0131 to
    I), so what is proved of [getInitialMMR] is proved of tiers written
    in ASCII ([Text.isASCII]). *)
Definition upper (c : Ascii.ascii) : Ascii.ascii :=
  let n := Ascii.nat_of_ascii c in
  if (97 <=? n)%nat && (n <=? 122)%nat then Ascii.ascii_of_nat (n - 32) else c.

Fixpoint toUpperCase (s : string) : string :=
  match s with
  | EmptyString => EmptyString
  | String c s' => String (upper c) (toUpperCase s')
  end.

(** [array.indexOf(x)], -1 when [x] is no element. *)
Fixpoint indexOf (l : list string) (x : string) : Z :=
  match l with
  | [] => -1
  | y :: l' =>
      if String.eqb y x then 0
      else let i := indexOf l' x in if (i <? 0)%Z then -1 else (i + 1)%Z
  end.

Definition rankOrder : list string :=
  [ "IRON"; "BRONZE"; "SILVER"; "GOLD"; "PLATINUM";
    "EMERALD"; "DIAMOND"; "MASTER"; "GRANDMASTER"; "CHALLENGER" ]%string.

(** [RANK_TO_MMR[rank] || RANK_TO_MMR.UNRANKED] *)
Definition rankToMmr (rank : string) : float :=
  match List.find (fun entry => String.eqb (fst entry) rank) RANK_TO_MMR with
  | Some (_, mmr) => mmr
  | None => UNRANKED
  end.

(** [getInitialMMR]; the argument is the list of the [tier] fields. *)
Definition getInitialMMR (riotRanks : list string) : float :=
  match riotRanks with
  | [] => UNRANKED
  | _ =>
      let highestRankIndex :=
        fold_left (fun highest tier =>
                     let index := indexOf rankOrder (toUpperCase tier) in
                     if (highest <? index)%Z then index else highest)
                  riotRanks (-1)%Z in
      if (highestRankIndex =? -1)%Z then UNRANKED
      else
        match rankOrder !! Z.to_nat highestRankIndex with
        | Some highestRank => rankToMmr highestRank
        | None => UNRANKED
        end
  end.

(** [getRankFromMMR] *)
Definition getRankFromMMR (mmr : float) : string :=
  match List.find (fun threshold =>
                     let '(min, max, _) := threshold in
                     (min <=? mmr) && (mmr <=? max)) MMR_RANK_THRESHOLDS with
  | Some (_, _, rank) => rank
  | None => "IRON"%string
  end.

End MmrRank.

(** ** Documents of the rating and match collections *)

(** An element of [history] in a document of [mmr]. *)
Module HistoryEntry.
Record t := {
  matchId : string;
  mmrBefore : float;
  mmrAfter : float;
  change : float;
  performanceScore : float;
  timestamp : Z
}.

(** Equality of two stored entries. *)
Definition eqb (a b : t) : bool :=
  String.eqb (matchId a) (matchId b)
  && PrimFloat.Leibniz.eqb (mmrBefore a) (mmrBefore b)
  && PrimFloat.Leibniz.eqb (mmrAfter a) (mmrAfter b)
  && PrimFloat.Leibniz.eqb (change a) (change b)
  && PrimFloat.Leibniz.eqb (performanceScore a) (performanceScore b)
  && (timestamp a =? timestamp b).
End HistoryEntry.

(** A document of the [mmr] collection. *)
Module MmrDoc.
Record t := {
  odId : string;
  mmr : float;
  gamesPlayed : Z;
  placementGamesPlayed : Z;
  isPlaced : bool;
  wins : Z;
  losses : Z;
  peakMmr : float;
  lastUpdated : Z;
  history : list HistoryEntry.t
}.
End MmrDoc.

(** A document of the [users] collection, as far as it is read here:
    the [rank?.tier] of each entry of [riotAccounts]. *)
Module UserDoc.
Record t := { riotAccounts : list (option string) }.
End UserDoc.

(** [request.data.blueTeam[i].stats] *)
Module Stats.
Record t := {
  champion : string;
  kills : float;
  deaths : float;
  assists : float;
  cs : float;
  damage : float;
  visionScore : float;
  objectiveScore : float
}.
End Stats.

(** [request.data.blueTeam[i]] *)
Module PlayerInput.
Record t := {
  odId : string;
  oduid : string;
  displayName : string;
  role : string;
  stats : Stats.t
}.
End PlayerInput.

(** An element of [blueTeam.players] in a document of [matches]. *)
Module MatchPlayer.
Record t := {
  odId : string;
  oduid : string;
  displayName : string;
  role : string;
  mmrAtTime : float
}.
End MatchPlayer.

Module TeamSnapshot.
Record t := { players : list MatchPlayer.t; avgMmr : float }.
End TeamSnapshot.

(** An element of [playerStats] in a document of [matches]. *)
Module PlayerMatchStats.
Import Types.
Record t := {
  odId : string;
  oduid : string;
  team : Team;
  champion : string;
  role : string;
  kills : float;
  deaths : float;
  assists : float;
  cs : float;
  damage : float;
  visionScore : float;
  objectiveScore : float;
  performanceScore : float;
  mmrChange : float
}.
End PlayerMatchStats.

(** A document of the [matches] collection. *)
Module MatchDoc.
Import Types.
Record t := {
  id : string;
  createdAt : Z;
  createdBy : string;
  status : string;
  blueTeam : TeamSnapshot.t;
  redTeam : TeamSnapshot.t;
  winner : Team;
  playerStats : list PlayerMatchStats.t;
  mmrProcessed : bool
}.
End MatchDoc.

(** A JavaScript object used as a map from strings: keys are kept in
    the order of their first assignment, which is the order JavaScript
    lists keys in unless they are integer-like (those come first, in
    ascending order); the key [__proto__], which JavaScript does not
    store as a key of the object, is excluded where it matters, and
    the order of the keys is used up to permutation only. *)
Module JSObject.

Definition t (A : Type) : Type := list (string * A).

(** [obj[key]] *)
Definition get {A} (obj : t A) (key : string) : option A :=
  snd <$> List.find (fun entry => String.eqb (fst entry) key) obj.

(** [obj[key] = value] *)
Fixpoint set {A} (obj : t A) (key : string) (value : A) : t A :=
  match obj with
  | [] => [(key, value)]
  | (k, v) :: obj' =>
      if String.eqb k key then (k, value) :: obj' else (k, v) :: set obj' key value
  end.

End JSObject.

(** ** The match record builder: [submitMatchResult] *)

Module Match.

Import Types JS.
#[local] Open Scope float_scope.

(** The collections [submitMatchResult] reads and writes. *)
Record Db := {
  mmr : gmap string MmrDoc.t;
  matches : gmap string MatchDoc.t;
  users : gmap string UserDoc.t
}.

(** What the call takes from its surroundings: the clock, the id of
    [db.collection('matches').doc()], and whether the store accepts
    each of the two writes the function awaits ([matchRef.set] and
    [batch.commit]); a write the store rejects throws. *)
Record Env := {
  now : Z;
  newMatchId : string;
  matchSetAccepted : bool;
  batchCommitAccepted : bool
}.

Record SubmitMatchResultData := {
  winner : option Team;
  blueTeam : option (list PlayerInput.t);
  redTeam : option (list PlayerInput.t)
}.

(** An entry of [mmrChanges]. *)
Record Change := {
  change : float;
  performanceScore : float;
  newMmr : float
}.

(** An element of the returned [mmrChanges]. *)
Record ChangeResult := {
  r_odId : string;
  r_change : float;
  r_performanceScore : float;
  r_newMmr : float;
  r_rank : string
}.

Record Result := {
  matchId : string;
  mmrChanges : list ChangeResult
}.

(** A write of the batch. *)
Inductive Write :=
| batch_update (odId : string) (fields : MmrDoc.t) (historyEntry : HistoryEntry.t)
| batch_set (odId : string) (doc : MmrDoc.t).

(** [x || fallback] on numbers: [0], [-0] and [NaN] are falsy. *)
Definition orElse (x fallback : float) : float :=
  if (x =? 0) || isNaN x then fallback else x.

(** [FieldValue.arrayUnion(historyEntry)] on the stored [history]. *)
Definition historyUnion (history : list HistoryEntry.t) (entry : HistoryEntry.t)
  : list HistoryEntry.t :=
  if existsb (HistoryEntry.eqb entry) history then history else history ++ [entry].

(** The effect of one write on the [mmr] collection; an update of a
    document that does not exist fails. *)
Definition applyWrite (docs : gmap string MmrDoc.t) (w : Write)
  : option (gmap string MmrDoc.t) :=
  match w with
  | batch_set odId doc => Some (<[odId := doc]> docs)
  | batch_update odId fields historyEntry =>
      match docs !! odId with
      | None => None
      | Some old =>
          Some (<[odId :=
                   {| MmrDoc.odId := MmrDoc.odId old;
                      MmrDoc.mmr := MmrDoc.mmr fields;
                      MmrDoc.gamesPlayed := MmrDoc.gamesPlayed fields;
                      MmrDoc.placementGamesPlayed := MmrDoc.placementGamesPlayed fields;
                      MmrDoc.isPlaced := MmrDoc.isPlaced fields;
                      MmrDoc.wins := MmrDoc.wins fields;
                      MmrDoc.losses := MmrDoc.losses fields;
                      MmrDoc.peakMmr := MmrDoc.peakMmr fields;
                      MmrDoc.lastUpdated := MmrDoc.lastUpdated fields;
                      MmrDoc.history :=
                        historyUnion (MmrDoc.history old) historyEntry |}]> docs)
      end
  end.

(** [batch.commit()]: all the writes, in order, or none. *)
Definition commit (docs : gmap string MmrDoc.t) (batch : list Write)
  : option (gmap string MmrDoc.t) :=
  fold_left (fun acc w => acc ≫= fun docs => applyWrite docs w) batch (Some docs).

(** The ranks read from a user's document:
    [(userData?.riotAccounts || []).filter(acc => acc.rank?.tier)
       .map(acc => ({ tier: acc.rank.tier }))]. *)
Definition ranksOf (userDoc : option UserDoc.t) : list string :=
  match userDoc with
  | Some userData =>
      omap (fun tier => match tier with
                        | Some t => if truthy t then Some t else None
                        | None => None
                        end) (UserDoc.riotAccounts userData)
  | None => []
  end.

(** The loop that builds [playerMmrMap] and [playerPlacementMap]. *)
Definition buildMaps (db : Db) (allPlayers : list PlayerInput.t)
  : JSObject.t float * JSObject.t bool :=
  fold_left
    (fun maps player =>
       let '(playerMmrMap, playerPlacementMap) := maps in
       let odId := PlayerInput.odId player in
       match mmr db !! odId with
       | None =>
           let ranks := ranksOf (users db !! odId) in
           (JSObject.set playerMmrMap odId (MmrRank.getInitialMMR ranks),
            JSObject.set playerPlacementMap odId false)
       | Some mmrData =>
           (JSObject.set playerMmrMap odId (orElse (MmrDoc.mmr mmrData) 800),
            JSObject.set playerPlacementMap odId
              (MmrDoc.placementGamesPlayed mmrData >=? Mmr.PLACEMENT_GAMES)%Z)
       end)
    allPlayers ([], []).

(** [playerMmrMap[odId]]; a missing key reads [undefined], which is
    [NaN] in the arithmetic that follows. *)
Definition mmrOf (playerMmrMap : JSObject.t float) (odId : string) : float :=
  default nan (JSObject.get playerMmrMap odId).

(** [mmrs.reduce((a, b) => a + b, 0) / 5] *)
Definition teamAverage (playerMmrMap : JSObject.t float) (team : list PlayerInput.t)
  : float :=
  fold_left (fun a b => a + b)
            (map (fun p => mmrOf playerMmrMap (PlayerInput.odId p)) team) 0 / 5.

Definition playerStatsOf (playerMmrMap : JSObject.t float) (team : Team)
    (p : PlayerInput.t) : Mmr.PlayerStats :=
  let s := PlayerInput.stats p in
  {| Mmr.odId := PlayerInput.odId p;
     Mmr.team := team;
     Mmr.kills := Stats.kills s;
     Mmr.deaths := Stats.deaths s;
     Mmr.assists := Stats.assists s;
     Mmr.cs := Stats.cs s;
     Mmr.damage := Stats.damage s;
     Mmr.visionScore := Stats.visionScore s;
     Mmr.objectiveScore := Stats.objectiveScore s;
     Mmr.mmrAtTime := mmrOf playerMmrMap (PlayerInput.odId p) |}.

Definition matchPlayer (playerMmrMap : JSObject.t float) (p : PlayerInput.t)
  : MatchPlayer.t :=
  {| MatchPlayer.odId := PlayerInput.odId p;
     MatchPlayer.oduid := PlayerInput.oduid p;
     MatchPlayer.displayName := PlayerInput.displayName p;
     MatchPlayer.role := PlayerInput.role p;
     MatchPlayer.mmrAtTime := mmrOf playerMmrMap (PlayerInput.odId p) |}.

(** [team.some(p => p.odId === odId)] *)
Definition onTeam (odId : string) (team : list PlayerInput.t) : bool :=
  existsb (fun p => String.eqb (PlayerInput.odId p) odId) team.

Section WithPow.

Variable Math_pow : float -> float -> float.

(** The loop over [allPlayerStats] that fills [mmrChanges] and
    [playerMatchStats]. *)
Definition computeChanges (context : Mmr.MatchContext)
    (playerMmrMap : JSObject.t float) (playerPlacementMap : JSObject.t bool)
    (allPlayers : list PlayerInput.t)
  : JSObject.t Change * list PlayerMatchStats.t :=
  fold_left
    (fun acc playerStats =>
       let '(mmrChanges, playerMatchStats) := acc in
       let odId := Mmr.odId playerStats in
       let isPlacement := negb (default false (JSObject.get playerPlacementMap odId)) in
       let r := Mmr.calculateMMRChange Math_pow playerStats context isPlacement in
       let currentMmr := mmrOf playerMmrMap odId in
       let newMmr := Mmr.applyMMRChange currentMmr (Mmr.change r) in
       let mmrChanges :=
         JSObject.set mmrChanges odId
           {| change := Mmr.change r;
              performanceScore := Mmr.performanceScore r;
              newMmr := newMmr |} in
       match List.find (fun p => String.eqb (PlayerInput.odId p) odId) allPlayers with
       | Some playerData =>
           (mmrChanges,
            playerMatchStats ++
            [{| PlayerMatchStats.odId := odId;
                PlayerMatchStats.oduid := PlayerInput.oduid playerData;
                PlayerMatchStats.team := Mmr.team playerStats;
                PlayerMatchStats.champion :=
                  Stats.champion (PlayerInput.stats playerData);
                PlayerMatchStats.role := PlayerInput.role playerData;
                PlayerMatchStats.kills := Mmr.kills playerStats;
                PlayerMatchStats.deaths := Mmr.deaths playerStats;
                PlayerMatchStats.assists := Mmr.assists playerStats;
                PlayerMatchStats.cs := Mmr.cs playerStats;
                PlayerMatchStats.damage := Mmr.damage playerStats;
                PlayerMatchStats.visionScore := Mmr.visionScore playerStats;
                PlayerMatchStats.objectiveScore := Mmr.objectiveScore playerStats;
                PlayerMatchStats.performanceScore := Mmr.performanceScore r;
                PlayerMatchStats.mmrChange := Mmr.change r |}])
       | None => (mmrChanges, playerMatchStats)
       end)
    (Mmr.allPlayerStats context) ([], []).

(** The write the batch holds for one player. *)
Definition ratingWrite (env : Env) (db : Db) (winner : Team)
    (blueTeam redTeam : list PlayerInput.t)
    (playerMmrMap : JSObject.t float) (mmrChanges : JSObject.t Change)
    (player : PlayerInput.t) : option Write :=
  let odId := PlayerInput.odId player in
  let currentMmr := mmrOf playerMmrMap odId in
  c ← JSObject.get mmrChanges odId;
  let didWin :=
    (onTeam odId blueTeam && Team_eqb winner blue)
    || (onTeam odId redTeam && Team_eqb winner red) in
  let historyEntry :=
    {| HistoryEntry.matchId := newMatchId env;
       HistoryEntry.mmrBefore := currentMmr;
       HistoryEntry.mmrAfter := newMmr c;
       HistoryEntry.change := change c;
       HistoryEntry.performanceScore := performanceScore c;
       HistoryEntry.timestamp := now env |} in
  Some
    match mmr db !! odId with
    | Some existingData =>
        let currentGamesPlayed := MmrDoc.gamesPlayed existingData in
        let currentPlacementGames := MmrDoc.placementGamesPlayed existingData in
        let currentWins := MmrDoc.wins existingData in
        let currentLosses := MmrDoc.losses existingData in
        let currentPeakMmr := orElse (MmrDoc.peakMmr existingData) currentMmr in
        batch_update odId
          {| MmrDoc.odId := odId;
             MmrDoc.mmr := newMmr c;
             MmrDoc.gamesPlayed := (currentGamesPlayed + 1)%Z;
             MmrDoc.placementGamesPlayed :=
               Z.min (currentPlacementGames + 1) Mmr.PLACEMENT_GAMES;
             MmrDoc.isPlaced :=
               (currentPlacementGames + 1 >=? Mmr.PLACEMENT_GAMES)%Z;
             MmrDoc.wins := if didWin then (currentWins + 1)%Z else currentWins;
             MmrDoc.losses := if didWin then currentLosses else (currentLosses + 1)%Z;
             MmrDoc.peakMmr := Math_max currentPeakMmr (newMmr c);
             MmrDoc.lastUpdated := now env;
             MmrDoc.history := [] |}
          historyEntry
    | None =>
        batch_set odId
          {| MmrDoc.odId := odId;
             MmrDoc.mmr := newMmr c;
             MmrDoc.gamesPlayed := 1;
             MmrDoc.placementGamesPlayed := 1;
             MmrDoc.isPlaced := (1 >=? Mmr.PLACEMENT_GAMES)%Z;
             MmrDoc.wins := if didWin then 1%Z else 0%Z;
             MmrDoc.losses := if didWin then 0%Z else 1%Z;
             MmrDoc.peakMmr := newMmr c;
             MmrDoc.lastUpdated := now env;
             MmrDoc.history := [historyEntry] |}
    end.

Definition HttpsError_of (c : ErrorCode) (m : string) : HttpsError :=
  {| code := c; message := m |}.

(** What the [catch] of the handler makes of a throw that is no
    [HttpsError]. *)
Definition failed : HttpsError :=
  HttpsError_of internal "Failed to submit match result".

(** [submitMatchResult]: [uid] is [request.auth?.uid]. *)
Definition submitMatchResult (env : Env) (uid : option string)
    (data : SubmitMatchResultData) (db : Db) : (HttpsError + Result) * Db :=
  match uid with
  | None => (inl (HttpsError_of unauthenticated "User must be authenticated"), db)
  | Some uid =>
    match winner data, blueTeam data, redTeam data with
    | Some winner, Some blueTeam, Some redTeam =>
      if negb (length blueTeam =? 5)%nat || negb (length redTeam =? 5)%nat
      then (inl (HttpsError_of invalid_argument
                               "Each team must have exactly 5 players"), db)
      else
        let allPlayers := blueTeam ++ redTeam in
        let '(playerMmrMap, playerPlacementMap) := buildMaps db allPlayers in
        let blueTeamAvgMmr := teamAverage playerMmrMap blueTeam in
        let redTeamAvgMmr := teamAverage playerMmrMap redTeam in
        let allPlayerStats :=
          map (playerStatsOf playerMmrMap blue) blueTeam
          ++ map (playerStatsOf playerMmrMap red) redTeam in
        let matchContext :=
          {| Mmr.winner := winner;
             Mmr.blueTeamAvgMmr := blueTeamAvgMmr;
             Mmr.redTeamAvgMmr := redTeamAvgMmr;
             Mmr.allPlayerStats := allPlayerStats |} in
        let matchId := newMatchId env in
        let '(mmrChanges, playerMatchStats) :=
          computeChanges matchContext playerMmrMap playerPlacementMap allPlayers in
        (* await matchRef.set({ ... }) *)
        if negb (matchSetAccepted env) then (inl failed, db)
        else
          let matchDoc :=
            {| MatchDoc.id := matchId;
               MatchDoc.createdAt := now env;
               MatchDoc.createdBy := uid;
               MatchDoc.status := "completed";
               MatchDoc.blueTeam :=
                 {| TeamSnapshot.players := map (matchPlayer playerMmrMap) blueTeam;
                    TeamSnapshot.avgMmr := blueTeamAvgMmr |};
               MatchDoc.redTeam :=
                 {| TeamSnapshot.players := map (matchPlayer playerMmrMap) redTeam;
                    TeamSnapshot.avgMmr := redTeamAvgMmr |};
               MatchDoc.winner := winner;
               MatchDoc.playerStats := playerMatchStats;
               MatchDoc.mmrProcessed := true |} in
          let db :=
            {| mmr := mmr db;
               matches := <[matchId := matchDoc]> (matches db);
               users := users db |} in
          (* const batch = db.batch(); ...; await batch.commit() *)
          match mapM (ratingWrite env db winner blueTeam redTeam
                                  playerMmrMap mmrChanges) allPlayers with
          | None => (inl failed, db)
          | Some batch =>
              match (if batchCommitAccepted env then commit (mmr db) batch
                     else None) with
              | None => (inl failed, db)
              | Some docs =>
                  (inr {| matchId := matchId;
                          mmrChanges :=
                            map (fun entry =>
                                   let '(odId, c) := entry in
                                   {| r_odId := odId;
                                      r_change := change c;
                                      r_performanceScore := performanceScore c;
                                      r_newMmr := newMmr c;
                                      r_rank := MmrRank.getRankFromMMR (newMmr c) |})
                                mmrChanges |},
                   {| mmr := docs; matches := matches db; users := users db |})
              end
          end
    | _, _, _ =>
        (inl (HttpsError_of invalid_argument "Missing required match data"), db)
    end
  end.

End WithPow.

End Match.
(** ** What a batch of rating writes leaves in [mmr] *)

Module Writes.

Import Match.

(** The document a write addresses. *)
Definition writeId (w : Write) : string :=
  match w with
  | batch_update odId _ _ | batch_set odId _ => odId
  end.

(** The document a write leaves, given the one it found. *)
Definition written (old : option MmrDoc.t) (w : Write) : option MmrDoc.t :=
  match w with
  | batch_set _ doc => Some doc
  | batch_update _ fields historyEntry =>
      match old with
      | None => None
      | Some old =>
          Some {| MmrDoc.odId := MmrDoc.odId old;
                  MmrDoc.mmr := MmrDoc.mmr fields;
                  MmrDoc.gamesPlayed := MmrDoc.gamesPlayed fields;
                  MmrDoc.placementGamesPlayed := MmrDoc.placementGamesPlayed fields;
                  MmrDoc.isPlaced := MmrDoc.isPlaced fields;
                  MmrDoc.wins := MmrDoc.wins fields;
                  MmrDoc.losses := MmrDoc.losses fields;
                  MmrDoc.peakMmr := MmrDoc.peakMmr fields;
                  MmrDoc.lastUpdated := MmrDoc.lastUpdated fields;
                  MmrDoc.history :=
                    historyUnion (MmrDoc.history old) historyEntry |}
      end
  end.

(** The rating [submitMatchResult] takes a player to have before the
    match: the stored one, 800 if that is falsy, or the seed of the
    player's Riot ranks when there is no rating document. *)
Definition ratingBefore (db : Db) (odId : string) : float :=
  match mmr db !! odId with
  | None => MmrRank.getInitialMMR (ranksOf (users db !! odId))
  | Some mmrData => orElse (MmrDoc.mmr mmrData) 800
  end.

(** The team of the submission. *)
Definition teamOf (team : Types.Team) (blueTeam redTeam : list PlayerInput.t)
  : list PlayerInput.t :=
  match team with Types.blue => blueTeam | Types.red => redTeam end.

(** A rating [applyMMRChange] returns: NaN, or one between [MIN_MMR]
    and [MAX_MMR]. *)
Definition clamped (rating : float) : Prop :=
  JS.isNaN rating = true
  \/ (Mmr.MIN_MMR <=? rating)%float = true
     /\ (rating <=? Mmr.MAX_MMR)%float = true.

End Writes.

(** ** Seeding a rating: [initializePlayerMMR] *)

Module Seeding.

Import Types Match.

(** The clock, and whether the store accepts the [set] the function
    awaits. *)
Record Env := {
  now : Z;
  mmrSetAccepted : bool
}.

(** The two replies: [{ mmr: mmrDoc.data(), alreadyExists: true }] and
    [{ mmr: { ...mmrData, rank } }].  In the second the reply's
    [lastUpdated] is the [serverTimestamp] sentinel; it is shown as
    the time the stored field resolves to. *)
Inductive Initialized :=
| alreadyExists (mmr : MmrDoc.t)
| seeded (mmr : MmrDoc.t) (rank : string).

Definition initializePlayerMMR (env : Env) (uid : option string) (db : Db)
  : (HttpsError + Initialized) * Db :=
  match uid with
  | None => (inl (HttpsError_of unauthenticated "User must be authenticated"), db)
  | Some userId =>
      match mmr db !! userId with
      | Some mmrData => (inr (alreadyExists mmrData), db)
      | None =>
          match users db !! userId with
          | None => (inl (HttpsError_of not_found "User profile not found"), db)
          | Some userData =>
              let ranks := ranksOf (Some userData) in
              let initialMmr := MmrRank.getInitialMMR ranks in
              let mmrData :=
                {| MmrDoc.odId := userId;
                   MmrDoc.mmr := initialMmr;
                   MmrDoc.gamesPlayed := 0;
                   MmrDoc.placementGamesPlayed := 0;
                   MmrDoc.isPlaced := false;
                   MmrDoc.wins := 0;
                   MmrDoc.losses := 0;
                   MmrDoc.peakMmr := initialMmr;
                   MmrDoc.lastUpdated := now env;
                   MmrDoc.history := [] |} in
              if negb (mmrSetAccepted env)
              then (inl (HttpsError_of internal "Failed to initialize MMR"), db)
              else
                (inr (seeded mmrData (MmrRank.getRankFromMMR initialMmr)),
                 {| mmr := <[userId := mmrData]> (mmr db);
                    matches := matches db;
                    users := users db |})
          end
      end
  end.

End Seeding.


(** ** Concrete data *)

(** The end-to-end scenario of the specification: ten players, two per
    role, queued in role order; the draft they form; the readied
    session; the session after six bans and ten picks. *)
Module Examples.

Import Types.

Definition entry (id : string) (role : string) (mmr joinedAt : Z) : QueueDoc.t :=
  {| QueueDoc.id := id;
     QueueDoc.data :=
       {| QueueEntry.odId := id;
          QueueEntry.oduid := id;
          QueueEntry.displayName := ("player-" ++ id)%string;
          QueueEntry.photoURL := None;
          QueueEntry.role := role;
          QueueEntry.mmr := mmr;
          QueueEntry.region := "euw1";
          QueueEntry.joinedAt := joinedAt |} |}.

Definition queue10 : list QueueDoc.t :=
  [ entry "u01" "top" 1000 1; entry "u02" "top" 1200 2;
    entry "u03" "jungle" 900 3; entry "u04" "jungle" 1100 4;
    entry "u05" "mid" 1500 5; entry "u06" "mid" 1450 6;
    entry "u07" "adc" 800 7; entry "u08" "adc" 1300 8;
    entry "u09" "support" 1000 9; entry "u10" "support" 1000 10 ].

(** The ten players [tryMatchPlayers] selects from it. *)
Definition selected : list Player.t :=
  Eval vm_compute in Matchmaking.selectPlayers (Matchmaking.groupQueue queue10).

(** A queue with three equally rated top players: in the order the
    store returns them (by document id) the first joined last. *)
Definition queueTie : list QueueDoc.t :=
  [ entry "u01" "top" 1000 30; entry "u02" "top" 1000 10;
    entry "u03" "top" 1000 20;
    entry "u04" "jungle" 900 3; entry "u05" "jungle" 1100 4;
    entry "u06" "mid" 1500 5; entry "u07" "mid" 1450 6;
    entry "u08" "adc" 800 7; entry "u09" "adc" 1300 8;
    entry "u10" "support" 1000 9; entry "u11" "support" 1000 11 ].

Definition formed : option Matchmaking.Formed :=
  Matchmaking.formMatch "draft0001abc" 1000 queue10.

(** The draft document of the scenario. *)
Definition created : DraftSession.t :=
  Eval vm_compute in
    match formed as o
          return match o with Some _ => DraftSession.t | None => unit end with
    | Some f => Matchmaking.draftData f
    | None => tt
    end.

(** A [setDraftReady] by [userId] on the document [d]. *)
Definition applyReady (now : Z) (d : DraftSession.t) (userId : string)
  : DraftSession.t :=
  match Draft.setDraftReady_doc userId now d with
  | inr (u, _) => Draft.update d u
  | inl _ => d
  end.

(** A [makeDraftAction] by [userId] with a champion on the document [d]. *)
Definition applyAction (now : Z) (d : DraftSession.t) (call : string * string)
  : DraftSession.t :=
  let req := {| Draft.draftId := DraftSession.id d;
                Draft.championId := snd call;
                Draft.championName := snd call |} in
  match Draft.makeDraftAction_tx (fst call) req now "k3j9x0qa" d with
  | inr (u, _) => Draft.update d u
  | inl _ => d
  end.

Definition participants : list string := map QueueDoc.id queue10.

(** All ten players have readied: the session is in [banning]. *)
Definition readied : DraftSession.t :=
  Eval vm_compute in fold_left (applyReady 2000) participants created.

(** Sixteen submissions with distinct champions, each by a player of the
    team whose turn it is. *)
Definition calls (blueId redId : string) : list (string * string) :=
  [ (blueId, "Aatrox"); (redId, "Ahri"); (blueId, "Akali"); (redId, "Alistar");
    (blueId, "Amumu"); (redId, "Anivia");
    (blueId, "Ashe"); (redId, "Bard"); (redId, "Braum"); (blueId, "Caitlyn");
    (blueId, "Camille"); (redId, "Darius"); (redId, "Diana"); (blueId, "Draven");
    (blueId, "Ekko"); (redId, "Elise") ]%string.

Definition bluePlayer : string :=
  Eval vm_compute in
    match DraftSession.blueTeam created with
    | p :: _ => DraftPlayer.odId p
    | [] => ""%string
    end.

Definition redPlayer : string :=
  Eval vm_compute in
    match DraftSession.redTeam created with
    | p :: _ => DraftPlayer.odId p
    | [] => ""%string
    end.

(** The session after the sixteen submissions. *)
Definition drafted : DraftSession.t :=
  Eval vm_compute in fold_left (applyAction 3000) (calls bluePlayer redPlayer) readied.

(** Nine of the ten players have readied; the last, u10, has not. *)
Definition nineReady : DraftSession.t :=
  Eval vm_compute in fold_left (applyReady 2000) (take 9 participants) created.

(** u10 sends [setDraftReady] twice.  Both calls read [nineReady]; the
    write of the first lands at once and the session goes on to
    [drafted]; the write of the second lands then. *)
Definition reopened : DraftSession.t :=
  Eval vm_compute in Overlap.landReady "u10" 2001 nineReady drafted.

(** u02 and u01 send [setDraftReady] together.  Both calls read
    [created]; u01's write lands first, u02's second. *)
Definition flagLost : DraftSession.t :=
  Eval vm_compute in
    Overlap.landReady "u02" 2001 created (applyReady 2000 created "u01").

(** *** The rating scenario *)

(** A stand-in for [Math.pow] that agrees with it on a zero exponent,
    where ECMAScript fixes the result to be 1. *)
Definition pow0 (base exponent : float) : float :=
  if (exponent =? 0)%float then 1%float else base.

(** Ten players with the same statistics, all rated 1000: everyone's
    performance is the match average. *)
Definition averagePlayer (id : string) (t : Team) : Mmr.PlayerStats :=
  {| Mmr.odId := id; Mmr.team := t;
     Mmr.kills := 5; Mmr.deaths := 5; Mmr.assists := 5; Mmr.cs := 200;
     Mmr.damage := 20000; Mmr.visionScore := 30; Mmr.objectiveScore := 5;
     Mmr.mmrAtTime := 1000 |}.

Definition averageMatch : list Mmr.PlayerStats :=
  map (fun id => averagePlayer id blue) ["u01"; "u02"; "u03"; "u04"; "u05"]%string
  ++ map (fun id => averagePlayer id red) ["u06"; "u07"; "u08"; "u09"; "u10"]%string.

Definition averageContext (winner : Team) : Mmr.MatchContext :=
  {| Mmr.winner := winner;
     Mmr.blueTeamAvgMmr := 1000;
     Mmr.redTeamAvgMmr := 1000;
     Mmr.allPlayerStats := averageMatch |}.

(** The same match with one player a little above the average. *)
Definition goodPlayer : Mmr.PlayerStats :=
  {| Mmr.odId := "u01"; Mmr.team := blue;
     Mmr.kills := 6; Mmr.deaths := 5; Mmr.assists := 5; Mmr.cs := 200;
     Mmr.damage := 21000; Mmr.visionScore := 30; Mmr.objectiveScore := 5;
     Mmr.mmrAtTime := 1000 |}.

Definition goodContext : Mmr.MatchContext :=
  {| Mmr.winner := blue;
     Mmr.blueTeamAvgMmr := 1000;
     Mmr.redTeamAvgMmr := 1000;
     Mmr.allPlayerStats := goodPlayer :: tl averageMatch |}.

(** A match whose kill counts overflow binary64 when summed. *)
Definition overflowPlayer (id : string) (t : Team) : Mmr.PlayerStats :=
  {| Mmr.odId := id; Mmr.team := t;
     Mmr.kills := 1.7e308; Mmr.deaths := 0; Mmr.assists := 5; Mmr.cs := 200;
     Mmr.damage := 20000; Mmr.visionScore := 30; Mmr.objectiveScore := 5;
     Mmr.mmrAtTime := 1000 |}.

Definition overflowMatch : list Mmr.PlayerStats :=
  map (fun id => overflowPlayer id blue) ["u01"; "u02"; "u03"; "u04"; "u05"]%string
  ++ map (fun id => overflowPlayer id red) ["u06"; "u07"; "u08"; "u09"; "u10"]%string.

(** A match of finite statistics whose sums are finite too: one
    player with 100 kills and 2^-1063 deaths (the number 1.012e-320),
    nine players with no kill, death or assist. *)
Definition tinyDeathsPlayer : Mmr.PlayerStats :=
  {| Mmr.odId := "u01"; Mmr.team := blue;
     Mmr.kills := 100; Mmr.deaths := 0x1p-1063; Mmr.assists := 0; Mmr.cs := 200;
     Mmr.damage := 20000; Mmr.visionScore := 30; Mmr.objectiveScore := 5;
     Mmr.mmrAtTime := 1000 |}.

Definition idlePlayer (id : string) (t : Team) : Mmr.PlayerStats :=
  {| Mmr.odId := id; Mmr.team := t;
     Mmr.kills := 0; Mmr.deaths := 0; Mmr.assists := 0; Mmr.cs := 200;
     Mmr.damage := 20000; Mmr.visionScore := 30; Mmr.objectiveScore := 5;
     Mmr.mmrAtTime := 1000 |}.

Definition tinyDeathsMatch : list Mmr.PlayerStats :=
  tinyDeathsPlayer
    :: map (fun id => idlePlayer id blue) ["u02"; "u03"; "u04"; "u05"]%string
  ++ map (fun id => idlePlayer id red) ["u06"; "u07"; "u08"; "u09"; "u10"]%string.

Definition tinyDeathsContext : Mmr.MatchContext :=
  {| Mmr.winner := blue;
     Mmr.blueTeamAvgMmr := 1000;
     Mmr.redTeamAvgMmr := 1000;
     Mmr.allPlayerStats := tinyDeathsMatch |}.

(** *** A match submission *)

Definition playerInput (id : string) : PlayerInput.t :=
  {| PlayerInput.odId := id;
     PlayerInput.oduid := id;
     PlayerInput.displayName := ("player-" ++ id)%string;
     PlayerInput.role := "mid";
     PlayerInput.stats :=
       {| Stats.champion := "Ahri";
          Stats.kills := 5; Stats.deaths := 5; Stats.assists := 5;
          Stats.cs := 200; Stats.damage := 20000;
          Stats.visionScore := 30; Stats.objectiveScore := 5 |} |}.

Definition submission : Match.SubmitMatchResultData :=
  {| Match.winner := Some blue;
     Match.blueTeam :=
       Some (map playerInput ["u01"; "u02"; "u03"; "u04"; "u05"]%string);
     Match.redTeam :=
       Some (map playerInput ["u06"; "u07"; "u08"; "u09"; "u10"]%string) |}.

(** A placed player rated 1000 with twenty games. *)
Definition ratingDoc (id : string) : MmrDoc.t :=
  {| MmrDoc.odId := id;
     MmrDoc.mmr := 1000;
     MmrDoc.gamesPlayed := 20;
     MmrDoc.placementGamesPlayed := 5;
     MmrDoc.isPlaced := true;
     MmrDoc.wins := 10;
     MmrDoc.losses := 10;
     MmrDoc.peakMmr := 1000;
     MmrDoc.lastUpdated := 0;
     MmrDoc.history := [] |}.

Definition ratings : gmap string MmrDoc.t :=
  list_to_map
    (map (fun id => (id, ratingDoc id))
         ["u01"; "u02"; "u03"; "u04"; "u05";
          "u06"; "u07"; "u08"; "u09"; "u10"]%string).

Definition ratingDb : Match.Db :=
  {| Match.mmr := ratings; Match.matches := ∅; Match.users := ∅ |}.

(** The store accepts [matchRef.set] and rejects [batch.commit]. *)
Definition commitRejected : Match.Env :=
  {| Match.now := 5000;
     Match.newMatchId := "match0001";
     Match.matchSetAccepted := true;
     Match.batchCommitAccepted := false |}.

(** The store accepts both writes. *)
Definition allAccepted : Match.Env :=
  {| Match.now := 5000;
     Match.newMatchId := "match0001";
     Match.matchSetAccepted := true;
     Match.batchCommitAccepted := true |}.

End Examples.
(** ** The order and the sign of binary64 numbers *)

Module Numbers.

(** The position of a number on the extended line: the class
    (negative infinity, negative, zero, positive, positive infinity),
    then exponent and mantissa, negated for a negative number. *)
Definition key (x : spec_float) : Z * Z * Z :=
  match x with
  | S754_infinity true => (-2, 0, 0)
  | S754_finite true m e => (-1, - e, Z.neg m)
  | S754_zero _ | S754_nan => (0, 0, 0)
  | S754_finite false m e => (1, e, Z.pos m)
  | S754_infinity false => (2, 0, 0)
  end.

Definition lexCompare (a b : Z * Z * Z) : comparison :=
  let '(a1, a2, a3) := a in
  let '(b1, b2, b3) := b in
  match a1 ?= b1 with
  | Eq => match a2 ?= b2 with
          | Eq => a3 ?= b3
          | c => c
          end
  | c => c
  end.

(** The number is not NaN and its sign bit is [s]. *)
Definition signIs (s : bool) (x : spec_float) : Prop :=
  match x with
  | S754_zero sx | S754_infinity sx | S754_finite sx _ _ => sx = s
  | S754_nan => False
  end.

(** The number is finite and not a zero. *)
Definition finiteNonzero (x : spec_float) : Prop :=
  match x with
  | S754_finite _ _ _ => True
  | _ => False
  end.

End Numbers.

(** ** Strings *)

Module Text.

(** The string holds ASCII characters only.  On such strings
    [MmrRank.toUpperCase] is [String.prototype.toUpperCase], and
    [substring 0 n] is [slice(0, n)]: a JavaScript string counts
    UTF-16 code units, a string here bytes. *)
Definition isASCII (s : string) : bool :=
  forallb (fun c => (Ascii.nat_of_ascii c <? 128)%nat) (list_ascii_of_string s).

End Text.

(** ** The queue and the store as a whole: [joinQueue], [leaveQueue],
    [getQueueStatus], [getDraft], [getActiveDraft] *)

(** A document of [users], as far as [joinQueue] reads it. *)
Module Profile.
Record t := {
  uid : string;
  displayName : string;
  photoURL : option string
}.
End Profile.

Module Queue.

Import Types Draft.

(** A query snapshot of a collection: its documents in the order of
    their ids, which is the order Firestore returns them in when the
    query asks for none. *)
Fixpoint insertDoc {A} (doc : string * A) (docs : list (string * A))
  : list (string * A) :=
  match docs with
  | [] => [doc]
  | d :: docs' =>
      if String.leb (fst doc) (fst d) then doc :: docs
      else d :: insertDoc doc docs'
  end.

Definition snapshot {A} (collection : gmap string A) : list (string * A) :=
  foldr insertDoc [] (map_to_list collection).

(** The collections the queue functions read and write.  Of a rating
    document only the [mmr] field is read, integer valued as in the
    queue entries. *)
Record State := {
  queue : gmap string QueueEntry.t;
  drafts : gmap string DraftSession.t;
  users : gmap string Profile.t;
  mmr : gmap string Z
}.

(** What a call takes from its surroundings: the clock, the id of
    [db.collection('drafts').doc()], and whether the store accepts the
    writes the functions await. *)
Record Env := {
  now : Z;
  newDraftId : string;
  queueSetAccepted : bool;
  batchCommitAccepted : bool;
  deleteAccepted : bool
}.

(** [db.collection('queue').get()] *)
Definition queueDocs (queue : gmap string QueueEntry.t) : list QueueDoc.t :=
  map (fun doc => {| QueueDoc.id := fst doc; QueueDoc.data := snd doc |})
      (snapshot queue).

(** [db.collection('drafts')
       .where('status', 'in', ['waiting', 'banning', 'picking']).get()] *)
Definition activeDrafts (drafts : gmap string DraftSession.t)
  : list (string * DraftSession.t) :=
  List.filter (fun doc => live (DraftSession.status (snd doc))) (snapshot drafts).

(** The writes of the batch of [tryMatchPlayers]: the draft document
    is set and the queue documents of the selected players are
    deleted. *)
Definition commitMatch (draftId : string) (formed : Matchmaking.Formed) (s : State)
  : State :=
  {| queue :=
       fold_left (fun queue player => delete (Player.odId player) queue)
                 (Matchmaking.selectedPlayers formed) (queue s);
     drafts := <[draftId := Matchmaking.draftData formed]> (drafts s);
     users := users s;
     mmr := mmr s |}.

(** [tryMatchPlayers]: the draft id it returns, if a match was found;
    [None] is a throw, when the store rejects the batch. *)
Definition tryMatchPlayers (env : Env) (s : State) : option (option string * State) :=
  match Matchmaking.formMatch (newDraftId env) (now env) (queueDocs (queue s)) with
  | None => Some (None, s)
  | Some formed =>
      if negb (batchCommitAccepted env) then None
      else Some (Some (newDraftId env), commitMatch (newDraftId env) formed s)
  end.

Record JoinQueueData := { role : string; region : string }.

Record JoinResult := {
  inQueue : bool;
  matchFound : bool;
  draftId : option string
}.

(** [mmrDoc.exists ? mmrDoc.data()?.mmr || 800 : 800] *)
Definition queueMmr (s : State) (userId : string) : Z :=
  match mmr s !! userId with
  | Some rating => if rating =? 0 then 800 else rating
  | None => 800
  end.

(** [allPlayers.some(p => p.odId === userId)] for some active draft *)
Definition inActiveDraft (userId : string) (s : State) : bool :=
  existsb (fun doc =>
             isMember userId (DraftSession.blueTeam (snd doc)
                              ++ DraftSession.redTeam (snd doc)))
          (activeDrafts (drafts s)).

(** [db.collection('queue').where('odId', '==', userId).limit(1)] is
    not empty. *)
Definition alreadyQueued (userId : string) (s : State) : bool :=
  existsb (fun doc => String.eqb (QueueEntry.odId (snd doc)) userId)
          (snapshot (queue s)).

Definition joinQueue (env : Env) (request : Request JoinQueueData) (s : State)
  : (HttpsError + JoinResult) * State :=
  match auth request with
  | None => (inl (HttpsError_of unauthenticated "User must be authenticated"), s)
  | Some userId =>
    let role := role (data request) in
    let region := region (data request) in
    if negb (truthy role) || negb (truthy region)
    then (inl (HttpsError_of invalid_argument "Role and region are required"), s)
    else
    match PlayerRole_of_string role with
    | None => (inl (HttpsError_of invalid_argument "Invalid role"), s)
    | Some _ =>
    if alreadyQueued userId s
    then (inl (HttpsError_of already_exists "Already in queue"), s)
    else if inActiveDraft userId s
    then (inl (HttpsError_of failed_precondition "Already in an active draft"), s)
    else
      match users s !! userId with
      | None => (inl (HttpsError_of not_found "User profile not found"), s)
      | Some userData =>
          let queueEntry :=
            {| QueueEntry.odId := userId;
               QueueEntry.oduid := Profile.uid userData;
               QueueEntry.displayName := Profile.displayName userData;
               QueueEntry.photoURL :=
                 if truthy_opt (Profile.photoURL userData)
                 then Profile.photoURL userData else None;
               QueueEntry.role := role;
               QueueEntry.mmr := queueMmr s userId;
               QueueEntry.region := region;
               QueueEntry.joinedAt := now env |} in
          if negb (queueSetAccepted env)
          then (inl (HttpsError_of internal "Failed to join queue"), s)
          else
            let s :=
              {| queue := <[userId := queueEntry]> (queue s);
                 drafts := drafts s; users := users s; mmr := mmr s |} in
            match tryMatchPlayers env s with
            | None => (inl (HttpsError_of internal "Failed to join queue"), s)
            | Some (matchResult, s) =>
                (inr {| inQueue := true;
                        matchFound := bool_decide (is_Some matchResult);
                        draftId := matchResult |}, s)
            end
      end
    end
  end.

Definition leaveQueue (env : Env) (request : Request unit) (s : State)
  : (HttpsError + unit) * State :=
  match auth request with
  | None => (inl (HttpsError_of unauthenticated "User must be authenticated"), s)
  | Some userId =>
      if negb (deleteAccepted env)
      then (inl (HttpsError_of internal "Failed to leave queue"), s)
      else (inr tt,
            {| queue := delete userId (queue s);
               drafts := drafts s; users := users s; mmr := mmr s |})
  end.

Record QueueStatus := {
  s_inQueue : bool;
  s_queueEntry : option QueueEntry.t;
  s_playersInQueue : nat;
  s_roleCount : PlayerRole -> nat
}.

(** [getQueueStatus]; of [roleCount] the counters of the five roles. *)
Definition getQueueStatus (request : Request unit) (s : State)
  : HttpsError + QueueStatus :=
  match auth request with
  | None => inl (HttpsError_of unauthenticated "User must be authenticated")
  | Some userId =>
      let queueEntry := queue s !! userId in
      let queueSnapshot := queueDocs (queue s) in
      let roleCount :=
        fold_left
          (fun (roleCount : PlayerRole -> nat) doc =>
             match PlayerRole_of_string (QueueEntry.role (QueueDoc.data doc)) with
             | Some role =>
                 fun r => if PlayerRole_eqb r role then S (roleCount r)
                          else roleCount r
             | None => roleCount
             end)
          queueSnapshot (fun _ => 0%nat) in
      inr {| s_inQueue := bool_decide (is_Some queueEntry);
             s_queueEntry := queueEntry;
             s_playersInQueue := length queueSnapshot;
             s_roleCount := roleCount |}
  end.

Definition getDraft (request : Request string) (s : State)
  : HttpsError + DraftSession.t :=
  match auth request with
  | None => inl (HttpsError_of unauthenticated "User must be authenticated")
  | Some _ =>
      let draftId := data request in
      if negb (truthy draftId)
      then inl (HttpsError_of invalid_argument "Draft ID is required")
      else
        match drafts s !! draftId with
        | None => inl (HttpsError_of not_found "Draft not found")
        | Some draft => inr draft
        end
  end.


(** *** The store over time *)

Definition withDrafts (s : State) (drafts : gmap string DraftSession.t) : State :=
  {| queue := queue s; drafts := drafts; users := users s; mmr := mmr s |}.

(** A call of a function that writes to [queue] or [drafts]; profiles
    and ratings are written by other functions, which is [other]. *)
Inductive Call :=
| callJoinQueue (env : Env) (request : Request JoinQueueData)
| callLeaveQueue (env : Env) (request : Request unit)
| callSetDraftReady (now : Z) (request : Request string)
| callMakeDraftAction (now : Z) (random : string) (request : Request DraftActionData)
| callTimeoutDraftAction (now : Z) (request : Request string)
| other (users : gmap string Profile.t) (mmr : gmap string Z).

(** The store after the call, whatever the call returned. *)
Definition run (s : State) (call : Call) : State :=
  match call with
  | callJoinQueue env request => snd (joinQueue env request s)
  | callLeaveQueue env request => snd (leaveQueue env request s)
  | callSetDraftReady now request =>
      withDrafts s (snd (setDraftReady now request (drafts s)))
  | callMakeDraftAction now random request =>
      withDrafts s (snd (makeDraftAction now random request (drafts s)))
  | callTimeoutDraftAction now request =>
      withDrafts s (snd (timeoutDraftAction now request (drafts s)))
  | other users mmr =>
      {| queue := queue s; drafts := drafts s; users := users; mmr := mmr |}
  end.

(** The store before the first call: nobody queued, no draft. *)
Definition init (users : gmap string Profile.t) (mmr : gmap string Z) : State :=
  {| queue := ∅; drafts := ∅; users := users; mmr := mmr |}.

(** The store after a sequence of calls that run one after the
    other. *)
Definition after (calls : list Call) (s : State) : State := fold_left run calls s.


(** The ids of the players of a draft. *)
Definition playerIds (d : DraftSession.t) : list string :=
  map DraftPlayer.odId (DraftSession.blueTeam d ++ DraftSession.redTeam d).

End Queue.

Module QueueInv.
Import Types Draft Queue.

(** Nobody is in two places: a queue document carries the id of its
    player; the players of an active draft are not queued, are in no
    other active draft, and are ten different players. *)
Definition exclusive (s : State) : Prop :=
  (forall k e, queue s !! k = Some e -> QueueEntry.odId e = k)
  /\ (forall k d id,
        drafts s !! k = Some d -> live (DraftSession.status d) = true ->
        id ∈ playerIds d -> queue s !! id = None)
  /\ (forall k1 k2 d1 d2 id,
        drafts s !! k1 = Some d1 -> drafts s !! k2 = Some d2 ->
        live (DraftSession.status d1) = true ->
        live (DraftSession.status d2) = true ->
        id ∈ playerIds d1 -> id ∈ playerIds d2 -> k1 = k2)
  /\ (forall k d, drafts s !! k = Some d -> NoDup (playerIds d)).

(** What the three draft functions do to the collection: nothing, or
    one transition of one session. *)
Definition oneStep (db db' : Drafts) : Prop :=
  db' = db
  \/ exists k d d', db !! k = Some d /\ Draft.step d d' /\ db' = <[k := d']> db.

(** The role a queue document counts for. *)
Definition roleOf (doc : QueueDoc.t) : option PlayerRole :=
  PlayerRole_of_string (QueueEntry.role (QueueDoc.data doc)).


End QueueInv.

(** ** The record of a session *)

Module Record.
Import Types Draft.

(** The champions of the ban actions, in the order of the actions. *)
Definition bansOf (actions : list DraftAction.t) : list string :=
  omap (fun a => match DraftAction.type a with
                 | ban => DraftAction.championId a
                 | pick => None
                 end) actions.

(** The actions from index [k] on as [createDraftActions] made them,
    the first of them active. *)
Definition pending (k : nat) : list DraftAction.t :=
  alter activate 0%nat (drop k Matchmaking.createDraftActions).

(** The action is the template's action [t], resolved. *)
Definition resolvedAs (a t : DraftAction.t) : Prop :=
  exists championId championName now, a = resolve championId championName now t.

(** What a session's record looks like, by status. *)
Definition shape (d : DraftSession.t) : Prop :=
  match DraftSession.status d with
  | waiting =>
      DraftSession.currentPhase d = 0%nat
      /\ DraftSession.actions d = Matchmaking.createDraftActions
      /\ DraftSession.bannedChampions d = []
      /\ DraftSession.phaseType d = ban
      /\ DraftSession.currentTeam d = blue
      /\ DraftSession.lobbyName d = None
      /\ DraftSession.lobbyPassword d = None
  | banning | picking =>
      exists done t,
        let k := DraftSession.currentPhase d in
        Matchmaking.createDraftActions !! k = Some t
        /\ length done = k
        /\ DraftSession.actions d = done ++ pending k
        /\ Forall2 resolvedAs done (take k Matchmaking.createDraftActions)
        /\ DraftSession.bannedChampions d = bansOf done
        /\ DraftSession.phaseType d = DraftAction.type t
        /\ DraftSession.currentTeam d = DraftAction.team t
        /\ (DraftSession.status d = banning <-> DraftAction.type t = ban)
        /\ DraftSession.lobbyName d = None
        /\ DraftSession.lobbyPassword d = None
  | completed =>
      Forall2 resolvedAs (DraftSession.actions d) Matchmaking.createDraftActions
      /\ DraftSession.bannedChampions d = bansOf (DraftSession.actions d)
      /\ DraftSession.currentPhase d = 15%nat
      /\ is_Some (DraftSession.lobbyName d)
      /\ is_Some (DraftSession.lobbyPassword d)
  | cancelled => True
  end.

(** The record of a session with decisions still to make: the actions
    before the current index are resolved, the others are as
    [createDraftActions] made them, the first of them active. *)
Definition unfinished (d : DraftSession.t) : Prop :=
  exists done t,
    let k := DraftSession.currentPhase d in
    Matchmaking.createDraftActions !! k = Some t
    /\ length done = k
    /\ DraftSession.actions d = done ++ pending k
    /\ Forall2 resolvedAs done (take k Matchmaking.createDraftActions)
    /\ DraftSession.bannedChampions d = bansOf done
    /\ DraftSession.phaseType d = DraftAction.type t
    /\ DraftSession.currentTeam d = DraftAction.team t
    /\ DraftSession.lobbyName d = None
    /\ DraftSession.lobbyPassword d = None.

(** The record of a session whose sixteen decisions are made. *)
Definition finished (d : DraftSession.t) : Prop :=
  Forall2 resolvedAs (DraftSession.actions d) Matchmaking.createDraftActions
  /\ DraftSession.bannedChampions d = bansOf (DraftSession.actions d)
  /\ DraftSession.currentPhase d = 15%nat
  /\ DraftSession.phaseType d = pick
  /\ DraftSession.currentTeam d = red
  /\ is_Some (DraftSession.lobbyName d)
  /\ is_Some (DraftSession.lobbyPassword d).

(** What a session's record looks like whatever its status, and what
    its status tells of the record. *)
Definition recorded (d : DraftSession.t) : Prop :=
  unfinished d
  /\ DraftSession.status d <> completed
  /\ (DraftSession.status d = waiting -> DraftSession.currentPhase d = 0%nat)
  /\ (DraftSession.status d = picking -> (6 <= DraftSession.currentPhase d)%nat)
  \/
  finished d
  /\ DraftSession.status d <> waiting
  /\ DraftSession.status d <> picking.

End Record.

Module Seats.
Import Types Draft Record.

(** The champions a team has picked, in the order of the actions. *)
Definition picksOf (team : Team) (actions : list DraftAction.t) : list string :=
  omap (fun a => match DraftAction.type a with
                 | pick => if Team_eqb (DraftAction.team a) team
                           then DraftAction.championId a else None
                 | ban => None
                 end) actions.

(** Each team has five players, and its picks sit with its players in
    the order of the roster: the first pick with the first player. *)
Definition seated (d : DraftSession.t) : Prop :=
  forall team,
    let picks := picksOf team (DraftSession.actions d) in
    length (roster team d) = 5%nat
    /\ map DraftPlayer.championId (roster team d)
       = map Some picks ++ repeat None (5 - length picks).

(** Each team has five players, and none of them holds a champion. *)
Definition unseated (d : DraftSession.t) : Prop :=
  forall team,
    length (roster team d) = 5%nat
    /\ Forall (fun p => DraftPlayer.championId p = None) (roster team d).

(** Each team has five players, and all its picks but the first [n]
    sit with its players in the order of the roster, for some [n]: the
    picks made since the rosters were last written by
    [setDraftReady]. *)
Definition seatedSince (d : DraftSession.t) : Prop :=
  forall team,
    let picks := picksOf team (DraftSession.actions d) in
    length (roster team d) = 5%nat
    /\ exists n,
        (n <= length picks)%nat
        /\ map DraftPlayer.championId (roster team d)
           = map Some (drop n picks) ++ repeat None (5 - (length picks - n)).

(** Every champion id the actions hold is a non-empty string. *)
Definition named (d : DraftSession.t) : Prop :=
  Forall (fun a => forall c, DraftAction.championId a = Some c -> truthy c = true)
         (DraftSession.actions d).

(** What [makeDraftAction] names the lobby of the draft [draftId]. *)
Definition lobbyOf (draftId : string) : string :=
  ("Drafty-" ++ substring 0 8 draftId)%string.

(** What holds of every draft document of the store. *)
Definition kept (draftId : string) (d : DraftSession.t) : Prop :=
  Draft.reachable d /\ seated d /\ named d
  /\ (DraftSession.lobbyName d = None
      \/ DraftSession.lobbyName d = Some (lobbyOf draftId)).

(** Every draft document of the store is kept. *)
Definition allKept (s : Queue.State) : Prop :=
  forall k d, Queue.drafts s !! k = Some d -> kept k d.

End Seats.

(** ** The cast of a draft *)

Module Cast.

Import Types Draft.

(** The same player: everything but the ready flag and the champion. *)
Definition samePlayer (p p' : DraftPlayer.t) : Prop :=
  DraftPlayer.odId p' = DraftPlayer.odId p
  /\ DraftPlayer.oduid p' = DraftPlayer.oduid p
  /\ DraftPlayer.displayName p' = DraftPlayer.displayName p
  /\ DraftPlayer.photoURL p' = DraftPlayer.photoURL p
  /\ DraftPlayer.role p' = DraftPlayer.role p
  /\ DraftPlayer.team p' = DraftPlayer.team p
  /\ DraftPlayer.mmr p' = DraftPlayer.mmr p.

(** The same draft with the same players in the same seats. *)
Definition sameCast (d d' : DraftSession.t) : Prop :=
  DraftSession.id d' = DraftSession.id d
  /\ DraftSession.createdAt d' = DraftSession.createdAt d
  /\ DraftSession.blueTeamAvgMmr d' = DraftSession.blueTeamAvgMmr d
  /\ DraftSession.redTeamAvgMmr d' = DraftSession.redTeamAvgMmr d
  /\ forall team, Forall2 samePlayer (roster team d) (roster team d').

(** What a call on the draft [draftId] may do to [drafts]. *)
Definition touchesOnly (draftId : string) (db db' : Drafts) : Prop :=
  (forall k, k <> draftId -> db' !! k = db !! k)
  /\ (forall k, is_Some (db' !! k) <-> is_Some (db !! k))
  /\ (forall d d', db !! draftId = Some d -> db' !! draftId = Some d' ->
                   sameCast d d').

End Cast.

(** ** The scenario as calls on the store *)

Module Scenario.

Import Types Draft Queue.

Definition ids : list string :=
  ["u01"; "u02"; "u03"; "u04"; "u05"; "u06"; "u07"; "u08"; "u09"; "u10"]%string.

Definition profile (id : string) : Profile.t :=
  {| Profile.uid := id;
     Profile.displayName := ("player-" ++ id)%string;
     Profile.photoURL := None |}.

Definition profiles : gmap string Profile.t :=
  list_to_map (map (fun id => (id, profile id)) ids).

(** The ratings of [Examples.queue10]. *)
Definition ratings : gmap string Z :=
  list_to_map
    [ ("u01", 1000); ("u02", 1200); ("u03", 900); ("u04", 1100); ("u05", 1500);
      ("u06", 1450); ("u07", 800); ("u08", 1300); ("u09", 1000);
      ("u10", 1000) ]%string.

(** The store accepts every write; the next draft id is that of the
    scenario. *)
Definition env (now : Z) : Env :=
  {| now := now;
     newDraftId := "draft0001abc";
     queueSetAccepted := true;
     batchCommitAccepted := true;
     deleteAccepted := true |}.


Definition joinRequest (id role : string) : Request JoinQueueData :=
  {| auth := Some id; data := {| role := role; region := "euw1" |} |}.

Definition join (id role : string) (now : Z) : Call :=
  callJoinQueue (env now) (joinRequest id role).

(** The first nine players join. *)
Definition nineJoins : list Call :=
  [ join "u01" "top" 1; join "u02" "top" 2;
    join "u03" "jungle" 3; join "u04" "jungle" 4;
    join "u05" "mid" 5; join "u06" "mid" 6;
    join "u07" "adc" 7; join "u08" "adc" 8;
    join "u09" "support" 9 ].

(** The tenth join forms the draft. *)
Definition tenJoins : list Call := nineJoins ++ [join "u10" "support" 1000].

Definition readies : list Call :=
  map (fun id => callSetDraftReady 2000 {| auth := Some id; data := "draft0001abc"%string |})
      ids.

Definition submissions : list Call :=
  map (fun call =>
         callMakeDraftAction 3000 "k3j9x0qa"
           {| auth := Some (fst call);
              data := {| Draft.draftId := "draft0001abc";
                         Draft.championId := snd call;
                         Draft.championName := snd call |} |})
      (Examples.calls Examples.bluePlayer Examples.redPlayer).

(** Ten joins, ten readies, sixteen bans and picks. *)
Definition wholeDraft : list Call := tenJoins ++ readies ++ submissions.

Definition start : State := init profiles ratings.

End Scenario.


(** * Properties *)

(** ** Comparisons of binary64 numbers *)

Module FloatFacts.

Import JS.
#[local] Open Scope float_scope.

Lemma SFcompare_antisym x y :
  SFcompare y x = option_map CompOpp (SFcompare x y).
Proof.
  destruct x as [sx|sx| |sx mx ex], y as [sy|sy| |sy my ey]; simpl;
    try reflexivity;
    try (destruct sx; reflexivity); try (destruct sy; reflexivity);
    try (destruct sx, sy; reflexivity).
  destruct sx, sy; simpl; try reflexivity;
    rewrite (Z.compare_antisym ex ey); destruct (ex ?= ey)%Z; simpl;
    try reflexivity.
  - rewrite CompOpp_involutive, Pos.compare_cont_antisym. reflexivity.
  - rewrite Pos.compare_cont_antisym. reflexivity.
Qed.

(** A number that is not NaN compares with every number that is not. *)
Lemma SFcompare_Some x y :
  x <> S754_nan -> y <> S754_nan -> exists c, SFcompare x y = Some c.
Proof.
  destruct x as [sx|sx| |sx mx ex], y as [sy|sy| |sy my ey]; simpl;
    intros Hx Hy; try congruence; eexists; reflexivity.
Qed.

Lemma isNaN_false x : isNaN x = false -> Prim2SF x <> S754_nan.
Proof.
  unfold isNaN. rewrite FloatAxioms.eqb_spec. unfold SFeqb. intros H Hnan.
  rewrite Hnan in H. simpl in H. discriminate.
Qed.

Lemma isNaN_true x : isNaN x = true -> x = nan.
Proof.
  unfold isNaN. rewrite FloatAxioms.eqb_spec. unfold SFeqb. intros H.
  apply Prim2SF_inj. change (Prim2SF nan) with S754_nan.
  destruct (Prim2SF x) as [s|s| |s m e]; simpl in H.
  - discriminate.
  - destruct s; discriminate.
  - reflexivity.
  - destruct s; simpl in H;
      rewrite Z.compare_refl, Pos.compare_cont_refl in H; discriminate.
Qed.

Lemma ltb_leb a b : (a <? b) = true -> (a <=? b) = true.
Proof.
  rewrite FloatAxioms.ltb_spec, FloatAxioms.leb_spec. unfold SFltb, SFleb.
  destruct (SFcompare _ _) as [[| |]|]; congruence.
Qed.

Lemma leb_refl a : isNaN a = false -> (a <=? a) = true.
Proof.
  unfold isNaN. rewrite FloatAxioms.eqb_spec, FloatAxioms.leb_spec. unfold SFeqb, SFleb.
  destruct (SFcompare _ _) as [[| |]|]; simpl; congruence.
Qed.

Lemma leb_total a b :
  isNaN a = false -> isNaN b = false -> (a <? b) = false -> (b <=? a) = true.
Proof.
  intros Ha Hb. apply isNaN_false in Ha, Hb.
  rewrite FloatAxioms.ltb_spec, FloatAxioms.leb_spec. unfold SFltb, SFleb.
  rewrite (SFcompare_antisym (Prim2SF a) (Prim2SF b)).
  destruct (SFcompare_Some _ _ Ha Hb) as [c ->]. destruct c; simpl; congruence.
Qed.

Lemma leb_isNaN a b : (a <=? b) = true -> isNaN a = false /\ isNaN b = false.
Proof.
  rewrite FloatAxioms.leb_spec. unfold SFleb, isNaN. rewrite !FloatAxioms.eqb_spec. unfold SFeqb.
  destruct (Prim2SF a) as [sa|sa| |sa ma ea], (Prim2SF b) as [sb|sb| |sb mb eb];
    simpl; try discriminate; intros _; split; try reflexivity;
    repeat match goal with
      | s : bool |- _ => destruct s
      end; simpl; rewrite ?Z.compare_refl, ?Pos.compare_cont_refl; reflexivity.
Qed.

(** [Math.min] and [Math.max] of numbers are one of the arguments. *)
Lemma Math_min_cases a b :
  isNaN a = false -> isNaN b = false ->
  let m := Math_min a b in
  (m = a \/ m = b) /\ (m <=? a) = true /\ (m <=? b) = true.
Proof.
  intros Ha Hb m. subst m. unfold Math_min. rewrite Ha, Hb. simpl.
  destruct (a <? b) eqn:Hab.
  - split; [auto|]. split; [apply leb_refl, Ha|apply ltb_leb, Hab].
  - destruct (b <? a) eqn:Hba.
    + split; [auto|]. split; [apply ltb_leb, Hba|apply leb_refl, Hb].
    + destruct (get_sign a).
      * split; [auto|]. split; [apply leb_refl, Ha|].
        apply leb_total; assumption.
      * split; [auto|]. split; [|apply leb_refl, Hb].
        apply leb_total; assumption.
Qed.

Lemma Math_max_cases a b :
  isNaN a = false -> isNaN b = false ->
  let m := Math_max a b in
  (m = a \/ m = b) /\ (a <=? m) = true /\ (b <=? m) = true.
Proof.
  intros Ha Hb m. subst m. unfold Math_max. rewrite Ha, Hb. simpl.
  destruct (a <? b) eqn:Hab.
  - split; [auto|]. split; [apply ltb_leb, Hab|apply leb_refl, Hb].
  - destruct (b <? a) eqn:Hba.
    + split; [auto|]. split; [apply leb_refl, Ha|apply ltb_leb, Hba].
    + destruct (get_sign a).
      * split; [auto|]. split; [|apply leb_refl, Hb].
        apply leb_total; assumption.
      * split; [auto|]. split; [apply leb_refl, Ha|].
        apply leb_total; assumption.
Qed.

Lemma Math_min_NaN a b : isNaN b = true -> Math_min a b = nan.
Proof. intros H. unfold Math_min. rewrite H, orb_true_r. reflexivity. Qed.

Lemma Math_max_NaN a b : isNaN b = true -> Math_max a b = nan.
Proof. intros H. unfold Math_max. rewrite H, orb_true_r. reflexivity. Qed.

(** *** Operations that cannot produce NaN *)

Lemma shr_1_nonneg mrs : (0 <= shr_m mrs)%Z -> (0 <= shr_m (shr_1 mrs))%Z.
Proof.
  destruct mrs as [m r s]. simpl. intros H.
  destruct m as [|[p|p|]|p]; simpl; lia.
Qed.

Lemma iter_pos_invariant {A} (P : A -> Prop) (f : A -> A) :
  (forall x, P x -> P (f x)) -> forall p x, P x -> P (SpecFloat.iter_pos f p x).
Proof.
  intros Hf. induction p as [p IH|p IH|]; intros x Hx; simpl; auto.
Qed.

Lemma shr_nonneg mrs e n :
  (0 <= shr_m mrs)%Z -> (0 <= shr_m (fst (shr mrs e n)))%Z.
Proof.
  intros H. unfold shr. destruct n as [|p|p]; simpl; try assumption.
  apply (iter_pos_invariant (fun mrs => (0 <= shr_m mrs)%Z)); [|assumption].
  apply shr_1_nonneg.
Qed.

Lemma shr_fexp_nonneg m e l :
  (0 <= m)%Z -> (0 <= shr_m (fst (shr_fexp prec emax m e l)))%Z.
Proof.
  intros H. unfold shr_fexp. apply shr_nonneg.
  destruct l as [|[| |]]; simpl; assumption.
Qed.

Lemma round_nearest_even_nonneg m l :
  (0 <= m)%Z -> (0 <= round_nearest_even m l)%Z.
Proof.
  intros H. unfold round_nearest_even.
  destruct l as [|[| |]]; try assumption; [destruct (Z.even m)|]; lia.
Qed.

Lemma binary_round_aux_not_nan s m e l :
  (0 <= m)%Z -> binary_round_aux prec emax s m e l <> S754_nan.
Proof.
  intros H. unfold binary_round_aux.
  pose proof (shr_fexp_nonneg m e l H) as H1.
  destruct (shr_fexp prec emax m e l) as [mrs' e']. simpl in H1.
  pose proof (shr_fexp_nonneg
                (round_nearest_even (shr_m mrs') (loc_of_shr_record mrs')) e'
                loc_Exact (round_nearest_even_nonneg _ _ H1)) as H2.
  destruct (shr_fexp prec emax _ e' loc_Exact) as [mrs'' e'']. simpl in H2.
  destruct (shr_m mrs'') as [|p|p]; [discriminate| |lia].
  destruct (e'' <=? emax - prec)%Z; discriminate.
Qed.

Lemma binary_normalize_not_nan m e szero :
  binary_normalize prec emax m e szero <> S754_nan.
Proof.
  unfold binary_normalize, binary_round.
  destruct m as [|p|p]; [discriminate| |];
    destruct (shl_align _ _ _) as [mz ez]; apply binary_round_aux_not_nan; lia.
Qed.

Lemma SFadd_not_nan x y :
  x <> S754_nan -> finiteSF y -> SFadd prec emax x y <> S754_nan.
Proof.
  intros Hx Hy.
  destruct x as [sx|sx| |sx mx ex], y as [sy|sy| |sy my ey]; simpl in *;
    try contradiction; try congruence.
  - destruct sx, sy; discriminate.
  - apply binary_normalize_not_nan.
Qed.

Lemma SFmul_not_nan x y :
  x <> S754_nan -> (exists s m e, y = S754_finite s m e) ->
  SFmul prec emax x y <> S754_nan.
Proof.
  intros Hx (s & m & e & ->).
  destruct x as [sx|sx| |sx mx ex]; simpl; try congruence.
  apply binary_round_aux_not_nan. lia.
Qed.

Lemma SFdiv_core_nonneg mx ex my ey :
  let '(mz, _, _) := SFdiv_core_binary prec emax (Z.pos mx) ex (Z.pos my) ey in
  (0 <= mz)%Z.
Proof.
  unfold SFdiv_core_binary.
  set (s := (ex - ey - _)%Z).
  set (m' := match s with
             | Z.pos _ => Z.shiftl (Z.pos mx) s
             | Z0 => Z.pos mx
             | Z.neg _ => 0%Z
             end).
  assert (Hm : (0 <= m')%Z).
  { subst m'. destruct s as [|p|p]; try lia. apply Z.shiftl_nonneg. lia. }
  pose proof (Z.div_pos m' (Z.pos my) Hm ltac:(lia)) as Hq.
  unfold Z.div in Hq. destruct (Z.div_eucl m' (Z.pos my)) as [q r]. exact Hq.
Qed.

(** A division yields NaN only from a NaN, from two infinities or from
    two zeros. *)
Lemma SFdiv_not_nan x y :
  x <> S754_nan -> y <> S754_nan ->
  (finiteSF x \/ finiteSF y) ->
  (forall s, y <> S754_zero s) ->
  SFdiv prec emax x y <> S754_nan.
Proof.
  intros Hx Hy Hfin Hz.
  destruct x as [sx|sx| |sx mx ex], y as [sy|sy| |sy my ey]; simpl in *;
    try congruence; try (exfalso; apply (Hz sy); reflexivity);
    try (destruct Hfin; contradiction).
  pose proof (SFdiv_core_nonneg mx ex my ey) as H.
  destruct (SFdiv_core_binary prec emax (Z.pos mx) ex (Z.pos my) ey) as [[mz ez] lz].
  apply binary_round_aux_not_nan, H.
Qed.

(** *** The same, on primitive numbers *)

Lemma isNaN_Prim2SF x : isNaN x = false <-> Prim2SF x <> S754_nan.
Proof.
  split; [apply isNaN_false|]. intros H.
  destruct (isNaN x) eqn:E; [|reflexivity].
  apply isNaN_true in E. subst x. exfalso. apply H. reflexivity.
Qed.

Lemma is_finite_finiteSF x : is_finite x = true -> finiteSF (Prim2SF x).
Proof.
  unfold is_finite, is_nan, is_infinity.
  rewrite !FloatAxioms.eqb_spec, abs_spec. unfold SFeqb.
  change (Prim2SF infinity) with (S754_infinity false).
  destruct (Prim2SF x) as [s|s| |s m e]; simpl; try discriminate; auto.
  destruct s; discriminate.
Qed.

Lemma finiteSF_not_nan x : finiteSF x -> x <> S754_nan.
Proof. destruct x; simpl; intros H; [discriminate|contradiction..|discriminate]. Qed.

Lemma eqb_zero_false x : (x =? 0) = false -> forall s, Prim2SF x <> S754_zero s.
Proof.
  rewrite FloatAxioms.eqb_spec. unfold SFeqb.
  change (Prim2SF 0) with (S754_zero false).
  intros H s Hx. rewrite Hx in H. simpl in H. discriminate.
Qed.

(** A sum that starts from a number and adds finite numbers is a
    number. *)
Lemma sum_not_nan (numbers : list float) (start : float) :
  isNaN start = false ->
  Forall (fun n => is_finite n = true) numbers ->
  isNaN (fold_left (fun sum n => sum + n) numbers start) = false.
Proof.
  revert start. induction numbers as [|n numbers IH]; intros start Hs Hall;
    [assumption|].
  simpl. apply IH; [|apply Forall_inv_tail in Hall; assumption].
  apply isNaN_Prim2SF. rewrite FloatAxioms.add_spec. apply SFadd_not_nan.
  - apply isNaN_Prim2SF, Hs.
  - apply is_finite_finiteSF. apply Forall_inv in Hall. exact Hall.
Qed.

(** A finite number minus itself is [+0]. *)
Lemma sub_diag x : is_finite x = true -> x - x = 0.
Proof.
  intros H. apply is_finite_finiteSF in H. apply Prim2SF_inj.
  rewrite FloatAxioms.sub_spec. change (Prim2SF 0) with (S754_zero false).
  destruct (Prim2SF x) as [s|s| |s m e]; simpl in H; try contradiction.
  - destruct s; reflexivity.
  - simpl. rewrite Z.sub_diag. reflexivity.
Qed.

End FloatFacts.

(** ** The rating engine *)

Module MmrProofs.

Import Types JS Mmr FloatFacts.
#[local] Open Scope float_scope.

(** *** [clamp] and [normalizeScore] *)

Lemma clamp_range value lo hi :
  isNaN value = false -> (lo <=? hi) = true ->
  (lo <=? clamp value lo hi) = true /\ (clamp value lo hi <=? hi) = true.
Proof.
  intros Hv Hle. destruct (leb_isNaN _ _ Hle) as [Hlo Hhi]. unfold clamp.
  destruct (Math_min_cases hi value Hhi Hv) as (Hm & Hm1 & _).
  assert (Hmn : isNaN (Math_min hi value) = false)
    by (destruct Hm as [-> | ->]; assumption).
  destruct (Math_max_cases lo (Math_min hi value) Hlo Hmn) as (Hr & Hr1 & _).
  split; [assumption|]. destruct Hr as [-> | ->]; assumption.
Qed.

Lemma clamp_NaN value lo hi : isNaN value = true -> clamp value lo hi = nan.
Proof.
  intros H. unfold clamp. apply Math_max_NaN.
  rewrite (Math_min_NaN hi value H). reflexivity.
Qed.

Lemma normalizeScore_zero_average value avg :
  (avg =? 0) = true -> normalizeScore value avg = 50.
Proof. intros H. unfold normalizeScore. rewrite H. reflexivity. Qed.

Lemma normalizeScore_inScale value avg :
  isNaN (value / avg * 50) = false -> inScale (normalizeScore value avg) = true.
Proof.
  intros H. unfold normalizeScore, inScale. destruct (avg =? 0); [reflexivity|].
  destruct (clamp_range (value / avg * 50) 0 100 H eq_refl) as [-> ->].
  reflexivity.
Qed.

Lemma normalizeScore_NaN value avg :
  (avg =? 0) = false -> isNaN (value / avg * 50) = true ->
  normalizeScore value avg = nan.
Proof.
  intros H0 H. unfold normalizeScore. rewrite H0. apply clamp_NaN, H.
Qed.

(** *** Finite statistics *)

(** The average of ten finite numbers is a number (it may be an
    infinity, when the sum overflows). *)
Lemma average_ten_not_nan (numbers : list float) :
  length numbers = 10%nat ->
  Forall (fun n => is_finite n = true) numbers ->
  isNaN (average numbers) = false.
Proof.
  intros Hlen Hall. unfold average, of_length.
  destruct numbers as [|n numbers]; [discriminate|].
  rewrite Hlen. change (of_Z (Z.of_nat 10)) with 10.
  apply isNaN_Prim2SF. rewrite FloatAxioms.div_spec.
  apply SFdiv_not_nan.
  - apply isNaN_Prim2SF. apply sum_not_nan; [reflexivity|assumption].
  - vm_compute. discriminate.
  - right. vm_compute. exact I.
  - intros s. vm_compute. discriminate.
Qed.

(** A finite value normalized against an average that is a number is
    within the scale. *)
Lemma normalizeScore_finite value avg :
  is_finite value = true -> isNaN avg = false ->
  inScale (normalizeScore value avg) = true.
Proof.
  intros Hv Ha. destruct (avg =? 0) eqn:H0.
  - rewrite (normalizeScore_zero_average _ _ H0). reflexivity.
  - apply normalizeScore_inScale. apply isNaN_Prim2SF.
    rewrite FloatAxioms.mul_spec. apply SFmul_not_nan.
    + rewrite FloatAxioms.div_spec. apply SFdiv_not_nan.
      * apply finiteSF_not_nan, is_finite_finiteSF, Hv.
      * apply isNaN_Prim2SF, Ha.
      * left. apply is_finite_finiteSF, Hv.
      * apply eqb_zero_false, H0.
    + vm_compute. eauto.
Qed.

Lemma finiteStats_fields (q : PlayerStats) :
  finiteStats q = true ->
  is_finite (kills q) = true /\ is_finite (deaths q) = true
  /\ is_finite (assists q) = true /\ is_finite (cs q) = true
  /\ is_finite (damage q) = true /\ is_finite (visionScore q) = true
  /\ is_finite (objectiveScore q) = true.
Proof.
  unfold finiteStats. rewrite !andb_true_iff. tauto.
Qed.

Lemma Forall_finite_field (field : PlayerStats -> float) (allStats : list PlayerStats) :
  (forall q, finiteStats q = true -> is_finite (field q) = true) ->
  Forall (fun q => finiteStats q = true) allStats ->
  Forall (fun n => is_finite n = true) (map field allStats).
Proof.
  intros Hf Hall. induction Hall as [|q l Hq _ IH]; simpl; constructor; auto.
Qed.

(** *** The category scores *)

(** Each of the five category scores is [normalizeScore value avg] for
    the player's value and the match-wide average of its category.
    When the average is zero the score is 50 and no division is made.
    Otherwise the score is [clamp (value / avg * 50) 0 100], which
    lies in the scale 0 to 100 whenever [value / avg * 50] is a
    number, and is [NaN] when it is not.  For a match of ten players
    whose statistics are all finite, the damage, cs, vision and
    objective scores are always in the scale; the KDA score is in the
    scale when the player's KDA is finite and the average KDA is a
    number. *)
Lemma category_scores_in_scale
    (playerStats : PlayerStats) (allStats : list PlayerStats) :
  Forall (fun c =>
            let '(value, avg, score) := c in
            score = normalizeScore value avg
            /\ ((avg =? 0) = true -> score = 50)
            /\ ((avg =? 0) = false -> score = clamp (value / avg * 50) 0 100)
            /\ (isNaN (value / avg * 50) = false -> inScale score = true)
            /\ ((avg =? 0) = false -> isNaN (value / avg * 50) = true ->
                score = nan))
         (categories playerStats allStats)
  /\ (length allStats = 10%nat ->
      Forall (fun q => finiteStats q = true) allStats ->
      finiteStats playerStats = true ->
      inScale (damageScore playerStats allStats) = true
      /\ inScale (csScore playerStats allStats) = true
      /\ inScale (visionScoreVal playerStats allStats) = true
      /\ inScale (objectiveScoreVal playerStats allStats) = true
      /\ (is_finite (playerKda playerStats) = true ->
          isNaN (avgKda allStats) = false ->
          inScale (kdaScore playerStats allStats) = true)).
Proof.
  split.
  - assert (H : forall value avg,
               normalizeScore value avg = normalizeScore value avg
               /\ ((avg =? 0) = true -> normalizeScore value avg = 50)
               /\ ((avg =? 0) = false ->
                   normalizeScore value avg = clamp (value / avg * 50) 0 100)
               /\ (isNaN (value / avg * 50) = false ->
                   inScale (normalizeScore value avg) = true)
               /\ ((avg =? 0) = false -> isNaN (value / avg * 50) = true ->
                   normalizeScore value avg = nan)).
    { intros value avg. split; [reflexivity|].
      split; [apply normalizeScore_zero_average|].
      split; [intros H0; unfold normalizeScore; rewrite H0; reflexivity|].
      split; [apply normalizeScore_inScale|apply normalizeScore_NaN]. }
    unfold categories, kdaScore, damageScore, csScore, visionScoreVal,
      objectiveScoreVal.
    repeat (constructor; [apply H|]). constructor.
  - intros Hlen Hall Hp.
    destruct (finiteStats_fields _ Hp) as (_ & _ & _ & Hcs & Hdmg & Hvis & Hobj).
    assert (Havg : forall field,
               (forall q, finiteStats q = true -> is_finite (field q) = true) ->
               isNaN (average (map field allStats)) = false).
    { intros field Hf. apply average_ten_not_nan.
      - rewrite length_map. exact Hlen.
      - apply Forall_finite_field; assumption. }
    unfold damageScore, csScore, visionScoreVal, objectiveScoreVal, kdaScore.
    split; [apply normalizeScore_finite; [exact Hdmg|]; apply Havg;
            intros q Hq; apply (finiteStats_fields _ Hq)|].
    split; [apply normalizeScore_finite; [exact Hcs|]; apply Havg;
            intros q Hq; apply (finiteStats_fields _ Hq)|].
    split; [apply normalizeScore_finite; [exact Hvis|]; apply Havg;
            intros q Hq; apply (finiteStats_fields _ Hq)|].
    split; [apply normalizeScore_finite; [exact Hobj|]; apply Havg;
            intros q Hq; apply (finiteStats_fields _ Hq)|].
    intros Hk Ha. apply normalizeScore_finite; assumption.
Qed.

(** ** C10 *)

(** C10.  The code at the failing inputs.  In the match
    [tinyDeathsMatch] every statistic is a finite number, and so are
    the sums of the kills, of the deaths and of the assists.  The
    player with 100 kills and 2^-1063 deaths has the KDA [Infinity],
    and so has the match average; the guard [avg === 0] does not
    apply, the ratio is [NaN] and [clamp] returns [NaN]: the KDA score
    is not in the scale 0 to 100, the total score and the multiplier
    are [NaN], and so are the rating change and the rating
    [applyMMRChange] returns for the player.  The same happens when the
    sums overflow, as with ten players of 1.7e308 kills and no
    death. *)
Theorem C10_kda_score_not_a_number :
  (let p := Examples.tinyDeathsPlayer in
   let allStats := Examples.tinyDeathsMatch in
   let result := calculateMMRChange Examples.pow0 p Examples.tinyDeathsContext false in
   length allStats = 10%nat
   /\ forallb finiteStats allStats = true
   /\ is_finite (sum (map kills allStats)) = true
   /\ is_finite (sum (map deaths allStats)) = true
   /\ is_finite (sum (map assists allStats)) = true
   /\ playerKda p = infinity
   /\ avgKda allStats = infinity
   /\ (avgKda allStats =? 0) = false
   /\ kdaScore p allStats = nan
   /\ inScale (kdaScore p allStats) = false
   /\ fst (calculatePerformanceScore p allStats) = nan
   /\ b_kdaScore (snd (calculatePerformanceScore p allStats)) = nan
   /\ b_multiplier (snd (calculatePerformanceScore p allStats)) = nan
   /\ change result = nan
   /\ applyMMRChange (mmrAtTime p) (change result) = nan)
  /\ (let q := Examples.overflowPlayer "u01" blue in
      forallb finiteStats Examples.overflowMatch = true
      /\ playerKda q = infinity
      /\ avgKda Examples.overflowMatch = infinity
      /\ kdaScore q Examples.overflowMatch = nan
      /\ inScale (kdaScore q Examples.overflowMatch) = false
      /\ totalScore q Examples.overflowMatch = nan).
Proof. vm_compute. repeat split; reflexivity. Qed.

(** ** C9 *)

Section RatingChange.

Variable Math_pow : float -> float -> float.

(** C9. For every player, match context and [Math.pow], the value that
    [calculateMMRChange] passes to [Math.round] with [isPlacement] set
    is the value it passes without it, multiplied by
    [PLACEMENT_MULTIPLIER], which is 2; the returned change is the
    rounding of that value. *)
Theorem C9_placement_doubles_before_rounding
    (playerStats : PlayerStats) (context : MatchContext) :
  changeBeforeRounding Math_pow playerStats context true
  = changeBeforeRounding Math_pow playerStats context false * 2
  /\ PLACEMENT_MULTIPLIER = 2
  /\ forall isPlacement,
      change (calculateMMRChange Math_pow playerStats context isPlacement)
      = Math_round (changeBeforeRounding Math_pow playerStats context isPlacement).
Proof.
  split; [|split; [reflexivity|]].
  - unfold changeBeforeRounding.
    destruct (calculatePerformanceScore playerStats (allPlayerStats context))
      as [score bd]. reflexivity.
  - intros isPlacement. unfold calculateMMRChange.
    destruct (calculatePerformanceScore playerStats (allPlayerStats context))
      as [score bd]. reflexivity.
Qed.

(** The qualification "before rounding" matters: for a player
    slightly above the match average the value is 30.6 without
    placement and 61.2 with it, and the rounded changes are 31 and 61. *)
Remark placement_rounding_example :
  change (calculateMMRChange Examples.pow0 Examples.goodPlayer
                             Examples.goodContext false) = 31
  /\ change (calculateMMRChange Examples.pow0 Examples.goodPlayer
                                Examples.goodContext true) = 61.
Proof. vm_compute. split; reflexivity. Qed.

(** ** C2 *)

(** ECMAScript: [Math.pow(base, 0)] is 1 for every [base]. *)
Hypothesis Math_pow_zero : forall base, Math_pow base 0 = 1.

(** At equal ratings the expected outcome is 1/2 and the opponent
    multiplier is 1 + 0.5 * 0.4, at the upper clamp 1.2, for a win and
    for a loss. *)
Lemma calculateOpponentMultiplier_equal rating didWin :
  is_finite rating = true ->
  calculateOpponentMultiplier Math_pow rating rating didWin = 1.2.
Proof using Math_pow_zero.
  intros Hfin. unfold calculateOpponentMultiplier.
  rewrite (sub_diag rating Hfin).
  change (0 / 400) with 0. rewrite Math_pow_zero.
  destruct didWin; vm_compute; reflexivity.
Qed.

(** C2, amended.  For a player outside placement whose total
    performance score is exactly 50, against an opponent team whose
    average rating equals the player's: the performance multiplier is
    1.0, the opponent multiplier is 1.2, and the change is
    round(25 * 1 * 1.0 * 1.2) = 30 for a win and -30 for a loss; for a
    player rated 1000 the new rating is 1030 after a win and 970 after
    a loss. *)
Theorem C2_average_performance_equal_opponent
    (playerStats : PlayerStats) (context : MatchContext) :
  totalScore playerStats (allPlayerStats context) = 50 ->
  is_finite (mmrAtTime playerStats) = true ->
  opponentTeamAvgMmr playerStats context = mmrAtTime playerStats ->
  let result := calculateMMRChange Math_pow playerStats context false in
  let didWin := Team_eqb (team playerStats) (winner context) in
  b_multiplier (breakdown result) = 1
  /\ calculateOpponentMultiplier Math_pow (mmrAtTime playerStats)
       (opponentTeamAvgMmr playerStats context) didWin = 1.2
  /\ performanceScore result = 50
  /\ change result = (if didWin then 30 else -30)
  /\ (mmrAtTime playerStats = 1000 ->
      applyMMRChange (mmrAtTime playerStats) (change result)
      = (if didWin then 1030 else 970)).
Proof using Math_pow_zero.
  intros Htotal Hfin Hopp result didWin. subst result didWin.
  unfold calculateMMRChange, changeBeforeRounding, calculatePerformanceScore.
  rewrite Htotal, Hopp, (calculateOpponentMultiplier_equal _ _ Hfin).
  cbn [change breakdown performanceScore b_multiplier].
  destruct (Team_eqb (team playerStats) (winner context)).
  - repeat (split; [vm_compute; reflexivity|]).
    intros ->. vm_compute. reflexivity.
  - repeat (split; [vm_compute; reflexivity|]).
    intros ->. vm_compute. reflexivity.
Qed.

End RatingChange.

(** The scenario: ten players with the same statistics, all rated 1000;
    a player of the winning team gains 30. *)
Lemma C2_witness :
  change (calculateMMRChange Examples.pow0 (Examples.averagePlayer "u01" blue)
                             (Examples.averageContext blue) false) = 30
  /\ applyMMRChange 1000 30 = 1030.
Proof.
  assert (Hpow : forall base, Examples.pow0 base 0 = 1) by reflexivity.
  destruct (C2_average_performance_equal_opponent Examples.pow0 Hpow
              (Examples.averagePlayer "u01" blue) (Examples.averageContext blue)
              eq_refl eq_refl eq_refl) as (_ & _ & _ & Hchange & Hnew).
  split; [exact Hchange|]. specialize (Hnew eq_refl).
  rewrite Hchange in Hnew. exact Hnew.
Defined.

(** C2, the claim as stated, fails: in the scenario the change is not 25
    for any [Math.pow] that returns 1 on a zero exponent. *)
Lemma C2_counterexample :
  ~ (forall Math_pow : float -> float -> float,
        (forall base, Math_pow base 0 = 1) ->
        change (calculateMMRChange Math_pow (Examples.averagePlayer "u01" blue)
                                   (Examples.averageContext blue) false) = 25).
Proof.
  intros H. specialize (H Examples.pow0 (fun _ => eq_refl)).
  vm_compute in H. discriminate.
Qed.

End MmrProofs.

(** ** JavaScript's stable sort *)

Module JSArrayProofs.

Import JSArray.

Lemma insert_Permutation {A} (compareFn : A -> A -> Z) x l :
  Permutation (insert compareFn x l) (x :: l).
Proof.
  induction l as [|y l IH]; simpl; [reflexivity|].
  destruct (compareFn x y <=? 0); [reflexivity|].
  rewrite IH. apply perm_swap.
Qed.

Lemma sort_Permutation {A} (compareFn : A -> A -> Z) l :
  Permutation (sort compareFn l) l.
Proof.
  induction l as [|x l IH]; simpl; [reflexivity|].
  rewrite insert_Permutation, IH. reflexivity.
Qed.

Lemma sort_length {A} (compareFn : A -> A -> Z) l :
  length (sort compareFn l) = length l.
Proof. apply Permutation_length, sort_Permutation. Qed.

(** A pair is swapped exactly when the comparator is positive. *)
Lemma sort_pair {A} (compareFn : A -> A -> Z) a b :
  sort compareFn [a; b] = if compareFn a b <=? 0 then [a; b] else [b; a].
Proof. reflexivity. Qed.

Section ByKey.

Context {A : Type} (key : A -> Z).

#[local] Abbreviation ascending := (JSArray.ascending key).
#[local] Abbreviation keyLe := (JSArray.keyLe key).

Lemma insert_sorted x l :
  StronglySorted keyLe l -> StronglySorted keyLe (insert ascending x l).
Proof.
  induction 1 as [|y l Hs IH Hall]; simpl.
  - repeat constructor.
  - unfold ascending at 1. destruct (Z.leb_spec (key x - key y) 0) as [Hle|Hgt].
    + constructor; [constructor; assumption|].
      constructor; [unfold keyLe; lia|].
      eapply Forall_impl; [exact Hall|]. unfold keyLe. intros; simpl in *; lia.
    + constructor; [assumption|].
      rewrite (Forall_forall (keyLe y)). intros z Hz.
      rewrite insert_Permutation in Hz. apply elem_of_cons in Hz.
      destruct Hz as [->|Hz]; [unfold keyLe; lia|].
      rewrite (Forall_forall (keyLe y)) in Hall. exact (Hall z Hz).
Qed.

Lemma sort_sorted l : StronglySorted keyLe (sort ascending l).
Proof.
  induction l as [|x l IH]; simpl; [constructor|]. apply insert_sorted, IH.
Qed.

(** Stability: the elements of any one key keep their order. *)
Lemma insert_stable v x l :
  List.filter (fun a => key a =? v) (insert ascending x l)
  = List.filter (fun a => key a =? v) (x :: l).
Proof.
  induction l as [|y l IH]; [reflexivity|].
  simpl insert. unfold ascending at 1.
  destruct (Z.leb_spec (key x - key y) 0) as [Hle|Hgt]; [reflexivity|].
  simpl. simpl in IH. rewrite IH.
  destruct (Z.eqb_spec (key x) v) as [Hx|Hx];
    destruct (Z.eqb_spec (key y) v) as [Hy|Hy]; try reflexivity; lia.
Qed.

Lemma sort_stable v l :
  List.filter (fun a => key a =? v) (sort ascending l)
  = List.filter (fun a => key a =? v) l.
Proof.
  induction l as [|x l IH]; [reflexivity|].
  simpl sort. rewrite insert_stable. simpl. rewrite IH. reflexivity.
Qed.

End ByKey.

End JSArrayProofs.

(** ** Matchmaking *)

Module MatchmakingProofs.

Import Types Matchmaking.

Lemma PlayerRole_eqb_eq a b : PlayerRole_eqb a b = true <-> a = b.
Proof. destruct a, b; simpl; split; congruence. Qed.

Lemma get_push {A} role role' (x : A) b :
  ByRole.get role (ByRole.push role' x b)
  = if PlayerRole_eqb role' role then ByRole.get role b ++ [x] else ByRole.get role b.
Proof. destruct role, role'; reflexivity. Qed.

Lemma get_groupByRole role players :
  ByRole.get role (groupByRole players) = playersOf role players.
Proof.
  unfold groupByRole.
  assert (H : forall acc,
             ByRole.get role
               (fold_left (fun byRole player =>
                             ByRole.push (Player.role player) player byRole)
                          players acc)
             = ByRole.get role acc ++ playersOf role players).
  { induction players as [|p players IH]; intros acc; simpl.
    - rewrite app_nil_r. reflexivity.
    - rewrite IH, get_push. unfold playersOf at 2. simpl.
      destruct (PlayerRole_eqb (Player.role p) role); [|reflexivity].
      rewrite <- app_assoc. reflexivity. }
  rewrite H. destruct role; reflexivity.
Qed.

Lemma get_groupQueue role docs :
  ByRole.get role (groupQueue docs) = waitingOf role docs.
Proof.
  unfold groupQueue.
  match goal with
  | |- ByRole.get role (fold_left ?f docs _) = _ =>
      assert (H : forall acc,
                 ByRole.get role (fold_left f docs acc)
                 = ByRole.get role acc ++ waitingOf role docs)
  end.
  { induction docs as [|doc docs IH]; intros acc; simpl.
    - rewrite app_nil_r. reflexivity.
    - rewrite IH. unfold waitingOf at 2. simpl.
      destruct (PlayerRole_of_string _) as [r|]; [|reflexivity].
      rewrite get_push. unfold waitingPlayer.
      destruct (PlayerRole_eqb r role); [|reflexivity].
      rewrite <- app_assoc. reflexivity. }
  rewrite H. destruct role; reflexivity.
Qed.

Lemma totalMmr_snoc team p : totalMmr (team ++ [p]) = totalMmr team + Player.mmr p.
Proof. unfold totalMmr. rewrite fold_left_app. reflexivity. Qed.

(** One role's pair goes one to each team, the higher rated to the team
    whose running sum is not the larger (blue on a tie), and the
    difference of the sums stays within any bound on the gaps. *)
Lemma assignRole_pair byRole role a b blueTeam redTeam :
  ByRole.get role byRole = [a; b] ->
  let hi := if Player.mmr b - Player.mmr a <=? 0 then a else b in
  let lo := if Player.mmr b - Player.mmr a <=? 0 then b else a in
  assignRole byRole (Some (blueTeam, redTeam)) role
  = if totalMmr blueTeam <=? totalMmr redTeam
    then Some (blueTeam ++ [hi], redTeam ++ [lo])
    else Some (blueTeam ++ [lo], redTeam ++ [hi]).
Proof.
  intros H. unfold assignRole. rewrite H, JSArrayProofs.sort_pair.
  destruct (Player.mmr b - Player.mmr a <=? 0); reflexivity.
Qed.

Lemma assignRole_bound byRole role a b blueTeam redTeam M :
  ByRole.get role byRole = [a; b] ->
  Z.abs (Player.mmr a - Player.mmr b) <= M ->
  Z.abs (totalMmr blueTeam - totalMmr redTeam) <= M ->
  exists blueTeam' redTeam',
    assignRole byRole (Some (blueTeam, redTeam)) role = Some (blueTeam', redTeam')
    /\ Z.abs (totalMmr blueTeam' - totalMmr redTeam') <= M
    /\ length blueTeam' = S (length blueTeam)
    /\ length redTeam' = S (length redTeam).
Proof.
  intros H Hgap Hinv. rewrite (assignRole_pair _ _ _ _ _ _ H).
  destruct (Z.leb_spec (Player.mmr b - Player.mmr a) 0);
    destruct (Z.leb_spec (totalMmr blueTeam) (totalMmr redTeam));
    eexists _, _; (split; [reflexivity|]);
    rewrite !totalMmr_snoc, !length_app; simpl; (split; [lia|]); lia.
Qed.

Lemma roleGap_le_largestGap players role : roleGap players role <= largestGap players.
Proof. unfold largestGap. destruct role; simpl; lia. Qed.

Lemma largestGap_nonneg players : 0 <= largestGap players.
Proof. unfold largestGap. simpl. lia. Qed.

(** Five pairs are always balanced, within the largest gap. *)
Lemma balanceTeams_pairs (players : list Player.t) :
  (forall role, length (playersOf role players) = 2%nat) ->
  exists blueTeam redTeam,
    balanceTeams players = Some (blueTeam, redTeam)
    /\ length blueTeam = 5%nat /\ length redTeam = 5%nat
    /\ Z.abs (totalMmr blueTeam - totalMmr redTeam) <= largestGap players.
Proof.
  intros Hpairs.
  assert (Hget : forall role, exists a b,
             ByRole.get role (groupByRole players) = [a; b]
             /\ Z.abs (Player.mmr a - Player.mmr b) <= largestGap players).
  { intros role. pose proof (Hpairs role) as Hlen.
    pose proof (roleGap_le_largestGap players role) as Hgap.
    unfold roleGap in Hgap. rewrite get_groupByRole.
    destruct (playersOf role players) as [|a [|b [|c l]]]; try discriminate.
    exists a, b. split; [reflexivity|assumption]. }
  unfold balanceTeams, roles. cbn [fold_left].
  pose proof (largestGap_nonneg players) as Hnn.
  destruct (Hget top) as (a1 & b1 & G1 & B1).
  destruct (assignRole_bound _ _ _ _ [] [] _ G1 B1)
    as (bt1 & rt1 & -> & I1 & Lb1 & Lr1); [simpl; lia|].
  destruct (Hget jungle) as (a2 & b2 & G2 & B2).
  destruct (assignRole_bound _ _ _ _ bt1 rt1 _ G2 B2 I1)
    as (bt2 & rt2 & -> & I2 & Lb2 & Lr2).
  destruct (Hget mid) as (a3 & b3 & G3 & B3).
  destruct (assignRole_bound _ _ _ _ bt2 rt2 _ G3 B3 I2)
    as (bt3 & rt3 & -> & I3 & Lb3 & Lr3).
  destruct (Hget adc) as (a4 & b4 & G4 & B4).
  destruct (assignRole_bound _ _ _ _ bt3 rt3 _ G4 B4 I3)
    as (bt4 & rt4 & -> & I4 & Lb4 & Lr4).
  destruct (Hget support) as (a5 & b5 & G5 & B5).
  destruct (assignRole_bound _ _ _ _ bt4 rt4 _ G5 B5 I4)
    as (bt5 & rt5 & -> & I5 & Lb5 & Lr5).
  exists bt5, rt5. split; [reflexivity|].
  split; [simpl in *; lia|]. split; [simpl in *; lia|]. assumption.
Qed.

(** ** C7 *)

(** The sum [totalMmr] accumulates from the left is the sum of the
    players' ratings. *)
Lemma totalMmr_sum (team : list Player.t) :
  totalMmr team = fold_right Z.add 0 (map Player.mmr team).
Proof.
  unfold totalMmr.
  assert (H : forall acc,
             fold_left (fun sum p => sum + Player.mmr p) team acc
             = acc + fold_right Z.add 0 (map Player.mmr team)).
  { induction team as [|p team IH]; intros acc; simpl; [lia|].
    rewrite IH. lia. }
  rewrite H. lia.
Qed.

(** C7.  [balanceTeams] takes the roles in the order top, jungle, mid,
    adc, support.  The totals it computes for the two teams before each
    role are the sums of the ratings of the players assigned so far,
    and for each role it gives the higher-rated player of the pair to
    the team whose sum is not the larger (blue on a tie) and the other
    player to the other team.  For every input of five per-role pairs
    it returns two teams of five, and the gap between their average
    ratings (the sums of their players' ratings over five, which are
    the averages [tryMatchPlayers] stores) is at most the largest
    rating gap within a role's pair; so is the gap between the sums.
    The sums are written [fold_right Z.add 0 (map Player.mmr team)],
    apart from the code. *)
Theorem C7_balanceTeams_gap_bounded (players : list Player.t) :
  (forall role, length (playersOf role players) = 2%nat) ->
  balanceTeams players
  = fold_left (assignRole (groupByRole players))
              [top; jungle; mid; adc; support] (Some ([], []))
  /\ (forall team, totalMmr team = fold_right Z.add 0 (map Player.mmr team))
  /\ (forall role a b blueTeam redTeam,
        playersOf role players = [a; b] ->
        let hi := if Player.mmr a <? Player.mmr b then b else a in
        let lo := if Player.mmr a <? Player.mmr b then a else b in
        assignRole (groupByRole players) (Some (blueTeam, redTeam)) role
        = if fold_right Z.add 0 (map Player.mmr blueTeam)
             <=? fold_right Z.add 0 (map Player.mmr redTeam)
          then Some (blueTeam ++ [hi], redTeam ++ [lo])
          else Some (blueTeam ++ [lo], redTeam ++ [hi]))
  /\ exists blueTeam redTeam,
      balanceTeams players = Some (blueTeam, redTeam)
      /\ length blueTeam = 5%nat /\ length redTeam = 5%nat
      /\ Z.abs (fold_right Z.add 0 (map Player.mmr blueTeam)
                - fold_right Z.add 0 (map Player.mmr redTeam))
         <= largestGap players
      /\ (Qabs ((fold_right Z.add 0%Z (map Player.mmr blueTeam) # 5)
                - (fold_right Z.add 0%Z (map Player.mmr redTeam) # 5))
          <= inject_Z (largestGap players))%Q
      /\ averageMmr blueTeam = (fold_right Z.add 0 (map Player.mmr blueTeam) # 5)
      /\ averageMmr redTeam = (fold_right Z.add 0 (map Player.mmr redTeam) # 5).
Proof.
  intros Hpairs. split; [reflexivity|]. split; [exact totalMmr_sum|]. split.
  - intros role a b blueTeam redTeam Hab hi lo. subst hi lo.
    rewrite <- get_groupByRole in Hab.
    rewrite (assignRole_pair _ _ _ _ _ _ Hab), !totalMmr_sum.
    destruct (Z.leb_spec (Player.mmr b - Player.mmr a) 0);
      destruct (Z.ltb_spec (Player.mmr a) (Player.mmr b)); try reflexivity; lia.
  - destruct (balanceTeams_pairs players Hpairs)
      as (blueTeam & redTeam & Hbal & Lb & Lr & Hsum).
    exists blueTeam, redTeam. rewrite !totalMmr_sum in Hsum.
    repeat (split; [assumption|]).
    pose proof (largestGap_nonneg players) as Hnn.
    split; [|unfold averageMmr; rewrite !totalMmr_sum; split; reflexivity].
    apply Qabs_Qle_condition.
    unfold Qle, Qminus, Qplus, Qopp, inject_Z; simpl. lia.
Qed.

(** The ten players selected in the scenario: the ratings of the two
    teams add up to 5400 and 5850, within the largest gap, 500 (the adc
    pair). *)
Lemma C7_witness :
  exists blueTeam redTeam,
    balanceTeams Examples.selected = Some (blueTeam, redTeam)
    /\ fold_right Z.add 0 (map Player.mmr blueTeam) = 5400
    /\ fold_right Z.add 0 (map Player.mmr redTeam) = 5850
    /\ Z.abs (fold_right Z.add 0 (map Player.mmr blueTeam)
              - fold_right Z.add 0 (map Player.mmr redTeam)) <= 500.
Proof.
  assert (Hpairs : forall role, length (playersOf role Examples.selected) = 2%nat)
    by (intros []; reflexivity).
  destruct (C7_balanceTeams_gap_bounded Examples.selected Hpairs)
    as (_ & _ & _ & blueTeam & redTeam & Hbal & _ & _ & Hsum & _).
  exists blueTeam, redTeam. split; [exact Hbal|].
  assert (E : balanceTeams Examples.selected
              = Some (blueTeam, redTeam)) by exact Hbal.
  vm_compute in E. injection E as <- <-.
  split; [reflexivity|]. split; [reflexivity|]. exact Hsum.
Defined.

(** *** The selection *)

Lemma enoughPlayers_spec (playersByRole : ByRole.t Waiting.t) :
  enoughPlayers playersByRole = true
  <-> forall role, (2 <= length (ByRole.get role playersByRole))%nat.
Proof.
  unfold enoughPlayers, roles. simpl. rewrite !andb_true_iff, !negb_true_iff.
  rewrite !Nat.ltb_ge. split.
  - intros (? & ? & ? & ? & ? & _) []; assumption.
  - intros H. pose proof (H top). pose proof (H jungle). pose proof (H mid).
    pose proof (H adc). pose proof (H support). auto 10.
Qed.

Lemma selectRole_enough (playersByRole : ByRole.t Waiting.t) role :
  (2 <= length (ByRole.get role playersByRole))%nat ->
  exists p0 p1 rest,
    JSArray.sort (fun a b => Waiting.mmr a - Waiting.mmr b)
                 (ByRole.get role playersByRole) = p0 :: p1 :: rest
    /\ selectRole playersByRole role = [withRole role p0; withRole role p1].
Proof.
  intros H. unfold selectRole.
  pose proof (JSArrayProofs.sort_length
                (fun a b => Waiting.mmr a - Waiting.mmr b)
                (ByRole.get role playersByRole)) as Hlen.
  destruct (JSArray.sort _ _) as [|p0 [|p1 rest]]; simpl in Hlen; try lia.
  exists p0, p1, rest. split; reflexivity.
Qed.

Lemma playersOf_selectPlayers (playersByRole : ByRole.t Waiting.t) role :
  (forall role, (2 <= length (ByRole.get role playersByRole))%nat) ->
  playersOf role (selectPlayers playersByRole) = selectRole playersByRole role.
Proof.
  intros H. unfold selectPlayers, roles. cbn [flat_map].
  destruct (selectRole_enough _ top (H top)) as (? & ? & ? & _ & E1).
  destruct (selectRole_enough _ jungle (H jungle)) as (? & ? & ? & _ & E2).
  destruct (selectRole_enough _ mid (H mid)) as (? & ? & ? & _ & E3).
  destruct (selectRole_enough _ adc (H adc)) as (? & ? & ? & _ & E4).
  destruct (selectRole_enough _ support (H support)) as (? & ? & ? & _ & E5).
  destruct role; rewrite E1, E2, E3, E4, E5; reflexivity.
Qed.

(** When every role has two players, a match is formed. *)
Lemma formMatch_enough draftId now queueSnapshot :
  enoughPlayers (groupQueue queueSnapshot) = true ->
  exists formed,
    formMatch draftId now queueSnapshot = Some formed
    /\ selectedPlayers formed = selectPlayers (groupQueue queueSnapshot).
Proof.
  intros Hen. unfold formMatch. rewrite Hen. simpl.
  pose proof (proj1 (enoughPlayers_spec _) Hen) as H2.
  destruct (balanceTeams_pairs (selectPlayers (groupQueue queueSnapshot)))
    as (blueTeam & redTeam & -> & _).
  { intros role. rewrite (playersOf_selectPlayers _ _ H2).
    destruct (selectRole_enough _ role (H2 role)) as (? & ? & ? & _ & ->).
    reflexivity. }
  simpl. eexists. split; reflexivity.
Qed.

Lemma formMatch_Some draftId now queueSnapshot formed :
  formMatch draftId now queueSnapshot = Some formed ->
  enoughPlayers (groupQueue queueSnapshot) = true
  /\ selectedPlayers formed = selectPlayers (groupQueue queueSnapshot).
Proof.
  intros H. destruct (enoughPlayers (groupQueue queueSnapshot)) eqn:Hen.
  - split; [reflexivity|].
    destruct (formMatch_enough draftId now queueSnapshot Hen) as (f & Hf & Hsel).
    congruence.
  - unfold formMatch in H. rewrite Hen in H. discriminate.
Qed.

(** ** C6 *)

(** C6, the claim as stated, fails: of three top players rated 1000,
    the code selects "u01" (joined at 30) and "u02" (joined at 10), and
    leaves out "u03", who joined at 20. *)
Lemma C6_counterexample :
  exists formed,
    formMatch "draft0002"%string 1000 Examples.queueTie = Some formed
    /\ ~ earlierJoinWinsTies Examples.queueTie (selectedPlayers formed).
Proof.
  destruct (formMatch_enough "draft0002"%string 1000 Examples.queueTie eq_refl)
    as (formed & Hf & Hsel).
  exists formed. split; [exact Hf|]. rewrite Hsel. intros H.
  specialize (H (withRole top (waitingPlayer (Examples.entry "u01" "top" 1000 30)))
                (Examples.entry "u03" "top" 1000 20)).
  simpl in H. assert (Hle : 30 <= 20); [|lia].
  apply H; try reflexivity.
  - left. reflexivity.
  - do 2 right. left. reflexivity.
  - vm_compute. intros Hin.
    repeat (destruct Hin as [Hin|Hin]; [discriminate|]). exact Hin.
Qed.

(** C6, amended.  No match is formed exactly when some role has fewer
    than two waiting entries.  When one is formed, the two players
    selected for a role are the first two of the role's entries sorted
    by rating ascending: the sorted list is a permutation of the
    entries, the two selected are rated no higher than any entry left
    out, and the sort is stable, so entries of equal rating stay in the
    order of the queue snapshot; the join timestamp is not consulted. *)
Theorem C6_two_lowest_rated_per_role draftId now (queueSnapshot : list QueueDoc.t) :
  (formMatch draftId now queueSnapshot = None
   <-> exists role, (length (waitingOf role queueSnapshot) < 2)%nat)
  /\ (forall formed role,
        formMatch draftId now queueSnapshot = Some formed ->
        let sorted :=
          JSArray.sort (fun a b => Waiting.mmr a - Waiting.mmr b)
                       (waitingOf role queueSnapshot) in
        exists p0 p1 rest,
          sorted = p0 :: p1 :: rest
          /\ playersOf role (selectedPlayers formed)
             = [withRole role p0; withRole role p1]
          /\ Permutation sorted (waitingOf role queueSnapshot)
          /\ Waiting.mmr p0 <= Waiting.mmr p1
          /\ Forall (fun w => Waiting.mmr p1 <= Waiting.mmr w) rest
          /\ (forall v,
                List.filter (fun w => Waiting.mmr w =? v) sorted
                = List.filter (fun w => Waiting.mmr w =? v)
                              (waitingOf role queueSnapshot))).
Proof.
  split.
  - split.
    + intros Hnone.
      destruct (enoughPlayers (groupQueue queueSnapshot)) eqn:Hen.
      * destruct (formMatch_enough draftId now queueSnapshot Hen) as (f & Hf & _).
        congruence.
      * destruct (Nat.lt_ge_cases (length (waitingOf top queueSnapshot)) 2)
          as [?|G1]; [exists top; assumption|].
        destruct (Nat.lt_ge_cases (length (waitingOf jungle queueSnapshot)) 2)
          as [?|G2]; [exists jungle; assumption|].
        destruct (Nat.lt_ge_cases (length (waitingOf mid queueSnapshot)) 2)
          as [?|G3]; [exists mid; assumption|].
        destruct (Nat.lt_ge_cases (length (waitingOf adc queueSnapshot)) 2)
          as [?|G4]; [exists adc; assumption|].
        destruct (Nat.lt_ge_cases (length (waitingOf support queueSnapshot)) 2)
          as [?|G5]; [exists support; assumption|].
        assert (Hyes : enoughPlayers (groupQueue queueSnapshot) = true)
          by (apply enoughPlayers_spec; intros []; rewrite get_groupQueue;
              assumption).
        congruence.
    + intros [role Hlt].
      destruct (formMatch draftId now queueSnapshot) as [formed|] eqn:Hf;
        [|reflexivity].
      apply formMatch_Some in Hf as [Hen _].
      pose proof (proj1 (enoughPlayers_spec _) Hen role) as H2.
      rewrite get_groupQueue in H2. lia.
  - intros formed role Hf sorted. subst sorted.
    apply formMatch_Some in Hf as [Hen Hsel].
    pose proof (proj1 (enoughPlayers_spec _) Hen) as H2.
    destruct (selectRole_enough _ role (H2 role)) as (p0 & p1 & rest & Hs & Hr).
    rewrite get_groupQueue in Hs.
    exists p0, p1, rest. split; [exact Hs|].
    split; [rewrite Hsel, (playersOf_selectPlayers _ _ H2); exact Hr|].
    split; [apply JSArrayProofs.sort_Permutation|].
    pose proof (JSArrayProofs.sort_sorted Waiting.mmr (waitingOf role queueSnapshot))
      as Hsorted.
    unfold JSArray.ascending in Hsorted. rewrite Hs in Hsorted.
    apply StronglySorted_inv in Hsorted as [Hsorted' H0].
    apply StronglySorted_inv in Hsorted' as [_ H1].
    split; [apply Forall_inv in H0; exact H0|].
    split; [exact H1|].
    intros v.
    exact (JSArrayProofs.sort_stable Waiting.mmr v (waitingOf role queueSnapshot)).
Qed.

(** The tied queue: "u01" and "u02" are selected for top, in snapshot
    order. *)
Lemma C6_witness :
  exists formed,
    formMatch "draft0002"%string 1000 Examples.queueTie = Some formed
    /\ map Player.odId (playersOf top (selectedPlayers formed))
       = ["u01"; "u02"]%string.
Proof.
  destruct (formMatch "draft0002"%string 1000 Examples.queueTie)
    as [formed|] eqn:Hf; [|vm_compute in Hf; discriminate].
  exists formed. split; [reflexivity|].
  destruct (proj2 (C6_two_lowest_rated_per_role _ _ _) formed top Hf)
    as (p0 & p1 & rest & Hs & -> & _).
  vm_compute in Hs. injection Hs as <- <- _. reflexivity.
Defined.

End MatchmakingProofs.

(** ** The draft state machine *)

Module DraftProofs.

Import Types Draft.

(** What a successful run of the transaction body has checked, and the
    two shapes of the update it writes. *)
Lemma makeDraftAction_tx_inr userId req now random d u r :
  makeDraftAction_tx userId req now random d = inr (u, r) ->
  exists currentAction,
    let cur := DraftSession.currentPhase d in
    let resolved :=
      <[cur := resolve (championId req) (championName req) now currentAction]>
        (DraftSession.actions d) in
    (DraftSession.status d = banning \/ DraftSession.status d = picking)
    /\ DraftSession.actions d !! cur = Some currentAction
    /\ DraftAction.isActive currentAction = true
    /\ playerTeam userId d = Some (DraftAction.team currentAction)
    /\ JSArray.includes (DraftSession.bannedChampions d) (championId req) = false
    /\ JSArray.includes (pickedChampions (DraftSession.actions d)) (championId req)
       = false
    /\ ((length (DraftSession.actions d) <= S cur)%nat
        /\ u_status u = Some completed
        /\ u_currentPhase u = Some cur
        /\ u_actions u = Some resolved
        /\ r = {| r_nextPhase := None; r_completed := true |}
        \/
        (S cur < length (DraftSession.actions d))%nat
        /\ (u_status u = None \/
            u_status u = Some picking /\ DraftSession.status d = banning)
        /\ u_currentPhase u = Some (S cur)
        /\ u_actions u = Some (alter activate (S cur) resolved)
        /\ r = {| r_nextPhase := Some (S cur); r_completed := false |}).
Proof.
  unfold makeDraftAction_tx. intros H.
  destruct (DraftStatus_eqb (DraftSession.status d) banning
            || DraftStatus_eqb (DraftSession.status d) picking) eqn:Hst;
    simpl in H; [|discriminate].
  destruct (DraftSession.actions d !! DraftSession.currentPhase d)
    as [currentAction|] eqn:Hact; [|discriminate].
  destruct (DraftAction.isActive currentAction) eqn:Hactive; simpl in H;
    [|discriminate].
  destruct (playerTeam userId d) as [pt|] eqn:Hteam; [|discriminate].
  destruct (Team_eqb (DraftAction.team currentAction) pt) eqn:Hpt; simpl in H;
    [|discriminate].
  destruct (JSArray.includes (DraftSession.bannedChampions d) (championId req))
    eqn:Hban; simpl in H; [discriminate|].
  destruct (JSArray.includes (pickedChampions (DraftSession.actions d))
                             (championId req)) eqn:Hpick; simpl in H;
    [discriminate|].
  exists currentAction. cbv zeta.
  assert (Hpt' : pt = DraftAction.team currentAction)
    by (destruct (DraftAction.team currentAction), pt; simpl in Hpt; congruence).
  subst pt.
  assert (Hst' : DraftSession.status d = banning \/ DraftSession.status d = picking)
    by (destruct (DraftSession.status d); simpl in Hst; auto; discriminate).
  repeat (split; [first [assumption | reflexivity]|]).
  rewrite length_insert in H.
  destruct (match DraftAction.type currentAction, DraftAction.team currentAction
            with
            | pick, blue => _ | pick, red => _ | ban, _ => _ end)
    as [bt rt] in H.
  destruct (length (DraftSession.actions d) <=? S (DraftSession.currentPhase d))%nat
    eqn:Hlen.
  - apply Nat.leb_le in Hlen. left. inversion H; subst; clear H. simpl. auto.
  - apply Nat.leb_gt in Hlen. right. inversion H; subst; clear H. simpl.
    split; [assumption|]. split; [|auto].
    destruct (DraftAction.type <$> _) as [[|]|]; auto.
    destruct Hst' as [-> | ->]; auto.
Qed.

(** A transition never moves the phase index back. *)
Lemma step_phase_monotone d d' :
  step d d' -> (DraftSession.currentPhase d <= DraftSession.currentPhase d')%nat.
Proof.
  intros [userId now d0 u allReady H | userId req now random d0 u r H
         | userId d0 u H].
  - unfold setDraftReady_doc in H.
    repeat (case_match; try discriminate); inversion H; subst; simpl; lia.
  - apply makeDraftAction_tx_inr in H as (a & _ & _ & _ & _ & _ & _ & Hu).
    destruct Hu as [(_ & _ & Hp & _) | (_ & _ & Hp & _)];
      simpl; rewrite Hp; simpl; lia.
  - unfold timeoutDraftAction_doc in H.
    case_match; try discriminate; inversion H; subst; simpl; lia.
Qed.

(** *** The invariant holds of every reachable session *)

Lemma activeCount_none (l : list DraftAction.t) :
  (forall i a, l !! i = Some a -> DraftAction.isActive a = false) ->
  activeCount l = 0%nat.
Proof.
  unfold activeCount. induction l as [|a l IH]; intros H; [reflexivity|].
  simpl. rewrite (H 0%nat a eq_refl). apply IH.
  intros i b Hb. exact (H (S i) b Hb).
Qed.

Lemma activeCount_onlyActiveAt (l : list DraftAction.t) (k : nat) :
  onlyActiveAt k l -> (k < length l)%nat -> activeCount l = 1%nat.
Proof.
  revert k. induction l as [|a l IH]; intros k H Hk; simpl in Hk; [lia|].
  unfold activeCount in *. simpl.
  rewrite (H 0%nat a eq_refl). destruct k as [|k]; simpl.
  - f_equal. apply activeCount_none. intros i b Hb. exact (H (S i) b Hb).
  - apply (IH k); [|lia]. intros i b Hb. exact (H (S i) b Hb).
Qed.

Lemma createDraftActions_onlyActiveAt :
  onlyActiveAt 0 Matchmaking.createDraftActions.
Proof.
  intros i a H.
  do 16 (destruct i as [|i]; [inversion H; reflexivity|]).
  inversion H.
Qed.

Lemma formMatch_draftData draftId now queueSnapshot formed :
  Matchmaking.formMatch draftId now queueSnapshot = Some formed ->
  DraftSession.status (Matchmaking.draftData formed) = waiting
  /\ DraftSession.currentPhase (Matchmaking.draftData formed) = 0%nat
  /\ DraftSession.actions (Matchmaking.draftData formed)
     = Matchmaking.createDraftActions.
Proof.
  unfold Matchmaking.formMatch. intros H.
  destruct (negb _); [discriminate|].
  destruct (Matchmaking.balanceTeams _) as [[b r]|]; [|discriminate].
  inversion H; subst. simpl. auto.
Qed.

Lemma wellFormed_created draftId now queueSnapshot formed :
  Matchmaking.formMatch draftId now queueSnapshot = Some formed ->
  wellFormed (Matchmaking.draftData formed).
Proof.
  intros H. apply formMatch_draftData in H as (Hs & Hp & Ha).
  unfold wellFormed. rewrite Hp, Ha. split; [reflexivity|].
  intros _. split; [lia|]. apply createDraftActions_onlyActiveAt.
Qed.

Lemma wellFormed_step d d' : wellFormed d -> step d d' -> wellFormed d'.
Proof.
  intros [Hlen Hinv] Hstep.
  destruct Hstep as [userId now d u allReady H | userId req now random d u r H
                    | userId d u H].
  - unfold setDraftReady_doc in H.
    destruct (negb (DraftStatus_eqb (DraftSession.status d) waiting)) eqn:Hw;
      [discriminate|].
    destruct (negb _) in H; [discriminate|].
    inversion H; subst; clear H. unfold wellFormed; simpl.
    split; [assumption|]. intros _. apply Hinv.
    destruct (DraftSession.status d); simpl in Hw; try discriminate; reflexivity.
  - apply makeDraftAction_tx_inr in H
      as (a & Hst & Hcur & Hact & _ & _ & _ & Hu).
    assert (Hlive : live (DraftSession.status d) = true)
      by (destruct Hst as [-> | ->]; reflexivity).
    destruct (Hinv Hlive) as [Hlt Honly].
    destruct Hu as [(Hle & Hs & Hp & Ha & _) | (Hgt & Hs & Hp & Ha & _)];
      unfold wellFormed; simpl; rewrite Hp, Ha; simpl.
    + rewrite length_insert. split; [assumption|].
      rewrite Hs. simpl. discriminate.
    + rewrite length_alter, length_insert. split; [assumption|].
      intros _. split; [lia|].
      intros i b Hb.
      destruct (decide (i = S (DraftSession.currentPhase d))) as [->|Hne].
      * rewrite list_lookup_alter_eq in Hb.
        destruct (_ !! _) as [c|] in Hb; simpl in Hb; [|discriminate].
        inversion Hb; subst. simpl. symmetry. apply Nat.eqb_refl.
      * rewrite list_lookup_alter_ne in Hb by congruence.
        destruct (decide (i = DraftSession.currentPhase d)) as [->|Hne'].
        -- rewrite list_lookup_insert_eq in Hb by lia.
           inversion Hb; subst. simpl. symmetry. apply Nat.eqb_neq. lia.
        -- rewrite list_lookup_insert_ne in Hb by congruence.
           rewrite (Honly i b Hb).
           transitivity false; [apply Nat.eqb_neq; assumption|].
           symmetry. apply Nat.eqb_neq. assumption.
  - unfold timeoutDraftAction_doc in H.
    destruct (negb _) in H; [discriminate|].
    inversion H; subst; clear H. unfold wellFormed; simpl.
    split; [assumption|]. discriminate.
Qed.

Lemma reachable_wellFormed d : reachable d -> wellFormed d.
Proof.
  induction 1 as [draftId now snap formed H | d d' _ IH Hstep].
  - exact (wellFormed_created _ _ _ _ H).
  - exact (wellFormed_step _ _ IH Hstep).
Qed.

(** *** Terminal states and the order of resolutions *)

Lemma step_terminal d d' :
  step d d' -> live (DraftSession.status d) = false ->
  live (DraftSession.status d') = false.
Proof.
  intros [userId now d0 u allReady H | userId req now random d0 u r H
         | userId d0 u H] Hdead.
  - unfold setDraftReady_doc in H.
    destruct (DraftSession.status d0); simpl in *; discriminate.
  - apply makeDraftAction_tx_inr in H as (a & [Hst | Hst] & _);
      rewrite Hst in Hdead; discriminate.
  - unfold timeoutDraftAction_doc in H.
    destruct (negb _) in H; [discriminate|].
    inversion H; subst. reflexivity.
Qed.

Lemma steps_terminal d d' :
  steps d d' -> live (DraftSession.status d) = false ->
  live (DraftSession.status d') = false.
Proof.
  induction 1 as [|d d' d'' Hstep _ IH]; intros Hdead; [assumption|].
  apply IH. exact (step_terminal _ _ Hstep Hdead).
Qed.

Lemma steps_phase_monotone d d' :
  steps d d' -> (DraftSession.currentPhase d <= DraftSession.currentPhase d')%nat.
Proof.
  induction 1 as [|d d' d'' Hstep _ IH]; [lia|].
  apply step_phase_monotone in Hstep. lia.
Qed.

(** A success of the transaction body leaves the resolved action, no
    longer active, at the index that was current. *)
Lemma makeDraftAction_tx_records userId req now random d u r :
  makeDraftAction_tx userId req now random d = inr (u, r) ->
  exists currentAction,
    DraftSession.actions d !! DraftSession.currentPhase d = Some currentAction
    /\ DraftAction.isActive currentAction = true
    /\ DraftSession.actions (update d u) !! DraftSession.currentPhase d
       = Some (resolve (championId req) (championName req) now currentAction).
Proof.
  intros H. apply makeDraftAction_tx_inr in H
    as (a & _ & Hcur & Hact & _ & _ & _ & Hu).
  exists a. split; [assumption|]. split; [assumption|].
  pose proof (lookup_lt_Some _ _ _ Hcur) as Hlt.
  destruct Hu as [(_ & _ & _ & Ha & _) | (_ & _ & _ & Ha & _)];
    simpl; rewrite Ha; simpl.
  - apply list_lookup_insert_eq. assumption.
  - rewrite list_lookup_alter_ne by lia.
    apply list_lookup_insert_eq. assumption.
Qed.

(** After a success the session is completed, or its phase index is
    one more. *)
Lemma makeDraftAction_tx_advances userId req now random d u r :
  makeDraftAction_tx userId req now random d = inr (u, r) ->
  DraftSession.status (update d u) = completed
  /\ DraftSession.currentPhase (update d u) = DraftSession.currentPhase d
  \/ inProgress (DraftSession.status (update d u)) = true
     /\ DraftSession.currentPhase (update d u) = S (DraftSession.currentPhase d).
Proof.
  intros H. apply makeDraftAction_tx_inr in H
    as (a & Hst & _ & _ & _ & _ & _ & Hu).
  destruct Hu as [(_ & Hs & Hp & _) | (_ & Hs & Hp & _)]; simpl; rewrite Hp; simpl.
  - left. rewrite Hs. auto.
  - right. split; [|reflexivity].
    destruct Hs as [-> | [-> _]]; simpl; [|reflexivity].
    destruct Hst as [-> | ->]; reflexivity.
Qed.

(** ** C1 *)

(** C1. [makeDraftAction] succeeds only if the session is in [banning]
    or [picking], the action at the current phase index is active, the
    caller is on the roster of that action's team, and the champion is
    neither in [bannedChampions] nor among the picked champions.  A call
    that fails leaves the database as it was; a call that succeeds
    writes the resolution on the action of the current index (so the
    document changes: no call is ignored), and then the session is
    completed or its phase index is one more.  Hence two successful
    submissions, whatever transitions lie between them, resolve
    different phase indices: the later one a strictly larger one. *)
Theorem C1_makeDraftAction_guarded :
  (forall now random (request : Request DraftActionData) (db : Drafts),
      match makeDraftAction now random request db with
      | (inl _, db') => db' = db
      | (inr _, db') =>
          exists userId draftData currentAction draftData',
            let req := data request in
            auth request = Some userId
            /\ db !! draftId req = Some draftData
            /\ inProgress (DraftSession.status draftData) = true
            /\ DraftSession.actions draftData !! DraftSession.currentPhase draftData
               = Some currentAction
            /\ DraftAction.isActive currentAction = true
            /\ isMember userId (roster (DraftAction.team currentAction) draftData)
               = true
            /\ JSArray.includes (DraftSession.bannedChampions draftData)
                                (championId req) = false
            /\ JSArray.includes (pickedChampions (DraftSession.actions draftData))
                                (championId req) = false
            /\ db' = <[draftId req := draftData']> db
            /\ draftData' <> draftData
            /\ DraftSession.actions draftData' !! DraftSession.currentPhase draftData
               = Some (resolve (championId req) (championName req) now currentAction)
            /\ (DraftSession.status draftData' = completed
                \/ DraftSession.currentPhase draftData'
                   = S (DraftSession.currentPhase draftData))
      end)
  /\ (forall userId1 req1 now1 random1 d1 u1 r1 userId2 req2 now2 random2 d2 u2 r2,
        makeDraftAction_tx userId1 req1 now1 random1 d1 = inr (u1, r1) ->
        steps (update d1 u1) d2 ->
        makeDraftAction_tx userId2 req2 now2 random2 d2 = inr (u2, r2) ->
        (DraftSession.currentPhase d1 < DraftSession.currentPhase d2)%nat).
Proof.
  split.
  - intros now random request db. unfold makeDraftAction.
    destruct (auth request) as [userId|] eqn:Hauth; [|reflexivity].
    destruct (negb (truthy (draftId (data request))) || _ || _); [reflexivity|].
    destruct (db !! draftId (data request)) as [draftData|] eqn:Hdoc;
      [|reflexivity].
    destruct (makeDraftAction_tx userId (data request) now random draftData)
      as [e|[u r]] eqn:Htx; [reflexivity|].
    exists userId, draftData.
    destruct (makeDraftAction_tx_records _ _ _ _ _ _ _ Htx)
      as (a & Hcur & Hact & Hrec).
    pose proof (makeDraftAction_tx_advances _ _ _ _ _ _ _ Htx) as Hadv.
    apply makeDraftAction_tx_inr in Htx
      as (a' & Hst & Hcur' & _ & Hteam & Hban & Hpick & _).
    rewrite Hcur in Hcur'. inversion Hcur'; subst a'; clear Hcur'.
    exists a, (update draftData u). cbv zeta.
    split; [reflexivity|]. split; [reflexivity|].
    split; [destruct Hst as [-> | ->]; reflexivity|].
    split; [assumption|]. split; [assumption|].
    split.
    { unfold playerTeam in Hteam. unfold roster.
      destruct (isMember userId (DraftSession.blueTeam draftData)) eqn:Hb.
      - injection Hteam as <-. exact Hb.
      - destruct (isMember userId (DraftSession.redTeam draftData)) eqn:Hr;
          [|discriminate].
        injection Hteam as <-. exact Hr. }
    split; [assumption|]. split; [assumption|]. split; [reflexivity|].
    split.
    { intros Heq. rewrite Heq, Hcur in Hrec. inversion Hrec as [Ha].
      rewrite Ha in Hact. simpl in Hact. discriminate. }
    split; [assumption|].
    destruct Hadv as [[Hs _] | [_ Hp]]; auto.
  - intros userId1 req1 now1 random1 d1 u1 r1 userId2 req2 now2 random2 d2 u2 r2
           H1 Hsteps H2.
    apply makeDraftAction_tx_inr in H2 as (a2 & Hst2 & _).
    destruct (makeDraftAction_tx_advances _ _ _ _ _ _ _ H1)
      as [[Hdone _] | [_ Hnext]].
    + assert (Hdead : live (DraftSession.status d2) = false).
      { apply (steps_terminal _ _ Hsteps). rewrite Hdone. reflexivity. }
      destruct Hst2 as [Hst2 | Hst2]; rewrite Hst2 in Hdead; discriminate.
    + apply steps_phase_monotone in Hsteps. lia.
Qed.

(** In the readied session of the scenario a blue player bans a
    champion: the call succeeds and the database changes. *)
Lemma C1_witness :
  let db : Drafts := {[ "draft0001abc"%string := Examples.readied ]} in
  let request :=
    {| auth := Some "u02"%string;
       data := {| draftId := "draft0001abc"; championId := "Aatrox";
                  championName := "Aatrox" |} |} in
  exists r db',
    makeDraftAction 3000 "k3j9x0qa" request db = (inr r, db') /\ db' <> db.
Proof.
  intros db request.
  pose proof (proj1 C1_makeDraftAction_guarded 3000 "k3j9x0qa"%string request db)
    as H.
  destruct (makeDraftAction 3000 "k3j9x0qa" request db) as [[e|r] db'] eqn:E.
  - vm_compute in E. discriminate.
  - exists r, db'. split; [reflexivity|].
    destruct H as (userId & d & a & d' & _ & Hd & _ & _ & _ & _ & _ & _
                   & Hdb' & Hne & _).
    intros Heq. apply Hne.
    assert (Hl : db' !! draftId (data request) = Some d')
      by (rewrite Hdb'; apply lookup_insert_eq).
    rewrite Heq, Hd in Hl. congruence.
Defined.

(** *** The sessions of the scenario are reachable *)

Lemma reachable_applyReady now d userId :
  reachable d -> reachable (Examples.applyReady now d userId).
Proof.
  intros Hd. unfold Examples.applyReady.
  destruct (setDraftReady_doc userId now d) as [e|[u allReady]] eqn:H;
    [assumption|].
  exact (reachable_step _ _ Hd (step_ready _ _ _ _ _ H)).
Qed.

Lemma reachable_applyAction now d call :
  reachable d -> reachable (Examples.applyAction now d call).
Proof.
  intros Hd. unfold Examples.applyAction.
  destruct (makeDraftAction_tx _ _ _ _ d) as [e|[u r]] eqn:H; [assumption|].
  exact (reachable_step _ _ Hd (step_action _ _ _ _ _ _ _ H)).
Qed.

Lemma reachable_created_example : reachable Examples.created.
Proof.
  assert (H : Matchmaking.formMatch "draft0001abc" 1000 Examples.queue10
              = Some {| Matchmaking.draftData := Examples.created;
                        Matchmaking.selectedPlayers :=
                          Matchmaking.selectPlayers
                            (Matchmaking.groupQueue Examples.queue10) |})
    by (vm_compute; reflexivity).
  exact (reachable_created _ _ _ _ H).
Qed.

Lemma reachable_readied : reachable Examples.readied.
Proof.
  assert (H : Examples.readied
              = fold_left (Examples.applyReady 2000) Examples.participants
                          Examples.created) by (vm_compute; reflexivity).
  rewrite H. generalize Examples.participants, reachable_created_example.
  intros l. generalize Examples.created.
  induction l as [|x l IH]; intros d Hd; simpl; [assumption|].
  apply IH, reachable_applyReady, Hd.
Qed.

Lemma reachable_drafted : reachable Examples.drafted.
Proof.
  assert (H : Examples.drafted
              = fold_left (Examples.applyAction 3000)
                          (Examples.calls Examples.bluePlayer Examples.redPlayer)
                          Examples.readied) by (vm_compute; reflexivity).
  rewrite H. generalize (Examples.calls Examples.bluePlayer Examples.redPlayer).
  generalize reachable_readied. generalize Examples.readied.
  intros d Hd l. revert d Hd.
  induction l as [|x l IH]; intros d Hd; simpl; [assumption|].
  apply IH, reachable_applyAction, Hd.
Qed.

(** The end-to-end scenario of the specification: after the six bans
    and ten picks the session is completed, every player has a
    champion, the six bans are recorded, and the lobby credentials are
    set. *)
Lemma drafted_scenario :
  DraftSession.status Examples.drafted = completed
  /\ Forall (fun p => truthy_opt (DraftPlayer.championId p) = true)
            (DraftSession.blueTeam Examples.drafted
             ++ DraftSession.redTeam Examples.drafted)
  /\ DraftSession.bannedChampions Examples.drafted
     = ["Aatrox"; "Ahri"; "Akali"; "Alistar"; "Amumu"; "Anivia"]%string
  /\ DraftSession.lobbyName Examples.drafted = Some "Drafty-draft000"%string
  /\ activeCount (DraftSession.actions Examples.drafted) = 0%nat.
Proof.
  split; [reflexivity|]. split; [repeat constructor|].
  split; [reflexivity|]. split; reflexivity.
Qed.

(** When every update lands on the document its call read, a session
    in banning or picking has sixteen actions, exactly one of them
    active, the one at the current phase index. *)
Lemma reachable_one_active_action (d : DraftSession.t) :
  reachable d -> inProgress (DraftSession.status d) = true ->
  length (DraftSession.actions d) = 16%nat
  /\ activeCount (DraftSession.actions d) = 1%nat
  /\ exists a,
      DraftSession.actions d !! DraftSession.currentPhase d = Some a
      /\ DraftAction.isActive a = true.
Proof.
  intros Hreach Hprog. destruct (reachable_wellFormed d Hreach) as [Hlen Hinv].
  assert (Hlive : live (DraftSession.status d) = true)
    by (destruct (DraftSession.status d); simpl in *; congruence).
  destruct (Hinv Hlive) as [Hlt Honly].
  split; [assumption|]. split.
  - apply (activeCount_onlyActiveAt _ (DraftSession.currentPhase d)); [assumption|lia].
  - destruct (lookup_lt_is_Some_2 (DraftSession.actions d)
                (DraftSession.currentPhase d)) as [a Ha]; [lia|].
    exists a. split; [assumption|].
    rewrite (Honly _ _ Ha). apply Nat.eqb_refl.
Qed.

(** *** A late write of [setDraftReady] *)

Lemma steps_trans d d' d'' : steps d d' -> steps d' d'' -> steps d d''.
Proof.
  induction 1 as [|d0 d1 d2 Hstep _ IH]; intros H; [exact H|].
  exact (steps_step _ _ _ Hstep (IH H)).
Qed.

Lemma steps_applyReady now d userId : steps d (Examples.applyReady now d userId).
Proof.
  unfold Examples.applyReady.
  destruct (setDraftReady_doc userId now d) as [e|[u allReady]] eqn:H;
    [apply steps_refl|].
  exact (steps_step _ _ _ (step_ready _ _ _ _ _ H) (steps_refl _)).
Qed.

Lemma steps_applyAction now d call : steps d (Examples.applyAction now d call).
Proof.
  unfold Examples.applyAction.
  destruct (makeDraftAction_tx _ _ _ _ d) as [e|[u r]] eqn:H; [apply steps_refl|].
  exact (steps_step _ _ _ (step_action _ _ _ _ _ _ _ H) (steps_refl _)).
Qed.

(** From nine players ready the session goes on, by the ready of the
    tenth and the sixteen submissions, to the drafted session. *)
Lemma steps_nineReady_drafted : steps Examples.nineReady Examples.drafted.
Proof.
  apply (steps_trans _ Examples.readied).
  - assert (H : Examples.readied
                = Examples.applyReady 2000 Examples.nineReady "u10")
      by (vm_compute; reflexivity).
    rewrite H. apply steps_applyReady.
  - assert (H : Examples.drafted
                = fold_left (Examples.applyAction 3000)
                            (Examples.calls Examples.bluePlayer Examples.redPlayer)
                            Examples.readied) by (vm_compute; reflexivity).
    rewrite H. generalize (Examples.calls Examples.bluePlayer Examples.redPlayer).
    generalize Examples.readied. intros d l. revert d.
    induction l as [|x l IH]; intros d; simpl; [apply steps_refl|].
    exact (steps_trans _ _ _ (steps_applyAction 3000 d x) (IH _)).
Qed.

(** The updates of [setDraftReady] and of [timeoutDraftAction] carry no
    phase index. *)
Lemma setDraftReady_doc_phase userId now read u allReady :
  setDraftReady_doc userId now read = inr (u, allReady) -> u_currentPhase u = None.
Proof.
  unfold setDraftReady_doc. intros H.
  repeat (case_match; try discriminate); inversion H; reflexivity.
Qed.

Lemma timeoutDraftAction_doc_phase userId read u :
  timeoutDraftAction_doc userId read = inr u -> u_currentPhase u = None.
Proof.
  unfold timeoutDraftAction_doc. intros H.
  case_match; try discriminate; inversion H; reflexivity.
Qed.

(** ** C5 *)

(** C5.  The code at the failing input.  [setDraftReady] reads the
    document with [draftRef.get()] and writes with [draftRef.update()],
    outside any transaction.  The player u10 sends the call twice while
    the other nine are ready.  The second call reads the session in
    [waiting], finds everybody ready with the caller, and computes its
    update: both rosters as read, status [banning], a new phase clock.
    Meanwhile the write of the first call lands and the sixteen bans
    and picks are made: the session is [completed].  Then the update
    of the second call lands: the session is in [banning] again, with
    its sixteen actions resolved and none of them active, no champion
    left on the rosters, and every [makeDraftAction] fails on it.
    The phase index is not what goes wrong: no update of
    [setDraftReady] or [timeoutDraftAction] carries one, wherever it
    lands, and a [makeDraftAction] never lowers it. *)
Theorem C5_late_ready_write_reopens_completed_draft :
  (exists u,
      DraftSession.status Examples.nineReady = waiting
      /\ setDraftReady_doc "u10" 2001 Examples.nineReady = inr (u, true)
      /\ steps Examples.nineReady Examples.drafted
      /\ DraftSession.status Examples.drafted = completed
      /\ Examples.reopened = update Examples.drafted u
      /\ DraftSession.status Examples.reopened = banning
      /\ length (DraftSession.actions Examples.reopened) = 16%nat
      /\ activeCount (DraftSession.actions Examples.reopened) = 0%nat
      /\ DraftSession.actions Examples.reopened
         = DraftSession.actions Examples.drafted
      /\ Forall (fun p => DraftPlayer.championId p = None)
                (DraftSession.blueTeam Examples.reopened
                 ++ DraftSession.redTeam Examples.reopened)
      /\ forall userId req now random,
          makeDraftAction_tx userId req now random Examples.reopened
          = inl (HttpsError_of failed_precondition "No active action"))
  /\ (forall userId now read d u allReady,
        setDraftReady_doc userId now read = inr (u, allReady) ->
        DraftSession.currentPhase (update d u) = DraftSession.currentPhase d)
  /\ (forall userId read d u,
        timeoutDraftAction_doc userId read = inr u ->
        DraftSession.currentPhase (update d u) = DraftSession.currentPhase d)
  /\ (forall userId req now random d u r,
        makeDraftAction_tx userId req now random d = inr (u, r) ->
        (DraftSession.currentPhase d <= DraftSession.currentPhase (update d u))%nat).
Proof.
  split; [|split; [|split]].
  - destruct (setDraftReady_doc "u10" 2001 Examples.nineReady)
      as [e|[u allReady]] eqn:E; [vm_compute in E; discriminate|].
    assert (Hall : allReady = true)
      by (pose proof E as E'; vm_compute in E'; congruence).
    subst allReady. exists u.
    assert (Hre : Examples.reopened = update Examples.drafted u).
    { assert (H : Examples.reopened
                  = Overlap.landReady "u10" 2001 Examples.nineReady
                                      Examples.drafted)
        by (vm_compute; reflexivity).
      rewrite H. unfold Overlap.landReady. rewrite E. reflexivity. }
    split; [reflexivity|]. split; [reflexivity|].
    split; [exact steps_nineReady_drafted|]. split; [reflexivity|].
    split; [exact Hre|]. split; [reflexivity|]. split; [reflexivity|].
    split; [reflexivity|]. split; [reflexivity|].
    split; [repeat constructor|].
    intros userId req now random. reflexivity.
  - intros userId now read d u allReady H. simpl.
    rewrite (setDraftReady_doc_phase _ _ _ _ _ H). reflexivity.
  - intros userId read d u H. simpl.
    rewrite (timeoutDraftAction_doc_phase _ _ _ H). reflexivity.
  - intros userId req now random d u r H.
    exact (step_phase_monotone _ _ (step_action _ _ _ _ _ _ _ H)).
Qed.

(** ** C8 *)

(** C8. The session [tryMatchPlayers] creates is in [waiting] at phase
    index 0 and carries sixteen unresolved actions with phases 0 to 15:
    six bans for blue, red, blue, red, blue, red, then ten picks for
    blue, red, red, blue, blue, red, red, blue, blue, red; the action at
    index 0 is active and no other is. *)
Theorem C8_created_session_template draftId now queueSnapshot formed :
  Matchmaking.formMatch draftId now queueSnapshot = Some formed ->
  let d := Matchmaking.draftData formed in
  let actions := DraftSession.actions d in
  DraftSession.status d = waiting
  /\ DraftSession.currentPhase d = 0%nat
  /\ length actions = 16%nat
  /\ map DraftAction.phase actions = seq 0 16
  /\ map DraftAction.type actions = repeat ban 6 ++ repeat pick 10
  /\ map DraftAction.team actions
     = [blue; red; blue; red; blue; red]
       ++ [blue; red; red; blue; blue; red; red; blue; blue; red]
  /\ map DraftAction.isActive actions = true :: repeat false 15
  /\ map DraftAction.championId actions = repeat None 16
  /\ map DraftAction.completedAt actions = repeat None 16.
Proof.
  intros H d actions. subst d actions.
  destruct (formMatch_draftData _ _ _ _ H) as (Hs & Hp & Ha).
  rewrite Hs, Hp, Ha. unfold Matchmaking.createDraftActions.
  repeat split; reflexivity.
Qed.

(** The scenario: the tenth join forms the draft. *)
Lemma C8_witness :
  exists formed,
    Matchmaking.formMatch "draft0001abc" 1000 Examples.queue10 = Some formed
    /\ (DraftAction.type <$> DraftSession.actions (Matchmaking.draftData formed) !! 0%nat)
       = Some ban
    /\ length (DraftSession.blueTeam (Matchmaking.draftData formed)) = 5%nat
    /\ length (DraftSession.redTeam (Matchmaking.draftData formed)) = 5%nat.
Proof.
  destruct (Matchmaking.formMatch "draft0001abc" 1000 Examples.queue10)
    as [formed|] eqn:H; [|vm_compute in H; discriminate].
  exists formed. split; [reflexivity|].
  pose proof (C8_created_session_template _ _ _ _ H) as T.
  cbv zeta in T. destruct T as (_ & _ & _ & _ & Hty & _).
  split.
  - destruct (DraftSession.actions (Matchmaking.draftData formed)) as [|a l];
      [discriminate|]. simpl in *. congruence.
  - vm_compute in H. injection H as <-. split; reflexivity.
Defined.

(** ** C4 *)

(** What [timeoutDraftAction] does for a participant: whatever the
    status of the session and whatever the clock, the session is written
    with status [cancelled] and reason [timeout]. *)
Lemma timeoutDraftAction_participant now (request : Request string) (db : Drafts)
    userId draftData :
  auth request = Some userId ->
  truthy (data request) = true ->
  db !! data request = Some draftData ->
  isMember userId (DraftSession.blueTeam draftData)
  || isMember userId (DraftSession.redTeam draftData) = true ->
  exists draftData',
    timeoutDraftAction now request db = (inr tt, <[data request := draftData']> db)
    /\ DraftSession.status draftData' = cancelled
    /\ DraftSession.cancelReason draftData' = Some "timeout"%string
    /\ DraftSession.actions draftData' = DraftSession.actions draftData
    /\ DraftSession.currentPhase draftData' = DraftSession.currentPhase draftData.
Proof.
  intros Hauth Hid Hdoc Hmem. unfold timeoutDraftAction, timeoutDraftAction_doc.
  rewrite Hauth, Hid, Hdoc, Hmem. simpl.
  eexists. split; [reflexivity|]. simpl. auto.
Qed.

(** A call that is not a participant's, or names no session, changes
    nothing. *)
Lemma timeoutDraftAction_error now (request : Request string) (db : Drafts) e db' :
  timeoutDraftAction now request db = (inl e, db') -> db' = db.
Proof.
  unfold timeoutDraftAction. intros H.
  repeat (case_match; try discriminate); inversion H; reflexivity.
Qed.

(** C4. The code at the failing inputs.  The drafted session of the
    scenario is [completed]; a participant's [timeoutDraftAction] on it
    succeeds and rewrites it as [cancelled].  The readied session is in
    [banning] with 29 seconds left on its phase clock; the call succeeds
    there too. *)
Theorem C4_timeout_ignores_status_and_clock :
  let call := {| auth := Some "u05"%string; data := "draft0001abc"%string |} in
  (DraftSession.status Examples.drafted = completed
   /\ exists d',
       timeoutDraftAction 3500 call {[ "draft0001abc"%string := Examples.drafted ]}
       = (inr tt, <[ "draft0001abc"%string := d' ]>
                    {[ "draft0001abc"%string := Examples.drafted ]})
       /\ DraftSession.status d' = cancelled
       /\ d' <> Examples.drafted)
  /\ (DraftSession.status Examples.readied = banning
      /\ timeRemaining 3500 Examples.readied = 29
      /\ exists d',
          timeoutDraftAction 3500 call {[ "draft0001abc"%string := Examples.readied ]}
          = (inr tt, <[ "draft0001abc"%string := d' ]>
                       {[ "draft0001abc"%string := Examples.readied ]})
          /\ DraftSession.status d' = cancelled).
Proof.
  intros call. split.
  - split; [reflexivity|].
    destruct (timeoutDraftAction_participant 3500 call
                {[ "draft0001abc"%string := Examples.drafted ]}
                "u05"%string Examples.drafted eq_refl eq_refl
                (lookup_singleton_eq _ _) eq_refl)
      as (d' & Hcall & Hst & _).
    exists d'. split; [exact Hcall|]. split; [exact Hst|].
    intros Heq. rewrite Heq in Hst. discriminate.
  - split; [reflexivity|]. split; [reflexivity|].
    destruct (timeoutDraftAction_participant 3500 call
                {[ "draft0001abc"%string := Examples.readied ]}
                "u05"%string Examples.readied eq_refl eq_refl
                (lookup_singleton_eq _ _) eq_refl)
      as (d' & Hcall & Hst & _).
    exists d'. split; [exact Hcall|exact Hst].
Qed.

End DraftProofs.

(** ** The match record builder *)

Module MatchProofs.

Import Types Match.

Section WithPow.

Variable Math_pow : float -> float -> float.

(** When the store rejects [matchRef.set], nothing is written. *)
Lemma submitMatchResult_set_rejected env uid data db :
  matchSetAccepted env = false ->
  snd (submitMatchResult Math_pow env uid data db) = db.
Proof.
  intros Hset. unfold submitMatchResult.
  destruct uid as [uid|]; [|reflexivity].
  destruct (winner data) as [w|]; [|reflexivity].
  destruct (blueTeam data) as [b|]; [|reflexivity].
  destruct (redTeam data) as [r|]; [|reflexivity].
  destruct (negb _ || negb _); [reflexivity|].
  destruct (buildMaps db (b ++ r)) as [playerMmrMap playerPlacementMap].
  destruct (computeChanges _ _ _ _ _) as [mmrChanges playerMatchStats].
  rewrite Hset. reflexivity.
Qed.

(** When the store accepts [matchRef.set] and rejects [batch.commit],
    a submission that passes the validation fails, the match document
    is stored with [mmrProcessed] set, and no rating document is
    changed. *)
Lemma submitMatchResult_commit_rejected env uid data db w b r :
  matchSetAccepted env = true ->
  batchCommitAccepted env = false ->
  winner data = Some w -> blueTeam data = Some b -> redTeam data = Some r ->
  length b = 5%nat -> length r = 5%nat ->
  exists matchDoc,
    submitMatchResult Math_pow env (Some uid) data db
    = (inl failed,
       {| mmr := mmr db;
          matches := <[newMatchId env := matchDoc]> (matches db);
          users := users db |})
    /\ MatchDoc.mmrProcessed matchDoc = true
    /\ MatchDoc.id matchDoc = newMatchId env
    /\ MatchDoc.winner matchDoc = w.
Proof.
  intros Hset Hcommit Hw Hb Hr Lb Lr. unfold submitMatchResult.
  rewrite Hw, Hb, Hr, Lb, Lr, Hset, Hcommit. simpl negb. simpl orb. cbv iota.
  destruct (buildMaps db (b ++ r)) as [playerMmrMap playerPlacementMap].
  destruct (computeChanges _ _ _ _ _) as [mmrChanges playerMatchStats].
  eexists. split.
  - destruct (mapM _ _); reflexivity.
  - simpl. auto.
Qed.

End WithPow.

(** ** C3 *)

(** C3. The code at the failing input: a valid submission of ten
    players, the store accepting [matchRef.set] and rejecting
    [batch.commit].  The call fails with [internal]; the match document
    is stored, with [mmrProcessed] set; the ten rating documents are as
    they were.  With both writes accepted the same submission stores
    the match document and changes the rating documents. *)
Theorem C3_match_record_stored_without_rating_updates :
  let db := Examples.ratingDb in
  let call env :=
    submitMatchResult Examples.pow0 env (Some "u01"%string) Examples.submission db in
  (fst (call Examples.commitRejected) = inl failed
   /\ (MatchDoc.mmrProcessed
         <$> matches (snd (call Examples.commitRejected)) !! "match0001"%string)
      = Some true
   /\ mmr (snd (call Examples.commitRejected)) = mmr db
   /\ matches db !! "match0001"%string = None)
  /\ (exists result, fst (call Examples.allAccepted) = inr result)
  /\ (MmrDoc.mmr <$> mmr (snd (call Examples.allAccepted)) !! "u01"%string)
     = Some 1030%float
  /\ (MmrDoc.mmr <$> mmr db !! "u01"%string) = Some 1000%float.
Proof.
  intros db call. split; [|split; [|split]].
  - destruct (submitMatchResult_commit_rejected Examples.pow0
                Examples.commitRejected "u01"%string Examples.submission db
                blue _ _ eq_refl eq_refl eq_refl eq_refl eq_refl eq_refl eq_refl)
      as (matchDoc & Hcall & Hproc & _).
    subst call. cbv beta. rewrite Hcall. cbn [fst snd matches mmr].
    split; [reflexivity|]. split; [|split; reflexivity].
    change (Match.newMatchId Examples.commitRejected) with "match0001"%string.
    rewrite lookup_insert_eq. simpl. rewrite Hproc. reflexivity.
  - subst call. cbv beta.
    destruct (fst _) as [e|result] eqn:H; [|exists result; reflexivity].
    vm_compute in H. discriminate.
  - vm_compute. reflexivity.
  - vm_compute. reflexivity.
Qed.

End MatchProofs.
(** ** Numbers: order, signs, and the bounds of the rating engine *)

Module NumberFacts.
Import JS FloatFacts Numbers.
#[local] Open Scope float_scope.

Lemma SFcompare_key x y :
  x <> S754_nan -> y <> S754_nan ->
  SFcompare x y = Some (lexCompare (key x) (key y)).
Proof.
  destruct x as [sx|sx| |sx mx ex], y as [sy|sy| |sy my ey]; intros Hx Hy;
    try congruence;
    repeat match goal with s : bool |- _ => destruct s end;
    try reflexivity.
  cbn [SFcompare key lexCompare]. change (-1 ?= -1)%Z with Eq. cbv iota.
  rewrite Z.compare_opp. rewrite (Z.compare_antisym ex ey).
  destruct (ex ?= ey)%Z; simpl; reflexivity.
Qed.

Lemma lexCompare_trans a b c :
  lexCompare a b <> Gt -> lexCompare b c <> Gt -> lexCompare a c <> Gt.
Proof.
  destruct a as [[a1 a2] a3], b as [[b1 b2] b3], c as [[c1 c2] c3]. simpl.
  destruct (Z.compare_spec a1 b1), (Z.compare_spec b1 c1), (Z.compare_spec a1 c1);
    try congruence; try lia;
  destruct (Z.compare_spec a2 b2), (Z.compare_spec b2 c2), (Z.compare_spec a2 c2);
    try congruence; try lia;
  destruct (Z.compare_spec a3 b3), (Z.compare_spec b3 c3), (Z.compare_spec a3 c3);
    try congruence; try lia.
Qed.

Lemma lexCompare_antisym a b : lexCompare b a = CompOpp (lexCompare a b).
Proof.
  destruct a as [[a1 a2] a3], b as [[b1 b2] b3]. simpl.
  rewrite (Z.compare_antisym a1 b1), (Z.compare_antisym a2 b2),
    (Z.compare_antisym a3 b3).
  destruct (a1 ?= b1)%Z, (a2 ?= b2)%Z, (a3 ?= b3)%Z; reflexivity.
Qed.

Lemma lexCompare_Eq_trans a b c :
  lexCompare a b = Eq -> lexCompare b c = lexCompare a c.
Proof.
  destruct a as [[a1 a2] a3], b as [[b1 b2] b3], c as [[c1 c2] c3]. simpl.
  destruct (Z.compare_spec a1 b1); try discriminate.
  destruct (Z.compare_spec a2 b2); try discriminate.
  intros H3%Z.compare_eq. subst. reflexivity.
Qed.

Lemma leb_key a b :
  (a <=? b) = true
  <-> isNaN a = false /\ isNaN b = false
      /\ lexCompare (key (Prim2SF a)) (key (Prim2SF b)) <> Gt.
Proof.
  split.
  - intros H. destruct (leb_isNaN _ _ H) as [Ha Hb]. split; [exact Ha|].
    split; [exact Hb|]. revert H.
    rewrite FloatAxioms.leb_spec. unfold SFleb.
    rewrite SFcompare_key by (apply isNaN_false; assumption).
    destruct (lexCompare _ _); congruence.
  - intros (Ha & Hb & H). rewrite FloatAxioms.leb_spec. unfold SFleb.
    rewrite SFcompare_key by (apply isNaN_false; assumption).
    destruct (lexCompare _ _); congruence.
Qed.

Lemma ltb_key a b :
  (a <? b) = true
  <-> isNaN a = false /\ isNaN b = false
      /\ lexCompare (key (Prim2SF a)) (key (Prim2SF b)) = Lt.
Proof.
  split.
  - intros H. destruct (leb_isNaN _ _ (ltb_leb _ _ H)) as [Ha Hb].
    split; [exact Ha|]. split; [exact Hb|]. revert H.
    rewrite FloatAxioms.ltb_spec. unfold SFltb.
    rewrite SFcompare_key by (apply isNaN_false; assumption).
    destruct (lexCompare _ _); congruence.
  - intros (Ha & Hb & H). rewrite FloatAxioms.ltb_spec. unfold SFltb.
    rewrite SFcompare_key by (apply isNaN_false; assumption).
    rewrite H. reflexivity.
Qed.

Lemma eqb_key a b :
  (a =? b) = true
  <-> isNaN a = false /\ isNaN b = false
      /\ lexCompare (key (Prim2SF a)) (key (Prim2SF b)) = Eq.
Proof.
  split.
  - intros H.
    assert (Hab : isNaN a = false /\ isNaN b = false).
    { revert H. unfold isNaN. rewrite !FloatAxioms.eqb_spec. unfold SFeqb.
      destruct (Prim2SF a) as [sa|sa| |sa ma ea], (Prim2SF b) as [sb|sb| |sb mb eb];
        simpl; try discriminate; intros _; split; try reflexivity;
        repeat match goal with s : bool |- _ => destruct s end; simpl;
        rewrite ?Z.compare_refl, ?Pos.compare_cont_refl; reflexivity. }
    destruct Hab as [Ha Hb]. split; [exact Ha|]. split; [exact Hb|]. revert H.
    rewrite FloatAxioms.eqb_spec. unfold SFeqb.
    rewrite SFcompare_key by (apply isNaN_false; assumption).
    destruct (lexCompare _ _); congruence.
  - intros (Ha & Hb & H). rewrite FloatAxioms.eqb_spec. unfold SFeqb.
    rewrite SFcompare_key by (apply isNaN_false; assumption).
    rewrite H. reflexivity.
Qed.

(** The order of numbers is transitive. *)
Lemma leb_trans a b c :
  (a <=? b) = true -> (b <=? c) = true -> (a <=? c) = true.
Proof.
  rewrite !leb_key. intros (Ha & Hb & H1) (_ & Hc & H2).
  repeat split; try assumption. eapply lexCompare_trans; eassumption.
Qed.

Lemma leb_antisym a b :
  (a <=? b) = true -> (b <=? a) = true -> (a =? b) = true.
Proof.
  rewrite !leb_key, eqb_key. intros (Ha & Hb & H1) (_ & _ & H2).
  repeat split; try assumption.
  rewrite lexCompare_antisym in H2.
  destruct (lexCompare _ _); simpl in *; congruence.
Qed.

Lemma ltb_not_leb a b : (a <? b) = true -> (b <=? a) = false.
Proof.
  rewrite ltb_key. intros (Ha & Hb & H).
  destruct (b <=? a) eqn:E; [|reflexivity].
  apply leb_key in E. destruct E as (_ & _ & E).
  rewrite lexCompare_antisym, H in E. simpl in E. congruence.
Qed.

Lemma eqb_leb a b : (a =? b) = true -> (a <=? b) = true /\ (b <=? a) = true.
Proof.
  rewrite eqb_key, !leb_key. intros (Ha & Hb & H). repeat split; try assumption.
  - rewrite H. discriminate.
  - rewrite lexCompare_antisym, H. discriminate.
Qed.

End NumberFacts.

Module SignFacts.
Import JS FloatFacts Numbers NumberFacts.
#[local] Open Scope float_scope.

Lemma signIs_not_nan s x : signIs s x -> x <> S754_nan.
Proof. destruct x; simpl; intros H; try discriminate; contradiction. Qed.

Lemma binary_round_aux_sign s m e l :
  (0 <= m)%Z -> signIs s (binary_round_aux prec emax s m e l).
Proof.
  intros H. unfold binary_round_aux.
  pose proof (shr_fexp_nonneg m e l H) as H1.
  destruct (shr_fexp prec emax m e l) as [mrs' e']. simpl in H1.
  pose proof (shr_fexp_nonneg
                (round_nearest_even (shr_m mrs') (loc_of_shr_record mrs')) e'
                loc_Exact (round_nearest_even_nonneg _ _ H1)) as H2.
  destruct (shr_fexp prec emax _ e' loc_Exact) as [mrs'' e'']. simpl in H2.
  destruct (shr_m mrs'') as [|p|p]; [reflexivity| |lia].
  destruct (e'' <=? emax - prec)%Z; reflexivity.
Qed.

(** The sign of a product is the exclusive or of the signs, unless it
    is the product of a zero and an infinity. *)
Lemma SFmul_sign s t x y :
  signIs s x -> signIs t y -> finiteNonzero x \/ finiteNonzero y ->
  signIs (xorb s t) (SFmul prec emax x y).
Proof.
  destruct x as [sx|sx| |sx mx ex], y as [sy|sy| |sy my ey]; simpl;
    intros Hx Hy Hf; subst; try contradiction; try reflexivity;
    try (destruct Hf; contradiction).
  apply binary_round_aux_sign. lia.
Qed.

Lemma SFdiv_sign s t x y :
  signIs s x -> signIs t y -> finiteNonzero y ->
  signIs (xorb s t) (SFdiv prec emax x y).
Proof.
  destruct x as [sx|sx| |sx mx ex], y as [sy|sy| |sy my ey]; simpl;
    intros Hx Hy Hf; subst; try contradiction; try reflexivity.
  pose proof (SFdiv_core_nonneg mx ex my ey) as H.
  destruct (SFdiv_core_binary prec emax (Z.pos mx) ex (Z.pos my) ey) as [[mz ez] lz].
  apply binary_round_aux_sign, H.
Qed.

Lemma binary_normalize_sign m e :
  (0 <= m)%Z -> signIs false (binary_normalize prec emax m e false).
Proof.
  intros H. unfold binary_normalize, binary_round.
  destruct m as [|p|p]; [reflexivity| |lia].
  destruct (shl_align _ _ _) as [mz ez]. apply binary_round_aux_sign. lia.
Qed.

Lemma of_uint63_sign n : signIs false (Prim2SF (of_uint63 n)).
Proof.
  rewrite FloatAxioms.of_uint63_spec. apply binary_normalize_sign.
  apply Uint63.to_Z_bounded.
Qed.

Lemma of_Z_sign n : n <> 0%Z -> signIs (n <? 0)%Z (Prim2SF (of_Z n)).
Proof.
  intros Hn. unfold of_Z. destruct (n <? 0)%Z.
  - rewrite FloatAxioms.opp_spec.
    pose proof (of_uint63_sign (Uint63.of_Z (- n))) as H.
    destruct (Prim2SF _); simpl in *; subst; try reflexivity; contradiction.
  - apply of_uint63_sign.
Qed.

(** [Math.round] keeps the sign. *)
Lemma Math_round_sign s x :
  signIs s (Prim2SF x) -> signIs s (Prim2SF (Math_round x)).
Proof.
  unfold Math_round. destruct (Prim2SF x) as [sx|sx| |sx m e] eqn:E; intros H;
    rewrite ?E; try exact H.
  destruct (0 <=? e)%Z eqn:He; [rewrite E; exact H|].
  simpl in H. subst sx.
  apply Z.leb_gt in He.
  set (d := (2 ^ (- e))%Z).
  assert (Hd : (0 < d)%Z) by (apply Z.pow_pos_nonneg; lia).
  set (num := if s then Z.neg m else Z.pos m).
  set (n := ((2 * num + d) / (2 * d))%Z).
  destruct (n =? 0)%Z eqn:Hn.
  - destruct s; reflexivity.
  - apply Z.eqb_neq in Hn.
    assert (Hs : (n <? 0)%Z = s).
    { subst n num. destruct s.
      - apply Z.ltb_lt.
        assert ((2 * Z.neg m + d) / (2 * d) <= 0)%Z; [|lia].
        assert ((2 * Z.neg m + d) / (2 * d) < 1)%Z; [|lia].
        apply Z.div_lt_upper_bound; lia.
      - apply Z.ltb_ge. apply Z.div_pos; lia. }
    rewrite <- Hs. apply of_Z_sign, Hn.
Qed.

Lemma signIs_false_leb x : signIs false (Prim2SF x) -> (0 <=? x) = true.
Proof.
  rewrite FloatAxioms.leb_spec. unfold SFleb.
  change (Prim2SF 0) with (S754_zero false).
  destruct (Prim2SF x) as [s|s| |s m e]; simpl; intros H; subst;
    try reflexivity; contradiction.
Qed.

Lemma signIs_true_leb x : signIs true (Prim2SF x) -> (x <=? 0) = true.
Proof.
  rewrite FloatAxioms.leb_spec. unfold SFleb.
  change (Prim2SF 0) with (S754_zero false).
  destruct (Prim2SF x) as [s|s| |s m e]; simpl; intros H; subst;
    try reflexivity; contradiction.
Qed.

(** A number between two positive finite numbers is positive and
    finite. *)
Lemma between_positive lo hi x :
  (exists m e, Prim2SF lo = S754_finite false m e) ->
  finiteSF (Prim2SF hi) ->
  (lo <=? x) = true -> (x <=? hi) = true ->
  signIs false (Prim2SF x) /\ finiteNonzero (Prim2SF x).
Proof.
  intros (m & e & Hlo) Hhi. rewrite !FloatAxioms.leb_spec. unfold SFleb.
  rewrite Hlo.
  destruct (Prim2SF x) as [sx|sx| |sx mx ex]; simpl; try discriminate.
  - destruct sx; try discriminate.
    destruct (Prim2SF hi) as [sh|sh| |sh mh eh]; simpl in *;
      try contradiction; discriminate.
  - destruct sx; try discriminate. intros _ _. split; reflexivity.
Qed.

Lemma mul_nan_l y : nan * y = nan.
Proof. apply Prim2SF_inj. rewrite FloatAxioms.mul_spec. reflexivity. Qed.

Lemma mul_nan_r x : x * nan = nan.
Proof.
  apply Prim2SF_inj. rewrite FloatAxioms.mul_spec.
  change (Prim2SF nan) with S754_nan. destruct (Prim2SF x); reflexivity.
Qed.

Lemma mul_sign s t x y :
  signIs s (Prim2SF x) -> signIs t (Prim2SF y) ->
  finiteNonzero (Prim2SF x) \/ finiteNonzero (Prim2SF y) ->
  signIs (xorb s t) (Prim2SF (x * y)).
Proof. rewrite FloatAxioms.mul_spec. apply SFmul_sign. Qed.

Lemma div_sign s t x y :
  signIs s (Prim2SF x) -> signIs t (Prim2SF y) -> finiteNonzero (Prim2SF y) ->
  signIs (xorb s t) (Prim2SF (x / y)).
Proof. rewrite FloatAxioms.div_spec. apply SFdiv_sign. Qed.

Lemma SFadd_not_nan_l x y :
  finiteSF x -> y <> S754_nan -> SFadd prec emax x y <> S754_nan.
Proof.
  intros Hx Hy.
  destruct x as [sx|sx| |sx mx ex], y as [sy|sy| |sy my ey]; simpl in *;
    try contradiction; try congruence.
  - destruct sx, sy; discriminate.
  - apply binary_normalize_not_nan.
Qed.

Lemma SFsub_not_nan_l x y :
  finiteSF x -> y <> S754_nan -> SFsub prec emax x y <> S754_nan.
Proof.
  intros Hx Hy.
  destruct x as [sx|sx| |sx mx ex], y as [sy|sy| |sy my ey]; simpl in *;
    try contradiction; try congruence.
  - destruct sx, sy; discriminate.
  - apply binary_normalize_not_nan.
Qed.

Lemma SFdiv_not_nan_l x y :
  finiteNonzero x -> y <> S754_nan -> SFdiv prec emax x y <> S754_nan.
Proof.
  intros Hx Hy.
  destruct x as [sx|sx| |sx mx ex], y as [sy|sy| |sy my ey]; simpl in *;
    try contradiction; try congruence.
  pose proof (SFdiv_core_nonneg mx ex my ey) as H.
  destruct (SFdiv_core_binary prec emax (Z.pos mx) ex (Z.pos my) ey) as [[mz ez] lz].
  apply binary_round_aux_not_nan, H.
Qed.

End SignFacts.

Module RatingBounds.
Import Types JS Mmr FloatFacts Numbers NumberFacts SignFacts MmrProofs.
#[local] Open Scope float_scope.

Lemma ltb_false_of_leb a b : (a <=? b) = true -> (b <? a) = false.
Proof.
  intros H. destruct (b <? a) eqn:E; [|reflexivity].
  apply ltb_not_leb in E. congruence.
Qed.

(** Two numbers that compare equal are the same number, unless they
    are zeros. *)
Lemma not_ltb_eq a b :
  isNaN a = false -> finiteNonzero (Prim2SF b) ->
  (a <? b) = false -> (b <? a) = false -> a = b.
Proof.
  intros Ha Hb. rewrite !FloatAxioms.ltb_spec. unfold SFltb. intros H1 H2.
  apply Prim2SF_inj. apply isNaN_false in Ha.
  destruct (Prim2SF a) as [sa|sa| |sa ma ea], (Prim2SF b) as [sb|sb| |sb mb eb];
    simpl in *; try contradiction; try congruence;
    repeat match goal with s : bool |- _ => destruct s end;
    try discriminate.
  all: change (PosDef.Pos.compare_cont Eq) with Pos.compare in *;
    destruct (Z.compare_spec ea eb), (Z.compare_spec eb ea);
    simpl in *; try discriminate; try lia; subst;
    destruct (Pos.compare_spec ma mb), (Pos.compare_spec mb ma);
    simpl in *; try discriminate; try lia; subst; reflexivity.
Qed.

Lemma ltb_leb_trans a b c :
  (a <? b) = true -> (b <=? c) = true -> (a <? c) = true.
Proof.
  rewrite !ltb_key, leb_key. intros (Ha & Hb & H1) (_ & Hc & H2).
  repeat split; try assumption.
  destruct (lexCompare (key (Prim2SF a)) (key (Prim2SF c))) eqn:E; try reflexivity.
  - exfalso. apply H2.
    assert (E' : lexCompare (key (Prim2SF c)) (key (Prim2SF a)) = Eq)
      by (rewrite lexCompare_antisym, E; reflexivity).
    rewrite (lexCompare_antisym (key (Prim2SF c)) (key (Prim2SF b))),
      <- (lexCompare_Eq_trans _ _ _ E'), H1. reflexivity.
  - exfalso.
    apply (lexCompare_trans (key (Prim2SF b)) (key (Prim2SF c)) (key (Prim2SF a)) H2).
    + rewrite lexCompare_antisym, E. discriminate.
    + rewrite lexCompare_antisym, H1. reflexivity.
Qed.

(** [clamp] between two positive finite bounds, case by case. *)
Lemma clamp_cases value lo hi :
  finiteNonzero (Prim2SF lo) -> finiteNonzero (Prim2SF hi) ->
  get_sign lo = false -> get_sign hi = false ->
  (lo <=? hi) = true ->
  (isNaN value = true -> clamp value lo hi = nan)
  /\ ((value <? lo) = true -> clamp value lo hi = lo)
  /\ ((lo <=? value) = true -> (value <=? hi) = true -> clamp value lo hi = value)
  /\ ((hi <? value) = true -> clamp value lo hi = hi).
Proof.
  intros Flo Fhi Slo Shi Hlh.
  destruct (leb_isNaN _ _ Hlh) as [Nlo Nhi].
  split; [apply clamp_NaN|].
  assert (Hmax : Math_max lo hi = hi).
  { unfold Math_max. rewrite Nlo, Nhi. simpl.
    destruct (lo <? hi) eqn:E1; [reflexivity|].
    rewrite (ltb_false_of_leb _ _ Hlh). rewrite Slo.
    apply (not_ltb_eq lo hi Nlo Fhi E1 (ltb_false_of_leb _ _ Hlh)). }
  split; [|split].
  - intros Hv. destruct (leb_isNaN _ _ (ltb_leb _ _ Hv)) as [Nv _].
    unfold clamp, Math_min. rewrite Nhi, Nv. simpl.
    pose proof (ltb_leb_trans _ _ _ Hv Hlh) as Hvh.
    rewrite (ltb_false_of_leb _ _ (ltb_leb _ _ Hvh)), Hvh.
    unfold Math_max. rewrite Nlo, Nv. simpl.
    rewrite (ltb_false_of_leb _ _ (ltb_leb _ _ Hv)), Hv. reflexivity.
  - intros Hlo Hhi. destruct (leb_isNaN _ _ Hlo) as [_ Nv].
    assert (Hmin : Math_min hi value = value).
    { unfold Math_min. rewrite Nhi, Nv. simpl.
      rewrite (ltb_false_of_leb _ _ Hhi).
      destruct (value <? hi); [reflexivity|]. rewrite Shi. reflexivity. }
    unfold clamp. rewrite Hmin. unfold Math_max. rewrite Nlo, Nv. simpl.
    destruct (lo <? value) eqn:E1; [reflexivity|].
    rewrite (ltb_false_of_leb _ _ Hlo), Slo.
    symmetry. apply (not_ltb_eq value lo Nv Flo (ltb_false_of_leb _ _ Hlo) E1).
  - intros Hv. destruct (leb_isNaN _ _ (ltb_leb _ _ Hv)) as [_ Nv].
    unfold clamp, Math_min. rewrite Nhi, Nv. simpl. rewrite Hv. exact Hmax.
Qed.

(** X1. [applyMMRChange] returns the sum of the rating and the change
    when that lies between [MIN_MMR] (100) and [MAX_MMR] (3000),
    [MIN_MMR] when it is below, [MAX_MMR] when it is above, and NaN
    when the sum is NaN; so every rating it returns that is a number
    lies between 100 and 3000. *)
Theorem applyMMRChange_clamps (currentMmr change : float) :
  let newMmr := currentMmr + change in
  (isNaN newMmr = true -> applyMMRChange currentMmr change = nan)
  /\ ((newMmr <? MIN_MMR) = true -> applyMMRChange currentMmr change = MIN_MMR)
  /\ ((MIN_MMR <=? newMmr) = true -> (newMmr <=? MAX_MMR) = true ->
      applyMMRChange currentMmr change = newMmr)
  /\ ((MAX_MMR <? newMmr) = true -> applyMMRChange currentMmr change = MAX_MMR)
  /\ (isNaN newMmr = false ->
      (MIN_MMR <=? applyMMRChange currentMmr change) = true
      /\ (applyMMRChange currentMmr change <=? MAX_MMR) = true).
Proof.
  intros newMmr. unfold applyMMRChange. fold newMmr.
  destruct (clamp_cases newMmr MIN_MMR MAX_MMR) as (H1 & H2 & H3 & H4);
    try reflexivity; try exact I.
  repeat split; try assumption; apply clamp_range; try assumption; reflexivity.
Qed.

End RatingBounds.

Module ChangeProofs.
Import Types JS Mmr FloatFacts Numbers NumberFacts SignFacts MmrProofs RatingBounds.
#[local] Open Scope float_scope.

Lemma scoreToMultiplier_range score :
  isNaN score = false ->
  (MIN_PERFORMANCE_MULTIPLIER <=? scoreToMultiplier score) = true
  /\ (scoreToMultiplier score <=? MAX_PERFORMANCE_MULTIPLIER) = true.
Proof.
  intros H. unfold scoreToMultiplier. apply clamp_range; [|reflexivity].
  apply isNaN_Prim2SF. rewrite FloatAxioms.add_spec. apply SFadd_not_nan_l.
  - exact I.
  - rewrite FloatAxioms.div_spec. apply SFdiv_not_nan.
    + apply isNaN_Prim2SF, H.
    + discriminate.
    + right. exact I.
    + discriminate.
Qed.

Lemma scoreToMultiplier_NaN score :
  isNaN score = true -> scoreToMultiplier score = nan.
Proof. intros H. apply isNaN_true in H. subst. reflexivity. Qed.

Section WithPow.

Variable Math_pow : float -> float -> float.

(** The opponent multiplier is a number whenever [Math.pow] returns
    one. *)
Lemma opponentMultiplier_bounds playerMmr opponentAvgMmr didWin :
  isNaN (Math_pow 10 ((opponentAvgMmr - playerMmr) / 400)) = false ->
  (MIN_OPPONENT_MULTIPLIER
   <=? calculateOpponentMultiplier Math_pow playerMmr opponentAvgMmr didWin) = true
  /\ (calculateOpponentMultiplier Math_pow playerMmr opponentAvgMmr didWin
      <=? MAX_OPPONENT_MULTIPLIER) = true.
Proof.
  intros H. unfold calculateOpponentMultiplier.
  set (p := Math_pow 10 ((opponentAvgMmr - playerMmr) / 400)) in *.
  assert (He : Prim2SF (1 / (1 + p)) <> S754_nan).
  { rewrite FloatAxioms.div_spec. apply SFdiv_not_nan_l; [exact I|].
    rewrite FloatAxioms.add_spec. apply SFadd_not_nan_l; [exact I|].
    apply isNaN_Prim2SF, H. }
  apply clamp_range; [|reflexivity].
  apply isNaN_Prim2SF. destruct didWin.
  - rewrite FloatAxioms.add_spec. apply SFadd_not_nan_l; [exact I|].
    rewrite FloatAxioms.mul_spec. apply SFmul_not_nan.
    + rewrite FloatAxioms.sub_spec. apply SFsub_not_nan_l; [exact I|exact He].
    + vm_compute. eauto.
  - rewrite FloatAxioms.add_spec. apply SFadd_not_nan_l; [exact I|].
    rewrite FloatAxioms.mul_spec. apply SFmul_not_nan; [exact He|].
    vm_compute. eauto.
Qed.

(** X2. [calculateOpponentMultiplier] stays between
    [MIN_OPPONENT_MULTIPLIER] (0.8) and [MAX_OPPONENT_MULTIPLIER] (1.2)
    for every pair of ratings and either outcome, as long as
    [Math.pow] returns a number; when [Math.pow] returns NaN the
    multiplier is NaN: the clamp does not catch it. *)
Theorem calculateOpponentMultiplier_range playerMmr opponentAvgMmr didWin :
  let pow := Math_pow 10 ((opponentAvgMmr - playerMmr) / 400) in
  let m := calculateOpponentMultiplier Math_pow playerMmr opponentAvgMmr didWin in
  (isNaN pow = false ->
   (MIN_OPPONENT_MULTIPLIER <=? m) = true /\ (m <=? MAX_OPPONENT_MULTIPLIER) = true)
  /\ (isNaN pow = true -> m = nan).
Proof.
  intros pow m. split.
  - apply opponentMultiplier_bounds.
  - intros H. apply isNaN_true in H. subst m.
    unfold calculateOpponentMultiplier. fold pow. rewrite H.
    destruct didWin; reflexivity.
Qed.

Lemma b_multiplier_sign playerStats allStats :
  isNaN (totalScore playerStats allStats) = false ->
  signIs false
    (Prim2SF (b_multiplier (snd (calculatePerformanceScore playerStats allStats)))).
Proof.
  intros H. simpl.
  destruct (scoreToMultiplier_range _ H) as [Hlo Hhi].
  destruct (between_positive MIN_PERFORMANCE_MULTIPLIER MAX_PERFORMANCE_MULTIPLIER
              _ ltac:(vm_compute; eauto) I Hlo Hhi) as [Hs Hf].
  change false with (xorb false false). apply div_sign; [|reflexivity|exact I].
  apply Math_round_sign.
  change false with (xorb false false). apply mul_sign; [exact Hs|reflexivity|].
  right. exact I.
Qed.

(** X3. [calculateMMRChange] never turns a win into a loss of rating
    or a loss into a gain: when the performance score and the result
    of [Math.pow] are numbers, the change of a player of the winning
    team is at least 0 and that of a player of the other team at most
    0, in placement or out of it. *)
Theorem change_sign (playerStats : PlayerStats) (context : MatchContext)
    (isPlacement : bool) :
  isNaN (totalScore playerStats (allPlayerStats context)) = false ->
  isNaN (Math_pow 10 ((opponentTeamAvgMmr playerStats context
                       - mmrAtTime playerStats) / 400)) = false ->
  let result := calculateMMRChange Math_pow playerStats context isPlacement in
  if Team_eqb (team playerStats) (winner context)
  then (0 <=? change result) = true
  else (change result <=? 0) = true.
Proof.
  intros Hscore Hpow result.
  set (didWin := Team_eqb (team playerStats) (winner context)).
  assert (Hsign : signIs (negb didWin) (Prim2SF (change result))).
  { subst result. unfold calculateMMRChange.
    pose proof (b_multiplier_sign playerStats (allPlayerStats context) Hscore) as Hb.
    unfold changeBeforeRounding.
    destruct (calculatePerformanceScore playerStats (allPlayerStats context))
      as [score bd] eqn:E.
    simpl in Hb. simpl change. fold didWin.
    apply Math_round_sign.
    destruct (opponentMultiplier_bounds
                (mmrAtTime playerStats) (opponentTeamAvgMmr playerStats context)
                didWin Hpow) as [Hlo Hhi].
    destruct (between_positive MIN_OPPONENT_MULTIPLIER MAX_OPPONENT_MULTIPLIER
                _ ltac:(vm_compute; eauto) I Hlo Hhi) as [Hs Hf].
    assert (H1 : signIs (negb didWin)
                   (Prim2SF (BASE_CHANGE * (if didWin then 1 else -1)
                             * b_multiplier bd))).
    { replace (negb didWin) with (xorb (negb didWin) false) by apply xorb_false_r.
      apply mul_sign; [destruct didWin; reflexivity|exact Hb|].
      left. destruct didWin; exact I. }
    assert (H2 : signIs (negb didWin)
                   (Prim2SF (BASE_CHANGE * (if didWin then 1 else -1)
                             * b_multiplier bd
                             * calculateOpponentMultiplier Math_pow
                                 (mmrAtTime playerStats)
                                 (opponentTeamAvgMmr playerStats context) didWin))).
    { replace (negb didWin) with (xorb (negb didWin) false) by apply xorb_false_r.
      apply mul_sign; [exact H1|exact Hs|]. right. exact Hf. }
    destruct isPlacement; [|exact H2].
    replace (negb didWin) with (xorb (negb didWin) false) by apply xorb_false_r.
    apply mul_sign; [exact H2|reflexivity|]. right. exact I. }
  destruct didWin; simpl in Hsign.
  - apply signIs_false_leb, Hsign.
  - apply signIs_true_leb, Hsign.
Qed.

End WithPow.

(** The average match of the scenario, won by blue: a blue player
    gains, a red player loses. *)
Lemma change_sign_witness :
  (0 <=? change (calculateMMRChange Examples.pow0
                   (Examples.averagePlayer "u01" blue)
                   (Examples.averageContext blue) false)) = true
  /\ (change (calculateMMRChange Examples.pow0
                (Examples.averagePlayer "u06" red)
                (Examples.averageContext blue) false) <=? 0) = true.
Proof.
  split.
  - apply (change_sign Examples.pow0 (Examples.averagePlayer "u01" blue)
             (Examples.averageContext blue) false);
      vm_compute; reflexivity.
  - apply (change_sign Examples.pow0 (Examples.averagePlayer "u06" red)
             (Examples.averageContext blue) false);
      vm_compute; reflexivity.
Defined.

End ChangeProofs.

Module RankProofs.
Import Types JS MmrRank FloatFacts Numbers NumberFacts.
#[local] Open Scope float_scope.

(** X4. [getRankFromMMR] returns the rank of any band of
    [MMR_RANK_THRESHOLDS] that holds the rating (the bands do not
    overlap, so the first one that holds it is the only one), and
    IRON for a rating no band holds: a negative one, one between two
    bands, NaN. *)
Theorem getRankFromMMR_band (mmr : float) :
  (forall min max rank,
      In (min, max, rank) MMR_RANK_THRESHOLDS ->
      (min <=? mmr) = true -> (mmr <=? max) = true ->
      getRankFromMMR mmr = rank)
  /\ ((forall min max rank,
         In (min, max, rank) MMR_RANK_THRESHOLDS ->
         (min <=? mmr) && (mmr <=? max) = false) ->
      getRankFromMMR mmr = "IRON"%string).
Proof.
  split.
  - intros min max rank Hin Hmin Hmax.
    assert (Hno : forall min' max' rank',
               In (min', max', rank') MMR_RANK_THRESHOLDS ->
               (max' <? min) = true ->
               (min' <=? mmr) && (mmr <=? max') = false).
    { intros min' max' rank' _ Hlt. apply andb_false_iff. right.
      destruct (mmr <=? max') eqn:E; [|reflexivity].
      pose proof (leb_trans _ _ _ Hmin E) as H.
      apply ltb_not_leb in Hlt. congruence. }
    unfold getRankFromMMR, MMR_RANK_THRESHOLDS in *.
    simpl in Hin.
    repeat (destruct Hin as [Hin|Hin];
            [injection Hin as <- <- <-; cbn [List.find];
             repeat match goal with
               | |- context [ if (?lo <=? mmr) && (mmr <=? ?hi) then _ else _ ] =>
                   rewrite (Hno lo hi _ ltac:(simpl; eauto 20) eq_refl)
               end;
             rewrite Hmin, Hmax; reflexivity|]).
    contradiction.
  - intros Hnone. unfold getRankFromMMR.
    destruct (List.find _ MMR_RANK_THRESHOLDS) as [[[min max] rank]|] eqn:E;
      [|reflexivity].
    apply find_some in E. destruct E as [Hin E].
    rewrite (Hnone _ _ _ Hin) in E. discriminate.
Qed.

End RankProofs.

Module SeedProofs.
Import Types JS MmrRank.

Lemma indexOf_bounds l x : -1 <= indexOf l x < Z.of_nat (length l).
Proof.
  induction l as [|y l IH]; simpl; [lia|].
  destruct (String.eqb y x); [lia|].
  destruct (indexOf l x <? 0) eqn:E; lia.
Qed.

(** The loop of [getInitialMMR] computes the largest index. *)
Lemma highest_spec (index : string -> Z) (riotRanks : list string) (start : Z) :
  let highest :=
    fold_left (fun highest tier =>
                 if highest <? index tier then index tier else highest)
              riotRanks start in
  start <= highest
  /\ Forall (fun tier => index tier <= highest) riotRanks
  /\ (highest = start \/ Exists (fun tier => index tier = highest) riotRanks).
Proof.
  revert start. induction riotRanks as [|tier l IH]; intros start; simpl.
  - split; [lia|]. split; [constructor|]. left. reflexivity.
  - specialize (IH (if start <? index tier then index tier else start)).
    simpl in IH. destruct IH as (H1 & H2 & H3).
    destruct (start <? index tier) eqn:E;
      [apply Z.ltb_lt in E|apply Z.ltb_ge in E].
    + split; [lia|]. split; [constructor; [lia|exact H2]|].
      right. destruct H3 as [H3|H3]; [left; lia|right; exact H3].
    + split; [lia|]. split; [constructor; [lia|exact H2]|].
      destruct H3 as [H3|H3]; [left; exact H3|right; right; exact H3].
Qed.

Lemma highest_Permutation (index : string -> Z) (l l' : list string) (start : Z) :
  Permutation l l' ->
  fold_left (fun highest tier =>
               if highest <? index tier then index tier else highest) l start
  = fold_left (fun highest tier =>
                 if highest <? index tier then index tier else highest) l' start.
Proof.
  intros HP.
  destruct (highest_spec index l start) as (H1 & H2 & H3).
  destruct (highest_spec index l' start) as (H1' & H2' & H3').
  set (r := fold_left _ l start) in *. set (r' := fold_left _ l' start) in *.
  rewrite Forall_forall in H2, H2'. rewrite Exists_exists in H3, H3'.
  assert (Hmem : forall t, t ∈ l <-> t ∈ l') by (intros t; rewrite HP; reflexivity).
  assert (r <= r').
  { destruct H3 as [->|(t & Hin & <-)]; [exact H1'|]. apply H2', Hmem, Hin. }
  assert (r' <= r).
  { destruct H3' as [->|(t & Hin & <-)]; [exact H1|]. apply H2, Hmem, Hin. }
  lia.
Qed.

#[local] Open Scope float_scope.

(** What [getInitialMMR] returns, by the largest index of a tier in
    [rankOrder]. *)
Lemma getInitialMMR_cases (riotRanks : list string) :
  let index tier := indexOf rankOrder (toUpperCase tier) in
  (Forall (fun tier => index tier = (-1)%Z) riotRanks ->
   getInitialMMR riotRanks = 800)
  /\ (forall tier,
        In tier riotRanks -> (0 <= index tier)%Z ->
        Forall (fun other => (index other <= index tier)%Z) riotRanks ->
        getInitialMMR riotRanks = of_Z (400 + 200 * index tier))
  /\ (forall riotRanks',
        Permutation riotRanks riotRanks' ->
        getInitialMMR riotRanks' = getInitialMMR riotRanks).
Proof.
  intros index.
  assert (Hfold : forall l,
             getInitialMMR l
             = let highestRankIndex :=
                 fold_left (fun highest tier =>
                              if (highest <? index tier)%Z then index tier
                              else highest) l (-1)%Z in
               if (highestRankIndex =? -1)%Z then UNRANKED
               else match rankOrder !! Z.to_nat highestRankIndex with
                    | Some highestRank => rankToMmr highestRank
                    | None => UNRANKED
                    end).
  { intros [|t l]; reflexivity. }
  split; [|split].
  - intros Hall. rewrite Hfold.
    destruct (highest_spec index riotRanks (-1)%Z) as (H1 & H2 & H3).
    cbv zeta in *. set (r := fold_left _ riotRanks (-1)%Z) in *.
    assert (Hr : r = (-1)%Z).
    { destruct H3 as [H3|H3]; [exact H3|].
      apply Exists_exists in H3. destruct H3 as (t & Hin & <-).
      rewrite Forall_forall in Hall. apply Hall, Hin. }
    rewrite Hr. reflexivity.
  - intros tier Hin Hpos Hall. rewrite Hfold. apply list_elem_of_In in Hin.
    destruct (highest_spec index riotRanks (-1)%Z) as (H1 & H2 & H3).
    cbv zeta in *. set (r := fold_left _ riotRanks (-1)%Z) in *.
    assert (Hr : r = index tier).
    { rewrite Forall_forall in H2, Hall. pose proof (H2 _ Hin).
      destruct H3 as [H3|H3]; [lia|].
      apply Exists_exists in H3. destruct H3 as (t & Hin' & <-).
      pose proof (Hall _ Hin'). lia. }
    rewrite Hr.
    pose proof (indexOf_bounds rankOrder (toUpperCase tier)) as Hb.
    fold (index tier) in Hb. simpl length in Hb.
    assert (Hcases : (index tier = 0 \/ index tier = 1 \/ index tier = 2
                      \/ index tier = 3 \/ index tier = 4 \/ index tier = 5
                      \/ index tier = 6 \/ index tier = 7 \/ index tier = 8
                      \/ index tier = 9)%Z) by lia.
    repeat (destruct Hcases as [->|Hcases]; [reflexivity|]).
    rewrite Hcases. reflexivity.
  - intros riotRanks' HP. rewrite !Hfold.
    rewrite (highest_Permutation index _ _ (-1)%Z HP). reflexivity.
Qed.


Lemma indexOf_lookup l x :
  (0 <= indexOf l x)%Z -> l !! Z.to_nat (indexOf l x) = Some x.
Proof.
  induction l as [|y l IH]; simpl; [lia|].
  destruct (String.eqb y x) eqn:E.
  - apply String.eqb_eq in E. subst. reflexivity.
  - destruct (indexOf l x <? 0)%Z eqn:E'; [lia|]. intros _.
    apply Z.ltb_ge in E'. rewrite Z2Nat.inj_add by lia.
    rewrite Nat.add_comm. simpl. apply IH, E'.
Qed.

(** The seed of a recognised tier shows as that tier. *)
Lemma seed_rank (i : Z) :
  (0 <= i < 10)%Z ->
  Some (getRankFromMMR (of_Z (400 + 200 * i))) = rankOrder !! Z.to_nat i.
Proof.
  intros Hi.
  assert (H : (i = 0 \/ i = 1 \/ i = 2 \/ i = 3 \/ i = 4 \/ i = 5 \/ i = 6
               \/ i = 7 \/ i = 8 \/ i = 9)%Z) by lia.
  repeat (destruct H as [->|H]; [vm_compute; reflexivity|]).
  subst. vm_compute. reflexivity.
Qed.

(** X5. [getInitialMMR], for tiers written in ASCII, seeds from the
    highest recognised tier, matched without regard to case: 400 for
    IRON and 200 more for each tier above it, up to 2200 for
    CHALLENGER.  Without a recognised tier, and for no account at all,
    it seeds 800.  The order of the accounts does not matter. *)
Theorem getInitialMMR_highest_tier (riotRanks : list string) :
  Forall (fun tier => Text.isASCII tier = true) riotRanks ->
  let index tier := indexOf rankOrder (toUpperCase tier) in
  (Forall (fun tier => index tier = (-1)%Z) riotRanks ->
   getInitialMMR riotRanks = 800)
  /\ (forall tier,
        In tier riotRanks -> (0 <= index tier)%Z ->
        Forall (fun other => (index other <= index tier)%Z) riotRanks ->
        getInitialMMR riotRanks = of_Z (400 + 200 * index tier))
  /\ (forall riotRanks',
        Permutation riotRanks riotRanks' ->
        getInitialMMR riotRanks' = getInitialMMR riotRanks).
Proof. intros _. exact (getInitialMMR_cases riotRanks). Qed.

(** Two accounts, gold and diamond, and one without a rank: the seed
    is DIAMOND's. *)
Lemma getInitialMMR_highest_tier_witness :
  Forall (fun tier => Text.isASCII tier = true) ["gold"; "Diamond"; "unranked"]%string
  /\ getInitialMMR ["gold"; "Diamond"; "unranked"]%string = 1600.
Proof.
  assert (H : Forall (fun tier => Text.isASCII tier = true)
                     ["gold"; "Diamond"; "unranked"]%string)
    by (repeat constructor).
  split; [exact H|].
  refine (proj1 (proj2 (getInitialMMR_highest_tier _ H)) "Diamond"%string _ _ _).
  - simpl. tauto.
  - vm_compute. discriminate.
  - repeat constructor; vm_compute; discriminate.
Defined.

(** X24. The two rank tables agree: a rating seeded by
    [getInitialMMR] from tiers written in ASCII shows, by
    [getRankFromMMR], as the highest recognised tier it was seeded
    from, and as SILVER when no tier was recognised. *)
Theorem seeded_rank_is_highest_tier (riotRanks : list string) :
  Forall (fun tier => Text.isASCII tier = true) riotRanks ->
  let index tier := indexOf rankOrder (toUpperCase tier) in
  (Forall (fun tier => index tier = (-1)%Z) riotRanks ->
   getRankFromMMR (getInitialMMR riotRanks) = "SILVER"%string)
  /\ (forall tier,
        In tier riotRanks -> (0 <= index tier)%Z ->
        Forall (fun other => (index other <= index tier)%Z) riotRanks ->
        getRankFromMMR (getInitialMMR riotRanks) = toUpperCase tier).
Proof.
  intros _ index.
  destruct (getInitialMMR_cases riotRanks) as (H1 & H2 & _).
  split.
  - intros Hall. rewrite (H1 Hall). reflexivity.
  - intros tier Hin Hpos Hall. rewrite (H2 tier Hin Hpos Hall).
    pose proof (indexOf_bounds rankOrder (toUpperCase tier)) as Hb.
    pose proof (indexOf_lookup rankOrder (toUpperCase tier) Hpos) as Hl.
    fold (index tier) in Hb, Hl. simpl length in Hb.
    pose proof (seed_rank (index tier) ltac:(lia)) as Hs.
    rewrite Hl in Hs. injection Hs as Hs. exact Hs.
Qed.

(** Two accounts, gold and diamond, and one without a rank: the
    seeded rating shows as DIAMOND. *)
Lemma seeded_rank_is_highest_tier_witness :
  Forall (fun tier => Text.isASCII tier = true) ["gold"; "Diamond"; "unranked"]%string
  /\ getRankFromMMR (getInitialMMR ["gold"; "Diamond"; "unranked"]%string)
     = "DIAMOND"%string.
Proof.
  assert (H : Forall (fun tier => Text.isASCII tier = true)
                     ["gold"; "Diamond"; "unranked"]%string)
    by (repeat constructor).
  split; [exact H|].
  refine (proj2 (seeded_rank_is_highest_tier _ H) "Diamond"%string _ _ _).
  - simpl. tauto.
  - vm_compute. discriminate.
  - repeat constructor; vm_compute; discriminate.
Defined.

End SeedProofs.

(** ** Sessions: champions, readiness, and the record of decisions *)

Module SessionProofs.
Import Types Draft DraftProofs.

(** The whole update of a successful run of the transaction body. *)
Lemma makeDraftAction_tx_update userId req now random d u r :
  makeDraftAction_tx userId req now random d = inr (u, r) ->
  exists currentAction,
    let cur := DraftSession.currentPhase d in
    let resolved :=
      <[cur := resolve (championId req) (championName req) now currentAction]>
        (DraftSession.actions d) in
    DraftSession.actions d !! cur = Some currentAction
    /\ JSArray.includes (DraftSession.bannedChampions d) (championId req) = false
    /\ JSArray.includes (pickedChampions (DraftSession.actions d)) (championId req)
       = false
    /\ u_bannedChampions u
       = match DraftAction.type currentAction with
         | ban => Some (championId req)
         | pick => None
         end
    /\ u_blueTeam u
       = match DraftAction.type currentAction, DraftAction.team currentAction with
         | pick, blue => assignPick (championId req) (championName req)
                                    (DraftSession.blueTeam d)
         | _, _ => None
         end
    /\ u_redTeam u
       = match DraftAction.type currentAction, DraftAction.team currentAction with
         | pick, red => assignPick (championId req) (championName req)
                                   (DraftSession.redTeam d)
         | _, _ => None
         end
    /\ (u_actions u = Some resolved
        \/ u_actions u = Some (alter activate (S cur) resolved))
    /\ u_cancelReason u = None.
Proof.
  unfold makeDraftAction_tx. intros H.
  destruct (DraftStatus_eqb (DraftSession.status d) banning
            || DraftStatus_eqb (DraftSession.status d) picking) eqn:Hst;
    simpl in H; [|discriminate].
  destruct (DraftSession.actions d !! DraftSession.currentPhase d)
    as [currentAction|] eqn:Hact; [|discriminate].
  destruct (DraftAction.isActive currentAction) eqn:Hactive; simpl in H;
    [|discriminate].
  destruct (playerTeam userId d) as [pt|] eqn:Hteam; [|discriminate].
  destruct (Team_eqb (DraftAction.team currentAction) pt) eqn:Hpt; simpl in H;
    [|discriminate].
  destruct (JSArray.includes (DraftSession.bannedChampions d) (championId req))
    eqn:Hban; simpl in H; [discriminate|].
  destruct (JSArray.includes (pickedChampions (DraftSession.actions d))
                             (championId req)) eqn:Hpick; simpl in H;
    [discriminate|].
  exists currentAction. cbv zeta.
  repeat (split; [first [assumption | reflexivity]|]).
  destruct (DraftAction.type currentAction), (DraftAction.team currentAction);
    destruct (length _ <=? _)%nat; inversion H; subst; clear H; simpl; auto 10.
Qed.

Lemma omap_alter_same {A B} (f : A -> option B) (g : A -> A) i (l : list A) :
  (forall a, f (g a) = f a) -> omap f (alter g i l) = omap f l.
Proof.
  intros Hfg. revert i. induction l as [|a l IH]; intros [|i]; simpl;
    try reflexivity.
  - rewrite Hfg. reflexivity.
  - destruct (f a); [f_equal|]; apply IH.
Qed.

Lemma includes_false l x : JSArray.includes l x = false <-> x ∉ l.
Proof.
  unfold JSArray.includes. induction l as [|y l IH]; simpl.
  - split; [intros _; apply not_elem_of_nil|reflexivity].
  - rewrite not_elem_of_cons, orb_false_iff, IH.
    destruct (String.eqb_spec x y); split; intros [? ?]; try split;
      auto; congruence.
Qed.

Lemma arrayUnion_fresh l x : x ∉ l -> JSArray.arrayUnion l x = l ++ [x].
Proof.
  intros H. apply includes_false in H. unfold JSArray.arrayUnion. rewrite H.
  reflexivity.
Qed.

Lemma NoDup_swap_in {A} (B P1 Pa P2 : list A) c :
  NoDup (B ++ P1 ++ Pa ++ P2) -> c ∉ B ++ P1 ++ Pa ++ P2 ->
  NoDup ((B ++ [c]) ++ P1 ++ P2) /\ NoDup (B ++ P1 ++ [c] ++ P2)
  /\ NoDup (B ++ P1 ++ P2).
Proof.
  intros Hnd Hc.
  assert (H0 : NoDup (B ++ P1 ++ P2)).
  { eapply sublist_NoDup; [exact Hnd|].
    apply sublist_app; [reflexivity|]. apply sublist_app; [reflexivity|].
    apply sublist_inserts_l. reflexivity. }
  assert (Hc0 : c ∉ B ++ P1 ++ P2).
  { rewrite !elem_of_app in *. tauto. }
  split; [|split; [|exact H0]].
  - rewrite <- app_assoc. simpl.
    rewrite <- Permutation_middle. apply NoDup_cons. split; assumption.
  - simpl. rewrite <- !Permutation_middle. apply NoDup_cons. split; assumption.
Qed.

Lemma pickedChampions_middle l1 a l2 :
  pickedChampions (l1 ++ a :: l2)
  = pickedChampions l1 ++ pickedChampions [a] ++ pickedChampions l2.
Proof.
  unfold pickedChampions.
  change (a :: l2) with ([a] ++ l2). rewrite !omap_app. reflexivity.
Qed.

Lemma champions_step d d' :
  step d d' ->
  NoDup (DraftSession.bannedChampions d ++ pickedChampions (DraftSession.actions d)) ->
  NoDup (DraftSession.bannedChampions d' ++ pickedChampions (DraftSession.actions d')).
Proof.
  intros [userId now d0 u allReady H | userId req now random d0 u r H
         | userId d0 u H] Hnd.
  - unfold setDraftReady_doc in H.
    repeat (case_match; try discriminate); inversion H; subst; exact Hnd.
  - apply makeDraftAction_tx_update in H
      as (a & Ha & Hban & Hpick & Hub & _ & _ & Hact & _).
    apply includes_false in Hban, Hpick.
    simpl. rewrite Hub.
    set (c := championId req) in *.
    set (a' := resolve c (championName req) now a) in *.
    assert (Hpicked :
              pickedChampions (default (DraftSession.actions d0) (u_actions u))
              = pickedChampions
                  (<[DraftSession.currentPhase d0 := a']> (DraftSession.actions d0))).
    { destruct Hact as [-> | ->]; simpl; [reflexivity|].
      apply omap_alter_same. intros []; reflexivity. }
    rewrite Hpicked.
    pose proof (lookup_lt_Some _ _ _ Ha) as Hlt.
    rewrite (insert_take_drop _ _ _ Hlt).
    rewrite <- (take_drop_middle _ _ _ Ha) in Hnd, Hpick.
    rewrite pickedChampions_middle in *.
    set (P1 := pickedChampions (take _ _)) in *.
    set (P2 := pickedChampions (drop _ _)) in *.
    set (B := DraftSession.bannedChampions d0) in *.
    assert (Hc : c ∉ B ++ P1 ++ pickedChampions [a] ++ P2).
    { rewrite elem_of_app. tauto. }
    destruct (NoDup_swap_in _ _ _ _ _ Hnd Hc) as (N1 & N2 & N3).
    assert (Ha' : pickedChampions [a']
                  = match DraftAction.type a with
                    | ban => []
                    | pick => if truthy c then [c] else []
                    end).
    { unfold pickedChampions. simpl. destruct (DraftAction.type a); [reflexivity|].
      destruct (truthy c); reflexivity. }
    rewrite Ha'. destruct (DraftAction.type a).
    + rewrite arrayUnion_fresh by exact Hban. exact N1.
    + destruct (truthy c); [exact N2|exact N3].
  - unfold timeoutDraftAction_doc in H.
    case_match; try discriminate; inversion H; subst; exact Hnd.
Qed.

Lemma formMatch_bans draftId now queueSnapshot formed :
  Matchmaking.formMatch draftId now queueSnapshot = Some formed ->
  DraftSession.bannedChampions (Matchmaking.draftData formed) = [].
Proof.
  unfold Matchmaking.formMatch. intros H.
  destruct (negb _); [discriminate|].
  destruct (Matchmaking.balanceTeams _) as [[b r]|]; [|discriminate].
  inversion H; subst. reflexivity.
Qed.

Lemma champions_NoDup (d : DraftSession.t) :
  reachable d ->
  NoDup (DraftSession.bannedChampions d
         ++ pickedChampions (DraftSession.actions d)).
Proof.
  induction 1 as [draftId now queueSnapshot formed H | d d' _ IH Hstep].
  - rewrite (formMatch_bans _ _ _ _ H).
    apply formMatch_draftData in H as (_ & _ & ->). simpl. constructor.
  - exact (champions_step _ _ Hstep IH).
Qed.

End SessionProofs.

Module ReadyProofs.
Import Types Draft DraftProofs SessionProofs.



(** [p => p.odId === userId ? { ...p, isReady: true } : p] *)
Lemma markReady_idempotent userId (team : list DraftPlayer.t) :
  let markReady p :=
    if String.eqb (DraftPlayer.odId p) userId then ready p else p in
  map markReady (map markReady team) = map markReady team.
Proof.
  intros markReady. rewrite map_map. apply map_ext. intros p. unfold markReady.
  destruct (String.eqb (DraftPlayer.odId p) userId) eqn:E; simpl;
    rewrite E; reflexivity.
Qed.

Lemma isMember_markReady userId userId' (team : list DraftPlayer.t) :
  isMember userId'
    (map (fun p => if String.eqb (DraftPlayer.odId p) userId then ready p else p)
         team)
  = isMember userId' team.
Proof.
  unfold isMember. induction team as [|p team IH]; [reflexivity|]. simpl.
  rewrite IH. destruct (String.eqb (DraftPlayer.odId p) userId); reflexivity.
Qed.

(** X8.  A successful [setDraftReady] writes both rosters as the call
    read them, with the caller marked ready and nobody else marked:
    ids and champions are those read.  Its update lands on the
    document as it is by then, [d], which is the document read when
    calls run one after the other and a later version when calls
    overlap; then ready flags and champions written after the read are
    overwritten by what the call read, and a ready flag another call
    set in between is taken back.  The call reports [allReady], and
    sets the status to banning and restarts the phase clock, exactly
    when nobody it read is left unready, whatever status [d] has;
    otherwise it leaves status and clock as they are.  It never
    touches the actions, the phase index, the bans, the lobby or the
    cancel reason.  When it landed on the document it read and somebody
    is left unready, the session stays in waiting, and the same call
    again succeeds and changes nothing. *)
Theorem setDraftReady_marks_caller userId now read d u allReady :
  setDraftReady_doc userId now read = inr (u, allReady) ->
  let d' := update d u in
  let markReady p :=
    if String.eqb (DraftPlayer.odId p) userId then ready p else p in
  let after p := DraftPlayer.isReady p || String.eqb (DraftPlayer.odId p) userId in
  DraftSession.status read = waiting
  /\ (forall team,
        roster team d' = map markReady (roster team read)
        /\ map DraftPlayer.odId (roster team d')
           = map DraftPlayer.odId (roster team read)
        /\ map DraftPlayer.isReady (roster team d') = map after (roster team read)
        /\ map DraftPlayer.championId (roster team d')
           = map DraftPlayer.championId (roster team read))
  /\ allReady = forallb after (DraftSession.blueTeam read ++ DraftSession.redTeam read)
  /\ DraftSession.status d' = (if allReady then banning else DraftSession.status d)
  /\ DraftSession.phaseStartedAt d'
     = (if allReady then now else DraftSession.phaseStartedAt d)
  /\ DraftSession.actions d' = DraftSession.actions d
  /\ DraftSession.currentPhase d' = DraftSession.currentPhase d
  /\ DraftSession.bannedChampions d' = DraftSession.bannedChampions d
  /\ DraftSession.lobbyName d' = DraftSession.lobbyName d
  /\ DraftSession.cancelReason d' = DraftSession.cancelReason d
  /\ (d = read -> allReady = false ->
      DraftSession.status d' = waiting
      /\ forall now', exists u',
          setDraftReady_doc userId now' d' = inr (u', false) /\ update d' u' = d').
Proof.
  intros H. cbv zeta. unfold setDraftReady_doc in H.
  destruct (DraftStatus_eqb (DraftSession.status read) waiting) eqn:Hst;
    simpl in H; [|discriminate].
  destruct (isMember userId (DraftSession.blueTeam read)
            || isMember userId (DraftSession.redTeam read)) eqn:Hmem;
    simpl in H; [|discriminate].
  assert (Hw : DraftSession.status read = waiting)
    by (destruct (DraftSession.status read); try discriminate; reflexivity).
  set (markReady := fun p => if String.eqb (DraftPlayer.odId p) userId
                             then ready p else p) in *.
  assert (Hready : forall l,
             map DraftPlayer.isReady (map markReady l)
             = map (fun p => DraftPlayer.isReady p
                             || String.eqb (DraftPlayer.odId p) userId) l).
  { intros l. rewrite map_map. apply map_ext. intros p. unfold markReady.
    destruct (String.eqb (DraftPlayer.odId p) userId); simpl;
      rewrite ?orb_true_r, ?orb_false_r; reflexivity. }
  assert (Hall : forall l,
             forallb DraftPlayer.isReady (map markReady l)
             = forallb (fun p => DraftPlayer.isReady p
                                 || String.eqb (DraftPlayer.odId p) userId) l).
  { intros l. induction l as [|p l IH]; [reflexivity|]. simpl. rewrite IH.
    unfold markReady at 1.
    destruct (String.eqb (DraftPlayer.odId p) userId); simpl;
      rewrite ?orb_true_r, ?orb_false_r; reflexivity. }
  inversion H; subst u allReady; clear H.
  split; [exact Hw|].
  split; [|split; [|split; [|split; [|split; [|split; [|split; [|split; [|split]]]]]]]].
  - intros team. destruct team; simpl; rewrite Hready, !map_map;
      (split; [reflexivity|]); repeat split;
      apply map_ext; intros p; unfold markReady;
      destruct (String.eqb (DraftPlayer.odId p) userId); reflexivity.
  - rewrite <- map_app. apply Hall.
  - simpl. destruct (forallb _ _); reflexivity.
  - simpl. destruct (forallb _ _); reflexivity.
  - reflexivity.
  - reflexivity.
  - reflexivity.
  - reflexivity.
  - reflexivity.
  - intros -> Hnot. rewrite Hnot. split; [simpl; exact Hw|].
    intros now'. unfold setDraftReady_doc. simpl. rewrite Hw. simpl.
    clear Hready Hall. unfold markReady in *.
    rewrite !isMember_markReady, Hmem. simpl.
    rewrite !(markReady_idempotent userId), Hnot.
    eexists. split; [reflexivity|]. reflexivity.
Qed.

(** Two readies that started together, u01 and u02, both computed
    from the created session: both succeed, u02's write lands last,
    and u02 alone is ready. *)
Lemma setDraftReady_marks_caller_witness :
  exists u,
    setDraftReady_doc "u02" 2001 Examples.created = inr (u, false)
    /\ Examples.flagLost
       = update (Examples.applyReady 2000 Examples.created "u01") u
    /\ map DraftPlayer.odId
         (List.filter DraftPlayer.isReady
            (DraftSession.blueTeam Examples.flagLost
             ++ DraftSession.redTeam Examples.flagLost))
       = ["u02"%string]
    /\ map DraftPlayer.isReady (roster blue Examples.flagLost)
       = map (fun p => DraftPlayer.isReady p
                       || String.eqb (DraftPlayer.odId p) "u02")
             (roster blue Examples.created).
Proof.
  destruct (setDraftReady_doc "u02" 2001 Examples.created) as [e|[u allReady]] eqn:E;
    [vm_compute in E; discriminate|].
  assert (Hall : allReady = false)
    by (pose proof E as E'; vm_compute in E'; congruence).
  subst allReady. exists u. split; [reflexivity|].
  assert (H : Examples.flagLost
              = update (Examples.applyReady 2000 Examples.created "u01") u).
  { change Examples.flagLost
      with (Overlap.landReady "u02" 2001 Examples.created
              (Examples.applyReady 2000 Examples.created "u01")).
    unfold Overlap.landReady. rewrite E. reflexivity. }
  split; [exact H|]. split; [reflexivity|]. rewrite H.
  exact (proj1 (proj2 (proj2 (proj1 (proj2
    (setDraftReady_marks_caller "u02"%string 2001 Examples.created
       (Examples.applyReady 2000 Examples.created "u01") u false E)) blue)))).
Defined.

End ReadyProofs.

Module RecordProofs.
Import Types Draft DraftProofs SessionProofs Record.
#[local] Open Scope nat_scope.

(** Every field of the update a successful transaction writes. *)
Lemma makeDraftAction_tx_fields userId req now random d u r :
  makeDraftAction_tx userId req now random d = inr (u, r) ->
  exists a,
    let cur := DraftSession.currentPhase d in
    let resolved :=
      <[cur := resolve (championId req) (championName req) now a]>
        (DraftSession.actions d) in
    let next := alter activate (S cur) resolved !! S cur in
    inProgress (DraftSession.status d) = true
    /\ DraftSession.actions d !! cur = Some a
    /\ JSArray.includes (DraftSession.bannedChampions d) (championId req) = false
    /\ u_bannedChampions u
       = match DraftAction.type a with
         | ban => Some (championId req)
         | pick => None
         end
    /\ u_cancelReason u = None
    /\ (length (DraftSession.actions d) <= S cur
        /\ u_status u = Some completed
        /\ u_currentPhase u = Some cur
        /\ u_currentTeam u = None
        /\ u_phaseType u = None
        /\ u_actions u = Some resolved
        /\ u_lobbyName u = Some ("Drafty-" ++ substring 0 8 (draftId req))%string
        /\ u_lobbyPassword u = Some random
        \/
        S cur < length (DraftSession.actions d)
        /\ u_status u
           = match DraftAction.type <$> next, DraftSession.status d with
             | Some pick, banning => Some picking
             | _, _ => None
             end
        /\ u_currentPhase u = Some (S cur)
        /\ u_currentTeam u = (DraftAction.team <$> next)
        /\ u_phaseType u = (DraftAction.type <$> next)
        /\ u_actions u = Some (alter activate (S cur) resolved)
        /\ u_lobbyName u = None
        /\ u_lobbyPassword u = None).
Proof.
  unfold makeDraftAction_tx. intros H.
  destruct (DraftStatus_eqb (DraftSession.status d) banning
            || DraftStatus_eqb (DraftSession.status d) picking) eqn:Hst;
    simpl in H; [|discriminate].
  destruct (DraftSession.actions d !! DraftSession.currentPhase d)
    as [a|] eqn:Hact; [|discriminate].
  destruct (DraftAction.isActive a) eqn:Hactive; simpl in H; [|discriminate].
  destruct (playerTeam userId d) as [pt|] eqn:Hteam; [|discriminate].
  destruct (Team_eqb (DraftAction.team a) pt) eqn:Hpt; simpl in H; [|discriminate].
  destruct (JSArray.includes (DraftSession.bannedChampions d) (championId req))
    eqn:Hban; simpl in H; [discriminate|].
  destruct (JSArray.includes (pickedChampions (DraftSession.actions d))
                             (championId req)) eqn:Hpick; simpl in H;
    [discriminate|].
  exists a. cbv zeta.
  assert (Hst' : inProgress (DraftSession.status d) = true)
    by (destruct (DraftSession.status d); simpl in Hst; auto; discriminate).
  split; [exact Hst'|]. split; [reflexivity|]. split; [reflexivity|].
  rewrite length_insert in H.
  destruct (match DraftAction.type a, DraftAction.team a
            with
            | pick, blue => _ | pick, red => _ | ban, _ => _ end)
    as [bt rt] in H.
  destruct (length (DraftSession.actions d) <=? S (DraftSession.currentPhase d))
    eqn:Hlen.
  - apply Nat.leb_le in Hlen. inversion H; subst; clear H. simpl.
    split; [destruct (DraftAction.type a); reflexivity|].
    split; [reflexivity|]. left. auto 10.
  - apply Nat.leb_gt in Hlen. inversion H; subst; clear H. simpl.
    split; [destruct (DraftAction.type a); reflexivity|].
    split; [reflexivity|]. right. auto 10.
Qed.

Lemma pending_cons k t :
  Matchmaking.createDraftActions !! k = Some t ->
  pending k = activate t :: drop (S k) Matchmaking.createDraftActions.
Proof. intros H. unfold pending. rewrite (drop_S _ _ _ H). reflexivity. Qed.

Lemma resolve_activate c n now t : resolve c n now (activate t) = resolve c n now t.
Proof. reflexivity. Qed.

(** The template has its bans before its picks. *)
Lemma template_types k t :
  Matchmaking.createDraftActions !! k = Some t ->
  DraftAction.type t = (if k <? 6 then ban else pick).
Proof.
  intros H. do 16 (destruct k as [|k]; [inversion H; reflexivity|]). inversion H.
Qed.

Lemma bansOf_app l1 l2 : bansOf (l1 ++ l2) = bansOf l1 ++ bansOf l2.
Proof. apply omap_app. Qed.

Lemma shape_created draftId now queueSnapshot formed :
  Matchmaking.formMatch draftId now queueSnapshot = Some formed ->
  shape (Matchmaking.draftData formed).
Proof.
  unfold Matchmaking.formMatch. intros H.
  destruct (negb _); [discriminate|].
  destruct (Matchmaking.balanceTeams _) as [[b r]|]; [|discriminate].
  inversion H; subst. unfold shape. simpl. auto 10.
Qed.

Lemma shape_step d d' : shape d -> step d d' -> shape d'.
Proof.
  intros Hshape Hstep.
  destruct Hstep as [userId now d u allReady H | userId req now random d u r H
                    | userId d u H].
  - unfold setDraftReady_doc in H.
    destruct (DraftSession.status d) eqn:Hst; simpl in H; try discriminate.
    destruct (negb _) in H; [discriminate|].
    inversion H; subst; clear H. unfold shape in *. rewrite Hst in Hshape.
    destruct Hshape as (Hk & Ha & Hb & Hp & Ht & Hl & Hl').
    simpl. rewrite Hst. destruct (forallb _ _); simpl.
    + exists [], {| DraftAction.phase := 0; DraftAction.type := ban;
                    DraftAction.team := blue; DraftAction.championId := None;
                    DraftAction.championName := None;
                    DraftAction.completedAt := None;
                    DraftAction.isActive := true |}.
      rewrite Hk, Ha, Hb, Hp, Ht. simpl.
      repeat split; try assumption; try reflexivity. constructor.
    + auto 10.
  - apply makeDraftAction_tx_fields in H
      as (a & Hst & Ha & Hban & Hub & Hcr & Hu).
    apply includes_false in Hban.
    unfold shape in Hshape.
    assert (Hsh : exists done t,
               let k := DraftSession.currentPhase d in
               Matchmaking.createDraftActions !! k = Some t
               /\ length done = k
               /\ DraftSession.actions d = done ++ pending k
               /\ Forall2 resolvedAs done (take k Matchmaking.createDraftActions)
               /\ DraftSession.bannedChampions d = bansOf done
               /\ DraftSession.phaseType d = DraftAction.type t
               /\ DraftSession.currentTeam d = DraftAction.team t
               /\ (DraftSession.status d = banning <-> DraftAction.type t = ban)
               /\ DraftSession.lobbyName d = None
               /\ DraftSession.lobbyPassword d = None)
      by (destruct (DraftSession.status d); try discriminate; exact Hshape).
    clear Hshape.
    destruct Hsh as (done & t & Ht & Hlen & Hact & Hdone & Hbans & Hpt & Hct
                     & Hsb & Hl & Hl').
    cbv zeta in *. set (k := DraftSession.currentPhase d) in *.
    pose proof (lookup_lt_Some _ _ _ Ht) as Hk. simpl in Hk.
    rewrite Hact, (pending_cons _ _ Ht) in Ha.
    rewrite lookup_app_r in Ha by lia.
    replace (k - length done) with 0 in Ha by lia. simpl in Ha.
    injection Ha as <-.
    set (r0 := resolve (championId req) (championName req) now t).
    assert (Hres : <[k := resolve (championId req) (championName req) now
                           (activate t)]> (DraftSession.actions d)
                   = done ++ r0 :: drop (S k) Matchmaking.createDraftActions).
    { rewrite Hact, (pending_cons _ _ Ht).
      rewrite insert_app_r_alt by lia.
      replace (k - length done) with 0 by lia. reflexivity. }
    rewrite Hres in Hu.
    assert (Hdone' : Forall2 resolvedAs (done ++ [r0])
                       (take (S k) Matchmaking.createDraftActions)).
    { rewrite (take_S_r _ _ _ Ht). apply Forall2_app; [exact Hdone|].
      constructor; [|constructor]. unfold resolvedAs. eauto. }
    assert (Hbans' :
              match u_bannedChampions u with
              | Some c => JSArray.arrayUnion (DraftSession.bannedChampions d) c
              | None => DraftSession.bannedChampions d
              end = bansOf (done ++ [r0])).
    { rewrite Hub, bansOf_app, <- Hbans. simpl.
      unfold bansOf. simpl.
      destruct (DraftAction.type t); simpl.
      - apply arrayUnion_fresh, Hban.
      - rewrite app_nil_r. reflexivity. }
    assert (Hlenact : length (DraftSession.actions d) = 16).
    { rewrite Hact, length_app, Hlen. unfold pending.
      rewrite length_alter, length_drop. simpl. lia. }
    destruct Hu as [(Hle & Hs & Hp & Hteam & Hty & Hacts & Hln & Hlp)
                   | (Hgt & Hs & Hp & Hteam & Hty & Hacts & Hln & Hlp)].
    + assert (k = 15) by lia.
      assert (Hdrop : drop (S k) Matchmaking.createDraftActions = []).
      { apply drop_ge. simpl. lia. }
      rewrite Hdrop in Hacts.
      assert (Htake : take (S k) Matchmaking.createDraftActions
                      = Matchmaking.createDraftActions).
      { apply take_ge. simpl. lia. }
      rewrite Htake in Hdone'.
      unfold shape. cbn [update DraftSession.status DraftSession.actions
                         DraftSession.bannedChampions DraftSession.currentPhase
                         DraftSession.lobbyName DraftSession.lobbyPassword].
      rewrite Hs, Hp, Hacts, Hln, Hlp. cbn [default].
      rewrite Hbans'.
      split; [exact Hdone'|]. split; [reflexivity|]. split; [assumption|].
      split; eauto.
    + destruct (lookup_lt_is_Some_2 Matchmaking.createDraftActions (S k))
        as [t' Ht']; [simpl; lia|].
      assert (Hnext : alter activate (S k)
                        (done ++ r0 :: drop (S k) Matchmaking.createDraftActions)
                      = (done ++ [r0]) ++ pending (S k)).
      { rewrite alter_app_r_alt by lia.
        replace (S k - length done) with 1 by lia.
        rewrite <- app_assoc. reflexivity. }
      rewrite Hnext in *.
      assert (Hlook : ((done ++ [r0]) ++ pending (S k)) !! S k
                      = Some (activate t')).
      { rewrite lookup_app_r by (rewrite length_app; simpl; lia).
        rewrite length_app. simpl.
        replace (S k - (length done + 1)) with 0 by lia.
        rewrite (pending_cons _ _ Ht'). reflexivity. }
      rewrite Hlook in *. simpl in Hs, Hteam, Hty.
      pose proof (template_types _ _ Ht) as Tt.
      pose proof (template_types _ _ Ht') as Tt'.
      assert (Hstatus :
                default (DraftSession.status d) (u_status u)
                = (if S k <? 6 then banning else picking)).
      { rewrite Hs, Tt'. destruct (S k <? 6) eqn:E.
        - apply Nat.ltb_lt in E.
          assert (E' : (k <? 6) = true) by (apply Nat.ltb_lt; lia).
          rewrite E' in Tt. apply Hsb in Tt. rewrite Tt. reflexivity.
        - destruct (DraftSession.status d) eqn:Es; try discriminate; reflexivity. }
      unfold shape. simpl. rewrite Hstatus, Hp, Hacts, Hteam, Hty, Hln, Hlp.
      simpl. rewrite Hbans', Hl, Hl'.
      assert (Hgoal :
                exists done0 t0,
                  Matchmaking.createDraftActions !! S k = Some t0
                  /\ length done0 = S k
                  /\ (done ++ [r0]) ++ pending (S k) = done0 ++ pending (S k)
                  /\ Forall2 resolvedAs done0
                       (take (S k) Matchmaking.createDraftActions)
                  /\ bansOf (done ++ [r0]) = bansOf done0
                  /\ DraftAction.type t' = DraftAction.type t0
                  /\ DraftAction.team t' = DraftAction.team t0
                  /\ ((if S k <? 6 then banning else picking) = banning
                      <-> DraftAction.type t0 = ban)
                  /\ @None string = None /\ @None string = None).
      { exists (done ++ [r0]), t'.
        repeat split; try assumption; try reflexivity.
        - rewrite length_app. simpl. lia.
        - rewrite Tt'. destruct (S k <? 6); congruence.
        - rewrite Tt'. destruct (S k <? 6); congruence. }
      destruct (S k <? 6); exact Hgoal.
  - unfold timeoutDraftAction_doc in H.
    destruct (negb _) in H; [discriminate|].
    inversion H; subst; clear H. unfold shape. simpl. exact I.
Qed.

Lemma reachable_shape d : reachable d -> shape d.
Proof.
  induction 1 as [draftId now snap formed H | d d' _ IH Hstep].
  - exact (shape_created _ _ _ _ H).
  - exact (shape_step _ _ IH Hstep).
Qed.

Lemma bansOf_resolved l template :
  Forall2 resolvedAs l template ->
  length (bansOf l)
  = length (List.filter (fun t => match DraftAction.type t with
                                  | ban => true
                                  | pick => false
                                  end) template)
  /\ activeCount l = 0.
Proof.
  unfold activeCount.
  induction 1 as [|a t l template (c & n & now & ->) _ [IH1 IH2]];
    [split; reflexivity|].
  unfold bansOf in *. simpl. destruct (DraftAction.type t); simpl; auto.
Qed.

End RecordProofs.

(** ** Sessions when calls overlap *)

Module OverlapProofs.
Import Types Draft DraftProofs SessionProofs Record RecordProofs Overlap.
#[local] Open Scope nat_scope.

(** The update of a successful [setDraftReady]: the status and the
    phase clock when everybody is ready, and both rosters. *)
Lemma setDraftReady_doc_update userId now read u allReady :
  setDraftReady_doc userId now read = inr (u, allReady) ->
  let markReady p :=
    if String.eqb (DraftPlayer.odId p) userId then ready p else p in
  DraftSession.status read = waiting
  /\ (isMember userId (DraftSession.blueTeam read)
      || isMember userId (DraftSession.redTeam read)) = true
  /\ allReady
     = forallb DraftPlayer.isReady
         (map markReady (DraftSession.blueTeam read)
          ++ map markReady (DraftSession.redTeam read))
  /\ u = {| u_status := if allReady then Some banning else None;
            u_currentPhase := None; u_currentTeam := None; u_phaseType := None;
            u_phaseStartedAt := if allReady then Some now else None;
            u_blueTeam := Some (map markReady (DraftSession.blueTeam read));
            u_redTeam := Some (map markReady (DraftSession.redTeam read));
            u_actions := None; u_bannedChampions := None;
            u_lobbyName := None; u_lobbyPassword := None;
            u_cancelReason := None |}.
Proof.
  unfold setDraftReady_doc. intros H.
  destruct (DraftStatus_eqb (DraftSession.status read) waiting) eqn:Hst;
    simpl in H; [|discriminate].
  destruct (isMember userId (DraftSession.blueTeam read)
            || isMember userId (DraftSession.redTeam read)) eqn:Hmem;
    simpl in H; [|discriminate].
  inversion H; subst; clear H. cbv zeta.
  split; [destruct (DraftSession.status read); try discriminate; reflexivity|].
  split; [reflexivity|]. split; reflexivity.
Qed.

Lemma timeoutDraftAction_doc_update userId read u :
  timeoutDraftAction_doc userId read = inr u ->
  u = {| u_status := Some cancelled;
         u_currentPhase := None; u_currentTeam := None; u_phaseType := None;
         u_phaseStartedAt := None; u_blueTeam := None; u_redTeam := None;
         u_actions := None; u_bannedChampions := None;
         u_lobbyName := None; u_lobbyPassword := None;
         u_cancelReason := Some "timeout"%string |}.
Proof.
  unfold timeoutDraftAction_doc. intros H.
  destruct (negb _) in H; [discriminate|]. inversion H; reflexivity.
Qed.

Lemma setDraftReady_doc_statusOnly userId now read u allReady :
  setDraftReady_doc userId now read = inr (u, allReady) -> statusOnly u.
Proof.
  intros H. apply setDraftReady_doc_update in H as (_ & _ & _ & ->).
  unfold statusOnly. simpl. destruct allReady; auto 10.
Qed.

Lemma timeoutDraftAction_doc_statusOnly userId read u :
  timeoutDraftAction_doc userId read = inr u -> statusOnly u.
Proof.
  intros H. apply timeoutDraftAction_doc_update in H as ->.
  unfold statusOnly. simpl. auto 10.
Qed.

Lemma recorded_statusOnly d u : recorded d -> statusOnly u -> recorded (update d u).
Proof.
  intros Hrec (Hs & Hp & Ht & Hty & Ha & Hb & Hl & Hl').
  assert (Hst : DraftSession.status (update d u) = DraftSession.status d
                \/ DraftSession.status (update d u) = banning
                \/ DraftSession.status (update d u) = cancelled).
  { simpl. destruct Hs as [-> | [-> | ->]]; simpl; auto. }
  destruct Hrec as [(Hunf & Hnc & Hw & Hpk) | (Hfin & Hnw & Hnp)]; [left|right].
  - split.
    { destruct Hunf as (done & t & H). exists done, t.
      unfold update; simpl. rewrite Hp, Ht, Hty, Ha, Hb, Hl, Hl'. exact H. }
    replace (DraftSession.currentPhase (update d u))
      with (DraftSession.currentPhase d) by (simpl; rewrite Hp; reflexivity).
    destruct Hst as [-> | [-> | ->]];
      repeat split; try assumption; try discriminate.
  - split.
    { unfold finished in *. unfold update; simpl.
      rewrite Hp, Ht, Hty, Ha, Hb, Hl, Hl'. exact Hfin. }
    destruct Hst as [-> | [-> | ->]]; split; try assumption; discriminate.
Qed.

Lemma recorded_created draftId now queueSnapshot formed :
  Matchmaking.formMatch draftId now queueSnapshot = Some formed ->
  recorded (Matchmaking.draftData formed).
Proof.
  unfold Matchmaking.formMatch. intros H.
  destruct (negb _); [discriminate|].
  destruct (Matchmaking.balanceTeams _) as [[b r]|]; [|discriminate].
  inversion H; subst. left. simpl. split; [|split; [discriminate|split; [reflexivity|discriminate]]].
  exists [], {| DraftAction.phase := 0; DraftAction.type := ban;
                DraftAction.team := blue; DraftAction.championId := None;
                DraftAction.championName := None;
                DraftAction.completedAt := None;
                DraftAction.isActive := true |}.
  simpl. repeat split; try reflexivity. constructor.
Qed.

Lemma template_last t :
  Matchmaking.createDraftActions !! 15 = Some t ->
  DraftAction.type t = pick /\ DraftAction.team t = red.
Proof. intros H. inversion H. split; reflexivity. Qed.

Lemma recorded_action userId req now random d u r :
  recorded d -> makeDraftAction_tx userId req now random d = inr (u, r) ->
  recorded (update d u).
Proof.
  intros Hrec H.
  pose proof (makeDraftAction_tx_inr _ _ _ _ _ _ _ H)
    as (a0 & _ & Ha0 & Hactive & _).
  apply makeDraftAction_tx_fields in H
    as (a & Hst & Ha & Hban & Hub & Hcr & Hu).
  rewrite Ha in Ha0. injection Ha0 as <-.
  apply includes_false in Hban.
  destruct Hrec as [(Hunf & Hnc & Hw & Hpk) | (Hfin & _)].
  2:{ destruct Hfin as (Hall & _).
      destruct (Forall2_lookup_l _ _ _ _ _ Hall Ha) as (t & _ & c & n & w & ->).
      discriminate. }
  destruct Hunf as (done & t & Ht & Hlen & Hact & Hdone & Hbans & Hpt & Hct
                    & Hl & Hl').
  cbv zeta in *. set (k := DraftSession.currentPhase d) in *.
  pose proof (lookup_lt_Some _ _ _ Ht) as Hk. simpl in Hk.
  rewrite Hact, (pending_cons _ _ Ht) in Ha.
  rewrite lookup_app_r in Ha by lia.
  replace (k - length done) with 0 in Ha by lia. simpl in Ha.
  injection Ha as <-.
  set (r0 := resolve (championId req) (championName req) now t).
  assert (Hres : <[k := resolve (championId req) (championName req) now
                         (activate t)]> (DraftSession.actions d)
                 = done ++ r0 :: drop (S k) Matchmaking.createDraftActions).
  { rewrite Hact, (pending_cons _ _ Ht).
    rewrite insert_app_r_alt by lia.
    replace (k - length done) with 0 by lia. reflexivity. }
  rewrite Hres in Hu.
  assert (Hdone' : Forall2 resolvedAs (done ++ [r0])
                     (take (S k) Matchmaking.createDraftActions)).
  { rewrite (take_S_r _ _ _ Ht). apply Forall2_app; [exact Hdone|].
    constructor; [|constructor]. unfold resolvedAs. eauto. }
  assert (Hbans' :
            match u_bannedChampions u with
            | Some c => JSArray.arrayUnion (DraftSession.bannedChampions d) c
            | None => DraftSession.bannedChampions d
            end = bansOf (done ++ [r0])).
  { rewrite Hub, bansOf_app, <- Hbans. simpl.
    unfold bansOf. simpl.
    destruct (DraftAction.type t); simpl.
    - apply arrayUnion_fresh, Hban.
    - rewrite app_nil_r. reflexivity. }
  assert (Hlenact : length (DraftSession.actions d) = 16).
  { rewrite Hact, length_app, Hlen. unfold pending.
    rewrite length_alter, length_drop. simpl. lia. }
  assert (Hprog : DraftSession.status d = banning \/ DraftSession.status d = picking)
    by (destruct (DraftSession.status d); try discriminate; auto).
  destruct Hu as [(Hle & Hs & Hp & Hteam & Hty & Hacts & Hln & Hlp)
                 | (Hgt & Hs & Hp & Hteam & Hty & Hacts & Hln & Hlp)].
  - right. assert (Hk15 : k = 15) by lia.
    assert (Hdrop : drop (S k) Matchmaking.createDraftActions = []).
    { apply drop_ge. simpl. lia. }
    rewrite Hdrop in Hacts.
    assert (Htake : take (S k) Matchmaking.createDraftActions
                    = Matchmaking.createDraftActions).
    { apply take_ge. simpl. lia. }
    rewrite Htake in Hdone'.
    rewrite Hk15 in Ht. destruct (template_last _ Ht) as [Tty Tteam].
    unfold finished.
    cbn [update DraftSession.status DraftSession.actions
         DraftSession.bannedChampions DraftSession.currentPhase
         DraftSession.phaseType DraftSession.currentTeam
         DraftSession.lobbyName DraftSession.lobbyPassword].
    rewrite Hs, Hp, Hacts, Hln, Hlp, Hteam, Hty. cbn [default].
    rewrite Hbans', Hpt, Hct, Tty, Tteam.
    split; [|split; discriminate].
    split; [exact Hdone'|]. split; [reflexivity|]. split; [exact Hk15|].
    split; [reflexivity|]. split; [reflexivity|]. split; eauto.
  - left.
    destruct (lookup_lt_is_Some_2 Matchmaking.createDraftActions (S k))
      as [t' Ht']; [simpl; lia|].
    assert (Hnext : alter activate (S k)
                      (done ++ r0 :: drop (S k) Matchmaking.createDraftActions)
                    = (done ++ [r0]) ++ pending (S k)).
    { rewrite alter_app_r_alt by lia.
      replace (S k - length done) with 1 by lia.
      rewrite <- app_assoc. reflexivity. }
    rewrite Hnext in *.
    assert (Hlook : ((done ++ [r0]) ++ pending (S k)) !! S k
                    = Some (activate t')).
    { rewrite lookup_app_r by (rewrite length_app; simpl; lia).
      rewrite length_app. simpl.
      replace (S k - (length done + 1)) with 0 by lia.
      rewrite (pending_cons _ _ Ht'). reflexivity. }
    rewrite Hlook in *. simpl in Hs, Hteam, Hty.
    pose proof (template_types _ _ Ht') as Tt'.
    split.
    { exists (done ++ [r0]), t'.
      cbn [update DraftSession.status DraftSession.actions
           DraftSession.bannedChampions DraftSession.currentPhase
           DraftSession.phaseType DraftSession.currentTeam
           DraftSession.lobbyName DraftSession.lobbyPassword].
      rewrite Hp, Hacts, Hln, Hlp, Hteam, Hty. cbn [default].
      rewrite Hbans'.
      repeat split; try assumption; try reflexivity.
      rewrite length_app. simpl. lia. }
    cbn [update DraftSession.status DraftSession.currentPhase].
    rewrite Hp, Hs. cbn [default].
    destruct (DraftAction.type t') eqn:Et'.
    + destruct (S k <? 6) eqn:E; [|discriminate].
      apply Nat.ltb_lt in E. simpl.
      split; [exact Hnc|]. split.
      * intros Hwait. destruct Hprog as [Hq | Hq]; rewrite Hq in Hwait; discriminate.
      * intros Hq. specialize (Hpk Hq). fold k in Hpk. lia.
    + destruct (S k <? 6) eqn:E; [discriminate|].
      apply Nat.ltb_ge in E.
      destruct Hprog as [Hq | Hq]; rewrite Hq; simpl;
        (split; [discriminate|]); (split; [discriminate|]); intros _; exact E.
Qed.

Lemma versions_recorded l :
  versions l -> forall d, head l = Some d -> recorded d.
Proof.
  induction 1 as [draftId now snap formed H
                 | userId now read u allReady d earlier _ IH _ H
                 | userId req now random u r d earlier _ IH _ _ H
                 | userId read u d earlier _ IH _ H];
    intros d0 [= <-].
  - exact (recorded_created _ _ _ _ H).
  - exact (recorded_statusOnly _ _ (IH d eq_refl)
             (setDraftReady_doc_statusOnly _ _ _ _ _ H)).
  - exact (recorded_action _ _ _ _ _ _ _ (IH d eq_refl) H).
  - exact (recorded_statusOnly _ _ (IH d eq_refl)
             (timeoutDraftAction_doc_statusOnly _ _ _ H)).
Qed.

Lemma held_recorded d : held d -> recorded d.
Proof. intros [earlier H]. exact (versions_recorded _ H d eq_refl). Qed.

Lemma versions_champions l :
  versions l -> forall d, head l = Some d ->
  NoDup (DraftSession.bannedChampions d ++ pickedChampions (DraftSession.actions d)).
Proof.
  induction 1 as [draftId now snap formed H
                 | userId now read u allReady d earlier _ IH _ H
                 | userId req now random u r d earlier _ IH _ _ H
                 | userId read u d earlier _ IH _ H];
    intros d0 [= <-].
  - rewrite (formMatch_bans _ _ _ _ H).
    apply formMatch_draftData in H as (_ & _ & ->). simpl. constructor.
  - apply setDraftReady_doc_update in H as (_ & _ & _ & ->). exact (IH d eq_refl).
  - exact (champions_step _ _ (step_action _ _ _ _ _ _ _ H) (IH d eq_refl)).
  - apply timeoutDraftAction_doc_update in H as ->. exact (IH d eq_refl).
Qed.

Lemma bansOf_unresolved (l : list DraftAction.t) :
  Forall (fun a => DraftAction.championId a = None) l -> bansOf l = [].
Proof.
  induction 1 as [|a l Ha _ IH]; [reflexivity|].
  unfold bansOf in *. simpl. rewrite Ha.
  destruct (DraftAction.type a); exact IH.
Qed.

Lemma bansOf_pending k : bansOf (pending k) = [].
Proof.
  unfold pending, bansOf.
  rewrite omap_alter_same by (intros []; reflexivity).
  apply bansOf_unresolved, Forall_drop. repeat constructor.
Qed.

Lemma recorded_bans d :
  recorded d -> DraftSession.bannedChampions d = bansOf (DraftSession.actions d).
Proof.
  intros [((done & t & _ & _ & Hact & _ & Hb & _) & _) | ((_ & Hb & _) & _)];
    [|exact Hb].
  rewrite Hb, Hact, bansOf_app, bansOf_pending, app_nil_r. reflexivity.
Qed.


(** *** The sessions of the scenario *)

Lemma versions_applyReady now userId d earlier :
  versions (d :: earlier) ->
  exists earlier',
    versions (Examples.applyReady now d userId :: earlier')
    /\ forall x, x ∈ d :: earlier -> x ∈ Examples.applyReady now d userId :: earlier'.
Proof.
  intros Hv. unfold Examples.applyReady.
  destruct (setDraftReady_doc userId now d) as [e|[u allReady]] eqn:H.
  - exists earlier. split; [exact Hv|auto].
  - exists (d :: earlier).
    split; [exact (versions_ready _ _ _ _ _ _ _ Hv (list_elem_of_here _ _) H)|].
    intros x Hx. apply list_elem_of_further, Hx.
Qed.

Lemma versions_applyAction now call d earlier :
  truthy (snd call) = true ->
  versions (d :: earlier) ->
  exists earlier',
    versions (Examples.applyAction now d call :: earlier')
    /\ forall x, x ∈ d :: earlier -> x ∈ Examples.applyAction now d call :: earlier'.
Proof.
  intros Hc Hv. unfold Examples.applyAction.
  destruct (makeDraftAction_tx _ _ _ _ d) as [e|[u r]] eqn:H.
  - exists earlier. split; [exact Hv|auto].
  - exists (d :: earlier).
    split; [refine (versions_action _ _ _ _ _ _ _ _ Hv _ _ H); exact Hc|].
    intros x Hx. apply list_elem_of_further, Hx.
Qed.

Lemma versions_fold {A} (P : A -> Prop) (f : DraftSession.t -> A -> DraftSession.t) :
  (forall d earlier a,
      P a ->
      versions (d :: earlier) ->
      exists earlier',
        versions (f d a :: earlier')
        /\ forall x, x ∈ d :: earlier -> x ∈ f d a :: earlier') ->
  forall l d earlier,
    Forall P l ->
    versions (d :: earlier) ->
    exists earlier',
      versions (fold_left f l d :: earlier')
      /\ forall x, x ∈ d :: earlier -> x ∈ fold_left f l d :: earlier'.
Proof.
  intros Hf l. induction l as [|a l IH]; intros d earlier Hl Hv; simpl.
  - exists earlier. split; [exact Hv|auto].
  - apply Forall_cons in Hl as [Ha Hl].
    destruct (Hf d earlier a Ha Hv) as (e1 & Hv1 & Hin1).
    destruct (IH _ _ Hl Hv1) as (e2 & Hv2 & Hin2).
    exists e2. split; [exact Hv2|]. auto.
Qed.

Lemma versions_created_example : versions [Examples.created].
Proof.
  assert (H : Matchmaking.formMatch "draft0001abc" 1000 Examples.queue10
              = Some {| Matchmaking.draftData := Examples.created;
                        Matchmaking.selectedPlayers :=
                          Matchmaking.selectPlayers
                            (Matchmaking.groupQueue Examples.queue10) |})
    by (vm_compute; reflexivity).
  exact (versions_created _ _ _ _ H).
Qed.

(** The drafted session of the scenario, with the session of nine
    ready players among its earlier versions. *)
Lemma versions_drafted :
  exists earlier,
    versions (Examples.drafted :: earlier)
    /\ Examples.nineReady ∈ Examples.drafted :: earlier.
Proof.
  destruct (versions_fold (fun _ => True) (Examples.applyReady 2000)
              (fun d earlier a _ => versions_applyReady 2000 a d earlier)
              (take 9 Examples.participants) _ _
              ltac:(repeat constructor) versions_created_example)
    as (e1 & Hv1 & _).
  change (fold_left (Examples.applyReady 2000) (take 9 Examples.participants)
                    Examples.created)
    with Examples.nineReady in Hv1.
  destruct (versions_applyReady 2000 "u10" _ _ Hv1) as (e2 & Hv2 & Hin2).
  change (Examples.applyReady 2000 Examples.nineReady "u10")
    with Examples.readied in *.
  destruct (versions_fold (fun call => truthy (snd call) = true)
              (Examples.applyAction 3000)
              (fun d earlier a Ha => versions_applyAction 3000 a d earlier Ha)
              (Examples.calls Examples.bluePlayer Examples.redPlayer)
              _ _ ltac:(repeat constructor) Hv2) as (e3 & Hv3 & Hin3).
  change (fold_left (Examples.applyAction 3000)
                    (Examples.calls Examples.bluePlayer Examples.redPlayer)
                    Examples.readied)
    with Examples.drafted in *.
  exists e3. split; [exact Hv3|].
  apply Hin3, Hin2, list_elem_of_here.
Qed.

Lemma held_drafted : held Examples.drafted.
Proof. destruct versions_drafted as (earlier & H & _). exists earlier. exact H. Qed.

(** The session a late write of [setDraftReady] reopened is held. *)
Lemma held_reopened : held Examples.reopened.
Proof.
  destruct versions_drafted as (earlier & Hv & Hin).
  destruct (setDraftReady_doc "u10" 2001 Examples.nineReady)
    as [e|[u allReady]] eqn:E; [vm_compute in E; discriminate|].
  assert (H : Examples.reopened = update Examples.drafted u).
  { change Examples.reopened
      with (Overlap.landReady "u10" 2001 Examples.nineReady Examples.drafted).
    unfold Overlap.landReady. rewrite E. reflexivity. }
  rewrite H. exists (Examples.drafted :: earlier).
  exact (versions_ready _ _ _ _ _ _ _ Hv Hin E).
Qed.

(** X6.  In every version of a draft document, whether calls
    overlapped or not, [bannedChampions] holds the champions of the
    resolved ban actions, in the order of the actions; no two ban
    actions hold the same champion, no two pick actions do (the
    champions of the pick actions as [makeDraftAction] lists them), and
    no champion is held by a ban action and by a pick action. *)
Theorem champions_unique (d : DraftSession.t) :
  held d ->
  DraftSession.bannedChampions d = bansOf (DraftSession.actions d)
  /\ NoDup (bansOf (DraftSession.actions d))
  /\ NoDup (pickedChampions (DraftSession.actions d))
  /\ (forall championId,
        championId ∈ bansOf (DraftSession.actions d) ->
        championId ∉ pickedChampions (DraftSession.actions d)).
Proof.
  intros Hheld. pose proof (recorded_bans _ (held_recorded _ Hheld)) as Hb.
  destruct Hheld as [earlier Hv].
  pose proof (versions_champions _ Hv d eq_refl) as H.
  rewrite Hb in H. apply NoDup_app in H as (H1 & H2 & H3).
  split; [exact Hb|]. split; [exact H1|]. split; [exact H3|exact H2].
Qed.

(** The session a late write reopened. *)
Lemma champions_unique_witness :
  held Examples.reopened
  /\ NoDup (bansOf (DraftSession.actions Examples.reopened))
  /\ NoDup (pickedChampions (DraftSession.actions Examples.reopened)).
Proof.
  split; [exact held_reopened|].
  destruct (champions_unique Examples.reopened held_reopened) as (_ & H1 & H2 & _).
  split; assumption.
Defined.

Lemma activeCount_app l1 l2 :
  activeCount (l1 ++ l2) = activeCount l1 + activeCount l2.
Proof. unfold activeCount. rewrite List.filter_app, length_app. reflexivity. Qed.

Lemma activeCount_pending k :
  k < 16 -> activeCount (pending k) = 1.
Proof.
  intros Hk. do 16 (destruct k as [|k]; [reflexivity|]). lia.
Qed.

(** X9.  In every version of a draft document, whether calls
    overlapped or not, [phaseType] and [currentTeam] are those of the
    action [createDraftActions] puts at the current phase index, a ban
    at the indices 0 to 5 and a pick from 6 on; until the lobby is set
    that action is the stored one, active.  A session in waiting is at
    index 0, a session in picking at an index from 6 on, a completed
    session at index 15.  When the calls ran one after the other, a
    session in banning or picking is in banning exactly at the indices
    0 to 5 and in picking exactly from 6 on; a late write of
    [setDraftReady] can put a session in banning at any index. *)
Theorem turn_follows_template (d : DraftSession.t) :
  held d ->
  let k := DraftSession.currentPhase d in
  exists t,
    Matchmaking.createDraftActions !! k = Some t
    /\ DraftSession.phaseType d = DraftAction.type t
    /\ DraftSession.currentTeam d = DraftAction.team t
    /\ DraftAction.type t = (if k <? 6 then ban else pick)
    /\ (DraftSession.lobbyName d = None ->
        DraftSession.actions d !! k = Some (activate t))
    /\ (DraftSession.status d = waiting -> k = 0)
    /\ (DraftSession.status d = picking -> 6 <= k)
    /\ (DraftSession.status d = completed -> k = 15)
    /\ (reachable d -> inProgress (DraftSession.status d) = true ->
        (DraftSession.status d = banning <-> k < 6)
        /\ (DraftSession.status d = picking <-> 6 <= k)).
Proof.
  intros Hheld. cbv zeta. set (k := DraftSession.currentPhase d).
  assert (Hseq : reachable d -> inProgress (DraftSession.status d) = true ->
                 (DraftSession.status d = banning <-> k < 6)
                 /\ (DraftSession.status d = picking <-> 6 <= k)).
  { intros Hreach Hin. apply reachable_shape in Hreach. unfold shape in Hreach.
    assert (Hsh : exists t,
               Matchmaking.createDraftActions !! k = Some t
               /\ (DraftSession.status d = banning <-> DraftAction.type t = ban))
      by (destruct (DraftSession.status d); try discriminate;
          destruct Hreach as (done & t & Ht & _ & _ & _ & _ & _ & _ & Hsb & _);
          eauto).
    destruct Hsh as (t & Ht & Hsb).
    rewrite (template_types _ _ Ht) in Hsb.
    destruct (k <? 6) eqn:E;
      [apply Nat.ltb_lt in E|apply Nat.ltb_ge in E];
      destruct (DraftSession.status d); try discriminate;
      split; split; intros H; try lia; try reflexivity; try discriminate;
      try (destruct Hsb as [Hsb1 Hsb2]; first [specialize (Hsb1 eq_refl)
                                              |specialize (Hsb2 eq_refl)];
           discriminate). }
  destruct (held_recorded _ Hheld)
    as [((done & t & Ht & Hlen & Hact & _ & _ & Hpt & Hct & Hl & _)
         & Hnc & Hw & Hpk)
       | ((Hall & _ & Hk & Hpt & Hct & Hl & _) & Hnw & Hnp)];
    cbv zeta in *; fold k in Ht, Hlen, Hact, Hw, Hpk || fold k in Hk.
  - exists t. split; [exact Ht|]. split; [exact Hpt|]. split; [exact Hct|].
    split; [exact (template_types _ _ Ht)|]. split.
    { intros _. rewrite Hact, (pending_cons _ _ Ht), lookup_app_r by lia.
      replace (k - length done) with 0 by lia. reflexivity. }
    split; [exact Hw|]. split; [exact Hpk|].
    split; [intros Hc; contradiction|exact Hseq].
  - destruct (lookup_lt_is_Some_2 Matchmaking.createDraftActions k)
      as [t Ht]; [rewrite Hk; simpl; lia|].
    exists t. pose proof Ht as Ht'. rewrite Hk in Ht'.
    destruct (template_last _ Ht') as [Tty Tteam].
    split; [exact Ht|]. split; [congruence|]. split; [congruence|].
    split; [exact (template_types _ _ Ht)|]. split.
    { intros Hn. rewrite Hn in Hl. destruct Hl as [? Hl]. discriminate. }
    split; [intros Hq; contradiction|]. split; [intros Hq; contradiction|].
    split; [intros _; exact Hk|exact Hseq].
Qed.

(** The session a late write reopened: in banning at index 15, red's
    pick. *)
Lemma turn_follows_template_witness :
  held Examples.reopened
  /\ exists t,
       Matchmaking.createDraftActions !! DraftSession.currentPhase Examples.reopened
       = Some t
       /\ DraftSession.currentTeam Examples.reopened = DraftAction.team t.
Proof.
  split; [exact held_reopened|].
  destruct (turn_follows_template Examples.reopened held_reopened)
    as (t & Ht & _ & Hteam & _).
  exists t. split; assumption.
Defined.

(** X10.  Every version of a draft document records what has been
    decided, whether calls overlapped or not and whatever its status.
    Until the lobby is set, the actions before the current phase index
    are those of [createDraftActions], resolved; the others are as
    [createDraftActions] made them, the first of them active and no
    other; [bannedChampions] holds the champions of the resolved bans,
    in their order; the session is not completed.  Once the lobby is
    set, all sixteen actions are resolved, none is active, there are
    six banned champions and a lobby password, the index is 15, and
    the session is neither waiting nor picking.  A session in waiting
    has the actions of [createDraftActions] and no ban; a completed
    session has its lobby set.  When the calls ran one after the
    other, a session in waiting, banning or picking has no lobby yet;
    a late write of [setDraftReady] can put a session whose lobby is
    set in banning. *)
Theorem decisions_recorded (d : DraftSession.t) :
  held d ->
  let k := DraftSession.currentPhase d in
  (DraftSession.lobbyName d = None ->
   exists done,
     length done = k
     /\ DraftSession.actions d = done ++ pending k
     /\ Forall2 resolvedAs done (take k Matchmaking.createDraftActions)
     /\ DraftSession.bannedChampions d = bansOf done
     /\ DraftSession.lobbyPassword d = None
     /\ activeCount (DraftSession.actions d) = 1
     /\ DraftSession.status d <> completed)
  /\ (is_Some (DraftSession.lobbyName d) ->
      Forall2 resolvedAs (DraftSession.actions d) Matchmaking.createDraftActions
      /\ DraftSession.bannedChampions d = bansOf (DraftSession.actions d)
      /\ length (DraftSession.bannedChampions d) = 6
      /\ activeCount (DraftSession.actions d) = 0
      /\ is_Some (DraftSession.lobbyPassword d)
      /\ k = 15
      /\ DraftSession.status d <> waiting
      /\ DraftSession.status d <> picking)
  /\ (DraftSession.status d = waiting ->
      DraftSession.actions d = Matchmaking.createDraftActions
      /\ DraftSession.bannedChampions d = []
      /\ DraftSession.lobbyName d = None)
  /\ (DraftSession.status d = completed -> is_Some (DraftSession.lobbyName d))
  /\ (reachable d -> live (DraftSession.status d) = true ->
      DraftSession.lobbyName d = None).
Proof.
  intros Hheld. cbv zeta. set (k := DraftSession.currentPhase d).
  assert (Hseq : reachable d -> live (DraftSession.status d) = true ->
                 DraftSession.lobbyName d = None).
  { intros Hreach Hlive. apply reachable_shape in Hreach. unfold shape in Hreach.
    destruct (DraftSession.status d); try discriminate.
    - destruct Hreach as (_ & _ & _ & _ & _ & Hl & _). exact Hl.
    - destruct Hreach as (done & t & _ & _ & _ & _ & _ & _ & _ & _ & Hl & _).
      exact Hl.
    - destruct Hreach as (done & t & _ & _ & _ & _ & _ & _ & _ & _ & Hl & _).
      exact Hl. }
  destruct (held_recorded _ Hheld)
    as [((done & t & Ht & Hlen & Hact & Hdone & Hb & _ & _ & Hl & Hl')
         & Hnc & Hw & Hpk)
       | ((Hall & Hb & Hk & _ & _ & Hl & Hl') & Hnw & Hnp)];
    cbv zeta in *; fold k in Ht, Hlen, Hact, Hw, Hpk || fold k in Hk.
  - pose proof (lookup_lt_Some _ _ _ Ht) as Hk. simpl in Hk.
    split; [|split; [|split; [|split]]].
    + intros _. exists done. repeat (split; [assumption|]). split; [|exact Hnc].
      rewrite Hact, activeCount_app, (activeCount_pending _ Hk).
      rewrite (proj2 (bansOf_resolved _ _ Hdone)). reflexivity.
    + intros [n Hn]. congruence.
    + intros Hq. specialize (Hw Hq).
      assert (Hd : done = [])
        by (destruct done; [reflexivity|simpl in Hlen; lia]).
      subst done. rewrite Hw in Hact.
      split; [exact Hact|]. split; [exact Hb|exact Hl].
    + intros Hq. contradiction.
    + exact Hseq.
  - destruct (bansOf_resolved _ _ Hall) as [Hlenb Hac].
    split; [|split; [|split; [|split]]].
    + intros Hn. rewrite Hn in Hl. destruct Hl as [? Hl]. discriminate.
    + intros _. repeat (split; [assumption|]). split.
      { rewrite Hb, Hlenb. reflexivity. }
      repeat (split; [assumption|]). exact Hnp.
    + intros Hq. contradiction.
    + intros _. exact Hl.
    + exact Hseq.
Qed.

(** The session a late write reopened: six bans, no active action. *)
Lemma decisions_recorded_witness :
  held Examples.reopened
  /\ length (DraftSession.bannedChampions Examples.reopened) = 6%nat
  /\ activeCount (DraftSession.actions Examples.reopened) = 0%nat.
Proof.
  split; [exact held_reopened|].
  destruct (proj1 (proj2 (decisions_recorded Examples.reopened held_reopened)))
    as (_ & _ & H & H' & _).
  - eexists. reflexivity.
  - split; assumption.
Defined.

End OverlapProofs.
(** ** Teams *)

Module TeamProofs.
Import Types Matchmaking MatchmakingProofs.

(** Every player has one of the five roles. *)
Lemma players_by_role (players : list Player.t) :
  players ≡ₚ flat_map (fun role => playersOf role players) roles.
Proof.
  unfold roles. simpl. rewrite app_nil_r.
  induction players as [|p players IH]; [reflexivity|].
  unfold playersOf in *. simpl.
  destruct (Player.role p); simpl; rewrite <- ?Permutation_middle;
    constructor; exact IH.
Qed.

Lemma playersOf_role role players p :
  p ∈ playersOf role players -> Player.role p = role.
Proof.
  unfold playersOf. rewrite list_elem_of_In, filter_In. intros [_ H].
  apply PlayerRole_eqb_eq, H.
Qed.

Lemma assignRole_split byRole role a b blueTeam redTeam :
  ByRole.get role byRole = [a; b] ->
  exists x y,
    assignRole byRole (Some (blueTeam, redTeam)) role
    = Some (blueTeam ++ [x], redTeam ++ [y])
    /\ (x = a /\ y = b \/ x = b /\ y = a).
Proof.
  intros H. rewrite (assignRole_pair _ _ _ _ _ _ H).
  destruct (Player.mmr b - Player.mmr a <=? 0);
    destruct (totalMmr blueTeam <=? totalMmr redTeam); eauto 10.
Qed.

Lemma teams_snoc (blueTeam redTeam : list Player.t) x y a b acc :
  blueTeam ++ redTeam ≡ₚ acc ->
  (x = a /\ y = b \/ x = b /\ y = a) ->
  (blueTeam ++ [x]) ++ redTeam ++ [y] ≡ₚ acc ++ [a; b].
Proof.
  intros HP Hxy. rewrite <- HP.
  rewrite <- !app_assoc. simpl.
  rewrite <- !Permutation_middle. rewrite !app_nil_r.
  destruct Hxy as [[-> ->] | [-> ->]]; [reflexivity|apply perm_swap].
Qed.

Lemma balanceTeams_split (players : list Player.t) :
  (forall role, length (playersOf role players) = 2%nat) ->
  exists blueTeam redTeam,
    balanceTeams players = Some (blueTeam, redTeam)
    /\ blueTeam ++ redTeam ≡ₚ players
    /\ map Player.role blueTeam = roles
    /\ map Player.role redTeam = roles.
Proof.
  intros Hpairs.
  assert (Hget : forall role, exists a b,
             ByRole.get role (groupByRole players) = [a; b]
             /\ playersOf role players = [a; b]
             /\ Player.role a = role /\ Player.role b = role).
  { intros role. pose proof (Hpairs role) as Hlen.
    rewrite get_groupByRole.
    destruct (playersOf role players) as [|a [|b [|c l]]] eqn:E;
      try discriminate.
    exists a, b. split; [reflexivity|]. split; [reflexivity|].
    split; apply (playersOf_role role players); rewrite E;
      repeat constructor. }
  unfold balanceTeams, roles. cbn [fold_left].
  destruct (Hget top) as (a1 & b1 & G1 & E1 & Ra1 & Rb1).
  destruct (assignRole_split _ _ _ _ [] [] G1) as (x1 & y1 & -> & S1).
  destruct (Hget jungle) as (a2 & b2 & G2 & E2 & Ra2 & Rb2).
  destruct (assignRole_split _ _ _ _ ([] ++ [x1]) ([] ++ [y1]) G2)
    as (x2 & y2 & -> & S2).
  destruct (Hget mid) as (a3 & b3 & G3 & E3 & Ra3 & Rb3).
  destruct (assignRole_split _ _ _ _ (([] ++ [x1]) ++ [x2])
                             (([] ++ [y1]) ++ [y2]) G3)
    as (x3 & y3 & -> & S3).
  destruct (Hget adc) as (a4 & b4 & G4 & E4 & Ra4 & Rb4).
  destruct (assignRole_split _ _ _ _ ((([] ++ [x1]) ++ [x2]) ++ [x3])
                             ((([] ++ [y1]) ++ [y2]) ++ [y3]) G4)
    as (x4 & y4 & -> & S4).
  destruct (Hget support) as (a5 & b5 & G5 & E5 & Ra5 & Rb5).
  destruct (assignRole_split _ _ _ _ (((([] ++ [x1]) ++ [x2]) ++ [x3]) ++ [x4])
                             (((([] ++ [y1]) ++ [y2]) ++ [y3]) ++ [y4]) G5)
    as (x5 & y5 & -> & S5).
  eexists _, _. split; [reflexivity|]. split.
  - pose proof (teams_snoc [] [] x1 y1 a1 b1 [] (Permutation_refl _) S1) as P1.
    pose proof (teams_snoc _ _ x2 y2 a2 b2 _ P1 S2) as P2.
    pose proof (teams_snoc _ _ x3 y3 a3 b3 _ P2 S3) as P3.
    pose proof (teams_snoc _ _ x4 y4 a4 b4 _ P3 S4) as P4.
    pose proof (teams_snoc _ _ x5 y5 a5 b5 _ P4 S5) as P5.
    rewrite P5, (players_by_role players). unfold roles. cbn [flat_map].
    rewrite E1, E2, E3, E4, E5. reflexivity.
  - simpl.
    destruct S1 as [[-> ->]|[-> ->]], S2 as [[-> ->]|[-> ->]],
      S3 as [[-> ->]|[-> ->]], S4 as [[-> ->]|[-> ->]],
      S5 as [[-> ->]|[-> ->]];
      rewrite Ra1, Rb1, Ra2, Rb2, Ra3, Rb3, Ra4, Rb4, Ra5, Rb5; split; reflexivity.
Qed.

(** X11. Given two players of every role, [balanceTeams] puts each of the
    ten players on exactly one team, five on each, and gives each
    team one player of every role, in the order top, jungle, mid, adc,
    support. *)
Theorem balanceTeams_partition (players : list Player.t) :
  (forall role, length (playersOf role players) = 2%nat) ->
  exists blueTeam redTeam,
    balanceTeams players = Some (blueTeam, redTeam)
    /\ blueTeam ++ redTeam ≡ₚ players
    /\ length blueTeam = 5%nat /\ length redTeam = 5%nat
    /\ map Player.role blueTeam = [top; jungle; mid; adc; support]
    /\ map Player.role redTeam = [top; jungle; mid; adc; support].
Proof.
  intros Hpairs.
  destruct (balanceTeams_split players Hpairs) as (b & r & H & HP & Hb & Hr).
  exists b, r. split; [exact H|]. split; [exact HP|].
  pose proof (f_equal length Hb) as Lb. pose proof (f_equal length Hr) as Lr.
  rewrite length_map in Lb, Lr.
  repeat split; assumption.
Qed.

(** The ten players selected in the scenario. *)
Lemma balanceTeams_partition_witness :
  (forall role, length (playersOf role Examples.selected) = 2%nat)
  /\ exists blueTeam redTeam,
       balanceTeams Examples.selected = Some (blueTeam, redTeam)
       /\ blueTeam ++ redTeam ≡ₚ Examples.selected.
Proof.
  assert (Hpairs : forall role, length (playersOf role Examples.selected) = 2%nat)
    by (intros []; reflexivity).
  split; [exact Hpairs|].
  destruct (balanceTeams_partition Examples.selected Hpairs)
    as (blueTeam & redTeam & Hbal & HP & _).
  exists blueTeam, redTeam. split; assumption.
Defined.

End TeamProofs.

(** ** The queue and the store over time *)

Module SnapshotProofs.
Import Types Draft Queue.

Lemma insertDoc_Permutation {A} (doc : string * A) docs :
  insertDoc doc docs ≡ₚ doc :: docs.
Proof.
  induction docs as [|d docs IH]; simpl; [reflexivity|].
  destruct (String.leb _ _); [reflexivity|].
  rewrite IH. apply perm_swap.
Qed.

Lemma snapshot_Permutation {A} (collection : gmap string A) :
  snapshot collection ≡ₚ map_to_list collection.
Proof.
  unfold snapshot. induction (map_to_list collection) as [|d l IH]; simpl;
    [reflexivity|].
  rewrite insertDoc_Permutation, IH. reflexivity.
Qed.

Lemma elem_of_snapshot {A} (collection : gmap string A) k v :
  (k, v) ∈ snapshot collection <-> collection !! k = Some v.
Proof. rewrite snapshot_Permutation. apply elem_of_map_to_list. Qed.

Lemma NoDup_snapshot {A} (collection : gmap string A) :
  NoDup (map fst (snapshot collection)).
Proof.
  rewrite snapshot_Permutation. apply NoDup_fst_map_to_list.
Qed.

Lemma queueDocs_ids queue :
  map QueueDoc.id (queueDocs queue) = map fst (snapshot queue).
Proof. unfold queueDocs. rewrite map_map. reflexivity. Qed.



Lemma isMember_elem userId team :
  isMember userId team = true <-> userId ∈ map DraftPlayer.odId team.
Proof.
  unfold isMember. rewrite existsb_exists, list_elem_of_fmap. split.
  - intros (p & Hin & H). apply String.eqb_eq in H. exists p.
    split; [symmetry; exact H|apply list_elem_of_In, Hin].
  - intros (p & -> & Hin). exists p. split; [apply list_elem_of_In, Hin|].
    apply String.eqb_refl.
Qed.

End SnapshotProofs.

Module SelectionProofs.
Import Types Matchmaking MatchmakingProofs TeamProofs Queue SnapshotProofs.

(** The waiting players of the five roles are documents of the
    snapshot, each at most once. *)
Lemma waitingOf_submseteq (docs : list QueueDoc.t) :
  flat_map (fun role => map Waiting.odId (waitingOf role docs)) roles
  ⊆+ map QueueDoc.id docs.
Proof.
  unfold roles. simpl. rewrite app_nil_r.
  induction docs as [|doc docs IH]; [reflexivity|].
  unfold waitingOf in *. simpl.
  destruct (PlayerRole_of_string _) as [[]|]; simpl;
    rewrite <- ?Permutation_middle;
    first [apply submseteq_skip; exact IH | apply submseteq_cons; exact IH].
Qed.

Lemma selectRole_submseteq (playersByRole : ByRole.t Waiting.t) role :
  map Player.odId (selectRole playersByRole role)
  ⊆+ map Waiting.odId (ByRole.get role playersByRole).
Proof.
  unfold selectRole.
  rewrite <- (JSArrayProofs.sort_Permutation
                (fun a b => Waiting.mmr a - Waiting.mmr b)
                (ByRole.get role playersByRole)) at 2.
  destruct (JSArray.sort _ _) as [|p0 [|p1 rest]]; simpl.
  - reflexivity.
  - apply submseteq_nil_l.
  - do 2 apply submseteq_skip. apply submseteq_nil_l.
Qed.

Lemma selectPlayers_submseteq (docs : list QueueDoc.t) :
  map Player.odId (selectPlayers (groupQueue docs)) ⊆+ map QueueDoc.id docs.
Proof.
  rewrite <- waitingOf_submseteq.
  unfold selectPlayers, roles. simpl. rewrite !app_nil_r, !map_app.
  repeat apply submseteq_app;
    rewrite <- get_groupQueue; apply selectRole_submseteq.
Qed.

(** The players of a formed draft are the selected players. *)
Lemma formMatch_players draftId now queueSnapshot formed :
  formMatch draftId now queueSnapshot = Some formed ->
  playerIds (draftData formed) ≡ₚ map Player.odId (selectedPlayers formed)
  /\ selectedPlayers formed = selectPlayers (groupQueue queueSnapshot)
  /\ length (DraftSession.blueTeam (draftData formed)) = 5%nat
  /\ length (DraftSession.redTeam (draftData formed)) = 5%nat.
Proof.
  intros H. pose proof (formMatch_Some _ _ _ _ H) as [Hen Hsel].
  unfold formMatch in H. rewrite Hen in H. simpl in H.
  pose proof (proj1 (enoughPlayers_spec _) Hen) as Hen'. clear Hen.
  rename Hen' into Hen.
  assert (Hpairs : forall role,
             length (playersOf role (selectPlayers (groupQueue queueSnapshot)))
             = 2%nat).
  { intros role. rewrite (playersOf_selectPlayers _ _ Hen).
    destruct (selectRole_enough _ role (Hen role)) as (p0 & p1 & rest & _ & ->).
    reflexivity. }
  destruct (balanceTeams_split _ Hpairs) as (bt & rt & Hbal & HP & Hb & Hr).
  rewrite Hbal in H. simpl in H. inversion H; subst formed; clear H.
  unfold playerIds. simpl. split; [|split; [reflexivity|]].
  - rewrite <- HP, !map_app, !map_map. reflexivity.
  - rewrite !length_map.
    apply (f_equal length) in Hb, Hr. rewrite length_map in Hb, Hr.
    split; assumption.
Qed.

Lemma formMatch_ids draftId now queueSnapshot formed :
  formMatch draftId now queueSnapshot = Some formed ->
  NoDup (map QueueDoc.id queueSnapshot) ->
  NoDup (playerIds (draftData formed))
  /\ (forall id, id ∈ playerIds (draftData formed)
                 <-> id ∈ map Player.odId (selectedPlayers formed))
  /\ (forall id, id ∈ playerIds (draftData formed) ->
                 id ∈ map QueueDoc.id queueSnapshot).
Proof.
  intros H Hnd. destruct (formMatch_players _ _ _ _ H) as (HP & Hsel & _).
  pose proof (selectPlayers_submseteq queueSnapshot) as Hsub.
  rewrite <- Hsel in Hsub.
  split; [|split].
  - rewrite HP. apply submseteq_Permutation in Hsub as [rest Hrest].
    rewrite Hrest in Hnd. apply NoDup_app in Hnd. tauto.
  - intros id. rewrite HP. reflexivity.
  - intros id Hid. rewrite HP in Hid. eapply elem_of_submseteq; eassumption.
Qed.

End SelectionProofs.

Module QueueProofs.
Import Types Draft DraftProofs SessionProofs Matchmaking Queue QueueInv.
Import SnapshotProofs SelectionProofs.

Lemma map_odId_alter f i (team : list DraftPlayer.t) :
  (forall p, DraftPlayer.odId (f p) = DraftPlayer.odId p) ->
  map DraftPlayer.odId (alter f i team) = map DraftPlayer.odId team.
Proof.
  intros Hf. revert i. induction team as [|p team IH]; intros [|i]; simpl;
    try reflexivity.
  - rewrite Hf. reflexivity.
  - f_equal. apply IH.
Qed.

Lemma assignPick_ids c n team team' :
  assignPick c n team = Some team' ->
  map DraftPlayer.odId team' = map DraftPlayer.odId team.
Proof.
  unfold assignPick. destruct (JSArray.findIndex _ _); [|discriminate].
  intros H. inversion H. apply map_odId_alter. reflexivity.
Qed.

(** No transition of a session changes who its players are. *)
Lemma step_playerIds d d' : Draft.step d d' -> playerIds d' = playerIds d.
Proof.
  intros [userId now d0 u allReady H | userId req now random d0 u r H
         | userId d0 u H]; unfold playerIds.
  - unfold setDraftReady_doc in H.
    destruct (negb (DraftStatus_eqb _ _)); [discriminate|].
    destruct (negb (_ || _)); [discriminate|].
    inversion H; subst u; clear H. simpl.
    rewrite !map_app, !map_map. f_equal; apply map_ext; intros p;
      destruct (String.eqb _ _); reflexivity.
  - apply makeDraftAction_tx_update in H
      as (a & _ & _ & _ & _ & Hb & Hr & _).
    simpl. rewrite Hb, Hr, !map_app.
    destruct (DraftAction.type a), (DraftAction.team a); simpl; try reflexivity.
    + destruct (assignPick _ _ _) eqn:E; simpl; [|reflexivity].
      rewrite (assignPick_ids _ _ _ _ E). reflexivity.
    + destruct (assignPick _ _ _) eqn:E; simpl; [|reflexivity].
      rewrite (assignPick_ids _ _ _ _ E). reflexivity.
  - unfold timeoutDraftAction_doc in H.
    case_match; try discriminate; inversion H; subst; reflexivity.
Qed.

Lemma setDraftReady_oneStep now request db :
  oneStep db (snd (setDraftReady now request db)).
Proof.
  unfold setDraftReady.
  destruct (auth request) as [userId|]; [|left; reflexivity].
  destruct (negb _); [left; reflexivity|].
  destruct (db !! data request) as [d|] eqn:Hd; [|left; reflexivity].
  destruct (setDraftReady_doc userId now d) as [e|[u allReady]] eqn:E;
    [left; reflexivity|].
  right. exists (data request), d, (update d u).
  split; [exact Hd|]. split; [|reflexivity]. econstructor; exact E.
Qed.

Lemma makeDraftAction_oneStep now random request db :
  oneStep db (snd (makeDraftAction now random request db)).
Proof.
  unfold makeDraftAction.
  destruct (auth request) as [userId|]; [|left; reflexivity].
  destruct (_ || _); [left; reflexivity|].
  destruct (db !! Draft.draftId (data request)) as [d|] eqn:Hd; [|left; reflexivity].
  destruct (makeDraftAction_tx userId (data request) now random d)
    as [e|[u r]] eqn:E; [left; reflexivity|].
  right. exists (Draft.draftId (data request)), d, (update d u).
  split; [exact Hd|]. split; [|reflexivity]. econstructor; exact E.
Qed.

Lemma timeoutDraftAction_oneStep now request db :
  oneStep db (snd (timeoutDraftAction now request db)).
Proof.
  unfold timeoutDraftAction.
  destruct (auth request) as [userId|]; [|left; reflexivity].
  destruct (negb _); [left; reflexivity|].
  destruct (db !! data request) as [d|] eqn:Hd; [|left; reflexivity].
  destruct (timeoutDraftAction_doc userId d) as [e|u] eqn:E;
    [left; reflexivity|].
  right. exists (data request), d, (update d u).
  split; [exact Hd|]. split; [|reflexivity]. econstructor; exact E.
Qed.

Lemma live_step d d' :
  Draft.step d d' -> live (DraftSession.status d') = true ->
  live (DraftSession.status d) = true.
Proof.
  intros Hstep Hlive. destruct (live (DraftSession.status d)) eqn:E;
    [reflexivity|].
  rewrite (step_terminal _ _ Hstep E) in Hlive. discriminate.
Qed.

Lemma exclusive_oneStep s db' :
  exclusive s -> oneStep (drafts s) db' -> exclusive (withDrafts s db').
Proof.
  intros Hex [-> | (k & d & d' & Hk & Hstep & ->)].
  - destruct s; exact Hex.
  - destruct Hex as (Ha & Hb & Hc & Hd).
    pose proof (step_playerIds _ _ Hstep) as Hids.
    pose proof (live_step _ _ Hstep) as Hlive.
    unfold exclusive. simpl. split; [exact Ha|]. split; [|split].
    + intros k0 d0 id Hl Hlv Hin.
      destruct (decide (k0 = k)) as [->|Hne].
      * rewrite lookup_insert_eq in Hl. inversion Hl; subst d0.
        rewrite Hids in Hin. eapply Hb; eauto.
      * rewrite lookup_insert_ne in Hl by congruence. eapply Hb; eauto.
    + intros k1 k2 d1 d2 id H1 H2 L1 L2 I1 I2.
      destruct (decide (k1 = k)) as [->|N1], (decide (k2 = k)) as [->|N2];
        try reflexivity.
      * rewrite lookup_insert_eq in H1. inversion H1; subst d1.
        rewrite lookup_insert_ne in H2 by congruence.
        rewrite Hids in I1. eapply Hc; eauto.
      * rewrite lookup_insert_eq in H2. inversion H2; subst d2.
        rewrite lookup_insert_ne in H1 by congruence.
        rewrite Hids in I2. eapply Hc; eauto.
      * rewrite lookup_insert_ne in H1, H2 by congruence. eapply Hc; eauto.
    + intros k0 d0 Hl.
      destruct (decide (k0 = k)) as [->|Hne].
      * rewrite lookup_insert_eq in Hl. inversion Hl; subst d0.
        rewrite Hids. eapply Hd; eauto.
      * rewrite lookup_insert_ne in Hl by congruence. eapply Hd; eauto.
Qed.

Lemma lookup_fold_delete (players : list Player.t) (queue : gmap string QueueEntry.t) k :
  fold_left (fun queue player => delete (Player.odId player) queue) players queue !! k
  = if bool_decide (k ∈ map Player.odId players) then None else queue !! k.
Proof.
  revert queue. induction players as [|p players IH]; intros queue.
  - case_bool_decide as H; [|reflexivity]. apply elem_of_nil in H. contradiction.
  - cbn [fold_left map]. rewrite IH.
    repeat case_bool_decide; try reflexivity.
    + exfalso. match goal with H : _ ∉ _ :: _ |- _ => apply H end.
      apply elem_of_cons. right. assumption.
    + match goal with H : _ ∈ _ :: _ |- _ => apply elem_of_cons in H as [->|H] end;
        [|contradiction].
      apply lookup_delete_eq.
    + apply lookup_delete_ne. intros <-.
      match goal with H : _ ∉ _ :: _ |- _ => apply H end. apply elem_of_cons. left. reflexivity.
Qed.

End QueueProofs.

Module QueueProofs2.
Import Types Draft DraftProofs SessionProofs Matchmaking Queue QueueInv.
Import SnapshotProofs SelectionProofs QueueProofs.

Lemma inActiveDraft_false userId s k d :
  inActiveDraft userId s = false ->
  drafts s !! k = Some d -> live (DraftSession.status d) = true ->
  userId ∉ playerIds d.
Proof.
  intros Hno Hk Hlive Hin.
  assert (H : inActiveDraft userId s = true); [|congruence].
  unfold inActiveDraft. apply existsb_exists. exists (k, d). split.
  - unfold activeDrafts. apply filter_In. split; [|exact Hlive].
    apply list_elem_of_In, elem_of_snapshot, Hk.
  - simpl. apply isMember_elem, Hin.
Qed.

Lemma exclusive_enqueue s userId entry :
  exclusive s -> inActiveDraft userId s = false ->
  QueueEntry.odId entry = userId ->
  exclusive {| queue := <[userId := entry]> (queue s);
               drafts := drafts s; users := users s; mmr := mmr s |}.
Proof.
  intros (Ha & Hb & Hc & Hd) Hno Hid. unfold exclusive. simpl.
  split; [|split; [|split; assumption]].
  - intros k e. destruct (decide (k = userId)) as [->|Hne].
    + rewrite lookup_insert_eq. intros [= <-]. exact Hid.
    + rewrite lookup_insert_ne by congruence. apply Ha.
  - intros k d id Hk Hlive Hin.
    destruct (decide (id = userId)) as [->|Hne].
    + exfalso. exact (inActiveDraft_false _ _ _ _ Hno Hk Hlive Hin).
    + rewrite lookup_insert_ne by congruence. eapply Hb; eauto.
Qed.

Lemma formMatch_live draftId now queueSnapshot formed :
  formMatch draftId now queueSnapshot = Some formed ->
  live (DraftSession.status (draftData formed)) = true.
Proof. intros H. apply formMatch_draftData in H as (-> & _). reflexivity. Qed.

Lemma exclusive_commit s draftId now formed :
  exclusive s ->
  formMatch draftId now (queueDocs (queue s)) = Some formed ->
  exclusive (commitMatch draftId formed s).
Proof.
  intros (Ha & Hb & Hc & Hd) Hform.
  destruct (formMatch_ids _ _ _ _ Hform) as (Hnd & Hsel & Hq).
  { rewrite queueDocs_ids. apply NoDup_snapshot. }
  assert (Hqueued : forall id, id ∈ playerIds (draftData formed) ->
                               is_Some (queue s !! id)).
  { intros id Hid. apply Hq in Hid. rewrite queueDocs_ids in Hid.
    apply list_elem_of_fmap in Hid as ([k e] & -> & Hin).
    apply elem_of_snapshot in Hin. simpl. eauto. }
  unfold exclusive, commitMatch. simpl. split; [|split; [|split]].
  - intros k e. rewrite lookup_fold_delete. case_bool_decide; [discriminate|].
    apply Ha.
  - intros k d id Hk Hlive Hin. rewrite lookup_fold_delete.
    case_bool_decide as Hdel; [reflexivity|].
    destruct (decide (k = draftId)) as [->|Hne].
    + rewrite lookup_insert_eq in Hk. inversion Hk; subst d.
      apply Hsel in Hin. contradiction.
    + rewrite lookup_insert_ne in Hk by congruence. eapply Hb; eauto.
  - intros k1 k2 d1 d2 id H1 H2 L1 L2 I1 I2.
    destruct (decide (k1 = draftId)) as [->|N1],
             (decide (k2 = draftId)) as [->|N2]; try reflexivity.
    + rewrite lookup_insert_eq in H1. inversion H1; subst d1.
      rewrite lookup_insert_ne in H2 by congruence.
      destruct (Hqueued _ I1) as [e He].
      rewrite (Hb _ _ _ H2 L2 I2) in He. discriminate.
    + rewrite lookup_insert_eq in H2. inversion H2; subst d2.
      rewrite lookup_insert_ne in H1 by congruence.
      destruct (Hqueued _ I2) as [e He].
      rewrite (Hb _ _ _ H1 L1 I1) in He. discriminate.
    + rewrite lookup_insert_ne in H1, H2 by congruence. eapply Hc; eauto.
  - intros k d Hk. destruct (decide (k = draftId)) as [->|Hne].
    + rewrite lookup_insert_eq in Hk. inversion Hk; subst d. exact Hnd.
    + rewrite lookup_insert_ne in Hk by congruence. eapply Hd; eauto.
Qed.

Lemma exclusive_tryMatchPlayers env s r s' :
  exclusive s -> tryMatchPlayers env s = Some (r, s') -> exclusive s'.
Proof.
  unfold tryMatchPlayers. intros Hex H.
  destruct (formMatch _ _ _) as [formed|] eqn:Hform.
  - destruct (negb _); [discriminate|]. inversion H; subst.
    eapply exclusive_commit; eassumption.
  - inversion H; subst. exact Hex.
Qed.

Lemma exclusive_joinQueue env request s :
  exclusive s -> exclusive (snd (joinQueue env request s)).
Proof.
  intros Hex. unfold joinQueue.
  destruct (auth request) as [userId|]; [|exact Hex].
  destruct (_ || _); [exact Hex|].
  destruct (PlayerRole_of_string _); [|exact Hex].
  destruct (alreadyQueued userId s); [exact Hex|].
  destruct (inActiveDraft userId s) eqn:Hno; [exact Hex|].
  destruct (users s !! userId) as [userData|]; [|exact Hex].
  destruct (negb (queueSetAccepted env)); [exact Hex|].
  match goal with
  | |- context [tryMatchPlayers env ?s1] =>
      assert (Hex1 : exclusive s1) by (apply exclusive_enqueue; auto);
      destruct (tryMatchPlayers env s1) as [[r s2]|] eqn:Htry
  end.
  - simpl. eapply exclusive_tryMatchPlayers; eassumption.
  - exact Hex1.
Qed.

Lemma exclusive_leaveQueue env request s :
  exclusive s -> exclusive (snd (leaveQueue env request s)).
Proof.
  intros Hex. unfold leaveQueue.
  destruct (auth request) as [userId|]; [|exact Hex].
  destruct (negb _); [exact Hex|].
  destruct Hex as (Ha & Hb & Hc & Hd). unfold exclusive. simpl.
  split; [|split; [|split; assumption]].
  - intros k e Hk. apply lookup_delete_Some in Hk as [_ Hk]. apply Ha, Hk.
  - intros k d id Hk Hlive Hin. apply lookup_delete_None. right. eapply Hb; eauto.
Qed.

Lemma exclusive_run s call : exclusive s -> exclusive (run s call).
Proof.
  intros Hex.
  destruct call as [env request | env request | now request
                   | now random request | now request | users' mmr']; simpl.
  - apply exclusive_joinQueue, Hex.
  - apply exclusive_leaveQueue, Hex.
  - apply exclusive_oneStep; [exact Hex|apply setDraftReady_oneStep].
  - apply exclusive_oneStep; [exact Hex|apply makeDraftAction_oneStep].
  - apply exclusive_oneStep; [exact Hex|apply timeoutDraftAction_oneStep].
  - exact Hex.
Qed.

Lemma exclusive_after calls s : exclusive s -> exclusive (after calls s).
Proof.
  revert s. induction calls as [|call calls IH]; intros s Hex; [exact Hex|].
  apply IH, exclusive_run, Hex.
Qed.

Lemma exclusive_init users0 mmr0 : exclusive (init users0 mmr0).
Proof.
  unfold exclusive. simpl. repeat split; intros *; rewrite lookup_empty;
    discriminate.
Qed.

(** X12. Nobody is in two places at once.  Whatever calls of
    [joinQueue], [leaveQueue], [setDraftReady], [makeDraftAction] and
    [timeoutDraftAction] have run, one after the other, since the
    store was empty, and whatever they returned: a queue document sits
    under its player's id; a player of a draft in waiting, banning or
    picking is not queued and is in no other such draft; the players
    of a draft are different players. *)
Theorem player_in_one_place (calls : list Call) users0 mmr0 :
  let s := after calls (init users0 mmr0) in
  (forall k e, queue s !! k = Some e -> QueueEntry.odId e = k)
  /\ (forall k d id,
        drafts s !! k = Some d -> live (DraftSession.status d) = true ->
        id ∈ playerIds d -> queue s !! id = None)
  /\ (forall k1 k2 d1 d2 id,
        drafts s !! k1 = Some d1 -> drafts s !! k2 = Some d2 ->
        live (DraftSession.status d1) = true ->
        live (DraftSession.status d2) = true ->
        id ∈ playerIds d1 -> id ∈ playerIds d2 -> k1 = k2)
  /\ (forall k d, drafts s !! k = Some d -> NoDup (playerIds d)).
Proof. exact (exclusive_after calls _ (exclusive_init users0 mmr0)). Qed.

End QueueProofs2.

Module EagerProofs.
Import Types Draft DraftProofs SessionProofs Matchmaking MatchmakingProofs.
Import Queue QueueInv SnapshotProofs SelectionProofs QueueProofs QueueProofs2.
#[local] Open Scope nat_scope.



Lemma waitingOf_cons role doc docs :
  waitingOf role (doc :: docs)
  = match roleOf doc with
    | Some r => if PlayerRole_eqb r role then waitingPlayer doc :: waitingOf role docs
                else waitingOf role docs
    | None => waitingOf role docs
    end.
Proof.
  unfold waitingOf, roleOf. simpl.
  destruct (PlayerRole_of_string _) as [r|]; [|reflexivity].
  destruct (PlayerRole_eqb r role); reflexivity.
Qed.



Lemma formMatch_None_iff draftId now docs :
  formMatch draftId now docs = None
  <-> exists role, length (waitingOf role docs) < 2.
Proof.
  split.
  - intros H. destruct (enoughPlayers (groupQueue docs)) eqn:E.
    + destruct (formMatch_enough draftId now docs E) as (formed & Hf & _).
      congruence.
    + assert (Hn : ~ forall role, 2 <= length (ByRole.get role (groupQueue docs))).
      { intros Hall. apply enoughPlayers_spec in Hall. congruence. }
      destruct (Nat.lt_ge_cases (length (waitingOf top docs)) 2); [eauto|].
      destruct (Nat.lt_ge_cases (length (waitingOf jungle docs)) 2); [eauto|].
      destruct (Nat.lt_ge_cases (length (waitingOf mid docs)) 2); [eauto|].
      destruct (Nat.lt_ge_cases (length (waitingOf adc docs)) 2); [eauto|].
      destruct (Nat.lt_ge_cases (length (waitingOf support docs)) 2); [eauto|].
      exfalso. apply Hn. intros []; rewrite get_groupQueue; assumption.
  - intros (role & Hlt).
    destruct (formMatch draftId now docs) as [formed|] eqn:E; [|reflexivity].
    apply formMatch_Some in E as [E _].
    pose proof (proj1 (enoughPlayers_spec _) E role) as H.
    rewrite get_groupQueue in H. lia.
Qed.












End EagerProofs.

Module ReadProofs.
Import Types Draft DraftProofs SessionProofs Matchmaking MatchmakingProofs.
Import Queue QueueInv SnapshotProofs SelectionProofs QueueProofs QueueProofs2.
Import EagerProofs.
#[local] Open Scope nat_scope.





(** X16. When the store accepts the delete, [leaveQueue] succeeds
    for a caller who is not queued and changes nothing; and it takes
    back a [joinQueue] that found no match: the join has stored an
    entry under the caller's id, with the caller's role and the rating
    read from [mmr], and leaving restores the store as it was before
    the join. *)
Theorem leaveQueue_undoes_joinQueue env env' (request : Request JoinQueueData)
    (leave : Request unit) s userId :
  auth leave = Some userId -> deleteAccepted env' = true ->
  (queue s !! userId = None -> leaveQueue env' leave s = (inr tt, s))
  /\ (forall result s',
        auth request = Some userId ->
        queue s !! userId = None ->
        joinQueue env request s = (inr result, s') ->
        matchFound result = false ->
        exists entry,
          queue s' !! userId = Some entry
          /\ QueueEntry.odId entry = userId
          /\ QueueEntry.mmr entry = queueMmr s userId
          /\ QueueEntry.role entry = role (data request)
          /\ leaveQueue env' leave s' = (inr tt, s)).
Proof.
  intros Hauth Hacc. unfold leaveQueue. rewrite Hauth, Hacc. simpl. split.
  - intros Hnone. rewrite delete_id by exact Hnone. destruct s; reflexivity.
  - intros result s' Hreq Hnone Hjoin Hfound. unfold joinQueue in Hjoin.
    rewrite Hreq in Hjoin.
    destruct (_ || _); [discriminate|].
    destruct (PlayerRole_of_string _); [|discriminate].
    destruct (alreadyQueued userId s); [discriminate|].
    destruct (inActiveDraft userId s); [discriminate|].
    destruct (users s !! userId) as [userData|]; [|discriminate].
    destruct (negb (queueSetAccepted env)); [discriminate|].
    unfold tryMatchPlayers in Hjoin.
    match type of Hjoin with
    | context [formMatch ?i ?n ?docs] => destruct (formMatch i n docs)
    end.
    + destruct (negb (batchCommitAccepted env)); [discriminate|].
      inversion Hjoin; subst result. discriminate.
    + inversion Hjoin; subst result s'; clear Hjoin. simpl.
      eexists. split; [apply lookup_insert_eq|].
      repeat (split; [reflexivity|]).
      rewrite delete_insert_eq, delete_id by exact Hnone.
      destruct s; reflexivity.
Qed.

(** The first player joins the empty queue and leaves again. *)
Lemma leaveQueue_undoes_joinQueue_witness :
  leaveQueue (Scenario.env 2) {| auth := Some "u01"%string; data := tt |}
             (snd (joinQueue (Scenario.env 1) (Scenario.joinRequest "u01" "top")
                             Scenario.start))
  = (inr tt, Scenario.start).
Proof.
  destruct (joinQueue (Scenario.env 1) (Scenario.joinRequest "u01" "top")
                      Scenario.start) as [[e|result] s'] eqn:E;
    [vm_compute in E; discriminate|].
  assert (Hfound : matchFound result = false)
    by (pose proof E as E'; vm_compute in E'; injection E' as <- _; reflexivity).
  destruct (proj2 (leaveQueue_undoes_joinQueue (Scenario.env 1) (Scenario.env 2)
                     (Scenario.joinRequest "u01" "top")
                     {| auth := Some "u01"%string; data := tt |}
                     Scenario.start "u01"%string eq_refl eq_refl)
                  result s' eq_refl eq_refl E Hfound)
    as (entry & _ & _ & _ & _ & H).
  exact H.
Defined.

Lemma roleCount_fold (docs : list QueueDoc.t) (start : PlayerRole -> nat) role :
  fold_left
    (fun (roleCount : PlayerRole -> nat) doc =>
       match PlayerRole_of_string (QueueEntry.role (QueueDoc.data doc)) with
       | Some role =>
           fun r => if PlayerRole_eqb r role then S (roleCount r)
                    else roleCount r
       | None => roleCount
       end) docs start role
  = start role + length (waitingOf role docs).
Proof.
  revert start. induction docs as [|doc docs IH]; intros start;
    [simpl; lia|].
  cbn [fold_left]. rewrite IH, waitingOf_cons. unfold roleOf.
  destruct (PlayerRole_of_string _) as [r|]; [|reflexivity].
  destruct role, r; simpl; lia.
Qed.

(** X17. [getQueueStatus] reports, for each of the five roles, the
    number of players [tryMatchPlayers] finds waiting for it, the
    number of queue documents, and the caller's own entry; a match
    can be formed exactly when every role counter is at least two. *)
Theorem getQueueStatus_counts (request : Request unit) s userId :
  auth request = Some userId ->
  exists status,
    getQueueStatus request s = inr status
    /\ (forall role,
          s_roleCount status role
          = length (waitingOf role (queueDocs (queue s))))
    /\ s_playersInQueue status = size (queue s)
    /\ (s_inQueue status = true <-> is_Some (queue s !! userId))
    /\ s_queueEntry status = queue s !! userId
    /\ ((forall role, 2 <= s_roleCount status role)
        <-> forall draftId now,
              formMatch draftId now (queueDocs (queue s)) <> None).
Proof.
  intros Hauth. unfold getQueueStatus. rewrite Hauth.
  eexists. split; [reflexivity|]. simpl.
  assert (Hcount : forall role,
             fold_left _ (queueDocs (queue s)) (fun _ => 0) role
             = length (waitingOf role (queueDocs (queue s))))
    by (intros role; apply roleCount_fold).
  split; [exact Hcount|]. split.
  { unfold queueDocs. rewrite length_map, snapshot_Permutation.
    apply length_map_to_list. }
  split; [apply bool_decide_eq_true|]. split; [reflexivity|].
  split.
  - intros Hall draftId now Hnone. apply formMatch_None_iff in Hnone as (role & Hlt).
    specialize (Hall role). rewrite Hcount in Hall. lia.
  - intros Hform role. rewrite Hcount.
    destruct (Nat.lt_ge_cases (length (waitingOf role (queueDocs (queue s)))) 2)
      as [Hlt|Hge]; [|exact Hge].
    exfalso. apply (Hform EmptyString 0%Z). apply formMatch_None_iff. eauto.
Qed.

(** Nine players of the scenario are queued: one support. *)
Lemma getQueueStatus_counts_witness :
  exists status,
    getQueueStatus {| auth := Some "u01"%string; data := tt |}
                   (after Scenario.nineJoins Scenario.start) = inr status
    /\ s_roleCount status support = 1
    /\ s_playersInQueue status = 9.
Proof.
  destruct (getQueueStatus_counts {| auth := Some "u01"%string; data := tt |}
              (after Scenario.nineJoins Scenario.start) "u01"%string eq_refl)
    as (status & Hs & Hcount & Hsize & _).
  exists status. split; [exact Hs|]. split.
  - rewrite Hcount. vm_compute. reflexivity.
  - rewrite Hsize. vm_compute. reflexivity.
Defined.

End ReadProofs.

(** ** The batch of [tryMatchPlayers] *)

Module BatchProofs.
Import Types Draft DraftProofs SessionProofs Matchmaking MatchmakingProofs TeamProofs.
Import Queue QueueInv SnapshotProofs SelectionProofs QueueProofs QueueProofs2.
Import EagerProofs.
#[local] Open Scope nat_scope.



End BatchProofs.

Module JoinProofs.
Import Types Draft DraftProofs SessionProofs Matchmaking MatchmakingProofs.
Import Queue QueueInv SnapshotProofs SelectionProofs QueueProofs QueueProofs2.
Import EagerProofs.
#[local] Open Scope nat_scope.



End JoinProofs.

(** ** Seats: the picks of a draft and its players *)

Module SeatProofs.
Import Types Draft DraftProofs SessionProofs Record RecordProofs Matchmaking.
Import Queue QueueInv SnapshotProofs SelectionProofs QueueProofs QueueProofs2.
Import Seats.
#[local] Open Scope nat_scope.

Lemma picksOf_app team l1 l2 :
  picksOf team (l1 ++ l2) = picksOf team l1 ++ picksOf team l2.
Proof. apply omap_app. Qed.

Lemma picksOf_unresolved team (l : list DraftAction.t) :
  Forall (fun a => DraftAction.championId a = None) l -> picksOf team l = [].
Proof.
  induction 1 as [|a l Ha _ IH]; [reflexivity|].
  unfold picksOf in *. simpl. rewrite Ha.
  destruct (DraftAction.type a); [exact IH|].
  destruct (Team_eqb _ _); exact IH.
Qed.

Lemma picksOf_pending team k : picksOf team (pending k) = [].
Proof.
  unfold pending, picksOf.
  rewrite omap_alter_same by (intros []; reflexivity).
  apply picksOf_unresolved, Forall_drop. repeat constructor.
Qed.

Lemma picksOf_resolved team done template :
  Forall2 resolvedAs done template ->
  length (picksOf team done)
  = length (List.filter (fun t => match DraftAction.type t with
                                  | pick => Team_eqb (DraftAction.team t) team
                                  | ban => false
                                  end) template).
Proof.
  induction 1 as [|a t l template (c & n & now & ->) _ IH]; [reflexivity|].
  unfold picksOf in *. simpl.
  destruct (DraftAction.type t); simpl; [exact IH|].
  destruct (Team_eqb _ _); simpl; [f_equal|]; exact IH.
Qed.

(** When it is a team's turn to pick, it has picked fewer than five
    times. *)
Lemma template_picks k t :
  createDraftActions !! k = Some t -> DraftAction.type t = pick ->
  length (List.filter (fun t' => match DraftAction.type t' with
                                 | pick => Team_eqb (DraftAction.team t')
                                                    (DraftAction.team t)
                                 | ban => false
                                 end) (take k createDraftActions)) < 5.
Proof.
  intros H Ht.
  do 16 (destruct k as [|k];
         [inversion H; subst t; try discriminate; simpl; lia|]).
  inversion H.
Qed.

Lemma findIndex_unpicked (team : list DraftPlayer.t) (picks : list string) m :
  map DraftPlayer.championId team = map Some picks ++ repeat None (S m) ->
  Forall (fun c => truthy c = true) picks ->
  JSArray.findIndex (fun p => negb (truthy_opt (DraftPlayer.championId p))) team
  = Some (length picks).
Proof.
  revert team. induction picks as [|c picks IH]; intros team Hmap Hall.
  - destruct team as [|p team]; [discriminate|]. simpl in *.
    injection Hmap as Hp _. rewrite Hp. reflexivity.
  - destruct team as [|p team]; [discriminate|]. simpl in *.
    injection Hmap as Hp Hmap. apply Forall_cons in Hall as [Hc Hall].
    rewrite Hp. simpl. rewrite Hc. simpl. rewrite (IH team Hmap Hall).
    reflexivity.
Qed.

Lemma alter_withChampion (team : list DraftPlayer.t) (picks : list string) m c n :
  map DraftPlayer.championId team = map Some picks ++ repeat None (S m) ->
  map DraftPlayer.championId (alter (withChampion c n) (length picks) team)
  = map Some (picks ++ [c]) ++ repeat None m.
Proof.
  revert team. induction picks as [|c0 picks IH]; intros team Hmap.
  - destruct team as [|p team]; [discriminate|]. simpl in *.
    injection Hmap as _ Hmap. rewrite Hmap. reflexivity.
  - destruct team as [|p team]; [discriminate|]. simpl in *.
    injection Hmap as Hp Hmap. rewrite Hp. f_equal. apply (IH team Hmap).
Qed.

(** A pick goes to the first player of the team who has no champion
    yet. *)
Lemma assignPick_seat (team : list DraftPlayer.t) (picks : list string) c n :
  length team = 5 -> length picks < 5 ->
  map DraftPlayer.championId team
  = map Some picks ++ repeat None (5 - length picks) ->
  Forall (fun c => truthy c = true) picks ->
  exists team',
    assignPick c n team = Some team'
    /\ length team' = 5
    /\ map DraftPlayer.championId team'
       = map Some (picks ++ [c]) ++ repeat None (5 - length (picks ++ [c])).
Proof.
  intros Hlen Hlt Hmap Hall.
  destruct (5 - length picks) as [|m] eqn:E; [lia|].
  unfold assignPick. rewrite (findIndex_unpicked _ _ _ Hmap Hall).
  eexists. split; [reflexivity|]. split; [rewrite length_alter; exact Hlen|].
  rewrite (alter_withChampion _ _ _ _ _ Hmap). rewrite length_app. simpl.
  replace (5 - (length picks + 1)) with m by lia. reflexivity.
Qed.

Lemma picksOf_named team (actions : list DraftAction.t) :
  Forall (fun a => forall c, DraftAction.championId a = Some c -> truthy c = true)
         actions ->
  Forall (fun c => truthy c = true) (picksOf team actions).
Proof.
  induction 1 as [|a l Ha _ IH]; [constructor|].
  unfold picksOf in *. simpl.
  destruct (DraftAction.type a); [exact IH|].
  destruct (Team_eqb _ _); [|exact IH].
  destruct (DraftAction.championId a) as [c|] eqn:E; [|exact IH].
  constructor; [apply Ha; reflexivity|exact IH].
Qed.

Lemma Forall_alter_activate (P : DraftAction.t -> Prop) i (l : list DraftAction.t) :
  (forall a, P a -> P (activate a)) -> Forall P l -> Forall P (alter activate i l).
Proof.
  intros HP Hl. revert i. induction Hl as [|a l Ha Hl IH]; intros [|i];
    try (constructor; fail).
  - apply Forall_cons. split; [apply HP, Ha|exact Hl].
  - apply Forall_cons. split; [exact Ha|apply IH].
Qed.

Lemma template_unresolved k :
  Forall (fun a => DraftAction.championId a = None) (drop k createDraftActions).
Proof. apply Forall_drop. repeat constructor. Qed.

(** A ban or pick with a non-empty champion id keeps the seating. *)
Lemma seated_action userId req now random d u r :
  Draft.reachable d -> seated d -> named d ->
  truthy (championId req) = true ->
  makeDraftAction_tx userId req now random d = inr (u, r) ->
  seated (update d u) /\ named (update d u).
Proof.
  intros Hreach Hseat Hnamed Hc Htx.
  pose proof (makeDraftAction_tx_update _ _ _ _ _ _ _ Htx)
    as (a0 & Ha0 & _ & _ & _ & Hbt & Hrt & _ & _).
  pose proof (makeDraftAction_tx_fields _ _ _ _ _ _ _ Htx)
    as (a & Hst & Ha & _ & _ & _ & Hu).
  rewrite Ha in Ha0. injection Ha0 as <-.
  apply reachable_shape in Hreach. unfold shape in Hreach.
  assert (Hsh : exists done t,
             createDraftActions !! DraftSession.currentPhase d = Some t
             /\ length done = DraftSession.currentPhase d
             /\ DraftSession.actions d
                = done ++ pending (DraftSession.currentPhase d)
             /\ Forall2 resolvedAs done
                  (take (DraftSession.currentPhase d) createDraftActions)).
  { destruct (DraftSession.status d); try discriminate;
      destruct Hreach as (done & t & H1 & H2 & H3 & H4 & _); eauto 10. }
  clear Hreach. destruct Hsh as (done & t & Ht & Hlen & Hact & Hdone).
  set (k := DraftSession.currentPhase d) in *.
  rewrite Hact, (pending_cons _ _ Ht), lookup_app_r in Ha by lia.
  replace (k - length done) with 0 in Ha by lia. simpl in Ha.
  injection Ha as <-.
  set (c := championId req) in *.
  set (r0 := resolve c (championName req) now t).
  assert (Hres : <[k := resolve c (championName req) now (activate t)]>
                   (DraftSession.actions d)
                 = done ++ r0 :: drop (S k) createDraftActions).
  { rewrite Hact, (pending_cons _ _ Ht), insert_app_r_alt by lia.
    replace (k - length done) with 0 by lia. reflexivity. }
  rewrite Hres in Hu.
  assert (Hnamed0 : Forall (fun a => forall c, DraftAction.championId a = Some c ->
                                               truthy c = true)
                           (done ++ r0 :: drop (S k) createDraftActions)).
  { unfold named in Hnamed. rewrite Hact in Hnamed.
    apply Forall_app in Hnamed as [Hd _].
    apply Forall_app. split; [exact Hd|]. constructor.
    - simpl. intros c' [= <-]. exact Hc.
    - eapply Forall_impl; [apply template_unresolved|].
      simpl. intros a' Hnone c' Hc'. congruence. }
  assert (Hpicks : forall team l,
             l = done ++ r0 :: drop (S k) createDraftActions
             \/ l = alter activate (S k)
                      (done ++ r0 :: drop (S k) createDraftActions) ->
             picksOf team l
             = picksOf team (DraftSession.actions d)
               ++ match DraftAction.type t with
                  | pick => if Team_eqb (DraftAction.team t) team then [c] else []
                  | ban => []
                  end).
  { intros team l Hl.
    assert (E : picksOf team l
                = picksOf team (done ++ r0 :: drop (S k) createDraftActions)).
    { destruct Hl as [-> | ->]; [reflexivity|].
      unfold picksOf. apply omap_alter_same. intros []; reflexivity. }
    rewrite E, Hact, !picksOf_app, picksOf_pending, app_nil_r.
    change (r0 :: drop (S k) createDraftActions)
      with ([r0] ++ drop (S k) createDraftActions).
    rewrite picksOf_app, (picksOf_unresolved _ _ (template_unresolved (S k))),
      app_nil_r.
    unfold picksOf at 2. simpl.
    destruct (DraftAction.type t); [reflexivity|].
    destruct (Team_eqb _ _); reflexivity. }
  assert (Hacts : DraftSession.actions (update d u)
                  = done ++ r0 :: drop (S k) createDraftActions
                  \/ DraftSession.actions (update d u)
                     = alter activate (S k)
                         (done ++ r0 :: drop (S k) createDraftActions)).
  { simpl. destruct Hu as [(_ & _ & _ & _ & _ & -> & _)
                          | (_ & _ & _ & _ & _ & -> & _)]; auto. }
  split.
  - intros team. cbv zeta. rewrite (Hpicks team _ Hacts).
    destruct (Hseat team) as [Hl Hm]. cbv zeta in Hm.
    set (picks := picksOf team (DraftSession.actions d)) in *.
    assert (Hsame : DraftAction.type t = ban
                    \/ Team_eqb (DraftAction.team t) team = false ->
                    roster team (update d u) = roster team d).
    { intros Hcase. destruct team; simpl; rewrite ?Hbt, ?Hrt; simpl;
        destruct (DraftAction.type t), (DraftAction.team t); simpl in *;
        destruct Hcase; try discriminate; reflexivity. }
    destruct (DraftAction.type t) eqn:Hty.
    { rewrite Hsame by auto. rewrite app_nil_r. split; assumption. }
    destruct (Team_eqb (DraftAction.team t) team) eqn:Hteam.
    2:{ rewrite Hsame by auto. rewrite app_nil_r. split; assumption. }
    assert (Hlt : length picks < 5).
    { subst picks. rewrite Hact, picksOf_app, picksOf_pending, app_nil_r.
      rewrite (picksOf_resolved team _ _ Hdone).
      assert (team = DraftAction.team t)
        by (destruct team, (DraftAction.team t); simpl in Hteam; congruence).
      subst team. apply template_picks; assumption. }
    destruct (assignPick_seat (roster team d) picks c (championName req)
                Hl Hlt Hm (picksOf_named team _ Hnamed))
      as (team' & Hassign & Hl' & Hm').
    assert (Hroster : roster team (update d u) = team').
    { assert (team = DraftAction.team t)
        by (destruct team, (DraftAction.team t); simpl in Hteam; congruence).
      subst team. simpl in Hbt, Hrt. rewrite Hty in Hbt, Hrt.
      destruct (DraftAction.team t); simpl in *;
        rewrite ?Hbt, ?Hrt, Hassign; reflexivity. }
    rewrite Hroster. split; assumption.
  - unfold named. destruct Hacts as [-> | ->]; [exact Hnamed0|].
    apply Forall_alter_activate; [|exact Hnamed0]. intros []; auto.
Qed.

End SeatProofs.

Module KeptProofs.
Import Types Draft DraftProofs SessionProofs Record RecordProofs Matchmaking.
Import Queue QueueInv SnapshotProofs SelectionProofs QueueProofs QueueProofs2.
Import Seats SeatProofs.
#[local] Open Scope nat_scope.

Lemma kept_created draftId now queueSnapshot formed :
  formMatch draftId now queueSnapshot = Some formed ->
  kept draftId (draftData formed).
Proof.
  intros H. split; [econstructor; exact H|].
  pose proof (formMatch_players _ _ _ _ H) as (_ & _ & Hb & Hr).
  pose proof (formMatch_draftData _ _ _ _ H) as (_ & _ & Ha).
  unfold formMatch in H.
  destruct (negb _); [discriminate|].
  destruct (balanceTeams _) as [[bt rt]|]; [|discriminate].
  inversion H; subst formed; clear H. simpl in *.
  split; [|split; [|left; reflexivity]].
  - intros team. cbv zeta. simpl.
    assert (Hnone : forall T l,
               map DraftPlayer.championId (map (draftPlayer T) l)
               = repeat None (length l)).
    { intros T l. induction l as [|p l IH]; [reflexivity|]. simpl. f_equal.
      exact IH. }
    rewrite length_map in Hb, Hr.
    destruct team; simpl; rewrite Hnone, length_map, ?Hb, ?Hr; auto.
  - unfold named. simpl. repeat constructor; discriminate.
Qed.

Lemma kept_ready draftId userId now d u allReady :
  kept draftId d -> setDraftReady_doc userId now d = inr (u, allReady) ->
  kept draftId (update d u).
Proof.
  intros (Hreach & Hseat & Hnamed & Hlobby) H.
  split; [eapply reachable_step; [exact Hreach|econstructor; exact H]|].
  unfold setDraftReady_doc in H.
  destruct (negb (DraftStatus_eqb _ _)); [discriminate|].
  destruct (negb (_ || _)); [discriminate|].
  inversion H; subst u; clear H.
  split; [|split; [exact Hnamed|exact Hlobby]].
  intros team. specialize (Hseat team). cbv zeta in *. simpl.
  destruct Hseat as [Hl Hm].
  assert (Hc : forall l,
             map DraftPlayer.championId
               (map (fun p => if String.eqb (DraftPlayer.odId p) userId
                              then ready p else p) l)
             = map DraftPlayer.championId l).
  { intros l. rewrite map_map. apply map_ext. intros p.
    destruct (String.eqb _ _); reflexivity. }
  destruct team; simpl in *; rewrite Hc, length_map; split; assumption.
Qed.

Lemma kept_timeout draftId userId d u :
  kept draftId d -> timeoutDraftAction_doc userId d = inr u ->
  kept draftId (update d u).
Proof.
  intros (Hreach & Hseat & Hnamed & Hlobby) H.
  split; [eapply reachable_step; [exact Hreach|econstructor; exact H]|].
  unfold timeoutDraftAction_doc in H.
  destruct (negb _); [discriminate|].
  inversion H; subst u; clear H.
  split; [|split; [exact Hnamed|exact Hlobby]].
  intros team. specialize (Hseat team). destruct team; exact Hseat.
Qed.

Lemma kept_action userId req now random d u r :
  kept (Draft.draftId req) d -> truthy (championId req) = true ->
  makeDraftAction_tx userId req now random d = inr (u, r) ->
  kept (Draft.draftId req) (update d u).
Proof.
  intros (Hreach & Hseat & Hnamed & Hlobby) Hc H.
  split; [eapply reachable_step; [exact Hreach|econstructor; exact H]|].
  destruct (seated_action _ _ _ _ _ _ _ Hreach Hseat Hnamed Hc H) as [Hs Hn].
  split; [exact Hs|]. split; [exact Hn|].
  apply makeDraftAction_tx_fields in H as (a & _ & _ & _ & _ & _ & Hu).
  simpl.
  destruct Hu as [(_ & _ & _ & _ & _ & _ & -> & _)
                 | (_ & _ & _ & _ & _ & _ & -> & _)]; [right; reflexivity|].
  exact Hlobby.
Qed.

Lemma allKept_insert s k d :
  allKept s -> kept k d -> allKept (withDrafts s (<[k := d]> (drafts s))).
Proof.
  intros Hall Hk k' d'. simpl. destruct (decide (k' = k)) as [->|Hne].
  - rewrite lookup_insert_eq. intros [= <-]. exact Hk.
  - rewrite lookup_insert_ne by congruence. apply Hall.
Qed.

Lemma allKept_run s call : allKept s -> allKept (run s call).
Proof.
  intros Hall.
  destruct call as [env request | env request | now request
                   | now random request | now request | users' mmr']; simpl.
  - unfold joinQueue.
    destruct (auth request) as [userId|]; [|exact Hall].
    destruct (_ || _); [exact Hall|].
    destruct (PlayerRole_of_string _); [|exact Hall].
    destruct (alreadyQueued userId s); [exact Hall|].
    destruct (inActiveDraft userId s); [exact Hall|].
    destruct (users s !! userId) as [userData|]; [|exact Hall].
    destruct (negb (queueSetAccepted env)); [exact Hall|].
    unfold tryMatchPlayers.
    match goal with
    | |- context [formMatch ?i ?n ?docs] =>
        destruct (formMatch i n docs) as [formed|] eqn:Hform
    end; [|exact Hall].
    destruct (negb (batchCommitAccepted env)); [exact Hall|].
    simpl. intros k d. simpl. destruct (decide (k = newDraftId env)) as [->|Hne].
    + rewrite lookup_insert_eq. intros [= <-]. eapply kept_created, Hform.
    + rewrite lookup_insert_ne by congruence. apply Hall.
  - unfold leaveQueue. destruct (auth request); [|exact Hall].
    destruct (negb _); exact Hall.
  - unfold setDraftReady.
    destruct (auth request) as [userId|]; [|destruct s; exact Hall].
    destruct (negb _); [destruct s; exact Hall|].
    destruct (drafts s !! data request) as [d|] eqn:Hd; [|destruct s; exact Hall].
    destruct (setDraftReady_doc userId now d) as [e|[u allReady]] eqn:E;
      [destruct s; exact Hall|].
    apply allKept_insert; [exact Hall|].
    eapply kept_ready; [apply Hall, Hd|exact E].
  - unfold makeDraftAction.
    destruct (auth request) as [userId|]; [|destruct s; exact Hall].
    destruct (negb (truthy (Draft.draftId (data request)))); simpl;
      [destruct s; exact Hall|].
    destruct (truthy (championId (data request))) eqn:Hc; simpl;
      [|destruct s; exact Hall].
    destruct (negb (truthy (championName (data request)))); simpl;
      [destruct s; exact Hall|].
    destruct (drafts s !! Draft.draftId (data request)) as [d|] eqn:Hd;
      [|destruct s; exact Hall].
    destruct (makeDraftAction_tx userId (data request) now random d)
      as [e|[u r]] eqn:E; [destruct s; exact Hall|].
    apply allKept_insert; [exact Hall|].
    eapply kept_action; [apply Hall, Hd|exact Hc|exact E].
  - unfold timeoutDraftAction.
    destruct (auth request) as [userId|]; [|destruct s; exact Hall].
    destruct (negb _); [destruct s; exact Hall|].
    destruct (drafts s !! data request) as [d|] eqn:Hd; [|destruct s; exact Hall].
    destruct (timeoutDraftAction_doc userId d) as [e|u] eqn:E;
      [destruct s; exact Hall|].
    apply allKept_insert; [exact Hall|].
    eapply kept_timeout; [apply Hall, Hd|exact E].
  - exact Hall.
Qed.

Lemma allKept_after calls s : allKept s -> allKept (after calls s).
Proof.
  revert s. induction calls as [|call calls IH]; intros s H; [exact H|].
  apply IH, allKept_run, H.
Qed.

Lemma allKept_init users0 mmr0 : allKept (init users0 mmr0).
Proof. intros k d. simpl. rewrite lookup_empty. discriminate. Qed.

End KeptProofs.

(** *** Seats when calls overlap *)

Module OverlapSeats.
Import Types Draft DraftProofs SessionProofs Record RecordProofs Matchmaking.
Import Queue QueueInv SnapshotProofs SelectionProofs QueueProofs QueueProofs2.
Import Seats SeatProofs Overlap OverlapProofs.
#[local] Open Scope nat_scope.

Lemma championId_markReady userId (l : list DraftPlayer.t) :
  map DraftPlayer.championId
    (map (fun p => if String.eqb (DraftPlayer.odId p) userId then ready p else p) l)
  = map DraftPlayer.championId l.
Proof.
  rewrite map_map. apply map_ext. intros p.
  destruct (String.eqb _ _); reflexivity.
Qed.

Lemma unseated_championIds d team :
  unseated d -> map DraftPlayer.championId (roster team d) = repeat None 5.
Proof.
  intros H. destruct (H team) as [Hl Hall]. rewrite <- Hl.
  generalize dependent (roster team d). intros l _ Hall.
  induction Hall as [|p l Hp _ IH]; [reflexivity|]. simpl. rewrite Hp, IH.
  reflexivity.
Qed.

Lemma unseated_created draftId now queueSnapshot formed :
  formMatch draftId now queueSnapshot = Some formed -> unseated (draftData formed).
Proof.
  intros H. pose proof (formMatch_players _ _ _ _ H) as (_ & _ & Hb & Hr).
  unfold formMatch in H.
  destruct (negb _); [discriminate|].
  destruct (balanceTeams _) as [[bt rt]|]; [|discriminate].
  inversion H; subst formed; clear H. simpl in *.
  intros team. destruct team; simpl; (split; [assumption|]);
    apply Forall_forall; intros p Hp; apply list_elem_of_fmap in Hp as (q & -> & _);
    reflexivity.
Qed.

(** A write of [setDraftReady] computed from a session without
    champions leaves none on the rosters. *)
Lemma unseated_ready userId now read d u allReady :
  unseated read -> setDraftReady_doc userId now read = inr (u, allReady) ->
  unseated (update d u).
Proof.
  intros Hun H. apply setDraftReady_doc_update in H as (_ & _ & _ & ->).
  intros team. destruct (Hun team) as [Hl Hall].
  assert (Hm : forall l,
             Forall (fun p => DraftPlayer.championId p = None) l ->
             Forall (fun p => DraftPlayer.championId p = None)
                    (map (fun p => if String.eqb (DraftPlayer.odId p) userId
                                   then ready p else p) l)).
  { intros l Hf. induction Hf as [|p l Hp _ IH]; constructor; [|exact IH].
    destruct (String.eqb _ _); exact Hp. }
  destruct team; simpl in *; rewrite length_map; split;
    try assumption; apply Hm; assumption.
Qed.

Lemma seatedSince_unseated d :
  unseated d -> seatedSince d.
Proof.
  intros Hun team. cbv zeta. split; [apply Hun|].
  exists (length (picksOf team (DraftSession.actions d))).
  split; [lia|]. rewrite drop_all, Nat.sub_diag. simpl.
  apply unseated_championIds, Hun.
Qed.

Lemma template_picked k team :
  length (List.filter (fun t => match DraftAction.type t with
                                | pick => Team_eqb (DraftAction.team t) team
                                | ban => false
                                end) (take k createDraftActions)) <= 5.
Proof.
  do 17 (destruct k as [|k]; [destruct team; simpl; lia|]).
  destruct team; simpl; lia.
Qed.

(** A team has made five picks at most. *)
Lemma recorded_picks d team :
  recorded d -> length (picksOf team (DraftSession.actions d)) <= 5.
Proof.
  intros [((done & t & _ & _ & Hact & Hdone & _) & _) | ((Hall & _) & _)].
  - rewrite Hact, picksOf_app, picksOf_pending, app_nil_r.
    rewrite (picksOf_resolved team _ _ Hdone). apply template_picked.
  - rewrite (picksOf_resolved team _ _ Hall). destruct team; simpl; lia.
Qed.

(** A ban or pick with a non-empty champion id seats the pick after
    the picks the roster holds. *)
Lemma seatedSince_action userId req now random d u r :
  recorded d -> seatedSince d -> named d ->
  truthy (championId req) = true ->
  makeDraftAction_tx userId req now random d = inr (u, r) ->
  seatedSince (update d u) /\ named (update d u).
Proof.
  intros Hrec Hseat Hnamed Hc Htx.
  pose proof (makeDraftAction_tx_inr _ _ _ _ _ _ _ Htx)
    as (a1 & _ & Ha1 & Hactive & _).
  pose proof (makeDraftAction_tx_update _ _ _ _ _ _ _ Htx)
    as (a0 & Ha0 & _ & _ & _ & Hbt & Hrt & _ & _).
  pose proof (makeDraftAction_tx_fields _ _ _ _ _ _ _ Htx)
    as (a & Hst & Ha & _ & _ & _ & Hu).
  rewrite Ha in Ha0, Ha1. injection Ha0 as <-. injection Ha1 as <-.
  assert (Hsh : exists done t,
             createDraftActions !! DraftSession.currentPhase d = Some t
             /\ length done = DraftSession.currentPhase d
             /\ DraftSession.actions d
                = done ++ pending (DraftSession.currentPhase d)
             /\ Forall2 resolvedAs done
                  (take (DraftSession.currentPhase d) createDraftActions)).
  { destruct Hrec as [((done & t & H1 & H2 & H3 & H4 & _) & _) | ((Hall & _) & _)];
      [eauto 10|].
    destruct (Forall2_lookup_l _ _ _ _ _ Hall Ha) as (t & _ & c & n & w & ->).
    discriminate. }
  destruct Hsh as (done & t & Ht & Hlen & Hact & Hdone).
  set (k := DraftSession.currentPhase d) in *.
  rewrite Hact, (pending_cons _ _ Ht), lookup_app_r in Ha by lia.
  replace (k - length done) with 0 in Ha by lia. simpl in Ha.
  injection Ha as <-.
  set (c := championId req) in *.
  set (r0 := resolve c (championName req) now t).
  assert (Hres : <[k := resolve c (championName req) now (activate t)]>
                   (DraftSession.actions d)
                 = done ++ r0 :: drop (S k) createDraftActions).
  { rewrite Hact, (pending_cons _ _ Ht), insert_app_r_alt by lia.
    replace (k - length done) with 0 by lia. reflexivity. }
  rewrite Hres in Hu.
  assert (Hnamed0 : Forall (fun a => forall c, DraftAction.championId a = Some c ->
                                               truthy c = true)
                           (done ++ r0 :: drop (S k) createDraftActions)).
  { unfold named in Hnamed. rewrite Hact in Hnamed.
    apply Forall_app in Hnamed as [Hd _].
    apply Forall_app. split; [exact Hd|]. constructor.
    - simpl. intros c' [= <-]. exact Hc.
    - eapply Forall_impl; [apply template_unresolved|].
      simpl. intros a' Hnone c' Hc'. congruence. }
  assert (Hpicks : forall team l,
             l = done ++ r0 :: drop (S k) createDraftActions
             \/ l = alter activate (S k)
                      (done ++ r0 :: drop (S k) createDraftActions) ->
             picksOf team l
             = picksOf team (DraftSession.actions d)
               ++ match DraftAction.type t with
                  | pick => if Team_eqb (DraftAction.team t) team then [c] else []
                  | ban => []
                  end).
  { intros team l Hl.
    assert (E : picksOf team l
                = picksOf team (done ++ r0 :: drop (S k) createDraftActions)).
    { destruct Hl as [-> | ->]; [reflexivity|].
      unfold picksOf. apply omap_alter_same. intros []; reflexivity. }
    rewrite E, Hact, !picksOf_app, picksOf_pending, app_nil_r.
    change (r0 :: drop (S k) createDraftActions)
      with ([r0] ++ drop (S k) createDraftActions).
    rewrite picksOf_app, (picksOf_unresolved _ _ (template_unresolved (S k))),
      app_nil_r.
    unfold picksOf at 2. simpl.
    destruct (DraftAction.type t); [reflexivity|].
    destruct (Team_eqb _ _); reflexivity. }
  assert (Hacts : DraftSession.actions (update d u)
                  = done ++ r0 :: drop (S k) createDraftActions
                  \/ DraftSession.actions (update d u)
                     = alter activate (S k)
                         (done ++ r0 :: drop (S k) createDraftActions)).
  { simpl. destruct Hu as [(_ & _ & _ & _ & _ & -> & _)
                          | (_ & _ & _ & _ & _ & -> & _)]; auto. }
  split.
  - intros team. cbv zeta. rewrite (Hpicks team _ Hacts).
    destruct (Hseat team) as (Hl & n & Hn & Hm). cbv zeta in Hm.
    set (picks := picksOf team (DraftSession.actions d)) in *.
    assert (Hsame : DraftAction.type t = ban
                    \/ Team_eqb (DraftAction.team t) team = false ->
                    roster team (update d u) = roster team d).
    { intros Hcase. destruct team; simpl; rewrite ?Hbt, ?Hrt; simpl;
        destruct (DraftAction.type t), (DraftAction.team t); simpl in *;
        destruct Hcase; try discriminate; reflexivity. }
    destruct (DraftAction.type t) eqn:Hty.
    { rewrite Hsame by auto. rewrite app_nil_r. split; [assumption|].
      exists n. split; assumption. }
    destruct (Team_eqb (DraftAction.team t) team) eqn:Hteam.
    2:{ rewrite Hsame by auto. rewrite app_nil_r. split; [assumption|].
        exists n. split; assumption. }
    assert (Hlt : length picks < 5).
    { subst picks. rewrite Hact, picksOf_app, picksOf_pending, app_nil_r.
      rewrite (picksOf_resolved team _ _ Hdone).
      assert (team = DraftAction.team t)
        by (destruct team, (DraftAction.team t); simpl in Hteam; congruence).
      subst team. apply template_picks; assumption. }
    assert (Hq : Forall (fun c => truthy c = true) (drop n picks))
      by (apply Forall_drop, picksOf_named, Hnamed).
    assert (Hm' : map DraftPlayer.championId (roster team d)
                  = map Some (drop n picks)
                    ++ repeat None (5 - length (drop n picks)))
      by (rewrite length_drop; exact Hm).
    destruct (assignPick_seat (roster team d) (drop n picks) c (championName req)
                Hl ltac:(rewrite length_drop; lia) Hm' Hq)
      as (team' & Hassign & Hl' & Hm'').
    assert (Hroster : roster team (update d u) = team').
    { assert (team = DraftAction.team t)
        by (destruct team, (DraftAction.team t); simpl in Hteam; congruence).
      subst team. simpl in Hbt, Hrt. rewrite Hty in Hbt, Hrt.
      destruct (DraftAction.team t); simpl in *;
        rewrite ?Hbt, ?Hrt, Hassign; reflexivity. }
    rewrite Hroster. split; [assumption|].
    exists n. split; [rewrite length_app; lia|].
    rewrite Hm'', drop_app_le by lia.
    rewrite !length_app, length_drop. simpl.
    replace (5 - (length picks - n + 1)) with (5 - (length picks + 1 - n)) by lia.
    reflexivity.
  - unfold named. destruct Hacts as [-> | ->]; [exact Hnamed0|].
    apply Forall_alter_activate; [|exact Hnamed0]. intros []; auto.
Qed.

(** Every version of a draft document is seated, and the versions in
    waiting hold no champion. *)
Lemma versions_seated l :
  versions l ->
  (forall d, head l = Some d -> seatedSince d /\ named d)
  /\ Forall (fun v => DraftSession.status v = waiting -> unseated v) l.
Proof.
  induction 1 as [draftId now snap formed H
                 | userId now read u allReady d earlier Hv [IH IHall] Hin H
                 | userId req now random u r d earlier Hv [IH IHall] Hc _ H
                 | userId read u d earlier Hv [IH IHall] _ H].
  - pose proof (unseated_created _ _ _ _ H) as Hun.
    assert (Hnamed : named (draftData formed)).
    { apply formMatch_draftData in H as (_ & _ & Ha). unfold named. rewrite Ha.
      repeat constructor; discriminate. }
    split.
    + intros d [= <-]. split; [apply seatedSince_unseated, Hun|exact Hnamed].
    + constructor; [intros _; exact Hun|constructor].
  - destruct (IH d eq_refl) as [Hseat Hnamed].
    pose proof (setDraftReady_doc_update _ _ _ _ _ H) as (Hw & _).
    assert (Hread : unseated read)
      by (exact (proj1 (Forall_forall _ _) IHall read Hin Hw)).
    pose proof (unseated_ready _ _ _ d _ _ Hread H) as Hun.
    split.
    + intros d0 [= <-]. split; [apply seatedSince_unseated, Hun|].
      apply setDraftReady_doc_update in H as (_ & _ & _ & ->). exact Hnamed.
    + constructor; [intros _; exact Hun|exact IHall].
  - destruct (IH d eq_refl) as [Hseat Hnamed].
    pose proof (versions_recorded _ Hv d eq_refl) as Hrec.
    split.
    + intros d0 [= <-].
      exact (seatedSince_action _ _ _ _ _ _ _ Hrec Hseat Hnamed Hc H).
    + constructor; [|exact IHall]. intros Hw.
      pose proof (recorded_action _ _ _ _ _ _ _ Hrec H) as Hrec'.
      apply makeDraftAction_tx_advances in H
        as [[Hs _] | [Hs _]]; rewrite Hw in Hs; discriminate.
  - destruct (IH d eq_refl) as [Hseat Hnamed].
    apply timeoutDraftAction_doc_update in H as ->.
    split.
    + intros d0 [= <-]. split; [|exact Hnamed].
      intros team. specialize (Hseat team). destruct team; exact Hseat.
    + constructor; [intros Hw; discriminate|exact IHall].
Qed.

Lemma held_seated d : held d -> seatedSince d /\ named d.
Proof. intros [earlier H]. exact (proj1 (versions_seated _ H) d eq_refl). Qed.

End OverlapSeats.

Module SeatTheorems.
Import Types Draft DraftProofs SessionProofs Record RecordProofs Matchmaking.
Import Queue QueueInv SnapshotProofs SelectionProofs QueueProofs QueueProofs2.
Import Seats SeatProofs KeptProofs Overlap OverlapProofs OverlapSeats.
#[local] Open Scope nat_scope.

Lemma omap_map_Some {A B} (f : A -> option B) (l : list A) (xs : list B) :
  map f l = map Some xs -> omap f l = xs.
Proof.
  revert xs. induction l as [|a l IH]; intros [|x xs] H; try discriminate;
    [reflexivity|].
  simpl in *. injection H as Ha H. rewrite Ha. f_equal. apply IH, H.
Qed.

Lemma picked_by_team (actions : list DraftAction.t) :
  Forall (fun a => forall c, DraftAction.championId a = Some c -> truthy c = true)
         actions ->
  pickedChampions actions ≡ₚ picksOf blue actions ++ picksOf red actions.
Proof.
  induction 1 as [|a l Ha _ IH]; [reflexivity|].
  unfold pickedChampions, picksOf in *. simpl.
  destruct (DraftAction.type a); [exact IH|].
  destruct (DraftAction.championId a) as [c|] eqn:E.
  - rewrite (Ha c eq_refl).
    destruct (DraftAction.team a); simpl.
    + constructor. exact IH.
    + rewrite <- Permutation_middle. constructor. exact IH.
  - destruct (DraftAction.team a); exact IH.
Qed.

(** X18. Each team of a draft has five players, and its picks sit
    with them in roster order.  In every version of a draft document,
    whether calls overlapped or not, each roster holds in its first
    seats, in the order they were made, the picks its team made since
    the rosters were last written by [setDraftReady] (all its picks
    but the first n, for some n), and no champion in the other seats;
    a team has five picks at most and no pick is an empty champion id.
    When calls run one after the other, each to its end before the
    next, every draft the store holds has all the picks of the team
    seated: after its n-th pick the first n players of the team hold
    its picks, in the order they were made, and the others hold
    none. *)
Theorem picks_seated_in_order :
  (forall d team,
      held d ->
      let picks := picksOf team (DraftSession.actions d) in
      length (roster team d) = 5
      /\ length picks <= 5
      /\ Forall (fun c => truthy c = true) picks
      /\ exists n,
          n <= length picks
          /\ map DraftPlayer.championId (roster team d)
             = map Some (drop n picks) ++ repeat None (5 - (length picks - n)))
  /\ (forall (calls : list Call) users0 mmr0 k d team,
        drafts (after calls (init users0 mmr0)) !! k = Some d ->
        let picks := picksOf team (DraftSession.actions d) in
        length (roster team d) = 5
        /\ length picks <= 5
        /\ map DraftPlayer.championId (roster team d)
           = map Some picks ++ repeat None (5 - length picks)
        /\ Forall (fun c => truthy c = true) picks).
Proof.
  split.
  - intros d team Hheld picks.
    destruct (held_seated _ Hheld) as [Hseat Hnamed].
    destruct (Hseat team) as (Hl & n & Hn & Hm). fold picks in Hn, Hm.
    split; [exact Hl|].
    split; [exact (recorded_picks _ team (held_recorded _ Hheld))|].
    split; [apply picksOf_named, Hnamed|].
    exists n. split; assumption.
  - intros calls users0 mmr0 k d team Hk picks.
    destruct (allKept_after calls _ (allKept_init users0 mmr0) k d Hk)
      as (_ & Hseat & Hnamed & _).
    destruct (Hseat team) as [Hl Hm]. fold picks in Hm.
    split; [exact Hl|]. split; [|split; [exact Hm|apply picksOf_named, Hnamed]].
    apply (f_equal length) in Hm.
    rewrite length_map, length_app, length_map, repeat_length in Hm. lia.
Qed.

(** The store of the scenario after the last pick. *)
Lemma scenario_drafted :
  drafts (after Scenario.wholeDraft Scenario.start) !! "draft0001abc"%string
  = Some Examples.drafted.
Proof. vm_compute. reflexivity. Qed.

(** The drafted session of the scenario, as the store holds it, has
    blue's five picks seated; the session a late write of
    [setDraftReady] reopened has five picks a team and none seated. *)
Lemma picks_seated_in_order_witness :
  drafts (after Scenario.wholeDraft Scenario.start) !! "draft0001abc"%string
  = Some Examples.drafted
  /\ map DraftPlayer.championId (roster blue Examples.drafted)
     = map Some (picksOf blue (DraftSession.actions Examples.drafted))
       ++ repeat None
                 (5 - length (picksOf blue (DraftSession.actions Examples.drafted)))
  /\ held Examples.reopened
  /\ length (picksOf blue (DraftSession.actions Examples.reopened)) = 5
  /\ map DraftPlayer.championId (roster blue Examples.reopened) = repeat None 5
  /\ exists n,
      n <= length (picksOf blue (DraftSession.actions Examples.reopened))
      /\ map DraftPlayer.championId (roster blue Examples.reopened)
         = map Some (drop n (picksOf blue (DraftSession.actions Examples.reopened)))
           ++ repeat None
                (5 - (length (picksOf blue (DraftSession.actions Examples.reopened))
                      - n)).
Proof.
  split; [exact scenario_drafted|].
  split; [exact (proj1 (proj2 (proj2
    (proj2 picks_seated_in_order Scenario.wholeDraft Scenario.profiles
       Scenario.ratings "draft0001abc"%string Examples.drafted blue
       scenario_drafted))))|].
  split; [exact held_reopened|]. split; [reflexivity|]. split; [reflexivity|].
  exact (proj2 (proj2 (proj2
    (proj1 picks_seated_in_order Examples.reopened blue held_reopened)))).
Defined.

(** A completed draft has its ten picks made, whether calls overlapped
    or not. *)
Lemma held_completed_picks d :
  held d -> DraftSession.status d = completed ->
  (forall team, length (picksOf team (DraftSession.actions d)) = 5)
  /\ Forall (fun c => truthy c = true)
            (picksOf blue (DraftSession.actions d)
             ++ picksOf red (DraftSession.actions d))
  /\ NoDup (picksOf blue (DraftSession.actions d)
            ++ picksOf red (DraftSession.actions d))
  /\ Forall2 resolvedAs (DraftSession.actions d) createDraftActions
  /\ is_Some (DraftSession.lobbyName d).
Proof.
  intros Hheld Hc.
  destruct (held_recorded _ Hheld)
    as [(_ & Hnc & _) | ((Hall & _ & _ & _ & _ & Hl & _) & _)];
    [contradiction|].
  destruct (held_seated _ Hheld) as [_ Hnamed].
  split; [|split; [|split; [|split; [exact Hall|exact Hl]]]].
  - intros team. rewrite (picksOf_resolved team _ _ Hall).
    destruct team; reflexivity.
  - apply Forall_app. split; apply picksOf_named, Hnamed.
  - rewrite <- (picked_by_team _ Hnamed).
    destruct Hheld as [earlier Hv].
    pose proof (versions_champions _ Hv d eq_refl) as Hnd.
    apply NoDup_app in Hnd. tauto.
Qed.

(** X19. A completed draft has its ten picks made: in every version
    of a draft document that is completed, whether calls overlapped or
    not, each team has made five picks, the ten champions picked are
    different and none is an empty id, all sixteen actions are
    resolved and the lobby is set.  When calls run one after the
    other, each to its end before the next, in every completed draft
    the store holds each of the ten players holds a champion, no two
    players the same one; the champions of a team are the team's picks
    in the order they were made; and the lobby is named Drafty-
    followed by the first eight characters of the draft's id (an id of
    ASCII characters, as the store generates them).  (A write of
    [setDraftReady] that lands late, which calls that overlap allow,
    puts back the rosters it read, without champions.) *)
Theorem completed_draft_is_full :
  (forall d,
      held d -> DraftSession.status d = completed ->
      (forall team, length (picksOf team (DraftSession.actions d)) = 5)
      /\ Forall (fun c => truthy c = true)
                (picksOf blue (DraftSession.actions d)
                 ++ picksOf red (DraftSession.actions d))
      /\ NoDup (picksOf blue (DraftSession.actions d)
                ++ picksOf red (DraftSession.actions d))
      /\ Forall2 resolvedAs (DraftSession.actions d) createDraftActions
      /\ is_Some (DraftSession.lobbyName d))
  /\ (forall (calls : list Call) users0 mmr0 k d,
        drafts (after calls (init users0 mmr0)) !! k = Some d ->
        DraftSession.status d = completed ->
        Text.isASCII k = true ->
        let players := DraftSession.blueTeam d ++ DraftSession.redTeam d in
        length players = 10
        /\ Forall (fun p => truthy_opt (DraftPlayer.championId p) = true) players
        /\ NoDup (omap DraftPlayer.championId players)
        /\ (forall team,
              omap DraftPlayer.championId (roster team d)
              = picksOf team (DraftSession.actions d))
        /\ DraftSession.lobbyName d = Some (lobbyOf k)).
Proof.
  split; [exact held_completed_picks|].
  intros calls users0 mmr0 k d Hk Hc _ players.
  destruct (allKept_after calls _ (allKept_init users0 mmr0) k d Hk)
    as (Hreach & Hseat & Hnamed & Hlobby).
  pose proof (reachable_shape _ Hreach) as Hshape. unfold shape in Hshape.
  rewrite Hc in Hshape. destruct Hshape as (Hres & _ & _ & Hln & _).
  assert (Hfive : forall team,
             length (picksOf team (DraftSession.actions d)) = 5).
  { intros team. rewrite (picksOf_resolved team _ _ Hres).
    destruct team; reflexivity. }
  assert (Hmap : forall team,
             length (roster team d) = 5
             /\ map DraftPlayer.championId (roster team d)
                = map Some (picksOf team (DraftSession.actions d))).
  { intros team. destruct (Hseat team) as [Hl Hm]. cbv zeta in Hm.
    rewrite Hfive in Hm. simpl in Hm. rewrite app_nil_r in Hm. auto. }
  assert (Hteam : forall team,
             omap DraftPlayer.championId (roster team d)
             = picksOf team (DraftSession.actions d)).
  { intros team. apply omap_map_Some, Hmap. }
  assert (Htruthy : forall team,
             Forall (fun p => truthy_opt (DraftPlayer.championId p) = true)
                    (roster team d)).
  { intros team. destruct (Hmap team) as [_ Hm].
    pose proof (picksOf_named team _ Hnamed) as Hp.
    revert Hm Hp. generalize (picksOf team (DraftSession.actions d)).
    induction (roster team d) as [|p l IH]; intros [|c picks] Hm Hp;
      try discriminate; constructor.
    - simpl in Hm. injection Hm as -> _. simpl.
      apply Forall_cons in Hp as [Hp _]. exact Hp.
    - simpl in Hm. injection Hm as _ Hm. apply Forall_cons in Hp as [_ Hp].
      exact (IH picks Hm Hp). }
  split; [|split; [|split; [|split]]].
  - subst players. rewrite length_app.
    destruct (Hmap blue) as [Hb _], (Hmap red) as [Hr _]. simpl in Hb, Hr. lia.
  - subst players. apply Forall_app. split; [apply (Htruthy blue)|apply (Htruthy red)].
  - subst players. rewrite omap_app.
    change (DraftSession.blueTeam d) with (roster blue d).
    change (DraftSession.redTeam d) with (roster red d).
    rewrite !Hteam, <- (picked_by_team _ Hnamed).
    pose proof (champions_NoDup d Hreach) as Hnd.
    apply NoDup_app in Hnd. tauto.
  - exact Hteam.
  - destruct Hlobby as [Hnone|Hsome]; [|exact Hsome].
    rewrite Hnone in Hln. destruct Hln as [x Hx]. discriminate.
Qed.

(** The drafted session of the scenario: its lobby. *)
Lemma completed_draft_is_full_witness :
  drafts (after Scenario.wholeDraft Scenario.start) !! "draft0001abc"%string
  = Some Examples.drafted
  /\ DraftSession.status Examples.drafted = completed
  /\ Text.isASCII "draft0001abc" = true
  /\ DraftSession.lobbyName Examples.drafted = Some "Drafty-draft000"%string.
Proof.
  split; [exact scenario_drafted|]. split; [reflexivity|].
  split; [reflexivity|].
  destruct (proj2 completed_draft_is_full Scenario.wholeDraft Scenario.profiles
              Scenario.ratings "draft0001abc"%string Examples.drafted
              scenario_drafted eq_refl eq_refl) as (_ & _ & _ & _ & H).
  exact H.
Defined.

End SeatTheorems.

(** ** The cast of a draft *)

Module CastProofs.

Import Types Draft DraftProofs SessionProofs Cast.

Lemma samePlayer_refl p : samePlayer p p.
Proof. repeat split. Qed.

Lemma Forall2_samePlayer_refl team : Forall2 samePlayer team team.
Proof. induction team; constructor; [apply samePlayer_refl|assumption]. Qed.

Lemma Forall2_samePlayer_map f team :
  (forall p, samePlayer p (f p)) -> Forall2 samePlayer team (map f team).
Proof. intros Hf. induction team; simpl; constructor; auto. Qed.

Lemma Forall2_samePlayer_alter f i team :
  (forall p, samePlayer p (f p)) -> Forall2 samePlayer team (alter f i team).
Proof.
  intros Hf. revert i. induction team as [|p team IH]; intros [|i]; simpl;
    try constructor.
  - apply Hf.
  - apply Forall2_samePlayer_refl.
  - apply samePlayer_refl.
  - apply IH.
Qed.

Lemma sameCast_refl d : sameCast d d.
Proof.
  repeat split; try reflexivity. intros team. apply Forall2_samePlayer_refl.
Qed.

(** No transition of a session changes its cast. *)
Lemma step_sameCast d d' : step d d' -> sameCast d d'.
Proof.
  intros [userId now d0 u allReady H | userId req now random d0 u r H
         | userId d0 u H].
  - unfold setDraftReady_doc in H.
    destruct (negb (DraftStatus_eqb _ _)); [discriminate|].
    destruct (negb (_ || _)); [discriminate|].
    inversion H; subst u; clear H.
    repeat split; try reflexivity.
    intros team. destruct team; simpl; apply Forall2_samePlayer_map; intros p;
      destruct (String.eqb _ _); repeat split.
  - apply makeDraftAction_tx_update in H
      as (a & _ & _ & _ & _ & Hb & Hr & _).
    repeat split; try reflexivity.
    intros team. destruct team; simpl; [rewrite Hb|rewrite Hr];
      destruct (DraftAction.type a), (DraftAction.team a); simpl;
      try apply Forall2_samePlayer_refl;
      unfold assignPick; destruct (JSArray.findIndex _ _); simpl;
      try apply Forall2_samePlayer_refl;
      apply Forall2_samePlayer_alter; intros p; repeat split.
  - unfold timeoutDraftAction_doc in H.
    destruct (negb _); [discriminate|]. inversion H; subst u.
    repeat split; try reflexivity.
    intros team. destruct team; apply Forall2_samePlayer_refl.
Qed.

Lemma touchesOnly_refl draftId db : touchesOnly draftId db db.
Proof.
  split; [reflexivity|]. split; [reflexivity|].
  intros d d' H H'. assert (d' = d) by congruence. subst. apply sameCast_refl.
Qed.

Lemma touchesOnly_step draftId db d d' :
  db !! draftId = Some d -> step d d' ->
  touchesOnly draftId db (<[draftId := d']> db).
Proof.
  intros Hd Hstep. split; [|split].
  - intros k Hk. apply lookup_insert_ne. congruence.
  - intros k. destruct (decide (k = draftId)) as [->|Hne].
    + rewrite lookup_insert_eq, Hd. split; eauto.
    + rewrite lookup_insert_ne by congruence. reflexivity.
  - intros d0 d0' H0 H0'. rewrite lookup_insert_eq in H0'.
    assert (d0 = d) by congruence. assert (d0' = d') by congruence. subst.
    apply step_sameCast, Hstep.
Qed.

(** X27. [setDraftReady], [makeDraftAction] and [timeoutDraftAction],
    whatever they return, touch no draft but the one the request
    names, create and delete no draft document, and leave the cast of
    the draft they touch as it was: its id and creation time, the
    team averages, and on each team the same players in the same
    seats, with their ids, names, roles, teams and ratings. *)
Theorem draft_calls_keep_the_cast (db : Drafts) :
  (forall now request,
      touchesOnly (data request) db (snd (setDraftReady now request db)))
  /\ (forall now random request,
        touchesOnly (draftId (data request)) db
                    (snd (makeDraftAction now random request db)))
  /\ (forall now request,
        touchesOnly (data request) db (snd (timeoutDraftAction now request db))).
Proof.
  split; [|split].
  - intros now request. unfold setDraftReady.
    destruct (auth request) as [userId|]; [|apply touchesOnly_refl].
    destruct (negb _); [apply touchesOnly_refl|].
    destruct (db !! data request) as [d|] eqn:Hd; [|apply touchesOnly_refl].
    destruct (setDraftReady_doc userId now d) as [e|[u allReady]] eqn:E;
      [apply touchesOnly_refl|].
    simpl. apply (touchesOnly_step _ _ _ _ Hd).
    exact (step_ready _ _ _ _ _ E).
  - intros now random request. unfold makeDraftAction.
    destruct (auth request) as [userId|]; [|apply touchesOnly_refl].
    destruct (_ || _); [apply touchesOnly_refl|].
    destruct (db !! draftId (data request)) as [d|] eqn:Hd;
      [|apply touchesOnly_refl].
    destruct (makeDraftAction_tx userId (data request) now random d)
      as [e|[u r]] eqn:E; [apply touchesOnly_refl|].
    simpl. apply (touchesOnly_step _ _ _ _ Hd).
    exact (step_action _ _ _ _ _ _ _ E).
  - intros now request. unfold timeoutDraftAction.
    destruct (auth request) as [userId|]; [|apply touchesOnly_refl].
    destruct (negb _); [apply touchesOnly_refl|].
    destruct (db !! data request) as [d|] eqn:Hd; [|apply touchesOnly_refl].
    destruct (timeoutDraftAction_doc userId d) as [e|u] eqn:E;
      [apply touchesOnly_refl|].
    simpl. apply (touchesOnly_step _ _ _ _ Hd).
    exact (step_timeout _ _ _ E).
Qed.

End CastProofs.

(** ** The drafts of the store *)

Module StoreProofs.
Import Types Draft DraftProofs SessionProofs Matchmaking MatchmakingProofs.
Import Queue QueueInv SnapshotProofs SelectionProofs QueueProofs QueueProofs2.
Import Cast CastProofs Record RecordProofs Overlap OverlapProofs Seats OverlapSeats.
#[local] Open Scope nat_scope.

(** What [joinQueue] does to [drafts]: nothing, or the one draft
    [tryMatchPlayers] formed. *)
Lemma joinQueue_drafts env request s :
  drafts (snd (joinQueue env request s)) = drafts s
  \/ exists now queueSnapshot formed,
       formMatch (newDraftId env) now queueSnapshot = Some formed
       /\ drafts (snd (joinQueue env request s))
          = <[newDraftId env := draftData formed]> (drafts s).
Proof.
  unfold joinQueue.
  destruct (auth request) as [userId|]; [|left; reflexivity].
  destruct (_ || _); [left; reflexivity|].
  destruct (PlayerRole_of_string _); [|left; reflexivity].
  destruct (alreadyQueued userId s); [left; reflexivity|].
  destruct (inActiveDraft userId s); [left; reflexivity|].
  destruct (users s !! userId) as [userData|]; [|left; reflexivity].
  destruct (negb (queueSetAccepted env)); [left; reflexivity|].
  unfold tryMatchPlayers.
  match goal with
  | |- context [formMatch ?i ?n ?docs] =>
      destruct (formMatch i n docs) as [formed|] eqn:Hform
  end; [|left; reflexivity].
  destruct (negb (batchCommitAccepted env)); [left; reflexivity|].
  right. eexists _, _, formed. split; [exact Hform|reflexivity].
Qed.

(** What holds of the drafts [tryMatchPlayers] creates and is kept by
    the three transitions holds of every draft of the store. *)
Lemma stored_invariant (P : string -> DraftSession.t -> Prop) :
  (forall draftId now queueSnapshot formed,
      formMatch draftId now queueSnapshot = Some formed ->
      P draftId (draftData formed)) ->
  (forall k d d', P k d -> step d d' -> P k d') ->
  forall calls users0 mmr0 k d,
    drafts (after calls (init users0 mmr0)) !! k = Some d -> P k d.
Proof.
  intros Hcreated Hstep calls users0 mmr0.
  assert (Hinv : forall s,
             (forall k d, drafts s !! k = Some d -> P k d) ->
             forall k d, drafts (after calls s) !! k = Some d -> P k d).
  { induction calls as [|call calls IH]; intros s Hs; [exact Hs|].
    simpl. apply IH. clear IH.
    assert (Hone : forall db',
               oneStep (drafts s) db' ->
               forall k d, db' !! k = Some d -> P k d).
    { intros db' [->|(k0 & d0 & d0' & Hd0 & Hst & ->)] k d; [apply Hs|].
      destruct (decide (k = k0)) as [->|Hne].
      - rewrite lookup_insert_eq. intros [= <-].
        exact (Hstep _ _ _ (Hs _ _ Hd0) Hst).
      - rewrite lookup_insert_ne by congruence. apply Hs. }
    destruct call as [env request | env request | now request
                     | now random request | now request | users' mmr']; simpl.
    - destruct (joinQueue_drafts env request s)
        as [->|(now & snap & formed & Hform & ->)]; [exact Hs|].
      intros k d. destruct (decide (k = newDraftId env)) as [->|Hne].
      + rewrite lookup_insert_eq. intros [= <-]. exact (Hcreated _ _ _ _ Hform).
      + rewrite lookup_insert_ne by congruence. apply Hs.
    - unfold leaveQueue. destruct (auth request); [|exact Hs].
      destruct (negb _); exact Hs.
    - apply Hone, setDraftReady_oneStep.
    - apply Hone, makeDraftAction_oneStep.
    - apply Hone, timeoutDraftAction_oneStep.
    - exact Hs. }
  apply Hinv. intros k d H. simpl in H. rewrite lookup_empty in H. discriminate.
Qed.

(** No update carries the phase limit or the fearless flag. *)
Lemma versions_constants l :
  versions l ->
  forall d, head l = Some d ->
            DraftSession.phaseTimeLimit d = 30%Z
            /\ DraftSession.fearlessMode d = false.
Proof.
  induction 1 as [draftId now snap formed H
                 | userId now read u allReady d earlier _ IH _ H
                 | userId req now random u r d earlier _ IH _ _ H
                 | userId read u d earlier _ IH _ H];
    intros d0 [= <-]; try exact (IH d eq_refl).
  unfold formMatch in H. destruct (negb _); [discriminate|].
  destruct (balanceTeams _) as [[bt rt]|]; [|discriminate].
  inversion H; subst formed. split; reflexivity.
Qed.

Lemma recorded_sixteen d : recorded d -> length (DraftSession.actions d) = 16.
Proof.
  intros [((done & t & Ht & Hlen & Hact & _) & _) | ((Hall & _) & _)].
  - pose proof (lookup_lt_Some _ _ _ Ht) as Hk. simpl in Hk.
    rewrite Hact, length_app, Hlen. unfold pending.
    rewrite length_alter, length_drop. simpl. lia.
  - rewrite (Forall2_length _ _ _ Hall). reflexivity.
Qed.

(** The form of a draft document, whether calls overlapped or not. *)
Lemma held_form d :
  held d ->
  length (DraftSession.actions d) = 16
  /\ length (DraftSession.blueTeam d) = 5
  /\ length (DraftSession.redTeam d) = 5
  /\ DraftSession.phaseTimeLimit d = 30%Z
  /\ DraftSession.fearlessMode d = false.
Proof.
  intros Hheld.
  split; [exact (recorded_sixteen _ (held_recorded _ Hheld))|].
  destruct (held_seated _ Hheld) as [Hseat _].
  split; [exact (proj1 (Hseat blue))|]. split; [exact (proj1 (Hseat red))|].
  destruct Hheld as [earlier Hv]. exact (versions_constants _ Hv d eq_refl).
Qed.

(** X28. A draft document keeps the form it was created with: every
    version of it, whether calls overlapped or not, has sixteen
    actions, five players a team, the phase limit of 30 seconds and
    fearless mode off.  When calls run one after the other, each to
    its end before the next, every draft document the store holds
    after any sequence of such calls is one [tryMatchPlayers] created
    and [setDraftReady], [makeDraftAction] and [timeoutDraftAction]
    changed, each update landing on the document its call read (a
    reachable session), and carries the id of its document. *)
Theorem stored_draft_is_reachable :
  (forall d,
      held d ->
      length (DraftSession.actions d) = 16
      /\ length (DraftSession.blueTeam d) = 5
      /\ length (DraftSession.redTeam d) = 5
      /\ DraftSession.phaseTimeLimit d = 30%Z
      /\ DraftSession.fearlessMode d = false)
  /\ (forall (calls : list Call) users0 mmr0 k d,
        drafts (after calls (init users0 mmr0)) !! k = Some d ->
        reachable d
        /\ DraftSession.id d = k
        /\ length (DraftSession.actions d) = 16
        /\ length (DraftSession.blueTeam d) = 5
        /\ length (DraftSession.redTeam d) = 5
        /\ DraftSession.phaseTimeLimit d = 30%Z
        /\ DraftSession.fearlessMode d = false).
Proof.
  split; [exact held_form|].
  intros calls users0 mmr0 k d H.
  pose proof (stored_invariant
                (fun k d => reachable d
                            /\ DraftSession.id d = k
                            /\ length (DraftSession.blueTeam d) = 5
                            /\ length (DraftSession.redTeam d) = 5
                            /\ DraftSession.phaseTimeLimit d = 30%Z
                            /\ DraftSession.fearlessMode d = false)) as Hinv.
  destruct (Hinv) with (calls := calls) (users0 := users0) (mmr0 := mmr0)
                       (k := k) (d := d) as (Hr & Hid & Hb & Hred & Hlim & Hf);
    [| |exact H|].
  - intros draftId now snap formed Hform.
    split; [econstructor; exact Hform|].
    pose proof (formMatch_players _ _ _ _ Hform) as (_ & _ & Hb & Hr).
    unfold formMatch in Hform. destruct (negb _); [discriminate|].
    destruct (balanceTeams _) as [[bt rt]|]; [|discriminate].
    inversion Hform; subst formed. simpl in *. auto.
  - intros k0 d0 d0' (Hr & Hid & Hb & Hred & Hlim & Hf) Hst.
    split; [exact (reachable_step _ _ Hr Hst)|].
    destruct (step_sameCast _ _ Hst) as (Hid' & _ & _ & _ & Hteams).
    pose proof (Forall2_length _ _ _ (Hteams blue)) as Lb.
    pose proof (Forall2_length _ _ _ (Hteams red)) as Lr.
    simpl in Lb, Lr.
    split; [congruence|]. split; [congruence|]. split; [congruence|].
    destruct Hst; simpl; auto.
  - split; [exact Hr|]. split; [exact Hid|].
    split; [apply (reachable_wellFormed _ Hr)|]. auto.
Qed.

(** The store of the scenario after the tenth join. *)
Lemma stored_draft_is_reachable_witness :
  drafts (after Scenario.tenJoins Scenario.start) !! "draft0001abc"%string
  = Some Examples.created
  /\ reachable Examples.created
  /\ DraftSession.id Examples.created = "draft0001abc"%string.
Proof.
  assert (H : drafts (after Scenario.tenJoins Scenario.start)
                !! "draft0001abc"%string = Some Examples.created)
    by (vm_compute; reflexivity).
  split; [exact H|].
  destruct (proj2 stored_draft_is_reachable Scenario.tenJoins Scenario.profiles
              Scenario.ratings _ _ H) as (Hr & Hid & _).
  split; assumption.
Defined.

End StoreProofs.

(** ** Match submissions: the rating documents and the reply *)

Module WriteProofs.

Import Types JS Match Writes FloatFacts MmrProofs.

Lemma applyWrite_written docs w :
  applyWrite docs w
  = (fun doc => <[writeId w := doc]> docs) <$> written (docs !! writeId w) w.
Proof.
  destruct w as [odId fields historyEntry|odId doc]; simpl; [|reflexivity].
  destruct (docs !! odId); reflexivity.
Qed.

Lemma commit_cons docs w batch :
  commit docs (w :: batch)
  = match applyWrite docs w with
    | Some docs1 => commit docs1 batch
    | None => None
    end.
Proof.
  unfold commit. simpl. destruct (applyWrite docs w); [reflexivity|].
  induction batch as [|w' batch IH]; [reflexivity|exact IH].
Qed.

(** A committed batch that addresses each document once leaves at each
    of them what its write says, and leaves the others alone. *)
Lemma commit_lookup batch docs docs' :
  NoDup (map writeId batch) ->
  commit docs batch = Some docs' ->
  (forall w, w ∈ batch ->
     is_Some (docs' !! writeId w)
     /\ docs' !! writeId w = written (docs !! writeId w) w)
  /\ (forall id, id ∉ map writeId batch -> docs' !! id = docs !! id).
Proof.
  revert docs. induction batch as [|w batch IH]; intros docs Hnd Hc.
  - inversion Hc; subst. split; [intros w Hw; inversion Hw|reflexivity].
  - rewrite commit_cons, applyWrite_written in Hc.
    simpl in Hnd. apply NoDup_cons in Hnd as [Hw Hnd].
    destruct (written (docs !! writeId w) w) as [doc|] eqn:E; [|discriminate].
    simpl in Hc. destruct (IH _ Hnd Hc) as [H1 H2].
    split.
    + intros w' Hw'. apply elem_of_cons in Hw' as [->|Hw'].
      * rewrite (H2 _ Hw), lookup_insert_eq, E. split; [eauto|reflexivity].
      * destruct (H1 _ Hw') as [Hs Hl]. split; [exact Hs|].
        rewrite Hl, lookup_insert_ne; [reflexivity|].
        intros Heq. apply Hw. rewrite Heq. apply list_elem_of_fmap_2, Hw'.
    + intros id Hid. simpl in Hid. apply not_elem_of_cons in Hid as [Hne Hid].
      rewrite (H2 _ Hid), lookup_insert_ne by congruence. reflexivity.
Qed.

Lemma get_elem_of {A} (obj : JSObject.t A) key value :
  JSObject.get obj key = Some value -> (key, value) ∈ obj.
Proof.
  unfold JSObject.get. destruct (List.find _ obj) as [[k v]|] eqn:E;
    [|discriminate].
  simpl. intros [= <-]. apply find_some in E as [Hin Hk]. simpl in Hk.
  apply String.eqb_eq in Hk. subst. apply list_elem_of_In, Hin.
Qed.

Lemma set_Forall {A} (P : A -> Prop) (obj : JSObject.t A) key value :
  Forall (fun entry => P (snd entry)) obj -> P value ->
  Forall (fun entry => P (snd entry)) (JSObject.set obj key value).
Proof.
  intros Hobj Hv. induction Hobj as [|[k v] obj Hk Hobj IH]; simpl.
  - repeat constructor. exact Hv.
  - destruct (String.eqb k key); constructor; assumption.
Qed.

Lemma onTeam_elem id (team : list PlayerInput.t) :
  onTeam id team = true <-> id ∈ map PlayerInput.odId team.
Proof.
  unfold onTeam. rewrite existsb_exists, list_elem_of_fmap.
  split.
  - intros (p & Hin & Hp). apply String.eqb_eq in Hp.
    exists p. split; [congruence|apply list_elem_of_In, Hin].
  - intros (p & -> & Hin). exists p.
    split; [apply list_elem_of_In, Hin|apply String.eqb_refl].
Qed.

Lemma historyUnion_holds history entry :
  entry ∈ historyUnion history entry.
Proof.
  unfold historyUnion.
  destruct (existsb (HistoryEntry.eqb entry) history) eqn:E.
  - apply existsb_exists in E as (e & Hin & He).
    assert (e = entry); [|subst; apply list_elem_of_In, Hin].
    unfold HistoryEntry.eqb in He.
    repeat (apply andb_true_iff in He as [He ?]).
    destruct e, entry; simpl in *.
    repeat match goal with
           | H : String.eqb _ _ = true |- _ => apply String.eqb_eq in H
           | H : PrimFloat.Leibniz.eqb _ _ = true |- _ =>
               apply FloatAxioms.Leibniz.eqb_spec in H
           | H : (_ =? _) = true |- _ => apply Z.eqb_eq in H
           end.
    congruence.
  - apply elem_of_app. right. apply list_elem_of_singleton. reflexivity.
Qed.

Lemma get_set {A} (obj : JSObject.t A) key value key' :
  JSObject.get (JSObject.set obj key value) key'
  = if String.eqb key key' then Some value else JSObject.get obj key'.
Proof.
  unfold JSObject.get. induction obj as [|[k v] obj IH]; simpl.
  - destruct (String.eqb key key'); reflexivity.
  - destruct (String.eqb k key) eqn:E; simpl.
    + apply String.eqb_eq in E. subst k.
      destruct (String.eqb key key'); reflexivity.
    + destruct (String.eqb k key') eqn:E'; simpl.
      * apply String.eqb_eq in E'. subst k. rewrite String.eqb_sym, E. reflexivity.
      * exact IH.
Qed.

Lemma set_Forall_key {A} (P : string -> A -> Prop) (obj : JSObject.t A) key value :
  Forall (fun entry => P (fst entry) (snd entry)) obj -> P key value ->
  Forall (fun entry => P (fst entry) (snd entry)) (JSObject.set obj key value).
Proof.
  intros Hobj Hv. induction Hobj as [|[k v] obj Hk Hobj IH]; simpl.
  - repeat constructor. exact Hv.
  - destruct (String.eqb k key) eqn:E; constructor; try assumption.
    apply String.eqb_eq in E. subst k. exact Hv.
Qed.

(** [playerMmrMap] holds [ratingBefore] for every player. *)
Lemma buildMaps_mmrOf db allPlayers player :
  player ∈ allPlayers ->
  mmrOf (fst (buildMaps db allPlayers)) (PlayerInput.odId player)
  = ratingBefore db (PlayerInput.odId player).
Proof.
  unfold buildMaps, mmrOf.
  match goal with |- context [fold_left ?f _ _] => set (F := f) end.
  assert (H : forall players acc id,
             JSObject.get (fst (fold_left F players acc)) id
             = if bool_decide (id ∈ map PlayerInput.odId players)
               then Some (ratingBefore db id)
               else JSObject.get (fst acc) id).
  { subst F. intros players. induction players as [|p players IH];
      intros [playerMmrMap playerPlacementMap] id.
    - cbn [fold_left map]. rewrite bool_decide_eq_false_2 by apply not_elem_of_nil.
      reflexivity.
    - cbn [fold_left map]. rewrite IH.
      case_bool_decide as Hin; case_bool_decide as Hin'; try reflexivity.
      + exfalso. apply Hin', elem_of_cons. right. exact Hin.
      + apply elem_of_cons in Hin' as [->|Hin']; [|contradiction].
        unfold ratingBefore.
        destruct (mmr db !! PlayerInput.odId p); simpl;
          rewrite get_set, String.eqb_refl; reflexivity.
      + assert (Hne : String.eqb (PlayerInput.odId p) id = false).
        { apply String.eqb_neq. intros Heq. apply Hin', elem_of_cons.
          left. symmetry. exact Heq. }
        destruct (mmr db !! PlayerInput.odId p); simpl;
          rewrite get_set, Hne; reflexivity. }
  intros Hin. rewrite H.
  rewrite bool_decide_eq_true_2 by (apply list_elem_of_fmap_2, Hin).
  reflexivity.
Qed.

Section WithPow.

Variable Math_pow : float -> float -> float.

#[local] Open Scope float_scope.

Lemma applyMMRChange_clamped currentMmr change :
  clamped (Mmr.applyMMRChange currentMmr change).
Proof.
  unfold clamped, Mmr.applyMMRChange.
  destruct (isNaN (currentMmr + change)) eqn:E.
  - left. rewrite (clamp_NaN _ _ _ E). reflexivity.
  - right. apply clamp_range; [exact E|reflexivity].
Qed.

Lemma set_fresh {A} (obj : JSObject.t A) key value :
  key ∉ map fst obj -> JSObject.set obj key value = obj ++ [(key, value)].
Proof.
  induction obj as [|[k v] obj IH]; intros Hk; [reflexivity|].
  simpl in *. apply not_elem_of_cons in Hk as [Hne Hk].
  destruct (String.eqb k key) eqn:E;
    [apply String.eqb_eq in E; congruence|].
  rewrite (IH Hk). reflexivity.
Qed.

(** With different players [mmrChanges] gets one key for each, in
    their order. *)
Lemma computeChanges_keys context playerMmrMap playerPlacementMap allPlayers :
  NoDup (map Mmr.odId (Mmr.allPlayerStats context)) ->
  map fst (fst (computeChanges Math_pow context playerMmrMap playerPlacementMap
                               allPlayers))
  = map Mmr.odId (Mmr.allPlayerStats context).
Proof.
  unfold computeChanges.
  match goal with
  | |- _ -> map fst (fst (fold_left ?f _ _)) = _ =>
      assert (H : forall stats acc,
                 NoDup (map fst (fst acc) ++ map Mmr.odId stats) ->
                 map fst (fst (fold_left f stats acc))
                 = map fst (fst acc) ++ map Mmr.odId stats)
  end.
  { intros stats. induction stats as [|playerStats stats IH];
      intros [mmrChanges playerMatchStats] Hnd;
      [simpl; rewrite app_nil_r; reflexivity|].
    cbn [fold_left]. simpl in Hnd.
    assert (Hfresh : Mmr.odId playerStats ∉ map fst mmrChanges).
    { apply NoDup_app in Hnd as (_ & Hdis & _). intros Hin.
      apply (Hdis _ Hin). left. }
    rewrite IH.
    - destruct (List.find _ allPlayers); simpl;
        rewrite (set_fresh _ _ _ Hfresh), map_app, <- app_assoc; reflexivity.
    - destruct (List.find _ allPlayers); simpl;
        rewrite (set_fresh _ _ _ Hfresh), map_app, <- app_assoc; exact Hnd. }
  intros Hnd. rewrite H; [reflexivity|exact Hnd].
Qed.

Lemma computeChanges_clamped context playerMmrMap playerPlacementMap allPlayers :
  Forall (fun entry => clamped (newMmr (snd entry)))
         (fst (computeChanges Math_pow context playerMmrMap playerPlacementMap
                              allPlayers)).
Proof.
  unfold computeChanges.
  match goal with
  | |- Forall ?P (fst (fold_left ?f _ _)) =>
      assert (H : forall stats acc,
                 Forall P (fst acc) -> Forall P (fst (fold_left f stats acc)))
  end.
  { intros l. induction l as [|playerStats l IH];
      intros [mmrChanges playerMatchStats] H; [exact H|].
    cbn [fold_left]. apply IH.
    destruct (List.find _ allPlayers); simpl;
      (apply (set_Forall (fun c => clamped (newMmr c)));
       [exact H|apply applyMMRChange_clamped]). }
  apply H. constructor.
Qed.

(** Every entry of [mmrChanges] holds the player's rating before the
    match, changed and clamped. *)
Lemma computeChanges_applied context playerMmrMap playerPlacementMap allPlayers :
  Forall (fun entry =>
            newMmr (snd entry)
            = Mmr.applyMMRChange (mmrOf playerMmrMap (fst entry))
                                 (change (snd entry)))
         (fst (computeChanges Math_pow context playerMmrMap playerPlacementMap
                              allPlayers)).
Proof.
  unfold computeChanges.
  match goal with
  | |- Forall ?P (fst (fold_left ?f _ _)) =>
      assert (H : forall stats acc,
                 Forall P (fst acc) -> Forall P (fst (fold_left f stats acc)))
  end.
  { intros stats. induction stats as [|playerStats stats IH];
      intros [mmrChanges playerMatchStats] H; [exact H|].
    cbn [fold_left]. apply IH.
    destruct (List.find _ allPlayers); simpl;
      (apply (set_Forall_key
                (fun odId c => newMmr c
                               = Mmr.applyMMRChange (mmrOf playerMmrMap odId)
                                                    (change c)));
       [exact H|reflexivity]). }
  apply H. constructor.
Qed.

(** What a successful [submitMatchResult] has done. *)
Lemma submitMatchResult_inr env uid data db result db' :
  submitMatchResult Math_pow env uid data db = (inr result, db') ->
  exists caller winner blueTeam redTeam playerMmrMap mmrChanges matchDoc batch,
    uid = Some caller
    /\ Match.winner data = Some winner
    /\ Match.blueTeam data = Some blueTeam
    /\ Match.redTeam data = Some redTeam
    /\ length blueTeam = 5%nat /\ length redTeam = 5%nat
    /\ playerMmrMap = fst (buildMaps db (blueTeam ++ redTeam))
    /\ Forall (fun entry => clamped (newMmr (snd entry))) mmrChanges
    /\ Forall (fun entry =>
                newMmr (snd entry)
                = Mmr.applyMMRChange (mmrOf playerMmrMap (fst entry))
                                     (change (snd entry))) mmrChanges
    /\ (NoDup (map PlayerInput.odId (blueTeam ++ redTeam)) ->
        map fst mmrChanges = map PlayerInput.odId (blueTeam ++ redTeam))
    /\ matchId result = newMatchId env
    /\ Match.mmrChanges result
       = map (fun entry =>
                {| r_odId := fst entry;
                   r_change := change (snd entry);
                   r_performanceScore := performanceScore (snd entry);
                   r_newMmr := newMmr (snd entry);
                   r_rank := MmrRank.getRankFromMMR (newMmr (snd entry)) |})
             mmrChanges
    /\ users db' = users db
    /\ matches db' = <[newMatchId env := matchDoc]> (matches db)
    /\ MatchDoc.id matchDoc = newMatchId env
    /\ MatchDoc.createdBy matchDoc = caller
    /\ MatchDoc.winner matchDoc = winner
    /\ MatchDoc.mmrProcessed matchDoc = true
    /\ Forall2 (fun player w =>
                  ratingWrite env db winner blueTeam redTeam playerMmrMap
                              mmrChanges player = Some w)
               (blueTeam ++ redTeam) batch
    /\ commit (mmr db) batch = Some (mmr db').
Proof.
  unfold submitMatchResult. intros H.
  destruct uid as [caller|]; [|discriminate].
  destruct (Match.winner data) as [winner|]; [|discriminate].
  destruct (Match.blueTeam data) as [blueTeam|]; [|discriminate].
  destruct (Match.redTeam data) as [redTeam|]; [|discriminate].
  destruct (length blueTeam =? 5)%nat eqn:Lb; [|discriminate].
  destruct (length redTeam =? 5)%nat eqn:Lr; [|discriminate].
  simpl in H. apply Nat.eqb_eq in Lb, Lr.
  destruct (buildMaps db (blueTeam ++ redTeam))
    as [playerMmrMap playerPlacementMap] eqn:Hmaps.
  match type of H with
  | context [computeChanges ?p ?c ?m ?pl ?a] =>
      pose proof (computeChanges_clamped c m pl a) as Hcl;
        pose proof (computeChanges_applied c m pl a) as Happ;
        pose proof (computeChanges_keys c m pl a) as Hkeys;
        destruct (computeChanges p c m pl a) as [mmrChanges playerMatchStats]
  end.
  simpl in Hcl, Happ, Hkeys.
  rewrite map_app, !map_map in Hkeys. simpl in Hkeys. rewrite <- map_app in Hkeys.
  destruct (negb (matchSetAccepted env)); [discriminate|].
  match type of H with
  | context [mapM ?f ?l] => destruct (mapM f l) as [batch|] eqn:Hbatch
  end; [|discriminate].
  apply mapM_Some_1 in Hbatch.
  destruct (batchCommitAccepted env); [|discriminate].
  simpl in H.
  match type of H with
  | context [commit ?d ?b] => destruct (commit d b) as [docs|] eqn:Hcommit
  end; [|discriminate].
  inversion H; subst result db'; clear H.
  exists caller, winner, blueTeam, redTeam, playerMmrMap, mmrChanges.
  eexists. exists batch.
  do 4 (split; [reflexivity|]).
  split; [exact Lb|]. split; [exact Lr|].
  split; [rewrite Hmaps; reflexivity|].
  split; [exact Hcl|]. split; [exact Happ|].
  split; [exact Hkeys|].
  split; [reflexivity|].
  split; [simpl; apply map_ext; intros [odId c]; reflexivity|].
  do 6 (split; [reflexivity|]).
  split; [exact Hbatch|exact Hcommit].
Qed.

End WithPow.

End WriteProofs.

Module SubmitProofs.

Import Types JS Match Writes FloatFacts MmrProofs WriteProofs.

Section WithPow.

Variable Math_pow : float -> float -> float.

Lemma ratingWrite_Some env db winner blueTeam redTeam playerMmrMap mmrChanges
    player w :
  ratingWrite env db winner blueTeam redTeam playerMmrMap mmrChanges player
  = Some w ->
  writeId w = PlayerInput.odId player
  /\ exists c, JSObject.get mmrChanges (PlayerInput.odId player) = Some c.
Proof.
  unfold ratingWrite.
  destruct (JSObject.get mmrChanges (PlayerInput.odId player)) as [c|];
    [|discriminate].
  simpl. intros [= <-].
  split; [destruct (mmr db !! PlayerInput.odId player); reflexivity|eauto].
Qed.

Lemma batch_ids env db winner blueTeam redTeam playerMmrMap mmrChanges
    players batch :
  Forall2 (fun player w =>
             ratingWrite env db winner blueTeam redTeam playerMmrMap mmrChanges
                         player = Some w) players batch ->
  map writeId batch = map PlayerInput.odId players.
Proof.
  induction 1 as [|player w players batch H _ IH]; [reflexivity|].
  simpl. rewrite IH. f_equal. apply (ratingWrite_Some _ _ _ _ _ _ _ _ _ H).
Qed.

(** With ten different players, a player is on the team they were
    submitted on and on no other. *)
Lemma onTeam_teamOf team (blueTeam redTeam : list PlayerInput.t) player :
  NoDup (map PlayerInput.odId (blueTeam ++ redTeam)) ->
  player ∈ teamOf team blueTeam redTeam ->
  onTeam (PlayerInput.odId player) blueTeam = Team_eqb team blue
  /\ onTeam (PlayerInput.odId player) redTeam = Team_eqb team red.
Proof.
  rewrite map_app. intros Hnd Hin. apply NoDup_app in Hnd as (_ & Hdis & _).
  assert (Hid : PlayerInput.odId player
                ∈ map PlayerInput.odId (teamOf team blueTeam redTeam))
    by (apply list_elem_of_fmap_2, Hin).
  destruct team; simpl in *.
  - split; [apply onTeam_elem, Hid|].
    destruct (onTeam _ redTeam) eqn:E; [|reflexivity].
    apply onTeam_elem in E. destruct (Hdis _ Hid E).
  - split; [|apply onTeam_elem, Hid].
    destruct (onTeam _ blueTeam) eqn:E; [|reflexivity].
    apply onTeam_elem in E. destruct (Hdis _ E Hid).
Qed.

(** The document a successful submission leaves for a player. *)
Lemma submitted_player env caller winner blueTeam redTeam db result db' team player :
  submitMatchResult Math_pow env (Some caller)
    {| Match.winner := Some winner;
       Match.blueTeam := Some blueTeam;
       Match.redTeam := Some redTeam |} db = (inr result, db') ->
  NoDup (map PlayerInput.odId (blueTeam ++ redTeam)) ->
  player ∈ teamOf team blueTeam redTeam ->
  exists playerMmrMap changes c w,
    ratingWrite env db winner blueTeam redTeam playerMmrMap changes player = Some w
    /\ JSObject.get changes (PlayerInput.odId player) = Some c
    /\ mmrOf playerMmrMap (PlayerInput.odId player)
       = ratingBefore db (PlayerInput.odId player)
    /\ newMmr c
       = Mmr.applyMMRChange (ratingBefore db (PlayerInput.odId player)) (change c)
    /\ clamped (newMmr c)
    /\ (exists change,
          change ∈ mmrChanges result
          /\ r_odId change = PlayerInput.odId player
          /\ r_change change = Match.change c
          /\ r_newMmr change = newMmr c
          /\ r_rank change = MmrRank.getRankFromMMR (newMmr c))
    /\ is_Some (mmr db' !! PlayerInput.odId player)
    /\ mmr db' !! PlayerInput.odId player
       = written (mmr db !! PlayerInput.odId player) w.
Proof.
  intros H Hnd Hin.
  destruct (submitMatchResult_inr _ _ _ _ _ _ _ H)
    as (caller' & winner' & blueTeam' & redTeam' & playerMmrMap & changes
        & matchDoc & batch & _ & [= <-] & [= <-] & [= <-] & _ & _ & Hmaps & Hcl
        & Happ & _ & _ & Hres & _ & _ & _ & _ & _ & _ & Hbatch & Hcommit).
  assert (Hp : player ∈ blueTeam ++ redTeam)
    by (apply elem_of_app; destruct team; [left|right]; exact Hin).
  assert (Hbefore : mmrOf playerMmrMap (PlayerInput.odId player)
                    = ratingBefore db (PlayerInput.odId player))
    by (rewrite Hmaps; apply buildMaps_mmrOf, Hp).
  apply list_elem_of_lookup in Hp as [i Hi].
  destruct (Forall2_lookup_l _ _ _ _ _ Hbatch Hi) as (w & Hw & Hrw).
  destruct (ratingWrite_Some _ _ _ _ _ _ _ _ _ Hrw) as [Hid [c Hc]].
  pose proof (batch_ids _ _ _ _ _ _ _ _ _ Hbatch) as Hids.
  rewrite <- Hids in Hnd.
  destruct (commit_lookup _ _ _ Hnd Hcommit) as [Hl _].
  destruct (Hl w (list_elem_of_lookup_2 _ _ _ Hw)) as [Hs Hd].
  rewrite Hid in Hs, Hd.
  exists playerMmrMap, changes, c, w.
  split; [exact Hrw|]. split; [exact Hc|].
  pose proof (get_elem_of _ _ _ Hc) as Hentry.
  split; [exact Hbefore|].
  split.
  { rewrite Forall_forall in Happ. rewrite <- Hbefore. exact (Happ _ Hentry). }
  split.
  { rewrite Forall_forall in Hcl. exact (Hcl _ Hentry). }
  split; [|split; [exact Hs|exact Hd]].
  eexists. split.
  - rewrite Hres. apply list_elem_of_fmap. eexists. split; [reflexivity|exact Hentry].
  - simpl. repeat split; reflexivity.
Qed.

#[local] Open Scope float_scope.

(** X20. A successful [submitMatchResult] with ten different
    players, none with the id [__proto__] (which is no key of a
    JavaScript object), counts the game once for each of them: a player who has a rating
    document gets one more game, one more win on the winning team and
    one more loss on the other, one more placement game up to
    [PLACEMENT_GAMES], and is placed from the fifth on; a player
    without one gets a document with one game.  The document holds the
    history entry of this match, and no other rating document
    changes. *)
Theorem submitMatchResult_counts_the_game env caller winner blueTeam redTeam
    db result db' :
  let ids := map PlayerInput.odId (blueTeam ++ redTeam) in
  submitMatchResult Math_pow env (Some caller)
    {| Match.winner := Some winner;
       Match.blueTeam := Some blueTeam;
       Match.redTeam := Some redTeam |} db = (inr result, db') ->
  NoDup ids -> "__proto__"%string ∉ ids ->
  (forall team player,
      player ∈ teamOf team blueTeam redTeam ->
      let won := Team_eqb team winner in
      exists doc entry,
        mmr db' !! PlayerInput.odId player = Some doc
        /\ MmrDoc.lastUpdated doc = now env
        /\ entry ∈ MmrDoc.history doc
        /\ HistoryEntry.matchId entry = newMatchId env
        /\ HistoryEntry.mmrAfter entry = MmrDoc.mmr doc
        /\ match mmr db !! PlayerInput.odId player with
           | Some old =>
               MmrDoc.odId doc = MmrDoc.odId old
               /\ MmrDoc.gamesPlayed doc = (MmrDoc.gamesPlayed old + 1)%Z
               /\ MmrDoc.wins doc
                  = (MmrDoc.wins old + (if won then 1 else 0))%Z
               /\ MmrDoc.losses doc
                  = (MmrDoc.losses old + (if won then 0 else 1))%Z
               /\ MmrDoc.placementGamesPlayed doc
                  = Z.min (MmrDoc.placementGamesPlayed old + 1) 5
               /\ MmrDoc.isPlaced doc
                  = (5 <=? MmrDoc.placementGamesPlayed old + 1)%Z
           | None =>
               MmrDoc.odId doc = PlayerInput.odId player
               /\ MmrDoc.gamesPlayed doc = 1%Z
               /\ MmrDoc.wins doc = (if won then 1 else 0)%Z
               /\ MmrDoc.losses doc = (if won then 0 else 1)%Z
               /\ MmrDoc.placementGamesPlayed doc = 1%Z
               /\ MmrDoc.isPlaced doc = false
               /\ MmrDoc.history doc = [entry]
               /\ MmrDoc.peakMmr doc = MmrDoc.mmr doc
           end)
  /\ (forall id, id ∉ ids -> mmr db' !! id = mmr db !! id).
Proof.
  intros ids H Hnd _. split.
  - intros team player Hin won.
    destruct (submitted_player _ _ _ _ _ _ _ _ _ _ H Hnd Hin)
      as (playerMmrMap & changes & c & w & Hw & Hc & _ & _ & _ & _ & _ & Hdoc).
    destruct (onTeam_teamOf _ _ _ _ Hnd Hin) as [Hb Hr].
    unfold ratingWrite in Hw. rewrite Hc, Hb, Hr in Hw. simpl in Hw.
    assert (Hwon : Team_eqb team blue && Team_eqb winner blue
                   || Team_eqb team red && Team_eqb winner red = won)
      by (subst won; destruct team, winner; reflexivity).
    rewrite Hwon in Hw. injection Hw as <-.
    destruct (mmr db !! PlayerInput.odId player) as [old|] eqn:Hold;
      simpl in Hdoc.
    + eexists _, _. split; [exact Hdoc|]. simpl.
      split; [reflexivity|]. split; [apply historyUnion_holds|].
      split; [reflexivity|]. split; [reflexivity|].
      split; [reflexivity|]. split; [reflexivity|].
      split; [destruct won; lia|]. split; [destruct won; lia|].
      split; [reflexivity|].
      unfold Mmr.PLACEMENT_GAMES.
      destruct (MmrDoc.placementGamesPlayed old + 1 >=? 5)%Z eqn:E;
        symmetry; [apply Z.leb_le; apply Z.geb_le in E; lia|].
      apply Z.leb_gt. rewrite Z.geb_leb in E. apply Z.leb_gt in E. lia.
    + eexists _, _. split; [exact Hdoc|]. simpl.
      split; [reflexivity|].
      split; [apply list_elem_of_singleton; reflexivity|].
      repeat split; reflexivity.
  - intros id Hid.
    destruct (submitMatchResult_inr _ _ _ _ _ _ _ H)
      as (caller' & winner' & blueTeam' & redTeam' & playerMmrMap & changes
          & matchDoc & batch & _ & [= <-] & [= <-] & [= <-] & _ & _ & _ & _ & _
          & _ & _ & _ & _ & _ & _ & _ & _ & _ & Hbatch & Hcommit).
    pose proof (batch_ids _ _ _ _ _ _ _ _ _ Hbatch) as Hids.
    subst ids. rewrite <- Hids in Hnd, Hid.
    exact (proj2 (commit_lookup _ _ _ Hnd Hcommit) id Hid).
Qed.

(** X21. After a successful [submitMatchResult] with ten different
    players, none with the id [__proto__], the reply and the store
    agree: the reply holds one entry for each player and no other,
    with the rating the player's document now has and the rank of
    that rating; the rating is within [MIN_MMR] and
    [MAX_MMR] unless it is NaN; the match document is stored under the
    id the reply names, with the submitted winner, the caller as its
    creator and [mmrProcessed] set; [users] is not written. *)
Theorem submitMatchResult_reply_matches_store env caller winner blueTeam redTeam
    db result db' :
  let ids := map PlayerInput.odId (blueTeam ++ redTeam) in
  submitMatchResult Math_pow env (Some caller)
    {| Match.winner := Some winner;
       Match.blueTeam := Some blueTeam;
       Match.redTeam := Some redTeam |} db = (inr result, db') ->
  NoDup ids -> "__proto__"%string ∉ ids ->
  (forall player,
      player ∈ blueTeam ++ redTeam ->
      exists doc change,
        mmr db' !! PlayerInput.odId player = Some doc
        /\ change ∈ mmrChanges result
        /\ r_odId change = PlayerInput.odId player
        /\ r_newMmr change = MmrDoc.mmr doc
        /\ r_rank change = MmrRank.getRankFromMMR (MmrDoc.mmr doc)
        /\ (isNaN (MmrDoc.mmr doc) = true
            \/ (Mmr.MIN_MMR <=? MmrDoc.mmr doc) = true
               /\ (MmrDoc.mmr doc <=? Mmr.MAX_MMR) = true))
  /\ map r_odId (mmrChanges result) ≡ₚ ids
  /\ (exists matchDoc,
        matches db' = <[matchId result := matchDoc]> (matches db)
        /\ MatchDoc.id matchDoc = matchId result
        /\ MatchDoc.winner matchDoc = winner
        /\ MatchDoc.createdBy matchDoc = caller
        /\ MatchDoc.mmrProcessed matchDoc = true)
  /\ matchId result = newMatchId env
  /\ users db' = users db.
Proof.
  intros ids H Hnd _.
  destruct (submitMatchResult_inr _ _ _ _ _ _ _ H)
    as (caller' & winner' & blueTeam' & redTeam' & playerMmrMap & changes
        & matchDoc & batch & [= <-] & [= <-] & [= <-] & [= <-] & _ & _ & _ & _
        & _ & Hkeys & Hid & Hres & Husers & Hmatches & Hmid & Hby & Hwin & Hproc
        & _).
  split; [|split; [|split; [|split; [exact Hid|exact Husers]]]].
  - intros player Hin.
    assert (Hteam : exists team, player ∈ teamOf team blueTeam redTeam).
    { apply elem_of_app in Hin as [Hin|Hin]; [exists blue|exists red]; exact Hin. }
    destruct Hteam as [team Hteam].
    destruct (submitted_player _ _ _ _ _ _ _ _ _ _ H Hnd Hteam)
      as (playerMmrMap' & changes' & c & w & Hw & Hc & _ & _ & Hcl
          & (change & Hchange & Hcid & _ & Hnew & Hrank) & _ & Hdoc).
    assert (Hmmr : exists doc,
               written (mmr db !! PlayerInput.odId player) w = Some doc
               /\ MmrDoc.mmr doc = newMmr c).
    { unfold ratingWrite in Hw. rewrite Hc in Hw. simpl in Hw.
      injection Hw as <-.
      destruct (mmr db !! PlayerInput.odId player); simpl; eauto. }
    destruct Hmmr as (doc & Hwritten & Hrating).
    exists doc, change. rewrite Hrating.
    split; [rewrite Hdoc; exact Hwritten|].
    split; [exact Hchange|]. split; [exact Hcid|]. split; [exact Hnew|].
    split; [exact Hrank|exact Hcl].
  - subst ids. rewrite Hres, map_map, <- (Hkeys Hnd). reflexivity.
  - exists matchDoc. rewrite Hid.
    split; [exact Hmatches|]. split; [exact Hmid|]. split; [exact Hwin|].
    split; [exact Hby|exact Hproc].
Qed.

(** X25. The history entry a successful [submitMatchResult] with ten
    different players, none with the id [__proto__], adds for a player
    is consistent, the Riot tiers of the players without a rating
    document being written in ASCII: it carries the
    id and the time of the match; its [mmrBefore] is the rating the
    player had (the stored one, 800 if that is 0 or NaN, the seed of
    the Riot ranks for a player without a rating document); its
    [change] is the one the reply reports; its [mmrAfter] is
    [applyMMRChange] of the two and is the rating now stored.  The
    stored peak is [Math.max] of the old peak (of the rating before,
    if the old peak is 0 or NaN) and the new rating; for a new
    document it is the new rating. *)
Theorem submitMatchResult_history_entry env caller winner blueTeam redTeam
    db result db' :
  let ids := map PlayerInput.odId (blueTeam ++ redTeam) in
  submitMatchResult Math_pow env (Some caller)
    {| Match.winner := Some winner;
       Match.blueTeam := Some blueTeam;
       Match.redTeam := Some redTeam |} db = (inr result, db') ->
  NoDup ids -> "__proto__"%string ∉ ids ->
  (forall p,
      p ∈ blueTeam ++ redTeam ->
      mmr db !! PlayerInput.odId p = None ->
      Forall (fun tier => Text.isASCII tier = true)
             (ranksOf (users db !! PlayerInput.odId p))) ->
  forall player,
    player ∈ blueTeam ++ redTeam ->
    exists doc entry change,
      mmr db' !! PlayerInput.odId player = Some doc
      /\ entry ∈ MmrDoc.history doc
      /\ change ∈ mmrChanges result
      /\ r_odId change = PlayerInput.odId player
      /\ HistoryEntry.matchId entry = matchId result
      /\ HistoryEntry.timestamp entry = now env
      /\ HistoryEntry.mmrBefore entry
         = match mmr db !! PlayerInput.odId player with
           | Some old => orElse (MmrDoc.mmr old) 800
           | None =>
               MmrRank.getInitialMMR (ranksOf (users db !! PlayerInput.odId player))
           end
      /\ HistoryEntry.change entry = r_change change
      /\ HistoryEntry.mmrAfter entry
         = Mmr.applyMMRChange (HistoryEntry.mmrBefore entry)
                              (HistoryEntry.change entry)
      /\ MmrDoc.mmr doc = HistoryEntry.mmrAfter entry
      /\ MmrDoc.peakMmr doc
         = match mmr db !! PlayerInput.odId player with
           | Some old =>
               Math_max (orElse (MmrDoc.peakMmr old) (HistoryEntry.mmrBefore entry))
                        (MmrDoc.mmr doc)
           | None => MmrDoc.mmr doc
           end.
Proof.
  intros ids H Hnd _ _ player Hin.
  assert (Hteam : exists team, player ∈ teamOf team blueTeam redTeam).
  { apply elem_of_app in Hin as [Hin|Hin]; [exists blue|exists red]; exact Hin. }
  destruct Hteam as [team Hteam].
  destruct (submitted_player _ _ _ _ _ _ _ _ _ _ H Hnd Hteam)
    as (playerMmrMap & changes & c & w & Hw & Hc & Hbefore & Happ & _
        & (change & Hchange & Hcid & Hch & _ & _) & _ & Hdoc).
  destruct (submitMatchResult_inr _ _ _ _ _ _ _ H)
    as (caller' & winner' & blueTeam' & redTeam' & playerMmrMap' & changes'
        & matchDoc & batch & _ & _ & _ & _ & _ & _ & _ & _ & _ & _ & Hid & _).
  unfold ratingWrite in Hw. rewrite Hc, Hbefore in Hw. simpl in Hw.
  injection Hw as <-. rewrite Hid. unfold ratingBefore in *.
  destruct (mmr db !! PlayerInput.odId player) as [old|] eqn:Hold;
    simpl in Hdoc.
  - eexists _, _, change. split; [exact Hdoc|]. simpl.
    split; [apply historyUnion_holds|]. simpl.
    split; [exact Hchange|]. split; [exact Hcid|].
    split; [reflexivity|]. split; [reflexivity|]. split; [reflexivity|].
    split; [symmetry; exact Hch|]. split; [exact Happ|].
    split; reflexivity.
  - eexists _, _, change. split; [exact Hdoc|]. simpl.
    split; [apply list_elem_of_singleton; reflexivity|]. simpl.
    split; [exact Hchange|]. split; [exact Hcid|].
    split; [reflexivity|]. split; [reflexivity|]. split; [reflexivity|].
    split; [symmetry; exact Hch|]. split; [exact Happ|].
    split; reflexivity.
Qed.

End WithPow.

(** The submission of the scenario: ten different players. *)
Lemma submission_players :
  NoDup (map PlayerInput.odId
           (map Examples.playerInput ["u01"; "u02"; "u03"; "u04"; "u05"]%string
            ++ map Examples.playerInput ["u06"; "u07"; "u08"; "u09"; "u10"]%string))
  /\ "__proto__"%string
     ∉ map PlayerInput.odId
         (map Examples.playerInput ["u01"; "u02"; "u03"; "u04"; "u05"]%string
          ++ map Examples.playerInput ["u06"; "u07"; "u08"; "u09"; "u10"]%string).
Proof.
  split; apply (bool_decide_unpack _); vm_compute; exact I.
Qed.

(** The submission of the scenario, accepted by the store: the first
    blue player, on the winning team, has 21 games and 11 wins. *)
Lemma submitMatchResult_counts_the_game_witness :
  exists doc,
    mmr (snd (submitMatchResult Examples.pow0 Examples.allAccepted
                (Some "u01"%string) Examples.submission Examples.ratingDb))
      !! "u01"%string = Some doc
    /\ MmrDoc.gamesPlayed doc = 21
    /\ MmrDoc.wins doc = 11
    /\ MmrDoc.losses doc = 10.
Proof.
  destruct (submitMatchResult Examples.pow0 Examples.allAccepted
              (Some "u01"%string) Examples.submission Examples.ratingDb)
    as [[e|result] db'] eqn:E; [vm_compute in E; discriminate|].
  destruct submission_players as [Hnd Hproto].
  destruct (proj1 (submitMatchResult_counts_the_game Examples.pow0
                     Examples.allAccepted "u01"%string blue _ _
                     Examples.ratingDb result db' E Hnd Hproto)
                  blue (Examples.playerInput "u01")
                  ltac:(simpl; apply elem_of_cons; left; reflexivity))
    as (doc & entry & Hdoc & _ & _ & _ & _ & Hold).
  assert (Hl : mmr Examples.ratingDb !! PlayerInput.odId (Examples.playerInput "u01")
               = Some (Examples.ratingDoc "u01")) by (vm_compute; reflexivity).
  rewrite Hl in Hold. cbv zeta in Hold.
  destruct Hold as (_ & Hg & Hw & Hlo & _).
  exists doc. split; [exact Hdoc|]. split; [exact Hg|]. split; [exact Hw|exact Hlo].
Defined.

(** The same submission: the reply names the rating now stored. *)
Lemma submitMatchResult_reply_matches_store_witness :
  exists result db' doc change,
    submitMatchResult Examples.pow0 Examples.allAccepted
      (Some "u01"%string) Examples.submission Examples.ratingDb = (inr result, db')
    /\ mmr db' !! "u06"%string = Some doc
    /\ change ∈ mmrChanges result
    /\ r_odId change = "u06"%string
    /\ r_newMmr change = MmrDoc.mmr doc.
Proof.
  destruct (submitMatchResult Examples.pow0 Examples.allAccepted
              (Some "u01"%string) Examples.submission Examples.ratingDb)
    as [[e|result] db'] eqn:E; [vm_compute in E; discriminate|].
  destruct submission_players as [Hnd Hproto].
  destruct (proj1 (submitMatchResult_reply_matches_store Examples.pow0
                     Examples.allAccepted "u01"%string blue _ _
                     Examples.ratingDb result db' E Hnd Hproto)
                  (Examples.playerInput "u06")
                  ltac:(apply list_elem_of_In; simpl; tauto))
    as (doc & change & Hdoc & Hin & Hid & Hnew & _).
  exists result, db', doc, change.
  split; [reflexivity|]. split; [exact Hdoc|]. split; [exact Hin|].
  split; [exact Hid|exact Hnew].
Defined.

(** The same submission: the history entry of the first red player
    starts from the stored rating, 1000. *)
Lemma submitMatchResult_history_entry_witness :
  exists result db' doc entry,
    submitMatchResult Examples.pow0 Examples.allAccepted
      (Some "u01"%string) Examples.submission Examples.ratingDb = (inr result, db')
    /\ mmr db' !! "u06"%string = Some doc
    /\ entry ∈ MmrDoc.history doc
    /\ HistoryEntry.matchId entry = "match0001"%string
    /\ HistoryEntry.mmrBefore entry = 1000%float
    /\ MmrDoc.mmr doc = HistoryEntry.mmrAfter entry.
Proof.
  destruct (submitMatchResult Examples.pow0 Examples.allAccepted
              (Some "u01"%string) Examples.submission Examples.ratingDb)
    as [[e|result] db'] eqn:E; [vm_compute in E; discriminate|].
  destruct submission_players as [Hnd Hproto].
  assert (Hascii :
            forall p,
              p ∈ map Examples.playerInput ["u01"; "u02"; "u03"; "u04"; "u05"]%string
                  ++ map Examples.playerInput
                       ["u06"; "u07"; "u08"; "u09"; "u10"]%string ->
              mmr Examples.ratingDb !! PlayerInput.odId p = None ->
              Forall (fun tier => Text.isASCII tier = true)
                     (ranksOf (users Examples.ratingDb !! PlayerInput.odId p))).
  { intros p Hp Hnone. exfalso. apply list_elem_of_In in Hp. simpl in Hp.
    repeat (destruct Hp as [<-|Hp]; [vm_compute in Hnone; discriminate|]).
    exact Hp. }
  destruct (submitMatchResult_history_entry Examples.pow0
              Examples.allAccepted "u01"%string blue _ _
              Examples.ratingDb result db' E Hnd Hproto Hascii
              (Examples.playerInput "u06")
              ltac:(apply list_elem_of_In; simpl; tauto))
    as (doc & entry & change & Hdoc & Hin & _ & _ & Hid & _ & Hbefore & _ & _
        & Hmmr & _).
  assert (Hl : mmr Examples.ratingDb !! PlayerInput.odId (Examples.playerInput "u06")
               = Some (Examples.ratingDoc "u06")) by (vm_compute; reflexivity).
  rewrite Hl in Hbefore.
  assert (Hm : matchId result = "match0001"%string)
    by (pose proof E as E'; vm_compute in E'; injection E' as <- _; reflexivity).
  exists result, db', doc, entry.
  split; [reflexivity|]. split; [exact Hdoc|]. split; [exact Hin|].
  split; [rewrite Hid; exact Hm|]. split; [exact Hbefore|exact Hmmr].
Defined.

End SubmitProofs.

(** ** Failed submissions *)

Module FailureProofs.

Import Types Match.

Section WithPow.

Variable Math_pow : float -> float -> float.


End WithPow.


End FailureProofs.

(** ** Seeding a rating *)

Module SeedingProofs.

Import Types JS Match MmrRank Seeding SeedProofs.

#[local] Open Scope float_scope.

(** A seed is one of the eleven values of [RANK_TO_MMR]. *)
Lemma getInitialMMR_values (riotRanks : list string) :
  exists i, (-1 <= i < 10)%Z
            /\ getInitialMMR riotRanks
               = if (i =? -1)%Z then 800 else of_Z (400 + 200 * i).
Proof.
  set (index := fun tier => indexOf rankOrder (toUpperCase tier)).
  destruct (highest_spec index riotRanks (-1)%Z) as (H1 & _ & H3).
  cbv zeta in *. set (r := fold_left _ riotRanks (-1)%Z) in *.
  exists r. split.
  - split; [exact H1|]. destruct H3 as [->|H3]; [lia|].
    apply Exists_exists in H3. destruct H3 as (t & _ & <-).
    pose proof (indexOf_bounds rankOrder (toUpperCase t)) as Hb.
    simpl length in Hb. unfold index. lia.
  - assert (Hr : (-1 <= r < 10)%Z).
    { split; [exact H1|]. destruct H3 as [->|H3]; [lia|].
      apply Exists_exists in H3. destruct H3 as (t & _ & <-).
      pose proof (indexOf_bounds rankOrder (toUpperCase t)) as Hb.
      simpl length in Hb. unfold index. lia. }
    assert (Hfold : getInitialMMR riotRanks
                    = if (r =? -1)%Z then UNRANKED
                      else match rankOrder !! Z.to_nat r with
                           | Some highestRank => rankToMmr highestRank
                           | None => UNRANKED
                           end).
    { destruct riotRanks; reflexivity. }
    rewrite Hfold.
    assert (Hcases : (r = -1 \/ r = 0 \/ r = 1 \/ r = 2 \/ r = 3 \/ r = 4
                      \/ r = 5 \/ r = 6 \/ r = 7 \/ r = 8 \/ r = 9)%Z) by lia.
    clearbody r.
    repeat (destruct Hcases as [->|Hcases]; [reflexivity|]).
    rewrite Hcases. reflexivity.
Qed.

Lemma getInitialMMR_range (riotRanks : list string) :
  In (getInitialMMR riotRanks) (map snd RANK_TO_MMR)
  /\ (Mmr.MIN_MMR <=? getInitialMMR riotRanks) = true
  /\ (getInitialMMR riotRanks <=? Mmr.MAX_MMR) = true.
Proof.
  destruct (getInitialMMR_values riotRanks) as (i & Hi & ->).
  assert (Hcases : (i = -1 \/ i = 0 \/ i = 1 \/ i = 2 \/ i = 3 \/ i = 4
                    \/ i = 5 \/ i = 6 \/ i = 7 \/ i = 8 \/ i = 9)%Z) by lia.
  repeat (destruct Hcases as [->|Hcases];
          [split; [vm_compute; tauto|split; vm_compute; reflexivity]|]).
  rewrite Hcases. split; [vm_compute; tauto|split; vm_compute; reflexivity].
Qed.

(** X23.  [initializePlayerMMR] seeds a rating once.  A player who has
    a rating document gets it back and nothing is written.  Otherwise
    a success, which takes a profile and a store that accepts the
    write, stores one new document under the caller's id; when the
    tiers of the caller's Riot accounts are written in ASCII, its
    rating is the one [getInitialMMR] gives for them: one of the values
    of [RANK_TO_MMR], within [MIN_MMR] and [MAX_MMR]; the peak is that
    rating, all counters are 0, the player is not placed, the history
    is empty, and the reply names the display rank of that rating.  A
    second call returns that document as already existing and writes
    nothing.  No error writes anything. *)
Theorem initializePlayerMMR_seeds_once env userId db :
  (forall doc,
      mmr db !! userId = Some doc ->
      initializePlayerMMR env (Some userId) db = (inr (alreadyExists doc), db))
  /\ (forall userData result db',
        mmr db !! userId = None ->
        users db !! userId = Some userData ->
        Forall (fun tier => Text.isASCII tier = true) (ranksOf (Some userData)) ->
        initializePlayerMMR env (Some userId) db = (inr result, db') ->
        exists doc,
          result = seeded doc (getRankFromMMR (MmrDoc.mmr doc))
          /\ mmr db' = <[userId := doc]> (mmr db)
          /\ matches db' = matches db /\ users db' = users db
          /\ MmrDoc.odId doc = userId
          /\ MmrDoc.mmr doc = getInitialMMR (ranksOf (Some userData))
          /\ In (MmrDoc.mmr doc) (map snd RANK_TO_MMR)
          /\ (Mmr.MIN_MMR <=? MmrDoc.mmr doc) = true
          /\ (MmrDoc.mmr doc <=? Mmr.MAX_MMR) = true
          /\ MmrDoc.peakMmr doc = MmrDoc.mmr doc
          /\ MmrDoc.gamesPlayed doc = 0%Z
          /\ MmrDoc.placementGamesPlayed doc = 0%Z
          /\ MmrDoc.wins doc = 0%Z /\ MmrDoc.losses doc = 0%Z
          /\ MmrDoc.isPlaced doc = false
          /\ MmrDoc.history doc = []
          /\ forall env',
               initializePlayerMMR env' (Some userId) db'
               = (inr (alreadyExists doc), db'))
  /\ (forall result db',
        mmr db !! userId = None ->
        initializePlayerMMR env (Some userId) db = (inr result, db') ->
        is_Some (users db !! userId) /\ mmrSetAccepted env = true)
  /\ (forall uid e db',
        initializePlayerMMR env uid db = (inl e, db') -> db' = db).
Proof.
  split; [|split; [|split]].
  - intros doc H. unfold initializePlayerMMR. rewrite H. reflexivity.
  - intros userData result db' Hnone Huser _ H. unfold initializePlayerMMR in H.
    rewrite Hnone, Huser in H.
    destruct (negb (mmrSetAccepted env)); [discriminate|].
    inversion H; subst result db'; clear H.
    destruct (getInitialMMR_range (ranksOf (Some userData))) as (Hin & Hlo & Hhi).
    exists
      {| MmrDoc.odId := userId;
         MmrDoc.mmr := getInitialMMR (ranksOf (Some userData));
         MmrDoc.gamesPlayed := 0;
         MmrDoc.placementGamesPlayed := 0;
         MmrDoc.isPlaced := false;
         MmrDoc.wins := 0;
         MmrDoc.losses := 0;
         MmrDoc.peakMmr := getInitialMMR (ranksOf (Some userData));
         MmrDoc.lastUpdated := now env;
         MmrDoc.history := [] |}.
    split; [reflexivity|]. split; [reflexivity|]. simpl.
    do 4 (split; [reflexivity|]).
    split; [exact Hin|]. split; [exact Hlo|]. split; [exact Hhi|].
    do 7 (split; [reflexivity|]).
    intros env'. unfold initializePlayerMMR. simpl.
    rewrite lookup_insert_eq. reflexivity.
  - intros result db' Hnone H. unfold initializePlayerMMR in H.
    rewrite Hnone in H.
    destruct (users db !! userId) as [userData|]; [|discriminate].
    destruct (mmrSetAccepted env); [|discriminate]. split; [eauto|reflexivity].
  - intros uid e db' H. unfold initializePlayerMMR in H.
    destruct uid as [uid|]; [|inversion H; reflexivity].
    destruct (mmr db !! uid); [discriminate|].
    destruct (users db !! uid); [|inversion H; reflexivity].
    destruct (negb (mmrSetAccepted env)); [|discriminate].
    inversion H; reflexivity.
Qed.

(** A player with a gold and a diamond account is seeded at 1600. *)
Lemma initializePlayerMMR_seeds_once_witness :
  let userData := {| UserDoc.riotAccounts := [Some "gold"; None; Some "Diamond"]%string |} in
  let db := {| mmr := ∅; matches := ∅; users := {[ "u01"%string := userData ]} |} in
  let env := {| now := 7000; mmrSetAccepted := true |} in
  Forall (fun tier => Text.isASCII tier = true) (ranksOf (Some userData))
  /\ exists doc db',
       initializePlayerMMR env (Some "u01"%string) db
       = (inr (seeded doc (getRankFromMMR (MmrDoc.mmr doc))), db')
       /\ MmrDoc.mmr doc = 1600
       /\ getRankFromMMR (MmrDoc.mmr doc) = "DIAMOND"%string.
Proof.
  intros userData db env.
  assert (Hascii : Forall (fun tier => Text.isASCII tier = true)
                          (ranksOf (Some userData)))
    by (repeat constructor).
  split; [exact Hascii|].
  destruct (initializePlayerMMR env (Some "u01"%string) db)
    as [[e|result] db'] eqn:E; [vm_compute in E; discriminate|].
  destruct (proj1 (proj2 (initializePlayerMMR_seeds_once env "u01"%string db))
              userData result db' eq_refl (lookup_singleton_eq _ _) Hascii E)
    as (doc & -> & _ & _ & _ & _ & Hm & _).
  exists doc, db'. split; [reflexivity|].
  assert (H1600 : getInitialMMR (ranksOf (Some userData)) = 1600)
    by (vm_compute; reflexivity).
  rewrite Hm, H1600. split; [reflexivity|]. vm_compute. reflexivity.
Defined.

End SeedingProofs.

